(* ===== verification/_CoqProject ===== *)
-Q . S2P
Prelude.v
Types.v
Calendar.v
Ledger.v
Store.v
Lifecycle.v
LifecycleTheory.v
LifecycleProps.v
Indicators.v
Formatting.v
PriceAction.v
Generator.v
Board.v
JsRuntime.v
Persistence.v
Report.v
Proxy.v
Sentiment.v
UI.v
HistoryView.v
CryptoInfoService.v
AppShell.v
Timers.v
CardDisplay.v
CardShare.v
Widgets.v
Finality.v
TickOverlap.v
