(* ===== verification/Prelude.v ===== *)
(** * Sniper-a.i.: a verification development of the signal engine

    The repository is a dashboard of crypto-futures trading signals. Its
    engine has two halves that meet in [src/src/App.tsx]:

    - the generator ([src/services/mockSignalService.ts]): for the most
      volatile tradable USDT perpetuals it fetches 100 hourly candles,
      computes EMA, ATR, MACD and RSI, finds pivot levels and fair value
      gaps, and turns a confirmed trend into a signal (entry zone, stop,
      five targets, leverage, probability), rounded by
      [formatPriceValue]; [getTradingSignals] fills the board with such
      signals through a parameter cache and the daily alert ledger of
      [src/services/dailyAlertsService.ts];
    - the lifecycle ([fetchSignals] in [App.tsx], run every 5 s): it
      prices the board from a ticker snapshot, marks the targets hit,
      resolves signals (WIN on the fifth target, LOSS on the stop, a
      PARTIAL_WIN record for intermediate targets), evicts signals older
      than two hours, archives results in the history, and tops the
      board up to eight signals with [getTradingSignals].

    ** Files, in dependency order

    - [Prelude] (this file): JavaScript numbers as exact rationals [Q]
      with the comparisons of the code as booleans ([js_scope]),
      [Math.max]/[Math.min]/[Math.abs]/[Math.round], [findIndex] and
      [lastIndexOf], the shared lemmas and the [sniper] hint database.
    - [Types]: the records and enumerations of [src/types.ts] and the
      exchange wire types.
    - [Calendar]: UTC calendar days of instants ([toISOString] and
      [getUTC*]) and the decimal rendering of integers.
    - [Ledger], Module [DailyLedger]: [getTodayUTCString],
      [getAlertedSymbolsToday], [addAlertedSymbol] over an explicit
      [localStorage] entry (missing, corrupt or stored).
    - [Store]: the process-wide caches of the service (parameter cache,
      tradable-symbol cache and its time) as one record, with
      [removeSignalFromCache] and [getTradableFuturesSymbols].
    - [Lifecycle], Module [Tick]: [fetchSignals] as a function of the
      engine state ([signals], [historicalSignals], the [Store]), the
      ticker snapshot (or its failure) and the clock; the per-signal
      loop body is [processSignal]. [getTradingSignals] is reached
      through the class [SignalProvider], so the lifecycle theorems hold
      for any provider that satisfies the laws of [LifecycleProps].
    - [LifecycleTheory] and [LifecycleProps]: the key lemmas, the target
      scan, the per-signal step and the loop; then the theorems of the
      tick against [SignalProviderLaws].
    - [Indicators]: [calculateEMA], [calculateATR], [calculateMACD],
      [calculateRSI].
    - [Formatting]: [formatPriceValue], with [toFixed] modelled both as a
      number and as the digits it prints.
    - [PriceAction]: [findFairValueGaps] and [findSupportResistance].
    - [Generator]: [generateSignalParameters] as [analyze] (everything
      before the [return]) and [finalize] (the returned object).
    - [Board], Module [Board]: [getAllFuturesTickers] and
      [getTradingSignals] (filter by the tradable set and the exclusions,
      sort by absolute change, the loop [collect] with its cache lookup
      [lookupOrGenerate] and its ledger writes). The exchange responses,
      the candles and the [Math.random()] value of each symbol are the
      input [MarketData]; [ValidMarket] adds that the ticker snapshot
      lists each symbol once. [boardProvider] is the [SignalProvider]
      instance and [boardProviderLaws] proves its laws, so the lifecycle
      theorems hold for the real provider.
    - [JsRuntime], Module [JsRuntime]: the built-ins the persistence
      relies on: [Date.prototype.toISOString] and [new Date(string)] on
      its texts ([parseISO], the extended six-digit years included), JSON
      trees and JavaScript values (a [Date] holds an instant or is an
      Invalid Date), [JSON.stringify] (undefined properties dropped,
      dates through [toJSON]) and [JSON.parse] with a reviver
      ([InternalizeJSONProperty], bottom-up, the root under the key "").
    - [Persistence], Module [Persistence]: [getActiveSignals],
      [saveActiveSignals], [getHistory], [saveHistory] of
      [src/services/], the [localStorage] item being absent, a non-JSON
      text or a JSON tree; the objects of [src/types.ts] are given by
      codecs that list their properties.
    - [Report], Module [Report]: the [historyReport] of [App.tsx] (period
      bounds from the clock, the period filter, the summary with the
      best-trade scan, the records grouped by UTC day in a [gmap] and
      sorted newest first).
    - [Proxy], Module [Proxy]: the proxy of [src/api/] and
      [src/functions/src/] (the 15 s response cache, the per-address
      rate limiter, the three routes of both deployments); its state is
      the two maps of the helpers, the clock reads and the upstream
      answers are inputs, the JSON payload is abstract. The Express
      deployment is translated from its own files: the helper copy
      ([expressGetFromCache], [expressSetInCache], the limiter as a
      middleware [checkRateLimitMiddleware]: [next()] or the 429) and
      its three routes ([expressTicker], [expressKlines],
      [expressExchangeInfo] over the body they repeat,
      [expressCachedRoute]).
    - [Sentiment], Module [Sentiment]: [getMarketSentiment] of
      [src/services/sentimentService.ts]: the 30 largest eligible
      tickers by quote volume and the votes of their settled candle
      requests (the outcomes of [Promise.allSettled] are an input).
    - [UI], Modules [Meter], [Validation], [Card]: the levels of
      [VolatilityMeter.tsx] and the percentage of [PieChart.tsx];
      [validateSignalAnalysis] of [geminiValidationService.ts] over the
      outcome of the model call; the panels of [SignalCard.tsx] as a
      state machine whose events are the clicks, the answers of the
      requests its handlers start (the code after each [await]) and the
      50 s timer, so that interleavings are sequences of events.
    - [HistoryView], Modules [DateInput], [Records], [View]: the history
      screen of [src/components/HistoryView.tsx] with the filter state of
      [App.tsx]. [DateInput] reads the calendar field
      ([handleDateInputChange]: [split('-')], [Number], [Date.UTC] with
      its two-digit years and [TimeClip]) and writes it
      ([formatDateForInput]); [Records] the status label and the target
      badge of [MemoizedSignalCard] and [MemoizedSignalRow]; [View] the
      screen as a step function over the App's [historyFilter] and
      [customHistoryDate], the view's [tempDate] and [visibleDaysCount]
      and the days of the last render, whose events are the clicks on
      the filter buttons, "Aplicar" and "Carregar mais", the typing in
      the field and the renders (with the two effects of the view).
    - [CryptoInfoService], Module [CoinGecko]: [getCoingeckoIdMap],
      [getCryptoInfoWithCoinGecko] and [getCryptoInfo] of
      [src/services/geminiService.ts] over the [sessionStorage] (a
      [gmap] of the items of [Persistence]), the answers of CoinGecko
      and the success of [setItem]; the JavaScript [Map] with its
      [SameValueZero] keys and its constructor on [JSON.parse]d entries;
      [Intl.NumberFormat] is a Section variable.
    - [AppShell], Modules [EngineDates], [AppShell]: the component [App]
      of [App.tsx] around the engine. [EngineDates] shows that a tick
      whose clock is a valid [Date] keeps every date of the engine
      valid. [AppShell] has the state cells of [App] and the two
      [localStorage] items its effects write, the first render from the
      storage, the tick with the cells it sets ([loading], [error],
      [lastUpdated], the BTC and USDT/BRL strips), the sentiment
      answer, the view switches of [Header] and [BottomNav] (which
      mount [HistoryView] anew), the events of the history screen and
      [renderSignalCards]; [app_reachable] is a browser session: a first
      visit, reloads from the storage, and events.
    - [Timers], Modules [HeaderInfo], [Toast]: the two self-hiding
      pop-ups, as timed state machines whose events carry their instant
      and whose pending timeouts are a list of (id, deadline); the due
      timeouts run before a later event. [HeaderInfo] is the info
      popover of [src/components/Header.tsx] (button click, [mousedown]
      outside, the 10 s effect and its cleanup); [Toast] is [showToast]
      and the listeners of [src/components/CopyBlocker.tsx], whose ref
      is tested for truthiness, with timeout ids from 1 as browsers
      hand them out.
    - [CardDisplay], Modules [CardFormat], [Metrics], [Panels]: the texts
      of [SignalCard.tsx]: [formatTargetPrice], [formatPrice] and
      [formatMarketData] over [toFixed] as text of either sign
      ([toFixed_str]), with [readDecimal] the number a reader (or
      [parseFloat]) takes from such a text; the risk metrics panel
      ([lossPercent], [profitPercents], the ratios and the row texts);
      the info and validation panels over the state of [UI.Card].
    - [CardShare], Module [Share]: [handleShare] (the text, the Web Share
      API or the clipboard, the ['copied'] status and its 2.5 s timeout,
      the [alert]) as a timed state machine like those of [Timers].
    - [Widgets], Modules [MeterView], [PieView], [NavView], [HeaderView],
      [StatCards], [TableView]: what the small components compute for
      display: the meter's bars and tooltip, the pie's label, the two
      buttons of [BottomNav.tsx], the sentiment indicator and ticker
      strips of [Header.tsx], the summary cards of [HistoryView.tsx],
      and the rows and cards of [HistoryTable.tsx], which no module
      imports.
    - [Finality], Module [Finality]: the runs of ticks that publish
      their board ([published_after]) and the lemmas on a resolved
      signal: the tick that resolves it, and a loop that meets it again.
      The class [ProviderCacheIds] adds what finality needs from
      [getTradingSignals] beyond [SignalProviderLaws] (new cache entries
      are filed under exchange symbols); [Board] satisfies it.
    - [TickOverlap], Module [Overlap]: the interval's calls of
      [fetchSignals] as overlapping asynchronous runs. A call snapshots
      the two cells of its render ([Fire]), publishes the history after
      its ticker request ([processPhase]) and the board after
      [getTradingSignals] ([finishPhase]); the caches are shared.
      [overlap_step] runs one event of an interleaving.

    ** What is proved

    - Lifecycle: hit flags are sticky; a fifth-target hit wins over the
      stop in the same tick; signals older than two hours leave the
      board; the board holds at most eight signals with distinct ids,
      newest first; the history holds one record per signal instance and
      every record carries the result its status prescribes; a lost
      connection only evicts; when [getTradingSignals] throws the board
      is not republished, so an expired signal stays on it (a
      divergence from the specification); these invariants and
      the parameter cache's hold together after any run of ticks
      ([ticks_preserve_inv]); an expired signal leaves the board at the
      first published tick and its parameters never come back along the
      run (the provider's laws include that it only adds cache entries
      created at the current instant); every signal keeps the tuple
      types of [src/types.ts] (five targets, five hit flags when
      present) along any run ([ticks_preserve_typed]).
    - Finality: the WIN or LOSS a tick writes for a signal it resolves
      stays unchanged along every later run of ticks that publish their
      board ([resolved_record_final]); the history key
      [signal.id + signal.timestamp] identifies the signal instance for
      exchange symbols ([signal_key_inj]). A tick whose
      [getTradingSignals] throws leaves the resolved signal on the
      board, and the next tick can turn its WIN into a PARTIAL_WIN (a
      defect, [demo_rejected_downgrade]).
    - Overlapping ticks: the phased handler run without overlap is the
      atomic one ([serial_ticks_atomic]); under any interleaving the
      board stays well formed and within eight slots and the history
      keeps one record per key ([interleaved_ticks_wf]); but a call
      fired before an earlier one published its board overwrites the
      WIN that call recorded with a PARTIAL_WIN whenever its price
      reaches a first target without resolving, and keeps the signal
      for its own board ([stale_call_downgrades_win], a defect: the
      interval does not wait for the previous call).
    - Generator: the trend gate; the entry on the favourable side; the
      freshness gate on the raw first target, so the stored, rounded
      first target lies beyond the price only up to the rounding error
      max(price, 1)/20000 ([generate_first_target_margin]), a bound a
      concrete signal reaches (a divergence);
      the stored levels in order; leverage in [5, 25]; probability in
      the range of its label; no signal without data.
    - Helpers: EMA within the range of the closes, the two EMA routines
      agree, RSI in [0, 100], ATR bounded by the true ranges; gaps and
      pivot levels characterised exactly, levels strictly descending;
      [formatPriceValue] monotone with error at most max(v, 1)/20000.
    - Ledger: a symbol added today is reported today; entries of another
      day are dropped; the stored entry stays well formed.
    - Report: a record of the period lands in exactly the group of its
      UTC day, each group sorted newest first with its PnL and counts;
      wins and losses add up to the closed trades, the win rate is a
      percentage, the best trade has the largest closed result; a
      calendar date selects exactly its UTC day. The day PnL counts
      partial wins while the total does not (a gap of the spec).
    - Proxy: a HIT carries an upstream success for the same key read
      less than 15 s before, along any run of either deployment; a
      client gets exactly 45 requests through per window; the cache
      round trip; the klines key is injective on queries without
      underscores, and two concrete collisions otherwise (a defect); the
      Express app, translated from its own copies, answers the three
      routes exactly as the serverless handlers, but counts unknown
      paths against the limit (a gap).
    - Persistence: saving then reading the board or the history gives
      back the same signals, the dates as the same instants, for valid
      dates; [toISOString] is inverted by [new Date] on every valid time
      value; a missing or non-JSON item reads as empty, but a stored
      [null] or object is returned as it is (a divergence).
    - Sentiment: the verdict is the strict majority of the moves of the
      symbols whose candles arrived (a refinement of the specification's
      rule); the analysed symbols are at most 30 eligible ones with the
      largest volumes.
    - UI: the meter's level is between 1 and 5 and monotone in the move
      and the volume; at most one panel of a card is open in every
      reachable state; the unknown-error message of the validation
      service is stored as an analysis and never retried (a defect).
    - Application: in every state of a session a reload rebuilds the
      current board and history from [localStorage], with the engine's
      invariant; a lost connection is set as the error but not shown
      while the board has signals (a divergence).
    - Crypto info: the id map resolves a symbol to the first coin that
      has it; the stored map and the stored info read back as what the
      first call returned, so later calls of the session need no
      network; the error paths, where a throwing [setItem] fails calls
      whose requests all succeeded (a defect).
    - History screen: the field reads back the date it shows, for
      midnights from the year 100 on, while a year below 100 typed in it
      selects a day of the 1900s (a defect); typing a date and applying
      it selects exactly the records of that UTC day; in every reachable
      state the filter is [custom] exactly when a date is set; the "load
      more" loop stops after exactly the clicks that show every day
      ([loadAll], whose fuel, the number of days, is always enough); every
      partial win the engine records shows its badge of 1 to 5 targets.
    - Timers: the popover, once open, is closed by any event other than
      a click from a deadline at most 10 s ahead on; the toast is
      visible after a run exactly when an attempt happened less than 3 s
      before its last event (each attempt restarts the 3 s); unmounting
      either component leaves no pending timeout.
    - Signal card: every level the generator stores is printed exactly
      (the text of [formatTargetPrice] reads back as the stored number);
      the risk/reward ratio of a target is its distance from the price
      over the stop's, whatever the leverage; a target the price has
      passed shows its negative profit after a plus sign, as "+-2.46%"
      (a defect, reached by two ticks of the application); a market
      figure is printed with a mantissa in [1, 1000] below a billion,
      reaching "$1000.00K" from 999,995 on, and without a unit above
      the billion (a defect); "Copiado!" shows only within 2.5 s of the
      last copy, but an earlier copy's timer resets it sooner (a
      defect).
    - Widgets: the meter lights exactly as many bars as its level; a
      ticker's arrow gives the sign of the change and its number the
      size; the history screen's cards show the report's closed result
      to the hundredth and its win and loss counts exactly.
    - Replenishment: [getTradingSignals] returns at most [count]
      signals, none excluded, with distinct ids, fresh or taken from the
      cache under their id; it skips symbols alerted today, so two calls
      on one UTC day never select the same symbol; the parameter cache
      keeps every entry under its own id ([cache_ok]), which the tick
      preserves as well.

    ** Modelling choices

    Doubles are idealised as rationals: no rounding happens except where
    the code rounds on purpose ([Math.round], [Math.floor], [toFixed]),
    and non-finite values appear only as [None] where the code relies on
    [Math.max()] of an empty list. Smoothing steps normalise with [Qred]
    (the same number) so that the worked examples evaluate quickly.
    Time is [Z] milliseconds. The network is an input: a fetch is
    [None] when it throws or answers with an error status. The loops
    are folds over their index ranges, so every function is total and no
    fuel is needed; the one loop of a user's clicks ([loadAll]) takes
    the number of days as fuel, and five days per click make it enough.
    [Math.random()] and [Date.now()] are inputs. [localeCompare] on the
    day keys (digits and dashes) is the order of the code units.

    ** Not modelled

    Rendering (the markup and styling of the React components, the
    icons, the SVG logo), the [Intl] formats ([toLocaleString], as
    Section variables), [Number.prototype.toString] (a Section
    variable), the order of the days of [HistoryTable.tsx] (by parsing
    the keys as dates) and its row times, logging, CORS, the prompt
    sent to the generative model, and the link between
    the card and the info service (the card takes the service's answer
    as an input) are outside the development; the manifest lists them
    with the reason. [new Date(string)] is modelled on the texts
    [toISOString] writes, any other text giving an Invalid Date; the
    hourly sentiment timer of [App.tsx] appears only as sentiment
    events; the 5 s tick is modelled as runs of atomic ticks and, in
    [TickOverlap], as interleavings of its phases, where
    [getTradingSignals] reads and writes the shared store at the
    instant it settles. *)

From Stdlib Require Import QArith Qround Qabs Lqa ZArith List Bool Lia Sorted Permutation.
Import ListNotations.

(** ** JavaScript numbers

    The source computes with IEEE doubles parsed from the exchange's
    decimal strings. The development idealises them as exact rationals
    [Q]: every comparison the code performs is decided exactly, and
    NaN/Infinity appear only where the code produces them on purpose
    ([Math.max()] of an empty list), which is modelled with [option]. *)

Declare Scope js_scope.
Delimit Scope js_scope with js.

(** Boolean comparisons, the way [<], [<=] and [===] are evaluated. *)
Definition Qleb (x y : Q) : bool := Qle_bool x y.
Definition Qltb (x y : Q) : bool := negb (Qle_bool y x).
Definition Qeqb (x y : Q) : bool := Qeq_bool x y.

Notation "x <=? y" := (Qleb x y) : js_scope.
Notation "x <? y" := (Qltb x y) : js_scope.
Notation "x =? y" := (Qeqb x y) : js_scope.

Open Scope Q_scope.
Open Scope js_scope.

(** [Math.max(a, b)] / [Math.min(a, b)] on two non-NaN numbers. *)
Definition js_max (a b : Q) : Q := if a <? b then b else a.
Definition js_min (a b : Q) : Q := if b <? a then b else a.

(** [Math.max(...xs)] and [Math.min(...xs)]: [-Infinity] / [+Infinity]
    on the empty array, which is the only non-finite value the code
    relies on; it is [None] here. *)
Definition js_max_list (xs : list Q) : option Q :=
  match xs with
  | [] => None
  | x :: rest => Some (fold_left js_max rest x)
  end.

Definition js_min_list (xs : list Q) : option Q :=
  match xs with
  | [] => None
  | x :: rest => Some (fold_left js_min rest x)
  end.

(** [Math.abs]. *)
Definition js_abs (x : Q) : Q := if x <? 0 then - x else x.

(** [Math.round]: nearest integer, halves rounded towards +Infinity. *)
Definition js_round (x : Q) : Z := Qfloor (x + (1 # 2)).

(** [xs.reduce((a, b) => a + b, 0)]. *)
Definition sumQ (xs : list Q) : Q := fold_left Qplus xs 0.

(** [xs[xs.length - 1] || 0]: the last element, [0] for an empty array. *)
Definition last_or_zero (xs : list Q) : Q := last xs 0.

(** ** Reflection of the boolean comparisons *)

Lemma Qleb_iff x y : (x <=? y) = true <-> x <= y.
Proof. apply Qle_bool_iff. Qed.

Lemma Qltb_iff x y : (x <? y) = true <-> x < y.
Proof.
  unfold Qltb. rewrite negb_true_iff. split.
  - intros H. apply Qnot_le_lt. intros Hle. apply Qle_bool_iff in Hle. congruence.
  - intros H. destruct (Qle_bool y x) eqn:E; [|reflexivity].
    apply Qle_bool_iff in E. exfalso. apply (Qlt_not_le x y); assumption.
Qed.

Lemma Qleb_false x y : (x <=? y) = false <-> y < x.
Proof.
  split.
  - intros H. apply Qnot_le_lt. intros Hle. apply Qleb_iff in Hle. congruence.
  - intros H. destruct (x <=? y) eqn:E; [|reflexivity].
    apply Qleb_iff in E. exfalso. apply (Qlt_not_le y x); assumption.
Qed.

Lemma Qltb_false x y : (x <? y) = false <-> y <= x.
Proof.
  unfold Qltb. rewrite negb_false_iff. apply Qle_bool_iff.
Qed.

Lemma Qeqb_iff x y : (x =? y) = true <-> x == y.
Proof. apply Qeq_bool_iff. Qed.

(** [qcase b] splits on a boolean comparison of the goal or of a
    hypothesis and turns each side into the order fact it decides. *)
Ltac qbool_to_prop :=
  repeat match goal with
  | H : (_ <=? _) = true |- _ => apply Qleb_iff in H
  | H : (_ <=? _) = false |- _ => apply Qleb_false in H
  | H : (_ <? _) = true |- _ => apply Qltb_iff in H
  | H : (_ <? _) = false |- _ => apply Qltb_false in H
  | H : (_ =? _) = true |- _ => apply Qeqb_iff in H
  end.

Ltac qcase e :=
  let E := fresh "Hc" in destruct e eqn:E; qbool_to_prop.

(** ** Facts on the JavaScript helpers *)

Lemma js_max_ge_l a b : a <= js_max a b.
Proof. unfold js_max. qcase (a <? b); lra. Qed.

Lemma js_max_ge_r a b : b <= js_max a b.
Proof. unfold js_max. qcase (a <? b); lra. Qed.

Lemma js_max_cases a b : js_max a b = a \/ js_max a b = b.
Proof. unfold js_max. destruct (a <? b); auto. Qed.

Lemma js_min_le_l a b : js_min a b <= a.
Proof. unfold js_min. qcase (b <? a); lra. Qed.

Lemma js_min_le_r a b : js_min a b <= b.
Proof. unfold js_min. qcase (b <? a); lra. Qed.

Lemma js_min_cases a b : js_min a b = a \/ js_min a b = b.
Proof. unfold js_min. destruct (b <? a); auto. Qed.

Section FoldBounds.
(** A two-argument selector that returns one of its arguments and is
    above (resp. below) both; shared by the max and min folds and by the
    best-trade scan of the history report. *)
Context {A : Type}.
Variable sel : A -> A -> A.
Variable R : A -> A -> Prop.
Hypothesis sel_cases : forall a b, sel a b = a \/ sel a b = b.
Hypothesis sel_l : forall a b, R a (sel a b).
Hypothesis sel_r : forall a b, R b (sel a b).
Hypothesis R_trans : forall a b c, R a b -> R b c -> R a c.
Hypothesis R_refl : forall a, R a a.

Lemma fold_sel_in rest x : In (fold_left sel rest x) (x :: rest).
Proof.
  revert x. induction rest as [|y rest IH]; intros x; simpl; [auto|].
  destruct (sel_cases x y) as [E|E]; rewrite E.
  - destruct (IH x) as [H|H]; auto.
  - destruct (IH y) as [H|H]; auto.
Qed.

Lemma fold_sel_acc rest x : R x (fold_left sel rest x).
Proof.
  revert x. induction rest as [|y rest IH]; intros x; simpl; [auto|].
  eapply R_trans; [apply sel_l|apply IH].
Qed.

Lemma fold_sel_bound rest x : forall z, In z (x :: rest) -> R z (fold_left sel rest x).
Proof.
  revert x. induction rest as [|y rest IH]; intros x z Hz; simpl in *.
  - destruct Hz as [<-|[]]. apply R_refl.
  - destruct Hz as [<-|[<-|Hz]].
    + eapply R_trans; [apply sel_l|apply fold_sel_acc].
    + eapply R_trans; [apply sel_r|apply fold_sel_acc].
    + apply IH. simpl. auto.
Qed.
End FoldBounds.

Lemma js_max_list_spec xs m :
  js_max_list xs = Some m -> In m xs /\ forall z, In z xs -> z <= m.
Proof.
  destruct xs as [|x rest]; simpl; intros H; [discriminate|]. injection H as <-.
  split.
  - apply fold_sel_in, js_max_cases.
  - apply (fold_sel_bound js_max Qle); auto using js_max_ge_l, js_max_ge_r, Qle_refl.
    intros a b c; apply Qle_trans.
Qed.

Lemma js_min_list_spec xs m :
  js_min_list xs = Some m -> In m xs /\ forall z, In z xs -> m <= z.
Proof.
  destruct xs as [|x rest]; simpl; intros H; [discriminate|]. injection H as <-.
  split.
  - apply fold_sel_in, js_min_cases.
  - apply (fold_sel_bound js_min (fun a b => b <= a)); auto using js_min_le_l, js_min_le_r, Qle_refl.
    intros a b c Hab Hbc; eapply Qle_trans; eauto.
Qed.

Lemma js_max_list_None xs : js_max_list xs = None <-> xs = [].
Proof. destruct xs; simpl; split; congruence. Qed.

Lemma js_min_list_None xs : js_min_list xs = None <-> xs = [].
Proof. destruct xs; simpl; split; congruence. Qed.

Lemma js_abs_nonneg x : 0 <= js_abs x.
Proof. unfold js_abs. qcase (x <? 0); lra. Qed.

Lemma js_abs_eq x : js_abs x == Qabs x.
Proof.
  unfold js_abs. qcase (x <? 0).
  - rewrite Qabs_neg; lra.
  - rewrite Qabs_pos; lra.
Qed.

(** [Math.round] is within one half of its argument. *)
Lemma js_round_bounds x : x - (1 # 2) < inject_Z (js_round x) <= x + (1 # 2).
Proof.
  unfold js_round. split.
  - pose proof (Qlt_floor (x + (1 # 2))) as H.
    rewrite inject_Z_plus in H. change (inject_Z 1) with 1 in H. lra.
  - apply Qfloor_le.
Qed.

(** [Math.round] is monotone. *)
Lemma js_round_mono x y : x <= y -> (js_round x <= js_round y)%Z.
Proof. intros H. unfold js_round. apply Qfloor_resp_le. lra. Qed.

Lemma sumQ_app_acc xs a : fold_left Qplus xs a == a + sumQ xs.
Proof.
  unfold sumQ. revert a. induction xs as [|x xs IH]; intros a; simpl; [lra|].
  rewrite IH, (IH (0 + x)). lra.
Qed.

Lemma sumQ_cons x xs : sumQ (x :: xs) == x + sumQ xs.
Proof. unfold sumQ at 1. simpl. rewrite sumQ_app_acc. lra. Qed.

Lemma sumQ_nonneg xs : Forall (fun x => 0 <= x) xs -> 0 <= sumQ xs.
Proof.
  induction 1 as [|x xs Hx _ IH]; [unfold sumQ; simpl; lra|].
  rewrite sumQ_cons. lra.
Qed.

Lemma sumQ_le xs M : Forall (fun x => x <= M) xs -> sumQ xs <= inject_Z (Z.of_nat (length xs)) * M.
Proof.
  induction 1 as [|x xs Hx _ IH]; [unfold sumQ; simpl; rewrite Qmult_0_l; lra|].
  rewrite sumQ_cons. cbn [length]. rewrite Nat2Z.inj_succ, <- Z.add_1_r, inject_Z_plus, Qmult_plus_distr_l.
  change (inject_Z 1) with 1. rewrite Qmult_1_l. lra.
Qed.

(** A [for] loop that keeps an invariant: [fold_left] preserves a
    predicate of the accumulator when every step does. *)
Lemma sumQ_perm xs ys : Permutation xs ys -> sumQ xs == sumQ ys.
Proof.
  induction 1 as [|x xs ys _ IH|x y xs|xs ys zs _ IH1 _ IH2].
  - reflexivity.
  - rewrite !sumQ_cons, IH. reflexivity.
  - rewrite !sumQ_cons. ring.
  - rewrite IH1. exact IH2.
Qed.

(** A fold that adds a field is the sum of the field. *)
Lemma fold_add_sumQ {A} (f : A -> Q) l : fold_left (fun acc s => acc + f s) l 0 = sumQ (map f l).
Proof.
  unfold sumQ. generalize 0. induction l as [|x l IH]; intros a; simpl; [reflexivity|apply IH].
Qed.

Lemma filter_perm {A} (f : A -> bool) l l' :
  Permutation l l' -> Permutation (List.filter f l) (List.filter f l').
Proof.
  induction 1 as [|x l l' _ IH|x y l|l l' l'' _ IH1 _ IH2]; simpl.
  - constructor.
  - destruct (f x); [constructor|]; assumption.
  - destruct (f x), (f y); try apply perm_swap; reflexivity.
  - eapply perm_trans; eassumption.
Qed.

Lemma fold_left_inv {A B} (P : A -> Prop) (R : B -> Prop) (f : A -> B -> A) l a :
  (forall a b, P a -> R b -> P (f a b)) -> Forall R l -> P a -> P (fold_left f l a).
Proof. intros Hf Hl. revert a. induction Hl; simpl; auto. Qed.

Lemma last_In_nonempty {A} (l : list A) d : l <> [] -> In (last l d) l.
Proof.
  induction l as [|x [|y l] IH]; intros H; [congruence|left; reflexivity|].
  right. apply IH. discriminate.
Qed.

Lemma last_cons_default {A} (x : A) l d : last (x :: l) d = last l x.
Proof.
  revert x d. induction l as [|y l IH]; intros x d; [reflexivity|].
  change (last (y :: l) d = last (y :: l) x). rewrite !IH. reflexivity.
Qed.

Lemma nth_error_Some_lt {A} (l : list A) n x : nth_error l n = Some x -> (n < length l)%nat.
Proof. intros H. apply nth_error_Some. congruence. Qed.

Lemma js_max_mono_r a x y : x <= y -> js_max a x <= js_max a y.
Proof. unfold js_max. qcase (a <? x); qcase (a <? y); lra. Qed.

Lemma js_min_le_max a b : js_min a b <= js_max a b.
Proof. unfold js_min, js_max. qcase (b <? a); qcase (a <? b); lra. Qed.

(** A monotone map keeps a list sorted. *)
Lemma Sorted_map_mono {A} (R : A -> A -> Prop) (f : A -> A) l :
  (forall a b, R a b -> R (f a) (f b)) -> Sorted R l -> Sorted R (map f l).
Proof.
  intros Hf Hs. induction Hs as [|a l Hs IH Hhd]; simpl; constructor; auto.
  destruct Hhd; simpl; constructor; auto.
Qed.

Create HintDb sniper.
#[export] Hint Resolve js_max_ge_l js_max_ge_r js_min_le_l js_min_le_r js_abs_nonneg : sniper.
#[export] Hint Resolve sumQ_nonneg : sniper.

(** ** Generic list helpers *)

(** [arr.findIndex(p)], [-1] being [None]. *)
Fixpoint find_index {A} (p : A -> bool) (l : list A) : option nat :=
  match l with
  | [] => None
  | x :: l' => if p x then Some 0%nat else option_map S (find_index p l')
  end.

(** [arr.lastIndexOf(true)] on an array of booleans. *)
Fixpoint last_true_index_aux (l : list bool) (i : nat) (acc : option nat) : option nat :=
  match l with
  | [] => acc
  | b :: l' => last_true_index_aux l' (S i) (if b then Some i else acc)
  end.
Definition last_true_index (l : list bool) : option nat := last_true_index_aux l 0 None.

Lemma find_index_Some {A} (p : A -> bool) l i :
  find_index p l = Some i -> exists x, nth_error l i = Some x /\ p x = true.
Proof.
  revert i. induction l as [|x l IH]; intros i; simpl; [discriminate|].
  destruct (p x) eqn:E.
  - intros H; injection H as <-. exists x. auto.
  - destruct (find_index p l) as [j|] eqn:Ej; simpl; [|discriminate].
    intros H; injection H as <-. simpl. auto.
Qed.

Lemma find_index_None {A} (p : A -> bool) l :
  find_index p l = None -> forall x, In x l -> p x = false.
Proof.
  induction l as [|y l IH]; simpl; [tauto|].
  destruct (p y) eqn:E; [discriminate|].
  destruct (find_index p l); simpl; [discriminate|].
  intros _ x [<-|Hx]; auto.
Qed.

Lemma find_index_first {A} (p : A -> bool) l i :
  find_index p l = Some i -> forall j x, (j < i)%nat -> nth_error l j = Some x -> p x = false.
Proof.
  revert i. induction l as [|y l IH]; intros i; simpl; [discriminate|].
  destruct (p y) eqn:E.
  - intros H; injection H as <-. intros j x Hj. lia.
  - destruct (find_index p l) as [k|] eqn:Ek; simpl; [|discriminate].
    intros H; injection H as <-. intros [|j] x Hj Hx; simpl in Hx.
    + congruence.
    + apply (IH k eq_refl j); [lia|assumption].
Qed.

(** ** Stable sorting by a key, newest first

    [arr.sort((a, b) => key(b) - key(a))] on integer keys: the engine's
    [Array.prototype.sort] is stable, so records with equal keys keep
    their order. Insertion sort that places a record after every record
    whose key is at least its own computes the same list. *)

Section KeySort.
(** [key] is read in a total boolean order [leb] (as [TotalLeBool] of
    the Stdlib orders): [Z.leb] for instants, [Qleb] for prices. *)
Context {A K : Type} (leb : K -> K -> bool) (key : A -> K).
Hypothesis leb_total : forall x y, leb x y = false -> leb y x = true.

Fixpoint insert_key_desc (x : A) (l : list A) : list A :=
  match l with
  | [] => [x]
  | y :: ys => if leb (key x) (key y) then y :: insert_key_desc x ys else x :: y :: ys
  end.

Definition sort_key_desc (l : list A) : list A :=
  fold_left (fun acc x => insert_key_desc x acc) l [].

Definition key_desc (a b : A) : Prop := leb (key b) (key a) = true.

Lemma insert_key_desc_perm x l : Permutation (insert_key_desc x l) (x :: l).
Proof.
  induction l as [|y l IH]; simpl; [constructor; constructor|].
  destruct (leb (key x) (key y)); [|reflexivity].
  rewrite IH. apply perm_swap.
Qed.

Lemma sort_key_desc_perm l : Permutation (sort_key_desc l) l.
Proof.
  unfold sort_key_desc.
  assert (G : forall acc, Permutation (fold_left (fun acc x => insert_key_desc x acc) l acc) (l ++ acc)).
  { induction l as [|x l IH]; intros acc; simpl; [reflexivity|].
    rewrite IH, insert_key_desc_perm. symmetry. apply Permutation_middle. }
  rewrite G, app_nil_r. reflexivity.
Qed.

Lemma insert_key_desc_sorted x l : Sorted key_desc l -> Sorted key_desc (insert_key_desc x l).
Proof.
  induction 1 as [|y l Hs IH Hhd]; simpl; [repeat constructor|].
  destruct (leb (key x) (key y)) eqn:E.
  - constructor; [assumption|].
    destruct l as [|z l]; simpl; [constructor; exact E|].
    inversion Hhd; subst. destruct (leb (key x) (key z)) eqn:E2; constructor; [assumption|exact E].
  - constructor; [constructor; assumption|]. constructor. apply leb_total, E.
Qed.

Lemma sort_key_desc_sorted l : Sorted key_desc (sort_key_desc l).
Proof.
  unfold sort_key_desc.
  assert (G : forall acc, Sorted key_desc acc ->
                Sorted key_desc (fold_left (fun acc x => insert_key_desc x acc) l acc)).
  { induction l as [|x l IH]; intros acc Hacc; simpl; [assumption|]. apply IH, insert_key_desc_sorted, Hacc. }
  apply G. constructor.
Qed.
End KeySort.

Lemma Z_leb_total x y : (x <=? y)%Z = false -> (y <=? x)%Z = true.
Proof. rewrite Z.leb_gt, Z.leb_le. lia. Qed.

Lemma Qleb_total x y : (x <=? y) = false -> (y <=? x) = true.
Proof. rewrite Qleb_false, Qleb_iff. apply Qlt_le_weak. Qed.

Lemma Sorted_weaken {A} (R R' : A -> A -> Prop) l :
  (forall a b, R a b -> R' a b) -> Sorted R l -> Sorted R' l.
Proof.
  intros H. induction 1 as [|x l _ IH Hhd]; constructor; [exact IH|].
  destruct Hhd; constructor. apply H. assumption.
Qed.
