(* ===== verification/Types.v ===== *)
(** * Types: the data model of [src/types.ts] and of the exchange feed

    Enumerations and records of [src/types.ts], the wire types of
    [src/services/mockSignalService.ts] ([BinanceTicker], [Kline],
    [ExchangeSymbolInfo]) and the process-wide mutable state the services
    share (the parameter cache on [window], the tradable-symbol cache and
    the daily-alert entry of [localStorage]). Prices are [Q] (see
    [Prelude]); instants are [Z] milliseconds since the epoch, which is
    what [Date.getTime()] returns. *)

From Stdlib Require Import QArith ZArith List String.
From S2P Require Import Prelude.
Import ListNotations.

Inductive SignalDirection := LONG | SHORT.
Inductive SignalStatus := WIN | LOSS | PARTIAL_WIN.

(** [CachedSignalParameters = Omit<TradingSignal, 'price' | 'change24h' |
    'tpsHit' | 'resolution'>]: what [generateSignalParameters] returns
    and what the parameter cache keeps ([quoteVolume] is optional in
    [TradingSignal] and is not set by the generator). *)
Record CachedSignalParameters := mkParams {
  id : string;
  symbol : string;
  pair : string;
  direction : SignalDirection;
  probability : Z;
  entryZone : Q * Q;
  stopLoss : Q;
  takeProfit : list Q;
  confidence : string;
  riskNotes : string;
  safeLeverage : Z;
  timestamp : Z
}.

(** [TradingSignal]: the parameters spread into a fresh object together
    with the live fields ([{...parameters, price, change24h, quoteVolume}]
    in [getTradingSignals]); [tpsHit] is absent until a target is hit.
    The optional [resolution] field of the interface is never written by
    the code and is left out. *)
Record TradingSignal := mkSignal {
  params : CachedSignalParameters;
  price : Q;
  change24h : Q;
  tpsHit : option (list bool);
  quoteVolume : option Q
}.

(** [HistoricalSignal extends TradingSignal]: a snapshot of the signal
    with its status, the raw result percent and the resolution instant. *)
Record HistoricalSignal := mkHist {
  hsignal : TradingSignal;
  status : SignalStatus;
  resultPercent : Q;
  resolvedAt : Z
}.

Definition sig_id (s : TradingSignal) : string := id (params s).
Definition sig_ts (s : TradingSignal) : Z := timestamp (params s).

(** The live fields written by the tick ([{...signal, price, change24h,
    quoteVolume}] in [fetchSignals]). *)
Definition with_live (s : TradingSignal) (p c v : Q) : TradingSignal :=
  mkSignal (params s) p c (tpsHit s) (Some v).

Definition with_tps (s : TradingSignal) (t : list bool) : TradingSignal :=
  mkSignal (params s) (price s) (change24h s) (Some t) (quoteVolume s).

(** ** Exchange wire types *)

Module Binance.
(** [interface BinanceTicker], numbers already parsed by [parseFloat]. *)
Record BinanceTicker := mkTicker {
  symbol : string;
  priceChangePercent : Q;
  lastPrice : Q;
  quoteVolume : Q
}.

(** [interface ExchangeSymbolInfo]. *)
Record ExchangeSymbolInfo := mkSymbolInfo {
  info_symbol : string;
  info_pair : string;
  contractType : string;
  info_status : string;
  quoteAsset : string
}.
End Binance.

(** [type Kline]: one candle, fields in the order of the exchange tuple. *)
Record Kline := mkKline {
  openTime : Z;
  open : Q;
  high : Q;
  low : Q;
  close : Q;
  volume : Q;
  closeTime : Z;
  quoteAssetVolume : Q;
  numberOfTrades : Z;
  takerBuyBase : Q;
  takerBuyQuote : Q
}.

(** ** The daily-alert entry of [localStorage]
    ([interface DailyAlerts] of [src/services/dailyAlertsService.ts]). *)
Record DailyAlerts := mkDailyAlerts {
  date : string;
  symbols : list string
}.
