(* ===== verification/Calendar.v ===== *)
(** * Calendar: UTC day keys of instants

    The code turns instants into UTC calendar days in two places:
    [getTodayUTCString] in [src/services/dailyAlertsService.ts]
    ([new Date().toISOString().split('T')[0]]) and the [groupedByDay]
    reduction of [historyReport] in [src/src/App.tsx]
    ([getUTCFullYear]/[getUTCMonth]/[getUTCDate]). Both rest on the
    JavaScript [Date] built-in, modelled here by the proleptic Gregorian
    conversion from days since the epoch to (year, month, day) that the
    ECMAScript specification prescribes (days are floor-divided, so
    instants before 1970 are handled too). *)

From Stdlib Require Import ZArith List String Ascii DecimalString Lia.
From S2P Require Import Prelude.
Import ListNotations.
Open Scope Z_scope.

Definition msPerDay : Z := 86400000.

(** [Day(t) = floor(t / msPerDay)]. *)
Definition day_of (t : Z) : Z := t / msPerDay.

(** Days since 1970-01-01 to (year, month 1..12, day 1..31). *)
Definition civil_from_days (z0 : Z) : Z * Z * Z :=
  let z := z0 + 719468 in
  let era := z / 146097 in
  let doe := z - era * 146097 in
  let yoe := (doe - doe / 1460 + doe / 36524 - doe / 146096) / 365 in
  let doy := doe - (365 * yoe + yoe / 4 - yoe / 100) in
  let mp := (5 * doy + 2) / 153 in
  let d := doy - (153 * mp + 2) / 5 + 1 in
  let m := if mp <? 10 then mp + 3 else mp - 9 in
  let y := yoe + era * 400 in
  (if m <=? 2 then y + 1 else y, m, d).

(** (year, month, day) to days since 1970-01-01: the inverse. *)
Definition days_from_civil (y0 m d : Z) : Z :=
  let y := if m <=? 2 then y0 - 1 else y0 in
  let era := y / 400 in
  let yoe := y - era * 400 in
  let mp := if 2 <? m then m - 3 else m + 9 in
  let doy := (153 * mp + 2) / 5 + d - 1 in
  let doe := yoe * 365 + yoe / 4 - yoe / 100 + doy in
  era * 146097 + doe - 719468.

Definition utc_ymd (t : Z) : Z * Z * Z := civil_from_days (day_of t).

(** Decimal rendering of a number, as [String(n)] / [n.toString()]. *)
Definition zstring (n : Z) : string := NilZero.string_of_int (Z.to_int n).

(** [s.padStart(n, '0')]. *)
Definition padStart0 (n : nat) (s : string) : string :=
  append (String.concat "" (repeat "0"%string (n - String.length s))) s.

(** [toISOString().split('T')[0]] for years 0..9999: [YYYY-MM-DD]. *)
Definition iso_date (t : Z) : string :=
  let '(y, m, d) := utc_ymd t in
  (padStart0 4 (zstring y) ++ "-" ++ padStart0 2 (zstring m) ++ "-" ++ padStart0 2 (zstring d))%string.

(** The [dateKey] of [groupedByDay]: [`${year}-${month}-${day}`] with
    month and day padded to two digits, the year not padded. *)
Definition day_key (t : Z) : string :=
  let '(y, m, d) := utc_ymd t in
  (zstring y ++ "-" ++ padStart0 2 (zstring m) ++ "-" ++ padStart0 2 (zstring d))%string.

(** ** Strings *)

Lemma append_String c s t : (String c s ++ t)%string = String c (s ++ t)%string.
Proof. reflexivity. Qed.

Lemma append_Empty t : ("" ++ t)%string = t.
Proof. reflexivity. Qed.

Lemma String_inj c s t : String c s = String c t -> s = t.
Proof. intros H. injection H. auto. Qed.

(** The characters [String(n)] can produce for an integer [n]. *)
Definition is_key_char (c : ascii) : bool :=
  existsb (Ascii.eqb c) ["0"; "1"; "2"; "3"; "4"; "5"; "6"; "7"; "8"; "9"; "-"]%char.

Lemma uint_key_chars u :
  Forall (fun c => is_key_char c = true) (list_ascii_of_string (NilEmpty.string_of_uint u)).
Proof. induction u; simpl; constructor; auto. Qed.

Lemma zstring_key_chars t :
  Forall (fun c => is_key_char c = true) (list_ascii_of_string (zstring t)).
Proof.
  unfold zstring, NilZero.string_of_int, NilZero.string_of_uint.
  destruct (Z.to_int t) as [u|u]; destruct u; simpl;
    repeat constructor; apply uint_key_chars.
Qed.


(** ** The calendar conversion is a bijection

    [civil_from_days] decomposes a day number into its 400-year era,
    the year of the era and the day of that year; [days_from_civil]
    recombines them. The bounds of the intermediate quantities follow
    from the divisions by constants. *)

Lemma civil_from_days_spec z :
  let '(y, m, d) := civil_from_days z in
  days_from_civil y m d = z /\ 1 <= m <= 12 /\ 1 <= d <= 31.
Proof.
  unfold civil_from_days.
  set (era := (z + 719468) / 146097).
  set (doe := z + 719468 - era * 146097).
  assert (Hdoe : 0 <= doe < 146097) by (unfold doe, era; Z.div_mod_to_equations; lia).
  set (yoe := (doe - doe / 1460 + doe / 36524 - doe / 146096) / 365).
  assert (Hyoe : 0 <= yoe <= 399) by (unfold yoe; Z.div_mod_to_equations; lia).
  set (doy := doe - (365 * yoe + yoe / 4 - yoe / 100)).
  assert (Hdoy : 0 <= doy <= 365) by (unfold doy, yoe; Z.div_mod_to_equations; lia).
  set (mp := (5 * doy + 2) / 153).
  assert (Hmp : 0 <= mp <= 11) by (unfold mp; Z.div_mod_to_equations; lia).
  set (d := doy - (153 * mp + 2) / 5 + 1).
  assert (Hd : 1 <= d <= 31) by (unfold d, mp; Z.div_mod_to_equations; lia).
  unfold days_from_civil.
  destruct (mp <? 10) eqn:E; [apply Z.ltb_lt in E|apply Z.ltb_ge in E].
  - replace (mp + 3 <=? 2) with false by (symmetry; apply Z.leb_gt; lia).
    replace (2 <? mp + 3) with true by (symmetry; apply Z.ltb_lt; lia).
    replace (mp + 3 - 3) with mp by lia.
    replace ((yoe + era * 400) / 400) with era by (Z.div_mod_to_equations; lia).
    split; [|lia]. unfold d. replace (yoe + era * 400 - era * 400) with yoe by lia.
    unfold doy, doe. lia.
  - replace (mp - 9 <=? 2) with true by (symmetry; apply Z.leb_le; lia).
    replace (2 <? mp - 9) with false by (symmetry; apply Z.ltb_ge; lia).
    replace (mp - 9 + 9) with mp by lia.
    replace (yoe + era * 400 + 1 - 1) with (yoe + era * 400) by lia.
    replace ((yoe + era * 400) / 400) with era by (Z.div_mod_to_equations; lia).
    split; [|lia]. unfold d. replace (yoe + era * 400 - era * 400) with yoe by lia.
    unfold doy, doe. lia.
Qed.

(** The year of a day number lies within 400 years of its linear
    estimate, which bounds it for the time values of [Date]. *)
Lemma civil_year_bounds z :
  let '(y, _, _) := civil_from_days z in
  ((z + 719468) / 146097 * 400 <= y <= (z + 719468) / 146097 * 400 + 400).
Proof.
  unfold civil_from_days.
  set (era := (z + 719468) / 146097).
  set (doe := z + 719468 - era * 146097).
  assert (Hdoe : 0 <= doe < 146097) by (unfold doe, era; Z.div_mod_to_equations; lia).
  set (yoe := (doe - doe / 1460 + doe / 36524 - doe / 146096) / 365).
  assert (Hyoe : 0 <= yoe <= 399) by (unfold yoe; Z.div_mod_to_equations; lia).
  destruct (_ <=? 2); lia.
Qed.
