(* ===== verification/Ledger.v ===== *)
(** * Ledger: the daily alert ledger ([src/services/dailyAlertsService.ts])

    The ledger lives in one [localStorage] item, [cryptoDailyAlertedSymbols],
    holding [{date, symbols}] as JSON. The item is modelled by
    [StoredAlerts]: absent, present but unparsable ([JSON.parse] throws),
    or a parsed [DailyAlerts]. The clock read by [getTodayUTCString] is
    an argument [now]; failures of [setItem] (quota) are not modelled, the
    code only logs them.

    Theorems: a recorded symbol is reported for the rest of its UTC day
    (the round trip [addAlertedSymbol]/[getAlertedSymbolsToday]); the
    reported list only grows within a day and is reset when the day
    changes; the stored list never holds a symbol twice. *)

From Stdlib Require Import ZArith List String Bool.
From S2P Require Import Prelude Types Calendar.
Import ListNotations.

Inductive StoredAlerts :=
| AlertsMissing
| AlertsCorrupt
| AlertsStored (d : DailyAlerts).

Module DailyLedger.

(** [getTodayUTCString]. *)
Definition getTodayUTCString (now : Z) : string := iso_date now.

(** [getAlertedSymbolsToday]: returns the list and the item after the
    call, which removes a stale or corrupt entry. *)
Definition getAlertedSymbolsToday (now : Z) (st : StoredAlerts) : list string * StoredAlerts :=
  match st with
  | AlertsMissing => ([], AlertsMissing)
  | AlertsCorrupt => ([], AlertsMissing)
  | AlertsStored data =>
      let todayStr := getTodayUTCString now in
      if String.eqb (date data) todayStr then (symbols data, st)
      else ([], AlertsMissing)
  end.

(** [addAlertedSymbol]. *)
Definition addAlertedSymbol (now : Z) (sym : string) (st : StoredAlerts) : StoredAlerts :=
  let todayStr := getTodayUTCString now in
  let '(currentSymbols, st1) := getAlertedSymbolsToday now st in
  if existsb (String.eqb sym) currentSymbols then st1
  else AlertsStored (mkDailyAlerts todayStr (currentSymbols ++ [sym])).

(** Well-formedness of the item: a parsed entry lists each symbol once. *)
Definition ledger_wf (st : StoredAlerts) : Prop :=
  match st with
  | AlertsStored d => NoDup (symbols d)
  | _ => True
  end.

Lemma existsb_eqb_In sym l : existsb (String.eqb sym) l = true <-> In sym l.
Proof.
  rewrite existsb_exists. split.
  - intros (x & Hx & E). apply String.eqb_eq in E. subst. assumption.
  - intros H. exists sym. split; [assumption|apply String.eqb_refl].
Qed.

Lemma existsb_eqb_notIn sym l : existsb (String.eqb sym) l = false <-> ~ In sym l.
Proof.
  rewrite <- existsb_eqb_In. destruct (existsb _ _); split; congruence || tauto.
Qed.

(** The list reported today is the stored list when the stored date is
    today, and empty otherwise. *)
Lemma get_today_cases now st :
  fst (getAlertedSymbolsToday now st) =
  match st with
  | AlertsStored d => if String.eqb (date d) (getTodayUTCString now) then symbols d else []
  | _ => []
  end.
Proof. destruct st; simpl; try reflexivity. destruct (String.eqb _ _); reflexivity. Qed.

Lemma get_today_wf now st : ledger_wf st -> ledger_wf (snd (getAlertedSymbolsToday now st)).
Proof.
  destruct st as [| |d]; simpl; auto. destruct (String.eqb _ _); simpl; auto.
Qed.

Lemma get_today_list_wf now st : ledger_wf st -> NoDup (fst (getAlertedSymbolsToday now st)).
Proof.
  destruct st as [| |d]; simpl; try constructor.
  destruct (String.eqb _ _); simpl; auto using NoDup_nil.
Qed.

(** Reading twice at the same instant gives the same answer. *)
Lemma get_today_idem now st :
  getAlertedSymbolsToday now (snd (getAlertedSymbolsToday now st)) =
  getAlertedSymbolsToday now st.
Proof.
  destruct st as [| |d]; simpl; try reflexivity.
  destruct (String.eqb (date d) _) eqn:E; simpl; [rewrite E|]; reflexivity.
Qed.

(** What [addAlertedSymbol] leaves for a reader at the same instant:
    the symbol, and every symbol reported before. *)
Lemma add_get_In now sym st :
  In sym (fst (getAlertedSymbolsToday now (addAlertedSymbol now sym st))).
Proof.
  unfold addAlertedSymbol.
  destruct (getAlertedSymbolsToday now st) as [cur st1] eqn:G.
  destruct (existsb (String.eqb sym) cur) eqn:E.
  - apply existsb_eqb_In in E.
    pose proof (get_today_idem now st) as I. rewrite G in I. simpl in I.
    rewrite I. assumption.
  - simpl. rewrite String.eqb_refl. simpl. apply in_or_app. simpl. auto.
Qed.

Lemma add_get_keep now sym st x :
  In x (fst (getAlertedSymbolsToday now st)) ->
  In x (fst (getAlertedSymbolsToday now (addAlertedSymbol now sym st))).
Proof.
  unfold addAlertedSymbol.
  destruct (getAlertedSymbolsToday now st) as [cur st1] eqn:G. simpl. intros Hx.
  destruct (existsb (String.eqb sym) cur) eqn:E.
  - pose proof (get_today_idem now st) as I. rewrite G in I. simpl in I. rewrite I. assumption.
  - simpl. rewrite String.eqb_refl. simpl. apply in_or_app. auto.
Qed.

(** The ledger depends on the instant only through its UTC day. *)
Lemma get_today_same_day now1 now2 st :
  getTodayUTCString now1 = getTodayUTCString now2 ->
  getAlertedSymbolsToday now1 st = getAlertedSymbolsToday now2 st.
Proof. intros E. destruct st; simpl; try reflexivity. rewrite E. reflexivity. Qed.

#[export] Hint Resolve get_today_wf get_today_list_wf : sniper.

(** After [addAlertedSymbol now sym], reading the
    ledger at the same instant reports [sym]: whatever the item held
    before (absent, corrupt, stale or current), the symbol is recorded
    under today's date. *)
Theorem add_then_get_reports now sym st :
  In sym (fst (getAlertedSymbolsToday now (addAlertedSymbol now sym st))).
Proof. apply add_get_In. Qed.

(** The ledger item stays well formed: no symbol is stored twice. *)
Theorem add_preserves_wf now sym st :
  ledger_wf st -> ledger_wf (addAlertedSymbol now sym st).
Proof.
  intros Hwf. unfold addAlertedSymbol.
  pose proof (get_today_wf now st Hwf) as W1.
  pose proof (get_today_list_wf now st Hwf) as W2.
  destruct (getAlertedSymbolsToday now st) as [cur st1]. simpl in *.
  destruct (existsb (String.eqb sym) cur) eqn:E; [assumption|].
  apply existsb_eqb_notIn in E. simpl.
  apply NoDup_app; [assumption|constructor; [intros []|constructor]|].
  intros x Hx [<-|[]]. contradiction.
Qed.

(** A stored entry whose date is not today is discarded on read. *)
Theorem stale_entry_reset now d :
  date d <> getTodayUTCString now ->
  getAlertedSymbolsToday now (AlertsStored d) = ([], AlertsMissing).
Proof.
  intros Hne. simpl. apply String.eqb_neq in Hne. rewrite Hne. reflexivity.
Qed.

End DailyLedger.

Module LedgerExamples.
Import DailyLedger.
Local Open Scope string_scope.

(** On 1970-01-01 (t = 0) the ledger already lists ETHUSDT. *)
Definition todays : StoredAlerts := AlertsStored (mkDailyAlerts "1970-01-01" ["ETHUSDT"]).
Definition yesterdays : DailyAlerts := mkDailyAlerts "1969-12-31" ["ETHUSDT"].

Lemma add_preserves_wf_witness : ledger_wf (addAlertedSymbol 0 "BTCUSDT" todays).
Proof. apply add_preserves_wf. simpl. repeat constructor. intros []. Defined.

Lemma stale_entry_reset_witness : getAlertedSymbolsToday 0 (AlertsStored yesterdays) = ([], AlertsMissing).
Proof. apply stale_entry_reset. apply String.eqb_neq. vm_compute. reflexivity. Defined.

End LedgerExamples.
