(* ===== verification/Store.v ===== *)
(** * Store: the process-wide mutable state of the signal service

    [src/services/mockSignalService.ts] keeps three pieces of state
    outside any function: the signal-parameter cache
    ([window.__signalCache], a [Map<string, CachedSignalParameters>]), the
    tradable-symbol cache ([tradableSymbolsCache], [lastCacheTime]), and
    through [dailyAlertsService] the ledger item of [localStorage]. They
    are the fields of [Store], threaded explicitly through every
    operation that reads or writes them. The maps are stdpp [gmap]s and
    the symbol set a [gset].

    Operations: [removeSignalFromCache], [getTradableFuturesSymbols] (the
    one-hour cache of the exchange's tradable perpetual contracts). *)

From stdpp Require Import gmap strings.
From Stdlib Require Import QArith ZArith.
From S2P Require Import Prelude Types Ledger.

Abbreviation ParamCache := (gmap string CachedSignalParameters).

Record Store := mkStore {
  signalParametersCache : ParamCache;
  tradableSymbolsCache : option (gset string);
  lastCacheTime : option Z;
  alertsItem : StoredAlerts
}.

Definition set_param_cache (st : Store) (c : ParamCache) : Store :=
  mkStore c (tradableSymbolsCache st) (lastCacheTime st) (alertsItem st).

Definition set_alerts (st : Store) (a : StoredAlerts) : Store :=
  mkStore (signalParametersCache st) (tradableSymbolsCache st) (lastCacheTime st) a.

(** The parameter cache keeps every parameter set under its own id:
    [signalParametersCache.set(ticker.symbol, parameters)] with
    [parameters.id = ticker.symbol]. *)
Definition cache_ok (c : ParamCache) : Prop := map_Forall (fun k p => Types.id p = k) c.

Lemma cache_ok_delete k c : cache_ok c -> cache_ok (delete k c).
Proof. apply map_Forall_delete. Qed.

Lemma cache_ok_insert k p c : Types.id p = k -> cache_ok c -> cache_ok (<[k:=p]> c).
Proof. intros Hp Hc. by apply map_Forall_insert_2. Qed.

(** Every cached parameter set has the five targets of its type. *)
Definition cache_typed (c : ParamCache) : Prop := map_Forall (fun _ p => length (takeProfit p) = 5%nat) c.

Module ParamCacheOps.

(** [removeSignalFromCache]. *)
Definition removeSignalFromCache (sym : string) (c : ParamCache) : ParamCache :=
  match c !! sym with
  | Some _ => delete sym c
  | None => c
  end.

Lemma removeSignalFromCache_delete sym c : removeSignalFromCache sym c = delete sym c.
Proof.
  unfold removeSignalFromCache. destruct (c !! sym) eqn:E; [done|].
  by rewrite delete_id.
Qed.

Lemma removeSignalFromCache_dom sym c :
  dom (removeSignalFromCache sym c) = dom c ∖ {[sym]}.
Proof. rewrite removeSignalFromCache_delete. apply dom_delete_L. Qed.

Lemma removeSignalFromCache_ok sym c : cache_ok c -> cache_ok (removeSignalFromCache sym c).
Proof. rewrite removeSignalFromCache_delete. apply cache_ok_delete. Qed.

End ParamCacheOps.

Module Tradable.
Import Binance.

Definition CACHE_TTL_MS : Z := 3600000.

(** The filter of [getTradableFuturesSymbols]. *)
Definition is_tradable_perpetual (s : ExchangeSymbolInfo) : bool :=
  String.eqb (contractType s) "PERPETUAL" &&
  String.eqb (quoteAsset s) "USDT" &&
  String.eqb (info_status s) "TRADING".

(** The [try] block of [getTradableFuturesSymbols]: the request, the
    filter, and the cache update. *)
Definition fetchTradable (now : Z) (exchangeInfo : option (list ExchangeSymbolInfo))
    (st : Store) : option (gset string) * Store :=
  match exchangeInfo with
  | None => (None, st)
  | Some syms =>
      let s := list_to_set (map info_symbol (List.filter is_tradable_perpetual syms)) in
      (Some s, mkStore (signalParametersCache st) (Some s) (Some now) (alertsItem st))
  end.

(** [getTradableFuturesSymbols]: [exchangeInfo] is the response of the
    exchange-info request ([None] when the request fails or is not
    ok); the result is [None] when the function throws. A cached set
    younger than an hour is returned without a request; the test
    [lastCacheTime && ...] is JavaScript truthiness, false on [0]. *)
Definition getTradableFuturesSymbols (now : Z) (exchangeInfo : option (list ExchangeSymbolInfo))
    (st : Store) : option (gset string) * Store :=
  match tradableSymbolsCache st, lastCacheTime st with
  | Some cached, Some t =>
      if negb (t =? 0)%Z && (now - t <? CACHE_TTL_MS)%Z then (Some cached, st)
      else fetchTradable now exchangeInfo st
  | _, _ => fetchTradable now exchangeInfo st
  end.

End Tradable.
