(* ===== verification/Lifecycle.v ===== *)
(** * Lifecycle: the tick of the active board ([fetchSignals] in [src/src/App.tsx])

    Every five seconds [fetchSignals] reads the ticker snapshot, walks the
    active board and, per signal: evicts it after two hours; skips it when
    the snapshot has no price for it; otherwise refreshes its live fields,
    marks the take-profit levels the price has reached, resolves it as LOSS
    (stop crossed) or WIN (fifth target hit, which overrides LOSS), and
    writes or replaces its record in the history (terminal records always,
    PARTIAL_WIN snapshots only when the hit vector changed). The survivors
    are topped up to eight signals by [getTradingSignals] (when the
    snapshot was reachable) and sorted newest first.

    [getTradingSignals] is reached through the [SignalProvider] class: the
    tick's theorems ([LifecycleProps]) are proved against its contract
    [SignalProviderLaws], which [Board] discharges for the real
    implementation. The per-signal
    body of the loop is [processSignal], the loop [processSignals], and the
    whole handler [fetchSignals]. *)

From stdpp Require Import gmap strings list.
From Stdlib Require Import QArith Lqa ZArith.
From S2P Require Import Prelude Types Calendar Ledger Store.
Open Scope Q_scope.
Open Scope js_scope.

Record PriceData := mkPriceData { pd_price : Q; pd_change : Q; pd_volume : Q }.
Abbreviation PriceMap := (gmap string PriceData).

(** The state React keeps for the board ([signals], [historicalSignals])
    and the shared store of the services. *)
Record Engine := mkEngine {
  signals : list TradingSignal;
  historicalSignals : list HistoricalSignal;
  store : Store
}.

(** [setError]: [null] is [None]; the two messages are the two
    user-visible empty states. *)
Inductive TickError := ConnectionLost | NoActiveSignals.

(** The interface through which the tick requests new signals:
    [getTradingSignals mkt now count exclude st] returns the new signals
    ([None] when the call throws) and the store after the call. The
    market snapshot [mkt] stands for the requests the call makes. *)
Class SignalProvider (Market : Type) := {
  getTradingSignals : Market -> Z -> nat -> list string -> Store -> option (list TradingSignal) * Store
}.

Module Tick.
Import ParamCacheOps.

Definition TWO_HOURS_IN_MS : Z := 2 * 60 * 60 * 1000.
Definition BOARD_SIZE : Z := 8.

(** The map built from the ticker snapshot:
    [new Map(allTickers.map(t => [t.symbol, {...}]))]; a later entry
    for the same symbol wins, as in [Map]. *)
Definition priceMapOf (tickers : list Binance.BinanceTicker) : PriceMap :=
  fold_left (fun m t => <[Binance.symbol t := mkPriceData (Binance.lastPrice t)
                           (Binance.priceChangePercent t) (Binance.quoteVolume t)]> m) tickers ∅.

(** RULE 2: the stop-loss test. *)
Definition stop_hit (d : SignalDirection) (cur sl : Q) : bool :=
  match d with LONG => cur <=? sl | SHORT => sl <=? cur end.

(** The take-profit test of the target scan. *)
Definition tp_reached (d : SignalDirection) (cur tp : Q) : bool :=
  match d with LONG => tp <=? cur | SHORT => cur <=? tp end.

(** [newTpsHit[j] = true]: an assignment past the end of a JavaScript
    array extends it (the holes read as [undefined], falsy). *)
Definition js_set_true (j : nat) (l : list bool) : list bool :=
  if (j <? length l)%nat then <[j:=true]> l
  else l ++ replicate (j - length l) false ++ [true].

(** One iteration [j] of the target scan over [newTpsHit] and
    [hasNewTp]. *)
Definition scan_step (d : SignalDirection) (cur : Q) (tps : list Q)
    (acc : list bool * bool) (j : nat) : list bool * bool :=
  let '(flags, hasNewTp) := acc in
  if negb (nth j flags false) then
    match tps !! j with
    | Some tpPrice => if tp_reached d cur tpPrice then (js_set_true j flags, true) else acc
    | None => acc
    end
  else acc.

(** [for (let j = 0; j < 5; j++) ...]. *)
Definition scanTargets (d : SignalDirection) (cur : Q) (tps : list Q) (flags : list bool)
    : list bool * bool :=
  fold_left (scan_step d cur tps) (seq 0 5) (flags, false).

Definition no_hits : list bool := [false; false; false; false; false].

(** [(entryZone[0] + entryZone[1]) / 2]. *)
Definition entryPrice (p : CachedSignalParameters) : Q :=
  (fst (entryZone p) + snd (entryZone p)) / 2.

(** The raw percent move from the entry to a level, signed so that a
    move in the trade's favour is positive. *)
Definition pctMove (d : SignalDirection) (entry level : Q) : Q :=
  match d with
  | LONG => (level - entry) / entry * 100
  | SHORT => (entry - level) / entry * 100
  end.

(** [signal.id + signal.timestamp.getTime()]. *)
Definition signal_key (s : TradingSignal) : string := (sig_id s ++ zstring (sig_ts s))%string.
Definition hist_key (h : HistoricalSignal) : string := signal_key (hsignal h).

(** [JSON.stringify(existing.tpsHit) !== JSON.stringify(newTpsHit)]. *)
Definition tps_changed (old : option (list bool)) (nw : list bool) : bool :=
  match old with
  | Some t => negb (bool_decide (t = nw))
  | None => true
  end.

(** The locals the loop mutates. *)
Record TickAcc := mkAcc {
  newHistoricalSignals : list HistoricalSignal;
  signalsToRemoveFromActive : list string;
  historyChanged : bool;
  paramCache : ParamCache
}.

Definition evict (acc : TickAcc) (s : TradingSignal) : TickAcc :=
  mkAcc (newHistoricalSignals acc) (signalsToRemoveFromActive acc ++ [sig_id s])
        (historyChanged acc) (removeSignalFromCache (sig_id s) (paramCache acc)).

Definition set_history (acc : TickAcc) (h : list HistoricalSignal) : TickAcc :=
  mkAcc h (signalsToRemoveFromActive acc) true (paramCache acc).

(** The resolution of a signal at the current price: LOSS when the stop
    is crossed, overridden by WIN when the fifth target is hit. *)
Definition resolution (d : SignalDirection) (cur sl : Q) (newTps : list bool) : option SignalStatus :=
  let resolutionStatus := if stop_hit d cur sl then Some LOSS else None in
  if nth 4 newTps false then Some WIN else resolutionStatus.

(** The terminal result percent: to the stop for LOSS, to the fifth
    target for WIN. *)
Definition terminalResult (p : CachedSignalParameters) (st : SignalStatus) : Q :=
  match st with
  | LOSS => pctMove (direction p) (entryPrice p) (stopLoss p)
  | _ => pctMove (direction p) (entryPrice p) (nth 4 (takeProfit p) 0)
  end.

(** The body of the loop over the board for one signal: the signal's
    new slot in [newActiveSignals] and the updated locals. *)
Definition processSignal (now : Z) (priceMap : option PriceMap) (acc : TickAcc)
    (signal : TradingSignal) : TradingSignal * TickAcc :=
  let signalAge := (now - sig_ts signal)%Z in
  if (TWO_HOURS_IN_MS <? signalAge)%Z then (signal, evict acc signal)
  else
  match priceMap ≫= lookup (sig_id signal) with
  | None => (signal, acc)
  | Some tickerData =>
    let updated0 := with_live signal (pd_price tickerData) (pd_change tickerData) (pd_volume tickerData) in
    let currentPrice := price updated0 in
    let p := params signal in
    let oldTpsHit := default no_hits (tpsHit updated0) in
    let '(newTpsHit, hasNewTp) := scanTargets (direction p) currentPrice (takeProfit p) oldTpsHit in
    let updatedSignal := if hasNewTp then with_tps updated0 newTpsHit else updated0 in
    let existingHistoryIndex :=
      find_index (fun h => String.eqb (hist_key h) (signal_key signal)) (newHistoricalSignals acc) in
    match resolution (direction p) currentPrice (stopLoss p) newTpsHit with
    | Some resolutionStatus =>
        let resolvedSignal := mkHist updatedSignal resolutionStatus (terminalResult p resolutionStatus) now in
        let hist := newHistoricalSignals acc in
        let hist' := match existingHistoryIndex with
                     | Some i => <[i:=resolvedSignal]> hist
                     | None => resolvedSignal :: hist
                     end in
        (signal, set_history (evict acc signal) hist')
    | None =>
        if hasNewTp || (bool_decide (is_Some (tpsHit updatedSignal)) && bool_decide (existingHistoryIndex = None))
        then
          match last_true_index newTpsHit with
          | None => (signal, acc)
          | Some lastHitTpIndex =>
              let resultPercent := pctMove (direction p) (entryPrice p) (nth lastHitTpIndex (takeProfit p) 0) in
              let partialSignal := mkHist updatedSignal PARTIAL_WIN resultPercent now in
              let hist := newHistoricalSignals acc in
              match existingHistoryIndex with
              | Some i =>
                  match hist !! i with
                  | Some h => if tps_changed (tpsHit (hsignal h)) newTpsHit
                              then (updatedSignal, set_history acc (<[i:=partialSignal]> hist))
                              else (updatedSignal, acc)
                  | None => (updatedSignal, acc)
                  end
              | None => (updatedSignal, set_history acc (partialSignal :: hist))
              end
          end
        else (updatedSignal, acc)
    end
  end.

(** The loop [for (let i = 0; i < newActiveSignals.length; i++)]. *)
Fixpoint processSignals (now : Z) (priceMap : option PriceMap) (sigs : list TradingSignal)
    (acc : TickAcc) : list TradingSignal * TickAcc :=
  match sigs with
  | [] => ([], acc)
  | s :: rest =>
      let '(s', acc1) := processSignal now priceMap acc s in
      let '(rest', acc2) := processSignals now priceMap rest acc1 in
      (s' :: rest', acc2)
  end.

(** [finalSignals.sort((a, b) => b.timestamp - a.timestamp)]: the
    stable sort of [Array.prototype.sort], newest first; ties keep
    their order. *)
Fixpoint insert_desc (x : TradingSignal) (l : list TradingSignal) : list TradingSignal :=
  match l with
  | [] => [x]
  | y :: ys => if (sig_ts x <=? sig_ts y)%Z then y :: insert_desc x ys else x :: y :: ys
  end.

Definition sortByTimestampDesc (l : list TradingSignal) : list TradingSignal :=
  fold_left (fun acc x => insert_desc x acc) l [].

Section Handler.
Context {Market : Type} `{SignalProvider Market}.

(** [fetchSignals]: [tickers] is the ticker snapshot ([None] when
    [getAllFuturesTickers] throws, the connection error), [mkt] the
    requests of [getTradingSignals]. The second component is the
    [setError] of the tick; [None] when [getTradingSignals] throws,
    which rejects the handler after the history was published and
    before the board is. *)
Definition fetchSignals (mkt : Market) (now : Z) (tickers : option (list Binance.BinanceTicker))
    (e : Engine) : Engine * option (option TickError) :=
  let priceMap := priceMapOf <$> tickers in
  let connectionHasError := bool_decide (tickers = None) in
  let acc0 := mkAcc (historicalSignals e) [] false (signalParametersCache (store e)) in
  let '(newActiveSignals, acc) := processSignals now priceMap (signals e) acc0 in
  let hist' := if historyChanged acc then newHistoricalSignals acc else historicalSignals e in
  let st1 := set_param_cache (store e) (paramCache acc) in
  let stillActiveSignals :=
    List.filter (fun s => negb (existsb (String.eqb (sig_id s)) (signalsToRemoveFromActive acc)))
           newActiveSignals in
  let neededSignals := (BOARD_SIZE - Z.of_nat (length stillActiveSignals))%Z in
  let '(fetched, st2) :=
    if negb connectionHasError && (0 <? neededSignals)%Z
    then getTradingSignals mkt now (Z.to_nat neededSignals) (map sig_id stillActiveSignals) st1
    else (Some [], st1) in
  match fetched with
  | None => (mkEngine (signals e) hist' st2, None)
  | Some newSignals =>
      let finalSignals := sortByTimestampDesc (stillActiveSignals ++ newSignals) in
      let err := if connectionHasError then Some ConnectionLost
                 else if (0 <? length finalSignals)%nat then None
                 else Some NoActiveSignals in
      (mkEngine finalSignals hist' st2, Some err)
  end.
End Handler.

End Tick.

(** ** Result percents *)

Module Results.
Import Tick.

(** The example of the specification: a LONG signal whose entry
    midpoint is 100 and whose stop is 95 records a LOSS of exactly -5
    percent (no leverage applied). *)
Theorem loss_result_long p :
  direction p = LONG -> entryPrice p == 100 -> stopLoss p == 95 -> terminalResult p LOSS == -5.
Proof.
  intros Hd He Hs. unfold terminalResult, pctMove. rewrite Hd, He, Hs. reflexivity.
Qed.

Lemma loss_result_long_witness :
  terminalResult (mkParams "BTCUSDT" "BTC" "USDT" LONG 90 (99, 101) 95 [101; 102; 103; 104; 110] "" "" 5 0) LOSS == -5.
Proof. apply loss_result_long; reflexivity. Defined.

End Results.

