(* ===== verification/LifecycleTheory.v ===== *)
(** * LifecycleTheory: what the tick guarantees

    Lemmas and theorems on [Lifecycle.Tick]: the history key is
    injective on well-formed ids; the target scan never clears a flag;
    the per-signal step changes neither a signal's parameters nor the
    history records of other signals; and, for the whole handler
    [fetchSignals]: the hit flags are sticky, a fifth-target hit wins
    over the stop, expired signals leave the board, the board keeps at
    most eight signals with distinct ids sorted newest first, the history
    keeps one record per signal instance, and a lost connection only
    evicts. *)

From Stdlib Require Import String Ascii DecimalString DecimalZ.
From stdpp Require Import gmap strings list.
From Stdlib Require Import QArith Lqa ZArith.
From S2P Require Import Prelude Types Calendar Ledger Store Lifecycle.
Open Scope Q_scope.
Open Scope js_scope.

Module Keys.
Import Tick.

(** An id whose last character is not one of them, as every symbol of
    the board is (they end in [USDT]). *)
Definition id_wf (i : string) : bool :=
  match rev (list_ascii_of_string i) with
  | c :: _ => negb (is_key_char c)
  | [] => false
  end.

Lemma list_ascii_of_string_app (a b : string) :
  list_ascii_of_string (a ++ b) = list_ascii_of_string a ++ list_ascii_of_string b.
Proof. induction a as [|c a IH]; simpl; [done|by rewrite IH]. Qed.

Lemma to_int_not_nil t : Z.to_int t <> Decimal.Pos Decimal.Nil /\ Z.to_int t <> Decimal.Neg Decimal.Nil.
Proof.
  pose proof (of_to t) as H. split; intros E; rewrite E in H; simpl in H; subst t; discriminate.
Qed.

Lemma zstring_inj a b : zstring a = zstring b -> a = b.
Proof.
  unfold zstring. intros H. apply to_int_inj.
  apply (f_equal NilZero.int_of_string) in H.
  destruct (to_int_not_nil a), (to_int_not_nil b).
  rewrite !NilZero.isi in H by assumption. congruence.
Qed.

(** Dropping the trailing digits of a key. *)
Fixpoint drop_keys (l : list ascii) : list ascii :=
  match l with
  | c :: l' => if is_key_char c then drop_keys l' else l
  | [] => []
  end.

Lemma drop_keys_app d l :
  Forall (fun c => is_key_char c = true) d ->
  (match l with c :: _ => is_key_char c = false | [] => False end) ->
  drop_keys (d ++ l) = l.
Proof.
  intros Hd Hl. induction Hd as [|c d Hc _ IH]; simpl.
  - destruct l as [|c l]; [contradiction|]. simpl. by rewrite Hl.
  - by rewrite Hc.
Qed.

Lemma rev_key_split i t :
  id_wf i = true ->
  drop_keys (rev (list_ascii_of_string (i ++ zstring t))) = rev (list_ascii_of_string i).
Proof.
  intros Hi. rewrite list_ascii_of_string_app, rev_app_distr.
  apply drop_keys_app.
  - apply Forall_rev, zstring_key_chars.
  - unfold id_wf in Hi. destruct (rev (list_ascii_of_string i)); [discriminate|].
    by apply negb_true_iff.
Qed.

(** [signal.id + signal.timestamp.getTime()] determines the id and the
    timestamp, for ids that do not end with a digit or a minus sign. *)
Lemma key_inj i1 i2 t1 t2 :
  id_wf i1 = true -> id_wf i2 = true ->
  (i1 ++ zstring t1)%string = (i2 ++ zstring t2)%string -> i1 = i2 /\ t1 = t2.
Proof.
  intros H1 H2 E.
  assert (Ei : i1 = i2).
  { pose proof (rev_key_split i1 t1 H1) as R1. pose proof (rev_key_split i2 t2 H2) as R2.
    rewrite E, R2 in R1. apply (f_equal (@rev _)) in R1. rewrite !rev_involutive in R1.
    rewrite <- (string_of_list_ascii_of_string i1), <- (string_of_list_ascii_of_string i2).
    by rewrite R1. }
  subst i2. split; [done|]. apply zstring_inj.
  apply (f_equal list_ascii_of_string) in E. rewrite !list_ascii_of_string_app in E.
  apply app_inv_head in E.
  rewrite <- (string_of_list_ascii_of_string (zstring t1)), <- (string_of_list_ascii_of_string (zstring t2)).
  by rewrite E.
Qed.

(** C40: The history key of a board signal ([signal.id +
    signal.timestamp.getTime()]) identifies the signal instance: two
    signals whose ids are exchange symbols share a key only when they
    share the id and the creation instant. *)
Theorem signal_key_inj s1 s2 :
  id_wf (sig_id s1) = true -> id_wf (sig_id s2) = true ->
  signal_key s1 = signal_key s2 -> sig_id s1 = sig_id s2 /\ sig_ts s1 = sig_ts s2.
Proof. apply key_inj. Qed.

(** Without the condition on ids the key is ambiguous: ["AB1"] created
    at 23 and ["AB12"] created at 3 share the key ["AB123"]. *)
Example signal_key_collision :
  exists s1 s2, id_wf (sig_id s1) = false /\ sig_id s1 <> sig_id s2 /\ signal_key s1 = signal_key s2.
Proof.
  set (mk := fun i t => mkSignal (mkParams i "" "" LONG 0 (0, 0) 0 [] "" "" 0 t) 0 0 None None).
  exists (mk "AB1"%string 23%Z), (mk "AB12"%string 3%Z). split; [reflexivity|]. split; [discriminate|reflexivity].
Qed.

Lemma signal_key_inj_witness :
  sig_id (mkSignal (mkParams "BTCUSDT" "" "" LONG 0 (0, 0) 0 [] "" "" 0 1000) 0 0 None None) =
  sig_id (mkSignal (mkParams "BTCUSDT" "" "" LONG 0 (0, 0) 0 [] "" "" 0 1000) 0 0 None None) /\
  sig_ts (mkSignal (mkParams "BTCUSDT" "" "" LONG 0 (0, 0) 0 [] "" "" 0 1000) 0 0 None None) =
  sig_ts (mkSignal (mkParams "BTCUSDT" "" "" LONG 0 (0, 0) 0 [] "" "" 0 1000) 0 0 None None).
Proof. apply signal_key_inj; reflexivity. Defined.

End Keys.

Module Scan.
Import Tick.

(** [flags_le a b]: every flag set in [a] is set in [b]. *)
Definition flags_le (a b : list bool) : Prop :=
  forall j, nth j a false = true -> nth j b false = true.

Lemma flags_le_refl a : flags_le a a.
Proof. intros j; done. Qed.

Lemma flags_le_trans a b c : flags_le a b -> flags_le b c -> flags_le a c.
Proof. intros Hab Hbc j Hj. by apply Hbc, Hab. Qed.

Lemma flags_le_nil a : flags_le [] a.
Proof. intros [|j]; discriminate. Qed.

Lemma nth_js_set_true j k l : nth j l false = true -> nth j (js_set_true k l) false = true.
Proof.
  unfold js_set_true. intros H. destruct (k <? length l)%nat eqn:Hk.
  - rewrite nth_lookup in H |- *. destruct (decide (j = k)) as [->|Hne].
    + rewrite list_lookup_insert_eq; [done|]. apply Nat.ltb_lt in Hk. lia.
    + by rewrite list_lookup_insert_ne.
  - assert (j < length l)%nat.
    { destruct (decide (j < length l)%nat); [done|]. rewrite nth_overflow in H; [discriminate|lia]. }
    by rewrite app_nth1.
Qed.

Lemma nth_js_set_true_eq k l : nth k (js_set_true k l) false = true.
Proof.
  unfold js_set_true. destruct (k <? length l)%nat eqn:Hk.
  - apply Nat.ltb_lt in Hk. rewrite nth_lookup, list_lookup_insert_eq; [done|lia].
  - apply Nat.ltb_ge in Hk. rewrite app_nth2 by lia. rewrite app_nth2; rewrite length_replicate; [|lia].
    by replace (k - length l - (k - length l))%nat with 0%nat by lia.
Qed.

Lemma length_js_set_true k l : (k < length l)%nat -> length (js_set_true k l) = length l.
Proof.
  intros Hk. unfold js_set_true. apply Nat.ltb_lt in Hk. rewrite Hk. apply length_insert.
Qed.

Lemma scan_step_mono d cur tps acc j : flags_le acc.1 (scan_step d cur tps acc j).1.
Proof.
  destruct acc as [flags hn]. unfold scan_step. simpl.
  destruct (negb _); [|apply flags_le_refl].
  destruct (tps !! j); [|apply flags_le_refl].
  destruct (tp_reached _ _ _); [|apply flags_le_refl].
  intros i; apply nth_js_set_true.
Qed.

Lemma fold_scan_mono d cur tps js acc : flags_le acc.1 (fold_left (scan_step d cur tps) js acc).1.
Proof.
  revert acc. induction js as [|j js IH]; intros acc; simpl; [apply flags_le_refl|].
  eapply flags_le_trans; [apply scan_step_mono|apply IH].
Qed.

(** The target scan never clears a flag. *)
Lemma scanTargets_mono d cur tps flags : flags_le flags (scanTargets d cur tps flags).1.
Proof. apply (fold_scan_mono d cur tps (seq 0 5) (flags, false)). Qed.

Lemma scan_step_length d cur tps acc j :
  (j < length acc.1)%nat -> length (scan_step d cur tps acc j).1 = length acc.1.
Proof.
  destruct acc as [flags hn]. unfold scan_step. simpl. intros Hj.
  destruct (negb _); [|done]. destruct (tps !! j); [|done].
  destruct (tp_reached _ _ _); [|done]. by apply length_js_set_true.
Qed.

(** On a five-flag vector the scan keeps five flags. *)
Lemma scanTargets_length d cur tps flags :
  length flags = 5%nat -> length (scanTargets d cur tps flags).1 = 5%nat.
Proof.
  intros H. unfold scanTargets.
  assert (Hgen : forall js acc, Forall (fun j => j < 5)%nat js -> length acc.1 = 5%nat ->
            length (fold_left (scan_step d cur tps) js acc).1 = 5%nat).
  { induction js as [|j js IH]; intros acc Hjs Hacc; simpl; [done|].
    inversion Hjs; subst. apply IH; [done|]. rewrite scan_step_length; lia. }
  apply Hgen; [|done]. apply Forall_forall. intros j Hj. apply elem_of_seq in Hj. lia.
Qed.

(** A level the price has reached is flagged after the scan. *)
Lemma scan_step_sets d cur tps acc j tp :
  tps !! j = Some tp -> tp_reached d cur tp = true ->
  nth j (scan_step d cur tps acc j).1 false = true.
Proof.
  destruct acc as [flags hn]. unfold scan_step. simpl. intros Htp Hr.
  destruct (nth j flags false) eqn:E; simpl; [done|].
  rewrite Htp, Hr. apply nth_js_set_true_eq.
Qed.

Lemma scanTargets_sets d cur tps flags j tp :
  (j < 5)%nat -> tps !! j = Some tp -> tp_reached d cur tp = true ->
  nth j (scanTargets d cur tps flags).1 false = true.
Proof.
  intros Hj Htp Hr. unfold scanTargets.
  replace 5%nat with (j + S (4 - j))%nat by lia.
  rewrite seq_app, fold_left_app. simpl.
  apply fold_scan_mono, scan_step_sets with (tp := tp); done.
Qed.

Lemma scan_step_cases d cur tps fl b j :
  scan_step d cur tps (fl, b) j = (fl, b) \/ exists fl', scan_step d cur tps (fl, b) j = (fl', true).
Proof.
  unfold scan_step. destruct (negb _); [|by left]. destruct (tps !! j); [|by left].
  destruct (tp_reached _ _ _); [right; eauto|by left].
Qed.

Lemma fold_scan_unchanged d cur tps js : forall fl b fl',
  fold_left (scan_step d cur tps) js (fl, b) = (fl', false) -> fl' = fl /\ b = false.
Proof.
  induction js as [|j js IH]; intros fl b fl' E; [simpl in E; by injection E|].
  cbn [fold_left] in E.
  destruct (scan_step_cases d cur tps fl b j) as [Hs|(fl1 & Hs)]; rewrite Hs in E;
    apply IH in E as [? ?]; done.
Qed.

(** A scan that hits nothing new leaves the flags as they were. *)
Lemma scanTargets_unchanged d cur tps flags fl' :
  scanTargets d cur tps flags = (fl', false) -> fl' = flags.
Proof. intros E. by apply fold_scan_unchanged in E as [? _]. Qed.

Lemma last_true_index_aux_nth l i acc k :
  last_true_index_aux l i acc = Some k ->
  (exists k0, acc = Some k0 /\ k = k0) \/ (i <= k /\ nth (k - i) l false = true)%nat.
Proof.
  revert i acc. induction l as [|b l IH]; intros i acc E; simpl in E; [left; eauto|].
  destruct (IH _ _ E) as [(k0 & Hk0 & ->)|(Hi & Hn)].
  - destruct b; [|left; eauto]. injection Hk0 as ->. right. split; [lia|]. by rewrite Nat.sub_diag.
  - right. split; [lia|]. replace (k - i)%nat with (S (k - S i)) by lia. done.
Qed.

(** [lastIndexOf(true)] points at a set flag. *)
Lemma last_true_index_nth l k : last_true_index l = Some k -> nth k l false = true.
Proof.
  intros E. destruct (last_true_index_aux_nth l 0 None k E) as [(? & ? & _)|(_ & Hn)]; [discriminate|].
  by rewrite Nat.sub_0_r in Hn.
Qed.

End Scan.

Module Step.
Import Tick Scan.

(** The hit flags of a signal, [[]] when it has none. *)
Definition hits (s : TradingSignal) : list bool := default [] (tpsHit s).

(** The first history record of a key, as [findIndex] finds it. *)
Definition hist_find (k : string) (h : list HistoricalSignal) : option HistoricalSignal :=
  find (fun x => String.eqb (hist_key x) k) h.

(** Replace the record of key [k] in place, or prepend it. *)
Definition upsert (k : string) (r : HistoricalSignal) (h : list HistoricalSignal) : list HistoricalSignal :=
  match find_index (fun x => String.eqb (hist_key x) k) h with
  | Some i => <[i:=r]> h
  | None => r :: h
  end.

Definition aged (now : Z) (s : TradingSignal) : Prop := (TWO_HOURS_IN_MS < now - sig_ts s)%Z.

Definition terminal (st : SignalStatus) : Prop := st <> PARTIAL_WIN.

Lemma resolution_terminal d cur sl t st : resolution d cur sl t = Some st -> terminal st.
Proof.
  unfold resolution, terminal. destruct (nth 4 t false); [intros [= <-]; discriminate|].
  destruct (stop_hit d cur sl); intros [= <-]; discriminate.
Qed.

Lemma updated_hits s p c v newT hasNew :
  scanTargets (direction (params s)) p (takeProfit (params s)) (default no_hits (tpsHit s)) = (newT, hasNew) ->
  flags_le (hits s) (hits (if hasNew then with_tps (with_live s p c v) newT else with_live s p c v)).
Proof.
  intros Hs. destruct hasNew; [|apply flags_le_refl]. unfold hits; simpl.
  pose proof (scanTargets_mono (direction (params s)) p (takeProfit (params s)) (default no_hits (tpsHit s))) as M.
  rewrite Hs in M. destruct (tpsHit s); simpl in *; [done|apply flags_le_nil].
Qed.

(** The in-place replacement at the first record of key [k]. *)
Fixpoint replace_key (k : string) (r : HistoricalSignal) (h : list HistoricalSignal) : list HistoricalSignal :=
  match h with
  | [] => []
  | x :: h' => if String.eqb (hist_key x) k then r :: h' else x :: replace_key k r h'
  end.

Lemma find_index_replace_key k r h i :
  find_index (fun x => String.eqb (hist_key x) k) h = Some i -> <[i:=r]> h = replace_key k r h.
Proof.
  revert i. induction h as [|x h IH]; intros i; simpl; [discriminate|].
  destruct (String.eqb (hist_key x) k); [by intros [= <-]|].
  destruct (find_index _ h) as [j|]; simpl; [|discriminate]. intros [= <-]. simpl. by rewrite (IH j).
Qed.

Lemma upsert_replace k r h :
  upsert k r h = match find_index (fun x => String.eqb (hist_key x) k) h with
                 | Some _ => replace_key k r h
                 | None => r :: h
                 end.
Proof. unfold upsert. destruct (find_index _ h) eqn:E; [by apply find_index_replace_key|done]. Qed.

Lemma replace_key_keys k r h : hist_key r = k -> map hist_key (replace_key k r h) = map hist_key h.
Proof.
  intros Hr. induction h as [|x h IH]; simpl; [done|].
  destruct (String.eqb (hist_key x) k) eqn:E; simpl; [|by rewrite IH].
  apply String.eqb_eq in E. congruence.
Qed.

(** A history without duplicate keys keeps none after an upsert. *)
Lemma upsert_nodup k r h :
  hist_key r = k -> NoDup (map hist_key h) -> NoDup (map hist_key (upsert k r h)).
Proof.
  intros Hr Hn. rewrite upsert_replace. destruct (find_index _ h) eqn:E.
  - by rewrite replace_key_keys.
  - simpl. constructor; [|done]. intros Hin. apply list_elem_of_In, in_map_iff in Hin as (x & Hx & Hin).
    pose proof (find_index_None _ _ E x Hin) as F. apply String.eqb_neq in F. congruence.
Qed.

Lemma replace_key_find_same k r h :
  hist_key r = k -> find_index (fun x => String.eqb (hist_key x) k) h <> None ->
  hist_find k (replace_key k r h) = Some r.
Proof.
  intros Hr. unfold hist_find. induction h as [|x h IH]; simpl; [done|].
  destruct (String.eqb (hist_key x) k) eqn:E; simpl.
  - by rewrite Hr, String.eqb_refl.
  - rewrite E. intros Hne. apply IH. by destruct (find_index _ h).
Qed.

Lemma upsert_find_same k r h : hist_key r = k -> hist_find k (upsert k r h) = Some r.
Proof.
  intros Hr. rewrite upsert_replace. destruct (find_index _ h) eqn:E.
  - apply replace_key_find_same; [done|]. by rewrite E.
  - unfold hist_find. simpl. by rewrite Hr, String.eqb_refl.
Qed.

Lemma upsert_find_other k k' r h :
  hist_key r = k -> k' <> k -> hist_find k' (upsert k r h) = hist_find k' h.
Proof.
  intros Hr Hne. assert (Hrk : String.eqb (hist_key r) k' = false) by (apply String.eqb_neq; congruence).
  rewrite upsert_replace. unfold hist_find. destruct (find_index _ h).
  - induction h as [|x h IH]; simpl; [done|].
    destruct (String.eqb (hist_key x) k) eqn:E; simpl.
    + apply String.eqb_eq in E. rewrite Hrk.
      assert (Hxk : String.eqb (hist_key x) k' = false) by (apply String.eqb_neq; congruence).
      by rewrite Hxk.
    + by rewrite IH.
  - simpl. by rewrite Hrk.
Qed.

Lemma find_index_replace (h : list HistoricalSignal) i r k :
  find_index (fun x => String.eqb (hist_key x) k) h = Some i ->
  <[i:=r]> h = upsert k r h.
Proof. unfold upsert. by intros ->. Qed.

(** A PARTIAL_WIN record: its result is the raw move to a level it
    has hit. *)
Definition partial_ok (r : HistoricalSignal) : Prop :=
  status r = PARTIAL_WIN /\
  exists k, nth k (hits (hsignal r)) false = true /\
    resultPercent r = pctMove (direction (params (hsignal r))) (entryPrice (params (hsignal r)))
                              (nth k (takeProfit (params (hsignal r))) 0).

Lemma partial_hits s p c v newT hasNew cond :
  scanTargets (direction (params s)) p (takeProfit (params s)) (default no_hits (tpsHit s)) = (newT, hasNew) ->
  (hasNew || (bool_decide (is_Some (tpsHit (if hasNew then with_tps (with_live s p c v) newT else with_live s p c v)))
              && cond)) = true ->
  hits (if hasNew then with_tps (with_live s p c v) newT else with_live s p c v) = newT.
Proof.
  intros Hs Hc. destruct hasNew; [done|]. simpl in Hc.
  apply andb_true_iff in Hc as [Hc _]. apply bool_decide_eq_true in Hc.
  destruct (tpsHit s) as [t|] eqn:Et; [|by destruct Hc].
  apply scanTargets_unchanged in Hs. unfold hits. simpl. rewrite Et. simpl in Hs. done.
Qed.

(** The four shapes of one iteration of the loop. *)
Lemma processSignal_spec now pm acc s s' acc' :
  processSignal now pm acc s = (s', acc') ->
  (aged now s /\ s' = s /\ acc' = evict acc s)
  \/ (s' = s /\ acc' = acc)
  \/ (exists r, s' = s /\ params (hsignal r) = params s /\ terminal (status r) /\
        resultPercent r = terminalResult (params s) (status r) /\
        acc' = set_history (evict acc s) (upsert (signal_key s) r (newHistoricalSignals acc)))
  \/ (params s' = params s /\ flags_le (hits s) (hits s') /\ ~ aged now s /\
        (acc' = acc \/ exists r, params (hsignal r) = params s /\ partial_ok r /\
           acc' = set_history acc (upsert (signal_key s) r (newHistoricalSignals acc)))).
Proof.
  unfold processSignal, aged. intros E.
  destruct (TWO_HOURS_IN_MS <? now - sig_ts s)%Z eqn:Ha.
  { left. apply Z.ltb_lt in Ha. inversion E; subst; auto. }
  apply Z.ltb_ge in Ha.
  destruct (pm ≫= lookup (sig_id s)) as [td|]; [|right; left; inversion E; subst; auto].
  destruct (scanTargets _ _ _ _) as [newT hasNew] eqn:Hs. simpl in E.
  pose proof (updated_hits s (pd_price td) (pd_change td) (pd_volume td) newT hasNew Hs) as Hh.
  assert (Hp : forall b : bool, params (if b then with_tps (with_live s (pd_price td) (pd_change td)
                 (pd_volume td)) newT else with_live s (pd_price td) (pd_change td) (pd_volume td)) = params s)
    by (intros []; done).
  destruct (resolution _ _ _ newT) as [st|] eqn:Hr.
  { right; right; left. inversion E; subst. eexists.
    split; [done|]. split; [|split; [|split; [|unfold upsert; by destruct (find_index _ _)]]].
    - apply Hp.
    - by eapply resolution_terminal.
    - done. }
  right; right; right.
  destruct (_ || _) eqn:Hcond; [|inversion E; subst; split; [done|]; split; [exact Hh|]; split; [lia|]; by left].
  pose proof (partial_hits s (pd_price td) (pd_change td) (pd_volume td) newT hasNew _ Hs Hcond) as Hhits.
  destruct (last_true_index newT) as [k|] eqn:Hk;
    [|inversion E; subst; split; [done|]; split; [apply flags_le_refl|]; split; [lia|]; by left].
  assert (Hpk : forall b : bool, partial_ok (mkHist (if b then with_tps (with_live s (pd_price td) (pd_change td)
                 (pd_volume td)) newT else with_live s (pd_price td) (pd_change td) (pd_volume td)) PARTIAL_WIN
                 (pctMove (direction (params s)) (entryPrice (params s)) (nth k (takeProfit (params s)) 0)) now) ->
                partial_ok (mkHist (if b then with_tps (with_live s (pd_price td) (pd_change td)
                 (pd_volume td)) newT else with_live s (pd_price td) (pd_change td) (pd_volume td)) PARTIAL_WIN
                 (pctMove (direction (params s)) (entryPrice (params s)) (nth k (takeProfit (params s)) 0)) now))
    by done.
  assert (Hok : partial_ok (mkHist (if hasNew then with_tps (with_live s (pd_price td) (pd_change td)
                 (pd_volume td)) newT else with_live s (pd_price td) (pd_change td) (pd_volume td)) PARTIAL_WIN
                 (pctMove (direction (params s)) (entryPrice (params s)) (nth k (takeProfit (params s)) 0)) now)).
  { split; [done|]. exists k. simpl. rewrite Hhits. split; [by apply last_true_index_nth|]. by destruct hasNew. }
  clear Hpk.
  destruct (find_index _ _) as [i|] eqn:Hi.
  - destruct (newHistoricalSignals acc !! i) as [h|]; [destruct (tps_changed _ _)|];
      inversion E; subst; (split; [done|]); (split; [exact Hh|]); (split; [lia|]); try by left.
    right. eexists; split; [|split; [|by rewrite (find_index_replace _ _ _ _ Hi)]]; [apply Hp|exact Hok].
  - inversion E; subst. split; [done|]. split; [exact Hh|]. split; [lia|].
    right. eexists; split; [|split; [|unfold upsert; by rewrite Hi]]; [apply Hp|exact Hok].
Qed.

Lemma hist_key_params r s : params (hsignal r) = params s -> hist_key r = signal_key s.
Proof. unfold hist_key, signal_key, sig_id, sig_ts. by intros ->. Qed.

Ltac step_cases H :=
  apply processSignal_spec in H as
    [(Ha & -> & ->) | [(-> & ->) | [(r & -> & Hr & Ht & Hres & ->) | (Hp & Hf & Hna & [-> | (r & Hr & Hok & ->)])]]].

Lemma step_slot now pm acc s s' acc' :
  processSignal now pm acc s = (s', acc') -> params s' = params s /\ flags_le (hits s) (hits s').
Proof. intros H. step_cases H; auto using flags_le_refl. Qed.

Lemma step_hist_nodup now pm acc s s' acc' :
  processSignal now pm acc s = (s', acc') ->
  NoDup (map hist_key (newHistoricalSignals acc)) -> NoDup (map hist_key (newHistoricalSignals acc')).
Proof. intros H; step_cases H; simpl; auto; apply upsert_nodup; by apply hist_key_params. Qed.

Lemma step_changed now pm acc s s' acc' :
  processSignal now pm acc s = (s', acc') ->
  (historyChanged acc' = historyChanged acc /\ newHistoricalSignals acc' = newHistoricalSignals acc)
  \/ historyChanged acc' = true.
Proof. intros H; step_cases H; simpl; auto. Qed.

Lemma step_hist_other now pm acc s s' acc' k :
  processSignal now pm acc s = (s', acc') -> k <> signal_key s ->
  hist_find k (newHistoricalSignals acc') = hist_find k (newHistoricalSignals acc).
Proof. intros H Hk; step_cases H; simpl; auto; apply upsert_find_other; auto; by apply hist_key_params. Qed.

(** What an iteration does to the removal list and the cache: nothing,
    or it retires the signal (expired, or resolved with a terminal
    record in the history). *)
Lemma step_remove now pm acc s s' acc' :
  processSignal now pm acc s = (s', acc') ->
  (signalsToRemoveFromActive acc' = signalsToRemoveFromActive acc /\ paramCache acc' = paramCache acc)
  \/ (signalsToRemoveFromActive acc' = signalsToRemoveFromActive acc ++ [sig_id s] /\
      paramCache acc' = ParamCacheOps.removeSignalFromCache (sig_id s) (paramCache acc) /\
      (aged now s \/ exists r, hist_find (signal_key s) (newHistoricalSignals acc') = Some r /\ terminal (status r))).
Proof.
  intros H; step_cases H; simpl; auto.
  right. repeat split; auto. right. exists r. split; [|done].
  apply upsert_find_same. by apply hist_key_params.
Qed.

(** A history record is consistent with its signal: a terminal record
    carries the raw move to its stop (LOSS) or fifth target (WIN), a
    partial one the raw move to a level it has hit. *)
Definition record_ok (r : HistoricalSignal) : Prop :=
  match status r with
  | PARTIAL_WIN => partial_ok r
  | st => resultPercent r = terminalResult (params (hsignal r)) st
  end.

Lemma upsert_Forall (P : HistoricalSignal -> Prop) k r h :
  P r -> Forall P h -> Forall P (upsert k r h).
Proof.
  intros Hr Hh. rewrite upsert_replace. destruct (find_index _ h); [|by constructor].
  induction Hh as [|x h Hx Hh IH]; simpl; [constructor|].
  destruct (String.eqb _ _); by constructor.
Qed.

Lemma step_records now pm acc s s' acc' :
  processSignal now pm acc s = (s', acc') ->
  Forall record_ok (newHistoricalSignals acc) -> Forall record_ok (newHistoricalSignals acc').
Proof.
  intros H Hall; step_cases H; simpl; auto; apply upsert_Forall; auto; unfold record_ok.
  - destruct (status r) eqn:Est; [by rewrite Hres, Hr|by rewrite Hres, Hr|exfalso; by apply Ht].
  - by rewrite (proj1 Hok).
Qed.

Lemma step_aged now pm acc s : aged now s -> processSignal now pm acc s = (s, evict acc s).
Proof.
  unfold aged, processSignal. intros Ha. apply Z.ltb_lt in Ha. by rewrite Ha.
Qed.

End Step.

Module Loop.
Import Tick Scan Step.

Definition slot_rel (s s' : TradingSignal) : Prop := params s' = params s /\ flags_le (hits s) (hits s').

(** Unfold one iteration of [processSignals]. *)
Ltac loop_ind sigs :=
  let s := fresh "s" in let IH := fresh "IH" in
  let acc := fresh "acc" in let sigs' := fresh "sigs'" in let E := fresh "E" in
  let H1 := fresh "H1" in let H2 := fresh "H2" in
  let s1 := fresh "s1" in let acc1 := fresh "acc1" in let r := fresh "rest" in let acc2 := fresh "acc2" in
  induction sigs as [|s sigs IH]; intros acc sigs' ? E; simpl in E;
  [injection E as <- <-
  |destruct (processSignal _ _ acc s) as [s1 acc1] eqn:H1;
   destruct (processSignals _ _ sigs acc1) as [r acc2] eqn:H2;
   injection E as <- <-].

Section LoopLemmas.
Variables (now : Z) (pm : option PriceMap).

Lemma loop_slots sigs : forall acc sigs' acc',
  processSignals now pm sigs acc = (sigs', acc') -> Forall2 slot_rel sigs sigs'.
Proof.
  loop_ind sigs; constructor; [by eapply step_slot|by eapply IH].
Qed.

Lemma loop_hist_nodup sigs : forall acc sigs' acc',
  processSignals now pm sigs acc = (sigs', acc') ->
  NoDup (map hist_key (newHistoricalSignals acc)) -> NoDup (map hist_key (newHistoricalSignals acc')).
Proof.
  loop_ind sigs; intros Hn; [done|]. eapply IH; [done|]. by eapply step_hist_nodup.
Qed.

Lemma loop_changed sigs : forall acc sigs' acc',
  processSignals now pm sigs acc = (sigs', acc') ->
  (historyChanged acc' = historyChanged acc /\ newHistoricalSignals acc' = newHistoricalSignals acc)
  \/ historyChanged acc' = true.
Proof.
  loop_ind sigs; [by left|].
  destruct (IH _ _ _ H2) as [[-> ->]|]; [|by right]. by eapply step_changed.
Qed.

Lemma loop_hist_other sigs k : forall acc sigs' acc',
  processSignals now pm sigs acc = (sigs', acc') -> Forall (fun s => k <> signal_key s) sigs ->
  hist_find k (newHistoricalSignals acc') = hist_find k (newHistoricalSignals acc).
Proof.
  loop_ind sigs; intros Hk; [done|]. inversion Hk; subst.
  rewrite (IH _ _ _ H2); [|done]. by eapply step_hist_other.
Qed.

Lemma loop_remove_mono sigs x : forall acc sigs' acc',
  processSignals now pm sigs acc = (sigs', acc') ->
  In x (signalsToRemoveFromActive acc) -> In x (signalsToRemoveFromActive acc').
Proof.
  loop_ind sigs; intros Hx; [done|]. eapply IH; [done|].
  destruct (step_remove _ _ _ _ _ _ H1) as [[-> _]|[-> _]]; [done|]. apply in_or_app; auto.
Qed.

Lemma loop_cache_none sigs k : forall acc sigs' acc',
  processSignals now pm sigs acc = (sigs', acc') ->
  paramCache acc !! k = None -> paramCache acc' !! k = None.
Proof.
  loop_ind sigs; intros Hk; [done|]. eapply IH; [done|].
  destruct (step_remove _ _ _ _ _ _ H1) as [[_ ->]|(_ & -> & _)]; [done|].
  rewrite ParamCacheOps.removeSignalFromCache_delete. by rewrite lookup_delete_None; right.
Qed.

(** The loop only deletes from the parameter cache: what it leaves was there. *)
Lemma loop_cache_sub sigs k p : forall acc sigs' acc',
  processSignals now pm sigs acc = (sigs', acc') ->
  paramCache acc' !! k = Some p -> paramCache acc !! k = Some p.
Proof.
  loop_ind sigs; intros Hk; [done|]. specialize (IH _ _ _ H2 Hk).
  destruct (step_remove _ _ _ _ _ _ H1) as [[_ E2]|(_ & E2 & _)]; rewrite E2 in IH; [done|].
  rewrite ParamCacheOps.removeSignalFromCache_delete in IH. by apply lookup_delete_Some in IH as [_ ?].
Qed.

(** A symbol newly put on the removal list has lost its cache entry. *)
Lemma loop_remove_cache sigs k : forall acc sigs' acc',
  processSignals now pm sigs acc = (sigs', acc') ->
  In k (signalsToRemoveFromActive acc') -> ~ In k (signalsToRemoveFromActive acc) ->
  paramCache acc' !! k = None.
Proof.
  loop_ind sigs; intros Hin Hnin; [done|].
  destruct (step_remove _ _ _ _ _ _ H1) as [[E1 E2]|(E1 & E2 & _)].
  - apply (IH acc1 rest acc2); [done|done|by rewrite E1].
  - destruct (decide (k = sig_id s)) as [->|Hne].
    + eapply loop_cache_none; [done|]. rewrite E2, ParamCacheOps.removeSignalFromCache_delete.
      apply lookup_delete_eq.
    + apply (IH acc1 rest acc2); [done|done|]. rewrite E1. intros [?|[?|[]]] % in_app_or; auto.
Qed.

(** Why a symbol is on the removal list at the end of the loop: it
    was there before, or its signal expired, or its signal has a
    terminal record in the history. *)
Lemma loop_remove_in sigs x : forall acc sigs' acc',
  processSignals now pm sigs acc = (sigs', acc') -> NoDup (map signal_key sigs) ->
  In x (signalsToRemoveFromActive acc') ->
  In x (signalsToRemoveFromActive acc) \/
  exists s, In s sigs /\ sig_id s = x /\
    (aged now s \/ exists r, hist_find (signal_key s) (newHistoricalSignals acc') = Some r /\ terminal (status r)).
Proof.
  loop_ind sigs; intros Hnd Hx; [by left|].
  simpl in Hnd. apply NoDup_cons in Hnd as [Hs Hnd].
  destruct (IH _ _ _ H2 Hnd Hx) as [Hx1|(s2 & Hs2 & Hid & Hwhy)];
    [|right; exists s2; split; [by right|done]].
  destruct (step_remove _ _ _ _ _ _ H1) as [[E1 _]|(E1 & _ & Hwhy)]; [left; by rewrite <- E1|].
  rewrite E1 in Hx1. apply in_app_or in Hx1 as [Hx1|[<-|[]]]; [by left|right].
  exists s. split; [by left|]. split; [done|].
  destruct Hwhy as [Ha|(r & Hr & Ht)]; [by left|right]. exists r. split; [|done].
  rewrite (loop_hist_other _ _ _ _ _ H2); [done|].
  apply Forall_forall. intros s' Hs' E. apply Hs. rewrite E. apply list_elem_of_In, in_map. by apply list_elem_of_In.
Qed.

Lemma loop_aged sigs s : forall acc sigs' acc',
  processSignals now pm sigs acc = (sigs', acc') -> In s sigs -> aged now s ->
  In (sig_id s) (signalsToRemoveFromActive acc').
Proof.
  loop_ind sigs; intros Hin Ha; [done|]. destruct Hin as [<-|Hin]; [|by eapply IH].
  eapply loop_remove_mono; [done|]. rewrite step_aged in H1 by done.
  injection H1 as _ <-. simpl. apply in_or_app. simpl. auto.
Qed.
Lemma loop_records sigs : forall acc sigs' acc',
  processSignals now pm sigs acc = (sigs', acc') ->
  Forall record_ok (newHistoricalSignals acc) -> Forall record_ok (newHistoricalSignals acc').
Proof.
  loop_ind sigs; intros Hf; [done|]. eapply IH; [done|]. by eapply step_records.
Qed.
(** The loop only deletes from the parameter cache. *)
Lemma loop_cache_ok sigs : forall acc sigs' acc',
  processSignals now pm sigs acc = (sigs', acc') ->
  cache_ok (paramCache acc) -> cache_ok (paramCache acc').
Proof.
  loop_ind sigs; intros Hc; [done|]. eapply IH; [done|].
  destruct (step_remove _ _ _ _ _ _ H1) as [[_ ->]|(_ & -> & _)]; [done|].
  by apply ParamCacheOps.removeSignalFromCache_ok.
Qed.

End LoopLemmas.

End Loop.
