(* ===== verification/LifecycleProps.v ===== *)
(** * LifecycleProps: the properties of the whole tick

    The contract of [getTradingSignals] as the tick uses it
    ([SignalProviderLaws]), the sort of the board, the shape of one run of
    [fetchSignals] ([fetch_inv]), and the tick's theorems: sticky hit
    flags, WIN over LOSS, expiry, board size, distinct ids, order, one
    history record per signal instance, and the degraded mode. *)

From Stdlib Require Import String Sorted.
From stdpp Require Import gmap strings list.
From Stdlib Require Import QArith Lqa ZArith.
From S2P Require Import Prelude Types Calendar Ledger Store Lifecycle LifecycleTheory.
Open Scope Q_scope.
Open Scope js_scope.

Import Tick Keys Scan Step Loop.

(** What the tick relies on from [getTradingSignals]: at most [count]
    signals, none with an excluded id, pairwise distinct ids that are
    exchange symbols, no target hit yet, and parameters that are either
    created now or taken from the parameter cache under their own id. *)
Class SignalProviderLaws (Market : Type) `{SignalProvider Market} := {
  gts_length : forall mkt now n ex st l st',
    cache_ok (signalParametersCache st) ->
    getTradingSignals mkt now n ex st = (Some l, st') -> (length l <= n)%nat;
  gts_exclude : forall mkt now n ex st l st',
    cache_ok (signalParametersCache st) ->
    getTradingSignals mkt now n ex st = (Some l, st') -> forall s, In s l -> ~ In (sig_id s) ex;
  gts_nodup : forall mkt now n ex st l st',
    cache_ok (signalParametersCache st) ->
    getTradingSignals mkt now n ex st = (Some l, st') -> NoDup (map sig_id l);
  gts_ids : forall mkt now n ex st l st',
    cache_ok (signalParametersCache st) ->
    getTradingSignals mkt now n ex st = (Some l, st') -> forall s, In s l -> id_wf (sig_id s) = true;
  gts_fresh : forall mkt now n ex st l st',
    cache_ok (signalParametersCache st) ->
    getTradingSignals mkt now n ex st = (Some l, st') -> forall s, In s l -> tpsHit s = None;
  gts_origin : forall mkt now n ex st l st',
    cache_ok (signalParametersCache st) ->
    getTradingSignals mkt now n ex st = (Some l, st') -> forall s, In s l ->
    sig_ts s = now \/ signalParametersCache st !! sig_id s = Some (params s);
  gts_cache : forall mkt now n ex st r st',
    cache_ok (signalParametersCache st) ->
    getTradingSignals mkt now n ex st = (r, st') -> cache_ok (signalParametersCache st');
  gts_cache_from : forall mkt now n ex st r st',
    cache_ok (signalParametersCache st) ->
    getTradingSignals mkt now n ex st = (r, st') -> forall k p, signalParametersCache st' !! k = Some p ->
    signalParametersCache st !! k = Some p \/ timestamp p = now;
  gts_targets : forall mkt now n ex st l st',
    cache_typed (signalParametersCache st) ->
    getTradingSignals mkt now n ex st = (Some l, st') -> forall s, In s l -> length (takeProfit (params s)) = 5%nat;
  gts_cache_typed : forall mkt now n ex st r st',
    cache_typed (signalParametersCache st) ->
    getTradingSignals mkt now n ex st = (r, st') -> cache_typed (signalParametersCache st')
}.

(** ** The stable sort of the board *)

Module BoardSort.

Definition newer_first (a b : TradingSignal) : Prop := (sig_ts b <= sig_ts a)%Z.

(** [sortByTimestampDesc] is the stable key sort of the prelude on
    the creation time. *)
Lemma insert_desc_key x l : insert_desc x l = insert_key_desc Z.leb sig_ts x l.
Proof. induction l as [|y l IH]; simpl; [done|]. by rewrite IH. Qed.

Lemma sortByTimestampDesc_key l : sortByTimestampDesc l = sort_key_desc Z.leb sig_ts l.
Proof.
  unfold sortByTimestampDesc, sort_key_desc. generalize (@nil TradingSignal).
  induction l as [|x l IH]; intros acc; simpl; [done|]. by rewrite insert_desc_key, IH.
Qed.

Lemma sort_perm l : sortByTimestampDesc l ≡ₚ l.
Proof. rewrite sortByTimestampDesc_key. apply sort_key_desc_perm. Qed.

(** The published board is sorted newest first. *)
Lemma sort_sorted l : Sorted newer_first (sortByTimestampDesc l).
Proof.
  rewrite sortByTimestampDesc_key.
  apply (Sorted_weaken (key_desc Z.leb sig_ts)); [intros a b; apply Z.leb_le|].
  apply sort_key_desc_sorted, Z_leb_total.
Qed.

Lemma sort_in x l : In x (sortByTimestampDesc l) <-> In x l.
Proof. split; apply Permutation_in; [apply sort_perm|symmetry; apply sort_perm]. Qed.

End BoardSort.

(** ** One run of the handler *)

Module Run.
Import BoardSort.

Definition acc0 (e : Engine) : TickAcc :=
  mkAcc (historicalSignals e) [] false (signalParametersCache (store e)).

(** The signals of the board that were not retired in the loop. *)
Definition survivors (removed : list string) (l : list TradingSignal) : list TradingSignal :=
  List.filter (fun s => negb (existsb (String.eqb (sig_id s)) removed)) l.

Lemma survivors_in removed l s :
  In s (survivors removed l) <-> In s l /\ ~ In (sig_id s) removed.
Proof.
  unfold survivors. rewrite filter_In, negb_true_iff, (DailyLedger.existsb_eqb_notIn (sig_id s) removed).
  tauto.
Qed.

Section RunShape.
Context {Market : Type} `{SignalProvider Market}.

(** Every run of [fetchSignals]: the loop, the published history, and
    either the rejection of [getTradingSignals] (the board is not
    published) or the new board, made of the survivors and the
    signals [getTradingSignals] returned (none when the connection
    failed or the board was full). *)
Lemma fetch_inv mkt now tks e e' err :
  fetchSignals mkt now tks e = (e', err) ->
  exists newActive acc,
    processSignals now (priceMapOf <$> tks) (signals e) (acc0 e) = (newActive, acc) /\
    historicalSignals e' = (if historyChanged acc then newHistoricalSignals acc else historicalSignals e) /\
    let st1 := set_param_cache (store e) (paramCache acc) in
    let still := survivors (signalsToRemoveFromActive acc) newActive in
    ((err = None /\ signals e' = signals e /\ tks <> None /\
      getTradingSignals mkt now (Z.to_nat (BOARD_SIZE - Z.of_nat (length still))) (map sig_id still) st1 = (None, store e'))
    \/ (exists newSignals,
          signals e' = sortByTimestampDesc (still ++ newSignals) /\
          err = Some (if bool_decide (tks = None) then Some ConnectionLost
                      else if (0 <? length (signals e'))%nat then None else Some NoActiveSignals) /\
          ((newSignals = [] /\ store e' = st1 /\ (tks = None \/ (BOARD_SIZE <= Z.of_nat (length still))%Z))
           \/ (tks <> None /\ (Z.of_nat (length still) < BOARD_SIZE)%Z /\
               getTradingSignals mkt now (Z.to_nat (BOARD_SIZE - Z.of_nat (length still))) (map sig_id still) st1
               = (Some newSignals, store e'))))).
Proof.
  unfold fetchSignals. intros E.
  destruct (processSignals _ _ _ _) as [newActive acc] eqn:Hp.
  exists newActive, acc. split; [done|].
  fold (survivors (signalsToRemoveFromActive acc) newActive) in E.
  set (still := survivors (signalsToRemoveFromActive acc) newActive) in *.
  set (st1 := set_param_cache (store e) (paramCache acc)) in *.
  destruct (negb (bool_decide (tks = None)) && (0 <? BOARD_SIZE - Z.of_nat (length still))%Z) eqn:Hc.
  - apply andb_true_iff in Hc as [Hc1 Hc2]. apply negb_true_iff, bool_decide_eq_false in Hc1.
    apply Z.ltb_lt in Hc2.
    destruct (getTradingSignals _ _ _ _ _) as [[newSignals|] st2] eqn:Hg; injection E as <- <-; simpl.
    + split; [done|]. right. exists newSignals. split; [done|].
      split; [by rewrite (bool_decide_eq_false_2 _ Hc1)|]. right. split; [done|]. split; [lia|done].
    + split; [done|]. left. split; [done|]. split; [done|]. split; done.
  - injection E as <- <-. simpl. split; [done|]. right. exists []. split; [done|]. split; [done|].
    left. split; [done|]. split; [done|].
    apply andb_false_iff in Hc as [Hc|Hc].
    + left. apply negb_false_iff, bool_decide_eq_true in Hc. done.
    + right. apply Z.ltb_ge in Hc. lia.
Qed.
End RunShape.

End Run.

(** ** Helpers shared by the tick theorems *)

Module TickFacts.
Import BoardSort Run.

(** A well-formed board: distinct ids, each an exchange symbol. *)
Definition board_wf (b : list TradingSignal) : Prop :=
  NoDup (map sig_id b) /\ Forall (fun s => id_wf (sig_id s) = true) b.

(** The board holds at most [BOARD_SIZE] signals. *)
Definition board_within_capacity (b : list TradingSignal) : Prop :=
  (Z.of_nat (length b) <= BOARD_SIZE)%Z.

(** One record per [signal.id + signal.timestamp] key. *)
Definition history_wf (h : list HistoricalSignal) : Prop := NoDup (map hist_key h).

(** Every record consistent with its signal. *)
Definition history_consistent (h : list HistoricalSignal) : Prop := Forall record_ok h.

(** The invariant of the engine state between two ticks: the board is
    well formed and within capacity, the history keeps one consistent
    record per signal instance, and the parameter cache files every
    entry under its own id. *)
Definition engine_inv (e : Engine) : Prop :=
  board_wf (signals e) /\ board_within_capacity (signals e) /\
  history_wf (historicalSignals e) /\ history_consistent (historicalSignals e) /\
  cache_ok (signalParametersCache (store e)).

(** No trace of a parameter set in the engine: no board signal and no
    cache entry carries it. *)
Definition plan_absent (P : CachedSignalParameters) (e : Engine) : Prop :=
  (forall s, In s (signals e) -> params s <> P) /\
  (forall k, signalParametersCache (store e) !! k <> Some P).

(** The tuple types of [src/types.ts]: five targets and, when present,
    five hit flags. *)
Definition signal_typed (s : TradingSignal) : Prop :=
  length (takeProfit (params s)) = 5%nat /\ forall l, tpsHit s = Some l -> length l = 5%nat.

(** Every signal of the engine has its type: on the board, in the
    history, and the parameters in the cache. *)
Definition engine_typed (e : Engine) : Prop :=
  Forall signal_typed (signals e) /\ Forall (fun h => signal_typed (hsignal h)) (historicalSignals e) /\
  cache_typed (signalParametersCache (store e)).

Lemma updated_typed s p c v newT hasNew :
  signal_typed s ->
  scanTargets (direction (params s)) p (takeProfit (params s)) (default no_hits (tpsHit s)) = (newT, hasNew) ->
  signal_typed (if hasNew then with_tps (with_live s p c v) newT else with_live s p c v).
Proof.
  intros [Ht Hl] Hs. destruct hasNew; (split; [exact Ht|]); simpl; [|exact Hl].
  intros l [= <-]. change newT with (newT, true).1. rewrite <- Hs. apply scanTargets_length.
  destruct (tpsHit s) as [l|] eqn:E; [exact (Hl l eq_refl)|reflexivity].
Qed.

(** One iteration keeps the types of the signal and of the history. *)
Lemma step_typed now pm acc s s' acc' :
  processSignal now pm acc s = (s', acc') -> signal_typed s ->
  Forall (fun h => signal_typed (hsignal h)) (newHistoricalSignals acc) ->
  signal_typed s' /\ Forall (fun h => signal_typed (hsignal h)) (newHistoricalSignals acc').
Proof.
  unfold processSignal. intros E Hs Hh.
  destruct (TWO_HOURS_IN_MS <? now - sig_ts s)%Z; [injection E as <- <-; done|].
  destruct (pm ≫= lookup (sig_id s)) as [td|]; [|injection E as <- <-; done].
  destruct (scanTargets _ _ _ _) as [newT hasNew] eqn:Hsc. simpl in E.
  pose proof (updated_typed s (pd_price td) (pd_change td) (pd_volume td) newT hasNew Hs Hsc) as Hu.
  destruct (resolution _ _ _ newT).
  { injection E as <- <-. split; [done|]. simpl.
    destruct (find_index _ _); [by apply Forall_insert|by constructor]. }
  destruct (_ || _); [|injection E as <- <-; done].
  destruct (last_true_index newT); [|injection E as <- <-; done].
  destruct (find_index _ _) as [i|]; [destruct (_ !! i) as [h|]; [destruct (tps_changed _ _)|]|];
    injection E as <- <-; simpl; split; try done; [by apply Forall_insert|by constructor].
Qed.

Lemma loop_typed now pm sigs : forall acc sigs' acc',
  processSignals now pm sigs acc = (sigs', acc') -> Forall signal_typed sigs ->
  Forall (fun h => signal_typed (hsignal h)) (newHistoricalSignals acc) ->
  Forall signal_typed sigs' /\ Forall (fun h => signal_typed (hsignal h)) (newHistoricalSignals acc') /\
  (cache_typed (paramCache acc) -> cache_typed (paramCache acc')).
Proof.
  loop_ind sigs; intros Hs Hh; [done|]. inversion Hs as [|? ? Hs0 Hs1]; subst.
  destruct (step_typed _ _ _ _ _ _ H1 Hs0 Hh) as [Ht1 Hh1].
  destruct (IH _ _ _ H2 Hs1 Hh1) as (Ht2 & Hh2 & Hc2).
  split; [by constructor|]. split; [done|]. intros Hc. apply Hc2.
  destruct (step_remove _ _ _ _ _ _ H1) as [[_ ->]|(_ & -> & _)]; [done|].
  rewrite ParamCacheOps.removeSignalFromCache_delete. by apply map_Forall_delete.
Qed.

Lemma nodup_map_eq {A B} (f : A -> B) l a b :
  NoDup (map f l) -> In a l -> In b l -> f a = f b -> a = b.
Proof.
  induction l as [|x l IH]; simpl; [tauto|]. intros Hn Ha Hb E.
  apply NoDup_cons in Hn as [Hx Hn].
  destruct Ha as [<-|Ha], Hb as [<-|Hb]; try done; try (by apply IH).
  - exfalso. apply Hx. rewrite E. apply list_elem_of_In, in_map, Hb.
  - exfalso. apply Hx. rewrite <- E. apply list_elem_of_In, in_map, Ha.
Qed.

Lemma board_keys_nodup b : board_wf b -> NoDup (map signal_key b).
Proof.
  intros [Hn Hw]. induction b as [|s b IH]; simpl; [constructor|].
  apply NoDup_cons in Hn as [Hs Hn]. inversion Hw as [|? ? Hw0 Hw1]; subst.
  constructor; [|by apply IH].
  intros Hin. apply list_elem_of_In, in_map_iff in Hin as (s2 & Hk & Hs2).
  apply key_inj in Hk as [Hid _]; [|by apply (proj1 (List.Forall_forall _ _) Hw1)|done].
  apply Hs. rewrite <- Hid. apply list_elem_of_In, in_map, Hs2.
Qed.

Lemma slots_ids sigs sigs' : Forall2 slot_rel sigs sigs' -> map sig_id sigs' = map sig_id sigs.
Proof. induction 1 as [|s s' l l' [Hp _] _ IH]; simpl; [done|]. unfold sig_id at 1 3. by rewrite Hp, IH. Qed.

Lemma slot_of_right sigs sigs' s' :
  Forall2 slot_rel sigs sigs' -> In s' sigs' -> exists s, In s sigs /\ slot_rel s s'.
Proof.
  induction 1 as [|s s1 l l' Hr _ IH]; simpl; [tauto|].
  intros [<-|H]; [eauto|]. destruct (IH H) as (s0 & ? & ?). eauto.
Qed.

Lemma slot_of_left sigs sigs' s :
  Forall2 slot_rel sigs sigs' -> In s sigs -> exists s', In s' sigs' /\ slot_rel s s'.
Proof.
  induction 1 as [|s0 s1 l l' Hr _ IH]; simpl; [tauto|].
  intros [<-|H]; [eauto|]. destruct (IH H) as (s' & ? & ?). eauto.
Qed.

Lemma slot_id s s' : slot_rel s s' -> sig_id s' = sig_id s.
Proof. intros [Hp _]. unfold sig_id. by rewrite Hp. Qed.

Lemma nodup_map_filter {A B} (f : A -> B) p l : NoDup (map f l) -> NoDup (map f (List.filter p l)).
Proof.
  induction l as [|x l IH]; simpl; [done|]. intros Hn. apply NoDup_cons in Hn as [Hx Hn].
  destruct (p x); simpl; [|by apply IH]. constructor; [|by apply IH].
  intros Hin. apply Hx. apply list_elem_of_In in Hin. apply list_elem_of_In. apply in_map_iff in Hin as (y & <- & Hy).
  apply in_map. by apply filter_In in Hy as [? _].
Qed.

(** The history the handler publishes is the loop's history. *)
Lemma hist_published now pm e newActive acc :
  processSignals now pm (signals e) (acc0 e) = (newActive, acc) ->
  (if historyChanged acc then newHistoricalSignals acc else historicalSignals e) = newHistoricalSignals acc.
Proof.
  intros Hp. destruct (loop_changed _ _ _ _ _ _ Hp) as [[E1 E2]|E1]; rewrite E1; simpl; [by rewrite E2|done].
Qed.

(** A record written for [s] survives the rest of the loop. *)
Lemma loop_find_after now pm sigs s r : forall acc sigs' acc',
  processSignals now pm sigs acc = (sigs', acc') -> In s sigs -> NoDup (map signal_key sigs) ->
  (forall a, hist_find (signal_key s) (newHistoricalSignals (processSignal now pm a s).2) = Some r) ->
  hist_find (signal_key s) (newHistoricalSignals acc') = Some r.
Proof.
  loop_ind sigs; intros Hin Hnd Hrec; [done|]. simpl in Hnd. apply NoDup_cons in Hnd as [Hs Hnd].
  destruct Hin as [<-|Hin]; [|by apply (IH acc1 rest acc2)].
  rewrite (loop_hist_other _ _ _ _ _ _ _ H2).
  - specialize (Hrec acc). by rewrite H1 in Hrec.
  - apply Forall_forall. intros s' Hs' E. apply Hs. rewrite E. apply list_elem_of_In, in_map, list_elem_of_In, Hs'.
Qed.

(** The fifth target reached at the current price: the step writes a
    WIN record, whatever the stop says; the record does not depend on
    the rest of the loop's state. *)
Lemma step_win now pm s td tp :
  ~ aged now s -> pm ≫= lookup (sig_id s) = Some td ->
  takeProfit (params s) !! 4%nat = Some tp -> tp_reached (direction (params s)) (pd_price td) tp = true ->
  exists r, params (hsignal r) = params s /\ status r = WIN /\
    resultPercent r = terminalResult (params s) WIN /\ resolvedAt r = now /\
    forall acc, processSignal now pm acc s =
      (s, set_history (evict acc s) (upsert (signal_key s) r (newHistoricalSignals acc))).
Proof.
  unfold aged. intros Ha Hl Htp Hr.
  destruct (scanTargets (direction (params s)) (pd_price td) (takeProfit (params s))
              (default no_hits (tpsHit s))) as [newT hasNew] eqn:Hs.
  assert (H4 : nth 4 newT false = true).
  { change newT with (newT, hasNew).1. rewrite <- Hs. eapply scanTargets_sets; [lia|exact Htp|exact Hr]. }
  eexists (mkHist (if hasNew then with_tps (with_live s (pd_price td) (pd_change td) (pd_volume td)) newT
                   else with_live s (pd_price td) (pd_change td) (pd_volume td))
                  WIN (terminalResult (params s) WIN) now).
  split; [by destruct hasNew|]. do 3 (split; [done|]). intros acc. unfold processSignal.
  destruct (TWO_HOURS_IN_MS <? now - sig_ts s)%Z eqn:E; [apply Z.ltb_lt in E; lia|].
  rewrite Hl. simpl. rewrite Hs. unfold resolution. rewrite H4. simpl.
  unfold upsert. by destruct (find_index _ _).
Qed.

Definition agedb (now : Z) (s : TradingSignal) : bool := (TWO_HOURS_IN_MS <? now - sig_ts s)%Z.

Lemma step_offline now acc s :
  processSignal now None acc s = if agedb now s then (s, evict acc s) else (s, acc).
Proof. unfold processSignal, agedb. by destruct (_ <? _)%Z. Qed.

(** Without a price map the loop only evicts the expired signals. *)
Lemma loop_offline now sigs : forall acc,
  processSignals now None sigs acc =
  (sigs, mkAcc (newHistoricalSignals acc)
               (signalsToRemoveFromActive acc ++ map sig_id (List.filter (agedb now) sigs))
               (historyChanged acc)
               (fold_left (fun c s => if agedb now s then ParamCacheOps.removeSignalFromCache (sig_id s) c else c)
                          sigs (paramCache acc))).
Proof.
  induction sigs as [|s sigs IH]; intros acc; simpl.
  - rewrite app_nil_r. by destruct acc.
  - rewrite step_offline. destruct (agedb now s); rewrite IH; simpl; [|done].
    by rewrite <- app_assoc.
Qed.

Lemma survivors_aged now sigs :
  NoDup (map sig_id sigs) ->
  survivors (map sig_id (List.filter (agedb now) sigs)) sigs = List.filter (fun s => negb (agedb now s)) sigs.
Proof.
  intros Hn. unfold survivors. apply filter_ext_in. intros s Hs. f_equal.
  destruct (agedb now s) eqn:Ea.
  - apply DailyLedger.existsb_eqb_In, in_map, filter_In. done.
  - apply DailyLedger.existsb_eqb_notIn. intros Hin. apply in_map_iff in Hin as (s2 & Hid & Hs2).
    apply filter_In in Hs2 as [Hs2 Ea2]. rewrite (nodup_map_eq _ _ _ _ Hn Hs2 Hs Hid) in Ea2. congruence.
Qed.

Lemma board_wf_perm l l' : l ≡ₚ l' -> board_wf l -> board_wf l'.
Proof.
  intros Hp [Hn Hf]. split.
  - by rewrite <- (Permutation_map sig_id Hp).
  - apply List.Forall_forall. intros x Hx. apply (proj1 (List.Forall_forall _ _) Hf).
    by apply (Permutation_in _ (Permutation_sym Hp)).
Qed.

Lemma length_survivors removed l : (length (survivors removed l) <= length l)%nat.
Proof.
  induction l as [|x l IH]; simpl; [lia|]. unfold survivors in *. simpl.
  destruct (negb _); simpl; lia.
Qed.

Lemma st1_cache_ok now pm e newActive acc :
  processSignals now pm (signals e) (acc0 e) = (newActive, acc) ->
  cache_ok (signalParametersCache (store e)) ->
  cache_ok (signalParametersCache (set_param_cache (store e) (paramCache acc))).
Proof. intros Hp Hc. simpl. eapply loop_cache_ok; [exact Hp|exact Hc]. Qed.

(** A survivor list misses every slot whose id was retired. *)
Lemma survivors_shorter removed l x :
  In x l -> In (sig_id x) removed -> (length (survivors removed l) < length l)%nat.
Proof.
  unfold survivors. induction l as [|y l IH]; simpl; [done|]. intros [<-|Hx] Hr.
  - apply DailyLedger.existsb_eqb_In in Hr. rewrite Hr. simpl.
    pose proof (length_survivors removed l) as H. unfold survivors in H. lia.
  - specialize (IH Hx Hr). destruct (negb _); simpl; lia.
Qed.

Lemma length_board_sort l : length (sortByTimestampDesc l) = length l.
Proof. apply Permutation_length, sort_perm. Qed.

End TickFacts.

(** ** The tick's theorems *)

Module TickTheorems.
Import BoardSort Run TickFacts.

Section WithProvider.
Context {Market : Type} `{SignalProviderLaws Market}.

(** The runs of the interval ([setInterval(tick, 5000)] in [App.tsx]):
    the engine after any sequence of ticks, each with its own exchange
    data, clock and snapshot, each completing before the next starts
    (the interval does not enforce this for slow ticks). *)
Inductive ticks : Engine -> Engine -> Prop :=
| ticks_done e : ticks e e
| ticks_step mkt now tks e e1 err e' :
    fetchSignals mkt now tks e = (e1, err) -> ticks e1 e' -> ticks e e'.

(** The ticks of a run whose clock is past [t]. *)
Inductive ticks_after (t : Z) : Engine -> Engine -> Prop :=
| ticks_after_done e : ticks_after t e e
| ticks_after_step mkt now tks e e1 err e' :
    (t < now)%Z -> fetchSignals mkt now tks e = (e1, err) -> ticks_after t e1 e' -> ticks_after t e e'.


Lemma fetch_board_size mkt now tks e e' err :
  board_within_capacity (signals e) -> cache_ok (signalParametersCache (store e)) -> fetchSignals mkt now tks e = (e', err) ->
  board_within_capacity (signals e').
Proof.
  unfold board_within_capacity, BOARD_SIZE. intros Hl Hc E. destruct (fetch_inv _ _ _ _ _ _ E) as (newActive & acc & Hp & _ & Hcase).
  pose proof (st1_cache_ok _ _ _ _ _ Hp Hc) as Hc1.
  pose proof (loop_slots _ _ _ _ _ _ Hp) as Hlen. apply Forall2_length in Hlen.
  pose proof (length_survivors (signalsToRemoveFromActive acc) newActive) as Hsv.
  destruct Hcase as [(_ & -> & _)|(nw & -> & _ & Hnw)]; [done|].
  rewrite length_board_sort, length_app.
  destruct Hnw as [(-> & _)|(_ & Hlt & Hg)]; simpl; [lia|].
  pose proof (gts_length _ _ _ _ _ _ _ Hc1 Hg). unfold BOARD_SIZE in *. lia.
Qed.

Lemma fetch_board_wf mkt now tks e e' err :
  board_wf (signals e) -> cache_ok (signalParametersCache (store e)) ->
  fetchSignals mkt now tks e = (e', err) -> board_wf (signals e').
Proof.
  intros Hwf Hc E. destruct (fetch_inv _ _ _ _ _ _ E) as (newActive & acc & Hp & _ & Hcase).
  pose proof (st1_cache_ok _ _ _ _ _ Hp Hc) as Hc1.
  pose proof (loop_slots _ _ _ _ _ _ Hp) as Hsl.
  destruct Hcase as [(_ & -> & _)|(nw & -> & _ & Hnw)]; [done|].
  eapply board_wf_perm; [symmetry; apply sort_perm|].
  set (still := survivors _ newActive).
  assert (Hst : board_wf still).
  { destruct Hwf as [Hn Hf]. split.
    - apply nodup_map_filter. by rewrite (slots_ids _ _ Hsl).
    - apply List.Forall_forall. intros x Hx. apply survivors_in in Hx as [Hx _].
      destruct (slot_of_right _ _ _ Hsl Hx) as (s0 & Hs0 & Hr). rewrite (slot_id _ _ Hr).
      by apply (proj1 (List.Forall_forall _ _) Hf). }
  destruct Hnw as [(-> & _)|(_ & _ & Hg)]; [by rewrite app_nil_r|].
  destruct Hst as [Hn Hf]. split.
  - rewrite map_app. apply NoDup_app. split; [done|]. split; [|exact (gts_nodup _ _ _ _ _ _ _ Hc1 Hg)].
    intros x Hx Hx'. apply list_elem_of_In, in_map_iff in Hx' as (s' & <- & Hs').
    by apply (gts_exclude _ _ _ _ _ _ _ Hc1 Hg s' Hs'), list_elem_of_In.
  - apply List.Forall_app. split; [done|]. apply List.Forall_forall. exact (gts_ids _ _ _ _ _ _ _ Hc1 Hg).
Qed.

Lemma fetch_history_wf mkt now tks e e' err :
  history_wf (historicalSignals e) -> fetchSignals mkt now tks e = (e', err) ->
  history_wf (historicalSignals e').
Proof.
  intros Hn E. destruct (fetch_inv _ _ _ _ _ _ E) as (newActive & acc & Hp & -> & _).
  rewrite (hist_published _ _ _ _ _ Hp). by eapply loop_hist_nodup.
Qed.

Lemma fetch_history_consistent mkt now tks e e' err :
  history_consistent (historicalSignals e) -> fetchSignals mkt now tks e = (e', err) ->
  history_consistent (historicalSignals e').
Proof.
  intros Hf E. destruct (fetch_inv _ _ _ _ _ _ E) as (newActive & acc & Hp & -> & _).
  rewrite (hist_published _ _ _ _ _ Hp). by eapply loop_records.
Qed.

(** C1: Hit flags are sticky: a flag set on a board signal is still set
    on the signal with its id after the tick, unless the signal was
    retired this tick (it expired, or the published history holds a
    terminal record for it) and a new signal took its symbol. *)
Theorem tick_tps_sticky mkt now tks e e' err s s' :
  board_wf (signals e) -> cache_ok (signalParametersCache (store e)) -> fetchSignals mkt now tks e = (e', err) ->
  In s (signals e) -> In s' (signals e') -> sig_id s' = sig_id s ->
  flags_le (hits s) (hits s') \/ aged now s \/
  exists r, hist_find (signal_key s) (historicalSignals e') = Some r /\ terminal (status r).
Proof.
  intros Hwf Hc E Hs Hs' Hid.
  destruct (fetch_inv _ _ _ _ _ _ E) as (newActive & acc & Hp & Hh & Hcase).
  pose proof (st1_cache_ok _ _ _ _ _ Hp Hc) as Hc1.
  pose proof (loop_slots _ _ _ _ _ _ Hp) as Hsl.
  destruct Hcase as [(_ & He & _)|(nw & He & _ & Hnw)].
  { left. rewrite He in Hs'. rewrite (nodup_map_eq _ _ _ _ (proj1 Hwf) Hs' Hs Hid). apply flags_le_refl. }
  rewrite He, sort_in in Hs'. apply in_app_or in Hs' as [Hs'|Hs'].
  - left. apply survivors_in in Hs' as [Hs' _].
    destruct (slot_of_right _ _ _ Hsl Hs') as (s0 & Hs0 & Hr).
    assert (s0 = s) as <-; [|apply Hr].
    apply (nodup_map_eq sig_id (signals e)); [apply Hwf|done|done|]. by rewrite <- (slot_id _ _ Hr).
  - right. destruct (slot_of_left _ _ _ Hsl Hs) as (s1 & Hs1 & Hr1).
    assert (Hrm : In (sig_id s) (signalsToRemoveFromActive acc)).
    { destruct (In_dec string_dec (sig_id s) (signalsToRemoveFromActive acc)) as [|Hn]; [done|exfalso].
      assert (Hst : In s1 (survivors (signalsToRemoveFromActive acc) newActive))
        by (apply survivors_in; by rewrite (slot_id _ _ Hr1)).
      destruct Hnw as [(-> & _)|(_ & _ & Hg)]; [done|].
      apply (gts_exclude _ _ _ _ _ _ _ Hc1 Hg s' Hs'). rewrite Hid, <- (slot_id _ _ Hr1).
      by apply in_map. }
    destruct (loop_remove_in _ _ _ _ _ _ _ Hp (board_keys_nodup _ Hwf) Hrm) as [[]|(s2 & Hs2 & Hid2 & Hwhy)].
    assert (s2 = s) as -> by (apply (nodup_map_eq sig_id (signals e)); [apply Hwf|done|done|done]).
    rewrite Hh, (hist_published _ _ _ _ _ Hp). destruct Hwhy; [by left|by right].
Qed.

(** C2: WIN takes priority: when the price reaches the fifth take-profit
    level, the published history holds a WIN record for the signal,
    with the raw move to that level and the tick's instant, even when
    the same price has crossed the stop. *)
Theorem tick_win_priority mkt now tks e e' err s pd tp :
  board_wf (signals e) -> fetchSignals mkt now (Some tks) e = (e', err) ->
  In s (signals e) -> (now - sig_ts s <= TWO_HOURS_IN_MS)%Z ->
  priceMapOf tks !! sig_id s = Some pd ->
  takeProfit (params s) !! 4%nat = Some tp -> tp_reached (direction (params s)) (pd_price pd) tp = true ->
  exists r, hist_find (signal_key s) (historicalSignals e') = Some r /\ status r = WIN /\
    resultPercent r = pctMove (direction (params s)) (entryPrice (params s)) (nth 4 (takeProfit (params s)) 0) /\
    resolvedAt r = now.
Proof.
  intros Hwf E Hs Hage Hpd Htp Hr.
  destruct (fetch_inv _ _ _ _ _ _ E) as (newActive & acc & Hp & Hh & _).
  assert (Hna : ~ aged now s) by (unfold aged; lia).
  destruct (step_win now (Some (priceMapOf tks)) s pd tp Hna Hpd Htp Hr) as (r & Hrp & Hst & Hres & Hat & Hproc).
  exists r. rewrite Hh, (hist_published _ _ _ _ _ Hp). split; [|done].
  eapply loop_find_after; [exact Hp|done|by apply board_keys_nodup|].
  intros a. rewrite Hproc. simpl. apply upsert_find_same. by apply hist_key_params.
Qed.

(** The board never holds more than eight signals. *)
Theorem tick_board_size mkt now tks e e' err :
  board_within_capacity (signals e) -> cache_ok (signalParametersCache (store e)) -> fetchSignals mkt now tks e = (e', err) ->
  board_within_capacity (signals e').
Proof. apply fetch_board_size. Qed.

(** The board keeps distinct ids, all of them exchange symbols. *)
Theorem tick_board_wf mkt now tks e e' err :
  board_wf (signals e) -> cache_ok (signalParametersCache (store e)) ->
  fetchSignals mkt now tks e = (e', err) -> board_wf (signals e').
Proof. apply fetch_board_wf. Qed.

(** The published board is sorted by creation time, newest first. *)
Theorem tick_board_sorted mkt now tks e e' err :
  fetchSignals mkt now tks e = (e', Some err) -> Sorted newer_first (signals e').
Proof.
  intros E. destruct (fetch_inv _ _ _ _ _ _ E) as (newActive & acc & _ & _ & Hcase).
  destruct Hcase as [(? & _)|(nw & -> & _)]; [discriminate|apply sort_sorted].
Qed.

(** C10: The history keeps at most one record per signal instance (per
    [signal.id + signal.timestamp] key). *)
Theorem tick_history_unique mkt now tks e e' err :
  history_wf (historicalSignals e) -> fetchSignals mkt now tks e = (e', err) ->
  history_wf (historicalSignals e').
Proof. apply fetch_history_wf. Qed.

(** C11: Every record of the published history is consistent with its
    signal: WIN and LOSS records carry the raw percent move (no
    leverage) from the entry midpoint to the fifth target or to the
    stop, PARTIAL_WIN records the move to a level the signal hit. *)
Theorem tick_records_ok mkt now tks e e' err :
  history_consistent (historicalSignals e) -> fetchSignals mkt now tks e = (e', err) ->
  history_consistent (historicalSignals e').
Proof. apply fetch_history_consistent. Qed.

(** An expired signal is gone after a published tick: from the board,
    and from the cache, where only its own id could file it and the
    loop deleted that entry; the provider only adds entries created now. *)
Lemma fetch_evicts_plan mkt now tks e e' err s :
  board_wf (signals e) -> cache_ok (signalParametersCache (store e)) -> fetchSignals mkt now tks e = (e', Some err) ->
  In s (signals e) -> (TWO_HOURS_IN_MS < now - sig_ts s)%Z -> plan_absent (params s) e'.
Proof.
  intros Hwf Hc E Hs Hage. unfold plan_absent.
  destruct (fetch_inv _ _ _ _ _ _ E) as (newActive & acc & Hp & _ & Hcase).
  pose proof (st1_cache_ok _ _ _ _ _ Hp Hc) as Hc1.
  pose proof (loop_aged _ _ _ _ _ _ _ Hp Hs Hage) as Hrm.
  assert (Hnone : signalParametersCache (set_param_cache (store e) (paramCache acc)) !! sig_id s = None).
  { simpl. apply (loop_remove_cache _ _ _ _ _ _ _ Hp Hrm). simpl. tauto. }
  assert (Hts : timestamp (params s) <> now) by (unfold sig_ts, TWO_HOURS_IN_MS in Hage; lia).
  assert (Hst : forall k, signalParametersCache (set_param_cache (store e) (paramCache acc)) !! k <> Some (params s)).
  { intros k Hk. pose proof (map_Forall_lookup_1 _ _ _ _ Hc1 Hk) as Hid. simpl in Hid.
    rewrite <- Hid in Hk. unfold sig_id in Hnone. congruence. }
  destruct Hcase as [(? & _)|(nw & He & _ & Hnw)]; [discriminate|].
  split.
  - intros s' Hs' Hps. assert (Hid : sig_id s' = sig_id s) by (unfold sig_id; by rewrite Hps).
    rewrite He, sort_in in Hs'. apply in_app_or in Hs' as [Hs'|Hs'].
    + apply survivors_in in Hs' as [_ Hn]. by rewrite Hid in Hn.
    + destruct Hnw as [(-> & _)|(_ & _ & Hg)]; [done|].
      destruct (gts_origin _ _ _ _ _ _ _ Hc1 Hg s' Hs') as [Ht|Hk].
      * apply Hts. unfold sig_ts in Ht. by rewrite <- Hps.
      * rewrite Hid, Hnone in Hk. discriminate.
  - intros k Hk. destruct Hnw as [(_ & Hst' & _)|(_ & _ & Hg)]; [rewrite Hst' in Hk; exact (Hst k Hk)|].
    destruct (gts_cache_from _ _ _ _ _ _ _ Hc1 Hg k _ Hk) as [Hk'|Ht]; [exact (Hst k Hk')|exact (Hts Ht)].
Qed.

(** A tick at another instant than a parameter set's creation keeps it
    absent: survivors keep their parameters, the provider takes the
    others from the cache or creates them now. *)
Lemma fetch_keeps_absent mkt now tks e e' err P :
  cache_ok (signalParametersCache (store e)) -> timestamp P <> now -> plan_absent P e ->
  fetchSignals mkt now tks e = (e', err) -> plan_absent P e'.
Proof.
  intros Hc Ht [Hb Hk] E. unfold plan_absent.
  destruct (fetch_inv _ _ _ _ _ _ E) as (newActive & acc & Hp & _ & Hcase).
  pose proof (st1_cache_ok _ _ _ _ _ Hp Hc) as Hc1.
  assert (Hst : forall k, signalParametersCache (set_param_cache (store e) (paramCache acc)) !! k <> Some P).
  { intros k Hk'. apply (Hk k). exact (loop_cache_sub _ _ _ _ _ _ _ _ Hp Hk'). }
  assert (Hnew : forall r st', getTradingSignals mkt now (Z.to_nat (BOARD_SIZE - Z.of_nat
      (length (survivors (signalsToRemoveFromActive acc) newActive))))
      (map sig_id (survivors (signalsToRemoveFromActive acc) newActive))
      (set_param_cache (store e) (paramCache acc)) = (r, st') ->
      forall k, signalParametersCache st' !! k <> Some P).
  { intros r st' Hg k Hk'. destruct (gts_cache_from _ _ _ _ _ _ _ Hc1 Hg k _ Hk') as [Ho|Ho];
      [exact (Hst k Ho)|exact (Ht Ho)]. }
  destruct Hcase as [(_ & -> & _ & Hg)|(nw & He & _ & Hnw)]; [split; [exact Hb|exact (Hnew _ _ Hg)]|].
  split.
  - intros s' Hs' Hps. rewrite He, sort_in in Hs'. apply in_app_or in Hs' as [Hs'|Hs'].
    + apply survivors_in in Hs' as [Hs' _].
      destruct (slot_of_right _ _ _ (loop_slots _ _ _ _ _ _ Hp) Hs') as (s0 & Hs0 & [Hp0 _]).
      apply (Hb s0 Hs0). by rewrite <- Hp0.
    + destruct Hnw as [(-> & _)|(_ & _ & Hg)]; [done|].
      destruct (gts_origin _ _ _ _ _ _ _ Hc1 Hg s' Hs') as [Ho|Ho].
      * apply Ht. rewrite <- Hps. exact Ho.
      * rewrite Hps in Ho. exact (Hst _ Ho).
  - destruct Hnw as [(_ & -> & _)|(_ & _ & Hg)]; [exact Hst|exact (Hnew _ _ Hg)].
Qed.

(** C3: Expiry: a signal older than two hours is gone from the published
    board, whatever the price feed says; no signal of the new board
    carries its parameters. *)
Theorem tick_expired_evicted mkt now tks e e' err s :
  board_wf (signals e) -> cache_ok (signalParametersCache (store e)) -> fetchSignals mkt now tks e = (e', Some err) ->
  In s (signals e) -> (TWO_HOURS_IN_MS < now - sig_ts s)%Z ->
  forall s', In s' (signals e') -> params s' <> params s.
Proof.
  intros Hwf Hc E Hs Hage. exact (proj1 (fetch_evicts_plan _ _ _ _ _ _ _ Hwf Hc E Hs Hage)).
Qed.

(** The parameter cache keeps every parameter set under its own id
    across a tick: the loop only deletes entries, and the provider keeps
    the invariant. *)
Lemma fetch_cache_ok mkt now tks e e' err :
  cache_ok (signalParametersCache (store e)) -> fetchSignals mkt now tks e = (e', err) ->
  cache_ok (signalParametersCache (store e')).
Proof.
  intros Hc E. destruct (fetch_inv _ _ _ _ _ _ E) as (newActive & acc & Hp & _ & Hcase).
  pose proof (st1_cache_ok _ _ _ _ _ Hp Hc) as Hc1.
  destruct Hcase as [(_ & _ & _ & Hg)|(nw & _ & _ & [(_ & -> & _)|(_ & _ & Hg)])];
    [exact (gts_cache _ _ _ _ _ _ _ Hc1 Hg)|exact Hc1|exact (gts_cache _ _ _ _ _ _ _ Hc1 Hg)].
Qed.

(** One tick keeps the engine invariant. *)
Lemma fetch_engine_inv mkt now tks e e' err :
  engine_inv e -> fetchSignals mkt now tks e = (e', err) -> engine_inv e'.
Proof.
  intros (Hwf & Hl & Hn & Hr & Hc) E.
  split; [exact (fetch_board_wf _ _ _ _ _ _ Hwf Hc E)|].
  split; [exact (fetch_board_size _ _ _ _ _ _ Hl Hc E)|].
  split; [exact (fetch_history_wf _ _ _ _ _ _ Hn E)|].
  split; [exact (fetch_history_consistent _ _ _ _ _ _ Hr E)|exact (fetch_cache_ok _ _ _ _ _ _ Hc E)].
Qed.

(** C21: The engine invariant (a well-formed board within capacity,
    one consistent history record per signal instance, a cache filed
    by id) holds after any sequence of ticks from a state that
    satisfies it, whatever the exchange, the clock and the snapshots. *)
Theorem ticks_preserve_inv e e' :
  engine_inv e -> ticks e e' -> engine_inv e'.
Proof.
  intros Hi Ht. induction Ht as [|mkt now tks e e1 err e' E _ IH]; [exact Hi|].
  exact (IH (fetch_engine_inv _ _ _ _ _ _ Hi E)).
Qed.

(** One tick keeps the types: the loop only rewrites the hit flags with
    five flags, and the provider returns five-target signals. *)
Lemma fetch_typed mkt now tks e e' err :
  cache_ok (signalParametersCache (store e)) -> engine_typed e -> fetchSignals mkt now tks e = (e', err) ->
  engine_typed e'.
Proof.
  intros Hok (Hs & Hh & Hc) E. destruct (fetch_inv _ _ _ _ _ _ E) as (newActive & acc & Hp & Hhist & Hcase).
  destruct (loop_typed _ _ _ _ _ _ Hp Hs Hh) as (Hn & Hh' & Hc0).
  assert (Hc' : cache_typed (signalParametersCache (set_param_cache (store e) (paramCache acc)))) by exact (Hc0 Hc).
  pose proof (st1_cache_ok _ _ _ _ _ Hp Hok) as Hok1.
  split; [|split; [rewrite Hhist; by destruct (historyChanged acc)|]].
  - destruct Hcase as [(_ & -> & _)|(nw & He & _ & Hnw)]; [exact Hs|].
    rewrite He. apply List.Forall_forall. intros s Hin. rewrite sort_in in Hin.
    apply in_app_or in Hin as [Hin|Hin].
    + apply survivors_in in Hin as [Hin _]. exact (proj1 (List.Forall_forall _ _) Hn s Hin).
    + destruct Hnw as [(-> & _)|(_ & _ & Hg)]; [done|]. split.
      * exact (gts_targets _ _ _ _ _ _ _ Hc' Hg s Hin).
      * intros l Hl. by rewrite (gts_fresh _ _ _ _ _ _ _ Hok1 Hg s Hin) in Hl.
  - destruct Hcase as [(_ & _ & _ & Hg)|(nw & _ & _ & [(_ & -> & _)|(_ & _ & Hg)])];
      [exact (gts_cache_typed _ _ _ _ _ _ _ Hc' Hg)|exact Hc'|exact (gts_cache_typed _ _ _ _ _ _ _ Hc' Hg)].
Qed.

(** C22: The engine keeps the types of [src/types.ts] that the
    TypeScript compiler cannot check at run time: after any run of
    ticks from a state that satisfies the invariant, every signal on
    the board and in the history has exactly five take-profit levels
    and, when it has hit flags, exactly five of them, and every cached
    parameter set has five targets. *)
Theorem ticks_preserve_typed e e' :
  engine_inv e -> engine_typed e -> ticks e e' -> engine_typed e'.
Proof.
  intros Hi Ht Hr. induction Hr as [|mkt now tks e e1 err e' E _ IH]; [exact Ht|].
  apply IH; [exact (fetch_engine_inv _ _ _ _ _ _ Hi E)|].
  exact (fetch_typed _ _ _ _ _ _ (proj2 (proj2 (proj2 (proj2 Hi)))) Ht E).
Qed.

(** Both invariants together along a run, for the clients of the
    engine's history. *)
Lemma ticks_inv_typed e e' :
  engine_inv e -> engine_typed e -> ticks e e' -> engine_inv e' /\ engine_typed e'.
Proof.
  intros Hi Ht Hr. induction Hr as [|mkt now tks e e1 err e' E _ IH]; [done|].
  apply IH; [exact (fetch_engine_inv _ _ _ _ _ _ Hi E)|].
  exact (fetch_typed _ _ _ _ _ _ (proj2 (proj2 (proj2 (proj2 Hi)))) Ht E).
Qed.

(** C16: Eventual and lasting eviction: a signal on the board of an
    engine that satisfies the invariant is gone at the first tick that
    publishes the board more than two hours after its creation, and no
    later tick of the run brings its parameters back, neither from the
    cache nor from the provider, which creates parameters at the
    current instant. *)
Theorem expired_signal_leaves_for_good mkt now tks e e1 err e' s :
  engine_inv e -> In s (signals e) -> (TWO_HOURS_IN_MS < now - sig_ts s)%Z ->
  fetchSignals mkt now tks e = (e1, Some err) -> ticks_after (sig_ts s) e1 e' ->
  forall s', In s' (signals e') -> params s' <> params s.
Proof.
  intros (Hwf & _ & _ & _ & Hc) Hs Hage E Hrun.
  pose proof (fetch_evicts_plan _ _ _ _ _ _ _ Hwf Hc E Hs Hage) as Ha.
  pose proof (fetch_cache_ok _ _ _ _ _ _ Hc E) as Hc1.
  clear E Hwf Hc. revert Ha Hc1.
  induction Hrun as [|mkt' now' tks' e0 e2 err' e3 Hlt E' _ IH]; intros Ha Hc1; [exact (proj1 Ha)|].
  apply IH; [|exact (fetch_cache_ok _ _ _ _ _ _ Hc1 E')].
  eapply fetch_keeps_absent; [exact Hc1| |exact Ha|exact E']. unfold sig_ts in Hlt. lia.
Qed.

(** The tick without a ticker snapshot. *)
Lemma fetch_offline mkt now e e' err :
  board_wf (signals e) -> fetchSignals mkt now None e = (e', err) ->
  err = Some (Some ConnectionLost) /\ historicalSignals e' = historicalSignals e /\
  alertsItem (store e') = alertsItem (store e) /\
  signals e' = sortByTimestampDesc (List.filter (fun s => negb (agedb now s)) (signals e)).
Proof.
  intros Hwf E. destruct (fetch_inv _ _ _ _ _ _ E) as (newActive & acc & Hp & Hh & Hcase).
  simpl in Hp. rewrite loop_offline in Hp. injection Hp as <- <-. simpl in *.
  destruct Hcase as [(_ & _ & ? & _)|(nw & He & Herr & Hnw)]; [done|].
  destruct Hnw as [(-> & Hst & _)|(? & _)]; [|done].
  split; [done|]. split; [done|]. split; [by rewrite Hst|].
  rewrite He, app_nil_r. f_equal. by apply survivors_aged, Hwf.
Qed.

(** Degraded mode: when the ticker snapshot cannot be fetched the tick
    reports the connection error, leaves the history and the daily
    ledger alone, requests no signal, and publishes the board minus
    its expired signals, every other signal unchanged. *)
Theorem tick_offline mkt now e e' err :
  board_wf (signals e) -> fetchSignals mkt now None e = (e', err) ->
  err = Some (Some ConnectionLost) /\ historicalSignals e' = historicalSignals e /\
  alertsItem (store e') = alertsItem (store e) /\
  signals e' = sortByTimestampDesc (List.filter (fun s => negb (agedb now s)) (signals e)).
Proof. apply fetch_offline. Qed.

(** C17: When [getTradingSignals] throws on the market of the tick (for
    instance the exchange-info request fails), the handler rejects
    before [setSignals]: a board holding an expired signal is not
    republished, so the signal stays on it although the loop evicted it,
    and no error is set. *)
Theorem tick_rejected_keeps_board mkt now tl e s :
  (forall n ex st, fst (getTradingSignals mkt now n ex st) = None) ->
  board_within_capacity (signals e) -> In s (signals e) -> (TWO_HOURS_IN_MS < now - sig_ts s)%Z ->
  snd (fetchSignals mkt now (Some tl) e) = None /\
  signals (fst (fetchSignals mkt now (Some tl) e)) = signals e /\
  In s (signals (fst (fetchSignals mkt now (Some tl) e))).
Proof.
  intros Hthrow Hcap Hs Hage.
  destruct (fetchSignals mkt now (Some tl) e) as [e' err] eqn:E. cbn [fst snd].
  destruct (fetch_inv _ _ _ _ _ _ E) as (newActive & acc & Hp & _ & Hcase).
  pose proof (loop_slots _ _ _ _ _ _ Hp) as Hsl.
  destruct (slot_of_left _ _ _ Hsl Hs) as (s' & Hs' & Hr).
  assert (Hrm : In (sig_id s') (signalsToRemoveFromActive acc))
    by (rewrite (slot_id _ _ Hr); exact (loop_aged _ _ _ _ _ _ _ Hp Hs Hage)).
  pose proof (survivors_shorter _ _ _ Hs' Hrm) as Hlt. apply Forall2_length in Hsl.
  unfold board_within_capacity, BOARD_SIZE in Hcap.
  destruct Hcase as [(-> & He & _)|(nw & _ & _ & [(_ & _ & [?|?])|(_ & _ & Hg)])].
  - rewrite He. done.
  - discriminate.
  - unfold BOARD_SIZE in *. lia.
  - apply (f_equal fst) in Hg. rewrite Hthrow in Hg. discriminate.
Qed.
End WithProvider.
End TickTheorems.

(** ** Concrete runs of the tick *)

Module TickExamples.
Import BoardSort Run TickFacts TickTheorems.

(** Two market behaviours for [getTradingSignals]: no symbol offers a
    setup (which satisfies the contract), and the call throws (for
    instance the exchange-info request fails). *)
Definition noSetups : SignalProvider unit := {| getTradingSignals := fun _ _ _ _ st => (Some [], st) |}.
Definition rejectAll : SignalProvider unit := {| getTradingSignals := fun _ _ _ _ st => (None, st) |}.

Lemma noSetups_laws : @SignalProviderLaws unit noSetups.
Proof.
  split; intros mkt now n ex st l st' Hc E; injection E as <- <-; simpl;
    try assumption; try lia; try (intros ? ? ?; by left); try (intros ? []); constructor.
Qed.

(** A LONG signal on BTCUSDT created at t = 1000 ms: entry zone
    [99, 101] (midpoint 100), stop 95, targets 101 .. 110. *)
Definition demoParams : CachedSignalParameters :=
  mkParams "BTCUSDT" "BTC" "USDT" LONG 90 (99, 101) 95 [101; 102; 103; 104; 110] "Alta" "" 5 1000.
Definition demoSignal : TradingSignal := mkSignal demoParams 100 0 None None.
Definition demoEngine : Engine := mkEngine [demoSignal] [] (mkStore ∅ None None AlertsMissing).
Definition demoTickers (p : Q) : list Binance.BinanceTicker := [Binance.mkTicker "BTCUSDT" 1 p 5].

Lemma demo_board_wf : board_wf (signals demoEngine).
Proof. split; [apply NoDup_singleton|repeat constructor]. Qed.

(** The run at t = 2000 ms with BTCUSDT at 102: targets 1 and 2 hit. *)
Lemma demo_engine_typed : engine_typed demoEngine.
Proof.
  split; [repeat constructor; intros l [=]|]. split; [constructor|apply map_Forall_empty].
Qed.

Lemma demo_engine_inv : engine_inv demoEngine.
Proof.
  split; [apply demo_board_wf|]. split; [unfold board_within_capacity, BOARD_SIZE; simpl; lia|].
  split; [constructor|]. split; [constructor|apply map_Forall_empty].
Qed.

Definition partialRun := @fetchSignals unit noSetups tt 2000 (Some (demoTickers 102)) demoEngine.
Definition partialSignal : TradingSignal :=
  mkSignal demoParams 102 1 (Some [true; true; false; false; false]) (Some 5).

Lemma tick_tps_sticky_witness :
  flags_le (hits demoSignal) (hits partialSignal) \/ aged 2000 demoSignal \/
  exists r, hist_find (signal_key demoSignal) (historicalSignals partialRun.1) = Some r /\ terminal (status r).
Proof.
  apply (@tick_tps_sticky unit noSetups noSetups_laws tt 2000 (Some (demoTickers 102)) demoEngine
           partialRun.1 partialRun.2 demoSignal partialSignal).
  - apply demo_board_wf.
  - apply map_Forall_empty.
  - apply surjective_pairing.
  - simpl. auto.
  - vm_compute. left. reflexivity.
  - reflexivity.
Defined.

(** The run at t = 2000 ms with BTCUSDT at 111: the fifth target is hit. *)
Definition winRun := @fetchSignals unit noSetups tt 2000 (Some (demoTickers 111)) demoEngine.

Lemma tick_win_priority_witness :
  exists r, hist_find (signal_key demoSignal) (historicalSignals winRun.1) = Some r /\ status r = WIN /\
    resultPercent r = pctMove LONG (entryPrice demoParams) 110 /\ resolvedAt r = 2000%Z.
Proof.
  apply (@tick_win_priority unit noSetups tt 2000 (demoTickers 111) demoEngine
           winRun.1 winRun.2 demoSignal (mkPriceData 111 1 5) 110).
  - apply demo_board_wf.
  - apply surjective_pairing.
  - simpl. auto.
  - vm_compute. discriminate.
  - reflexivity.
  - reflexivity.
  - reflexivity.
Defined.

Lemma tick_board_size_witness : board_within_capacity (signals partialRun.1).
Proof.
  apply (@tick_board_size unit noSetups noSetups_laws tt 2000 (Some (demoTickers 102)) demoEngine
           partialRun.1 partialRun.2).
  - vm_compute. discriminate.
  - apply map_Forall_empty.
  - apply surjective_pairing.
Defined.

Lemma tick_board_wf_witness : board_wf (signals partialRun.1).
Proof.
  apply (@tick_board_wf unit noSetups noSetups_laws tt 2000 (Some (demoTickers 102)) demoEngine
           partialRun.1 partialRun.2).
  - apply demo_board_wf.
  - apply map_Forall_empty.
  - apply surjective_pairing.
Defined.

Lemma tick_board_sorted_witness : Sorted newer_first (signals partialRun.1).
Proof.
  apply (@tick_board_sorted unit noSetups tt 2000 (Some (demoTickers 102)) demoEngine
           partialRun.1 None).
  reflexivity.
Defined.

Lemma tick_history_unique_witness : history_wf (historicalSignals winRun.1).
Proof.
  apply (@tick_history_unique unit noSetups tt 2000 (Some (demoTickers 111)) demoEngine
           winRun.1 winRun.2).
  - constructor.
  - apply surjective_pairing.
Defined.

Lemma tick_records_ok_witness : history_consistent (historicalSignals winRun.1).
Proof.
  apply (@tick_records_ok unit noSetups tt 2000 (Some (demoTickers 111)) demoEngine
           winRun.1 winRun.2).
  - constructor.
  - apply surjective_pairing.
Defined.

(** Two hours and one millisecond after creation, price unchanged. *)
Definition lateRun := @fetchSignals unit noSetups tt 7201001 (Some (demoTickers 100)) demoEngine.

Lemma tick_expired_evicted_witness :
  List.Forall (fun s' => params s' <> params demoSignal) (signals lateRun.1).
Proof.
  apply List.Forall_forall.
  apply (@tick_expired_evicted unit noSetups noSetups_laws tt 7201001 (Some (demoTickers 100)) demoEngine
           lateRun.1 (Some NoActiveSignals) demoSignal).
  - apply demo_board_wf.
  - apply map_Forall_empty.
  - reflexivity.
  - simpl. auto.
  - vm_compute. reflexivity.
Defined.

(** Two ticks from the demo engine: the targets 1 and 2 at 102, then the
    fifth target at 111. *)
Lemma ticks_preserve_inv_witness :
  engine_inv (@fetchSignals unit noSetups tt 3000 (Some (demoTickers 111)) partialRun.1).1.
Proof.
  apply (@ticks_preserve_inv unit noSetups noSetups_laws demoEngine); [apply demo_engine_inv|].
  eapply ticks_step; [apply surjective_pairing|].
  eapply ticks_step; [apply surjective_pairing|]. apply ticks_done.
Defined.

(** The two-tick run of the demo keeps the types; the first tick writes
    the five hit flags of the demo signal. *)
Lemma ticks_preserve_typed_witness :
  engine_typed (@fetchSignals unit noSetups tt 3000 (Some (demoTickers 111)) partialRun.1).1.
Proof.
  apply (@ticks_preserve_typed unit noSetups noSetups_laws demoEngine); [apply demo_engine_inv|apply demo_engine_typed|].
  eapply ticks_step; [apply surjective_pairing|].
  eapply ticks_step; [apply surjective_pairing|]. apply ticks_done.
Defined.

(** The demo signal, created at 1000 ms, is evicted by the tick at
    7201001 ms and stays away at the tick of 7300000 ms. *)
Lemma expired_signal_leaves_for_good_witness :
  List.Forall (fun s' => params s' <> params demoSignal)
    (signals (@fetchSignals unit noSetups tt 7300000 (Some (demoTickers 100)) lateRun.1).1).
Proof.
  apply List.Forall_forall.
  apply (@expired_signal_leaves_for_good unit noSetups noSetups_laws tt 7201001 (Some (demoTickers 100)) demoEngine
           lateRun.1 (Some NoActiveSignals)).
  - apply demo_engine_inv.
  - simpl. auto.
  - vm_compute. reflexivity.
  - reflexivity.
  - eapply ticks_after_step with (now := 7300000%Z); [vm_compute; reflexivity|apply surjective_pairing|].
    apply ticks_after_done.
Defined.

Definition offlineRun := @fetchSignals unit noSetups tt 7201001 None demoEngine.

Lemma tick_offline_witness :
  offlineRun.2 = Some (Some ConnectionLost) /\ historicalSignals offlineRun.1 = [] /\
  alertsItem (store offlineRun.1) = AlertsMissing /\
  signals offlineRun.1 = sortByTimestampDesc (List.filter (fun s => negb (agedb 7201001 s)) [demoSignal]).
Proof.
  apply (@tick_offline unit noSetups tt 7201001 demoEngine offlineRun.1 offlineRun.2).
  - apply demo_board_wf.
  - apply surjective_pairing.
Defined.

Definition rejectedRun := @fetchSignals unit rejectAll tt 7201001 (Some (demoTickers 100)) demoEngine.

Lemma tick_rejected_keeps_board_witness :
  (forall n ex st, fst (@getTradingSignals unit rejectAll tt 7201001 n ex st) = None) /\
  board_within_capacity (signals demoEngine) /\ In demoSignal (signals demoEngine) /\
  (TWO_HOURS_IN_MS < 7201001 - sig_ts demoSignal)%Z /\
  (snd rejectedRun = None) /\ (signals (fst rejectedRun) = signals demoEngine) /\
  In demoSignal (signals (fst rejectedRun)).
Proof.
  assert (H1 : forall n ex st, fst (@getTradingSignals unit rejectAll tt 7201001 n ex st) = None)
    by reflexivity.
  assert (H2 : board_within_capacity (signals demoEngine)) by (unfold board_within_capacity, BOARD_SIZE; simpl; lia).
  assert (H3 : In demoSignal (signals demoEngine)) by (left; reflexivity).
  assert (H4 : (TWO_HOURS_IN_MS < 7201001 - sig_ts demoSignal)%Z) by (vm_compute; reflexivity).
  split; [exact H1|]. split; [exact H2|]. split; [exact H3|]. split; [exact H4|].
  exact (@tick_rejected_keeps_board unit rejectAll tt 7201001 (demoTickers 100) demoEngine demoSignal H1 H2 H3 H4).
Defined.

End TickExamples.
