(* ===== verification/Indicators.v ===== *)
(** * Indicators: EMA, ATR, MACD and RSI ([src/services/mockSignalService.ts])

    The four pure helpers of the technical analysis, over closes and
    candles in exchange order (oldest first). Each JavaScript loop is a
    [fold_left] over the remaining elements; [slice] is [firstn]/[skipn].

    Theorems: the EMA stays within the range of the closes; the scalar
    EMA equals the last element of the EMA series used by MACD (the
    optimised routine against the reference one); the RSI lies in
    [0, 100]; the ATR is non-negative. *)

From Stdlib Require Import QArith Qabs Lqa ZArith List Lia.
From S2P Require Import Prelude Types.
Import ListNotations.
Open Scope Q_scope.
Open Scope js_scope.

Module Indicators.

(** The smoothing step shared by both EMA routines:
    [price * k + ema * (1 - k)]. Every smoothing step normalises its
    result with [Qred] (the same number, [Qred_correct]) so that the long
    recurrences evaluate in reasonable time. *)
Definition ema_step (k ema price : Q) : Q := Qred (price * k + ema * (1 - k)).

(** [2 / (period + 1)]. *)
Definition ema_k (period : nat) : Q := 2 / (inject_Z (Z.of_nat period) + 1).

(** [calculateEMA]: the last EMA value; with fewer closes than the
    period, the last close ([closePrices[length - 1] || 0]). *)
Definition calculateEMA (closePrices : list Q) (period : nat) : Q :=
  if (length closePrices <? period)%nat then last_or_zero closePrices
  else
    let k := ema_k period in
    match closePrices with
    | [] => 0
    | c0 :: rest => fold_left (ema_step k) rest c0
    end.

(** [calculateEMASeries], the helper inside [calculateMACD]: every
    intermediate EMA value, seeded with the first price. *)
Fixpoint ema_series_from (k : Q) (ema : Q) (prices : list Q) : list Q :=
  match prices with
  | [] => []
  | p :: rest => let e := ema_step k ema p in e :: ema_series_from k e rest
  end.

Definition calculateEMASeries (prices : list Q) (period : nat) : list Q :=
  match prices with
  | [] => []
  | p0 :: rest => p0 :: ema_series_from (ema_k period) p0 rest
  end.

(** The true range of candle [i] against the close of candle [i - 1]. *)
Definition trueRange (prev cur : Kline) : Q :=
  js_max (js_max (high cur - low cur) (js_abs (high cur - close prev))) (js_abs (low cur - close prev)).

Fixpoint trueRanges (klines : list Kline) : list Q :=
  match klines with
  | k1 :: ((k2 :: _) as rest) => trueRange k1 k2 :: trueRanges rest
  | _ => []
  end.

(** Wilder smoothing: [(atr * (period - 1) + x) / period]. *)
Definition wilder (period : nat) (avg x : Q) : Q :=
  Qred ((avg * (inject_Z (Z.of_nat period) - 1) + x) / inject_Z (Z.of_nat period)).

(** [calculateATR]. *)
Definition calculateATR (klines : list Kline) (period : nat) : Q :=
  if (length klines <? period + 1)%nat then 0
  else
    let trs := trueRanges klines in
    let atr := sumQ (firstn period trs) / inject_Z (Z.of_nat period) in
    fold_left (wilder period) (skipn period trs) atr.

Record MACD := mkMACD { macdLine : Q; signalLine : Q; histogram : Q }.

(** [calculateMACD]. *)
Definition calculateMACD (closePrices : list Q) : MACD :=
  if (length closePrices <? 35)%nat then mkMACD 0 0 0
  else
    let ema12Series := calculateEMASeries closePrices 12 in
    let ema26Series := calculateEMASeries closePrices 26 in
    let macdSeries := map (fun '(a, b) => Qred (a - b)) (combine ema12Series ema26Series) in
    let signalSeries := calculateEMASeries macdSeries 9 in
    let lastMacd := last macdSeries 0 in
    let lastSignal := last signalSeries 0 in
    mkMACD lastMacd lastSignal (lastMacd - lastSignal).

(** [closePrices.slice(1).map((price, i) => price - closePrices[i])]. *)
Fixpoint changes (closePrices : list Q) : list Q :=
  match closePrices with
  | c1 :: ((c2 :: _) as rest) => (c2 - c1) :: changes rest
  | _ => []
  end.

Definition gain (change : Q) : Q := if 0 <? change then change else 0.
Definition loss (change : Q) : Q := if change <? 0 then - change else 0.

(** [calculateRSI]. *)
Definition calculateRSI (closePrices : list Q) (period : nat) : Q :=
  if (length closePrices <=? period)%nat then 50
  else
    let ch := changes closePrices in
    let gains := map gain ch in
    let losses := map loss ch in
    let p := inject_Z (Z.of_nat period) in
    let avgGain := fold_left (wilder period) (skipn period gains) (sumQ (firstn period gains) / p) in
    let avgLoss := fold_left (wilder period) (skipn period losses) (sumQ (firstn period losses) / p) in
    if avgLoss =? 0 then 100
    else
      let rs := avgGain / avgLoss in
      100 - 100 / (1 + rs).

(** ** Smoothing lemmas *)

Section Smoothing.
Variable period : nat.
Hypothesis Hperiod : (1 <= period)%nat.

Lemma period_pos : 1 <= inject_Z (Z.of_nat period).
Proof. change 1 with (inject_Z 1). rewrite <- Zle_Qle. lia. Qed.

Lemma ema_k_unit : 0 < ema_k period /\ ema_k period <= 1.
Proof.
  pose proof period_pos. unfold ema_k. split.
  - apply Qlt_shift_div_l; lra.
  - apply Qle_shift_div_r; lra.
Qed.

(** One EMA step is a convex combination of the previous value and the
    new price. *)
Lemma ema_step_between lo hi e c :
  lo <= e <= hi -> lo <= c <= hi -> lo <= ema_step (ema_k period) e c <= hi.
Proof.
  pose proof ema_k_unit as [Hk0 Hk1]. unfold ema_step. rewrite Qred_correct.
  set (k := ema_k period) in *. intros He Hc. split; nra.
Qed.

(** One Wilder step is a convex combination too. *)
Lemma wilder_between lo hi a x :
  lo <= a <= hi -> lo <= x <= hi -> lo <= wilder period a x <= hi.
Proof.
  pose proof period_pos as HP. unfold wilder. rewrite Qred_correct.
  set (P := inject_Z (Z.of_nat period)) in *. intros Ha Hx. split.
  - apply Qle_shift_div_l; nra.
  - apply Qle_shift_div_r; nra.
Qed.

Lemma wilder_nonneg a x : 0 <= a -> 0 <= x -> 0 <= wilder period a x.
Proof.
  intros Ha Hx. apply (wilder_between 0 (js_max a x)); split; auto;
    [apply js_max_ge_l | apply js_max_ge_r].
Qed.

Lemma average_between lo hi xs :
  Forall (fun x => lo <= x <= hi) xs -> length xs = period ->
  lo <= sumQ xs / inject_Z (Z.of_nat period) <= hi.
Proof.
  intros Hxs Hl. pose proof period_pos as HP.
  assert (Hhi : sumQ xs <= inject_Z (Z.of_nat period) * hi).
  { subst period. apply sumQ_le. eapply Forall_impl; [|exact Hxs]. simpl; tauto. }
  assert (Hlo : inject_Z (Z.of_nat period) * lo <= sumQ xs).
  { assert (H := sumQ_le (map Qopp xs) (- lo)).
    rewrite length_map, Hl in H.
    assert (Hs : sumQ (map Qopp xs) == - sumQ xs).
    { clear. induction xs as [|x xs IH]; [reflexivity|].
      cbn [map]. rewrite !sumQ_cons, IH. ring. }
    rewrite Hs in H. cut (- sumQ xs <= inject_Z (Z.of_nat period) * - lo); [nra|].
    apply H. apply Forall_map. eapply Forall_impl; [|exact Hxs]. simpl; intros; lra. }
  split; [apply Qle_shift_div_l | apply Qle_shift_div_r]; nra.
Qed.

Lemma fold_wilder_between lo hi xs a :
  Forall (fun x => lo <= x <= hi) xs -> lo <= a <= hi ->
  lo <= fold_left (wilder period) xs a <= hi.
Proof.
  apply (fold_left_inv (fun a => lo <= a <= hi) (fun x => lo <= x <= hi)).
  intros; apply wilder_between; assumption.
Qed.

End Smoothing.

Lemma ema_series_from_last k e ps : last (ema_series_from k e ps) e = fold_left (ema_step k) ps e.
Proof.
  revert e. induction ps as [|p ps IH]; intros e; [reflexivity|].
  cbn [ema_series_from fold_left]. rewrite last_cons_default. apply IH.
Qed.

Lemma trueRange_nonneg k1 k2 : 0 <= trueRange k1 k2.
Proof.
  unfold trueRange. eapply Qle_trans; [|apply js_max_ge_l].
  eapply Qle_trans; [|apply js_max_ge_r]. apply js_abs_nonneg.
Qed.

Lemma trueRanges_nonneg ks : Forall (fun x => 0 <= x) (trueRanges ks).
Proof.
  induction ks as [|k1 [|k2 ks] IH]; simpl; constructor; auto using trueRange_nonneg.
Qed.

Lemma gain_nonneg c : 0 <= gain c.
Proof. unfold gain. qcase (0 <? c); lra. Qed.

Lemma loss_nonneg c : 0 <= loss c.
Proof. unfold loss. qcase (c <? 0); lra. Qed.

Lemma Forall_firstn_skipn {A} (P : A -> Prop) n l :
  Forall P l -> Forall P (firstn n l) /\ Forall P (skipn n l).
Proof.
  intros H. rewrite <- (firstn_skipn n l) in H. apply Forall_app in H. exact H.
Qed.

(** The smoothed averages of [calculateATR] and [calculateRSI] stay
    within any bounds of the smoothed values. *)
Lemma smoothed_between period lo hi xs :
  (1 <= period)%nat -> (period <= length xs)%nat -> Forall (fun x => lo <= x <= hi) xs ->
  lo <= fold_left (wilder period) (skipn period xs)
          (sumQ (firstn period xs) / inject_Z (Z.of_nat period)) <= hi.
Proof.
  intros Hp Hl Hxs. destruct (Forall_firstn_skipn _ period _ Hxs) as [Hf Hs].
  apply fold_wilder_between; auto.
  apply average_between; auto. rewrite length_firstn. lia.
Qed.

Lemma smoothed_nonneg period xs :
  (1 <= period)%nat -> Forall (fun x => 0 <= x) xs ->
  0 <= fold_left (wilder period) (skipn period xs)
         (sumQ (firstn period xs) / inject_Z (Z.of_nat period)).
Proof.
  intros Hp Hxs. destruct (Forall_firstn_skipn _ period _ Hxs) as [Hf Hs].
  apply (fold_left_inv (fun a => 0 <= a) (fun x => 0 <= x)); auto.
  - intros; apply wilder_nonneg; auto.
  - pose proof (period_pos period Hp). apply Qle_shift_div_l; [lra|].
    rewrite Qmult_0_l. apply sumQ_nonneg, Hf.
Qed.

Lemma rsi_formula_between rs : 0 <= rs -> 0 <= 100 - 100 / (1 + rs) <= 100.
Proof.
  intros H. assert (Hq : 0 <= 100 / (1 + rs) <= 100).
  { split; [apply Qle_shift_div_l | apply Qle_shift_div_r]; nra. }
  lra.
Qed.

Lemma trueRanges_length ks : length (trueRanges ks) = (length ks - 1)%nat.
Proof. induction ks as [|k1 [|k2 ks] IH]; simpl in *; auto. rewrite IH. lia. Qed.

Lemma map_Forall_nonneg (f : Q -> Q) xs :
  (forall x, 0 <= f x) -> Forall (fun y => 0 <= y) (map f xs).
Proof. intros Hf. apply Forall_map, Forall_forall. auto. Qed.

Lemma calculateATR_nonneg klines period : (1 <= period)%nat -> 0 <= calculateATR klines period.
Proof.
  intros Hp. unfold calculateATR. destruct (length klines <? period + 1)%nat; [lra|].
  apply smoothed_nonneg; [exact Hp|apply trueRanges_nonneg].
Qed.

(** ** Properties of the indicators *)

(** The EMA of [calculateEMA] stays within any range that contains
    every close: it is a running convex combination of the closes (and
    the short-input fallback returns the last close). *)
Theorem calculateEMA_between closes period lo hi :
  (1 <= period)%nat -> closes <> [] -> Forall (fun c => lo <= c <= hi) closes ->
  lo <= calculateEMA closes period <= hi.
Proof.
  intros Hp Hne Hall. unfold calculateEMA.
  destruct (length closes <? period)%nat.
  - unfold last_or_zero. apply (proj1 (Forall_forall _ _) Hall), last_In_nonempty, Hne.
  - destruct closes as [|c0 rest]; [congruence|]. inversion Hall; subst.
    apply (fold_left_inv (fun a => lo <= a <= hi) (fun x => lo <= x <= hi)); auto.
    intros; apply ema_step_between; auto.
Qed.

(** The series helper of [calculateMACD] ends on the value
    [calculateEMA] returns whenever there are at least [period] prices:
    the two EMA routines of the file agree. *)
Theorem calculateEMASeries_last prices period :
  (period <= length prices)%nat ->
  last (calculateEMASeries prices period) 0 = calculateEMA prices period.
Proof.
  intros Hl. unfold calculateEMA, calculateEMASeries.
  replace (length prices <? period)%nat with false by (symmetry; apply Nat.ltb_ge; lia).
  destruct prices as [|p0 rest]; [reflexivity|].
  rewrite last_cons_default. apply ema_series_from_last.
Qed.

(** [calculateRSI] lies in [0, 100] for every input and every
    period of at least one. *)
Theorem calculateRSI_range closes period :
  (1 <= period)%nat -> 0 <= calculateRSI closes period <= 100.
Proof.
  intros Hp. unfold calculateRSI.
  destruct (length closes <=? period)%nat; [lra|]. cbv zeta.
  pose proof (smoothed_nonneg period _ Hp (map_Forall_nonneg gain (changes closes) gain_nonneg)) as Hg.
  pose proof (smoothed_nonneg period _ Hp (map_Forall_nonneg loss (changes closes) loss_nonneg)) as Hl.
  set (g := fold_left _ _ _) in *. set (l := fold_left _ (skipn period (map loss _)) _) in *.
  destruct (l =? 0) eqn:E; [lra|].
  assert (Hl' : 0 < l).
  { destruct (Qlt_le_dec 0 l) as [|Hle]; auto.
    assert (l == 0) as H0 by lra. apply Qeqb_iff in H0. congruence. }
  apply rsi_formula_between, Qle_shift_div_l; lra.
Qed.

(** [calculateATR] lies between zero and any bound of the true
    ranges of the candles. *)
Theorem calculateATR_between klines period M :
  (1 <= period)%nat -> Forall (fun x => x <= M) (trueRanges klines) -> 0 <= M ->
  0 <= calculateATR klines period <= M.
Proof.
  intros Hp HM HM0. unfold calculateATR.
  destruct (length klines <? period + 1)%nat eqn:E; [lra|].
  apply Nat.ltb_ge in E. apply smoothed_between; auto.
  - rewrite trueRanges_length. lia.
  - apply Forall_forall. intros x Hx. split.
    + exact (proj1 (Forall_forall _ _) (trueRanges_nonneg klines) x Hx).
    + exact (proj1 (Forall_forall _ _) HM x Hx).
Qed.

End Indicators.

Module IndicatorExamples.
Import Indicators.

Definition sampleCloses : list Q := [10; 11; 10.5; 12; 11.5; 13; 12.5; 14; 13; 15; 14.5; 16; 15; 17; 16.5; 18].

Definition sampleCandle (c : Q) : Kline := mkKline 0 c (c + 1) (c - 1) c 1 0 1 1 1 1.

Definition sampleKlines : list Kline := map sampleCandle sampleCloses.

Lemma calculateEMA_between_witness : 10 <= calculateEMA sampleCloses 5 <= 18.
Proof.
  apply calculateEMA_between; [lia|discriminate|].
  repeat constructor; apply Qle_bool_iff; reflexivity.
Defined.

Lemma calculateEMASeries_last_witness :
  last (calculateEMASeries sampleCloses 12) 0 = calculateEMA sampleCloses 12.
Proof. apply calculateEMASeries_last. simpl. lia. Defined.

Lemma calculateRSI_range_witness : 0 <= calculateRSI sampleCloses 14 <= 100.
Proof. apply calculateRSI_range. lia. Defined.

Lemma calculateATR_between_witness : 0 <= calculateATR sampleKlines 14 <= 4.
Proof.
  apply calculateATR_between; [lia| |apply Qle_bool_iff; reflexivity].
  vm_compute. repeat constructor; discriminate.
Defined.

End IndicatorExamples.
