(* ===== verification/Formatting.v ===== *)
(** * Formatting: [formatPriceValue] ([src/services/mockSignalService.ts])

    The closure that rounds every price of a generated signal before it
    is stored: prices above 100 keep 2 decimals, prices in [1, 100]
    keep 4, and prices below 1 keep 4 to 8 decimals according to the
    number of leading zeros of their 20-digit expansion, which the code
    counts on the string [value.toFixed(20)].

    [Number.prototype.toFixed(f)] on a non-negative number below 10^21
    chooses the integer [n] nearest to [x * 10^f], the larger one on a
    tie, and prints its digits with a point before the last [f] of them;
    [parseFloat] of that text is [n / 10^f]. Both the number and the
    characters are modelled, so the leading-zero scan of the code runs
    on the very digits [toFixed] prints.

    Theorems: the rounding error of [toFixed]; the scan counts the zeros
    of the expansion exactly (the string routine refines an arithmetic
    count); and [formatPriceValue] is monotone, so the order of the
    levels of a signal survives rounding. *)

From Stdlib Require Import String Ascii DecimalString.
From Stdlib Require Import QArith Qround Qabs Lqa ZArith List Lia.
From S2P Require Import Prelude Calendar.
Import ListNotations.
Open Scope Q_scope.
Open Scope js_scope.

Module Format.

Definition pow10 (d : nat) : Z := 10 ^ Z.of_nat d.

(** The integer [n] of [toFixed]: [x * 10^f] rounded half up. *)
Definition fixed_n (x : Q) (d : nat) : Z := js_round (x * inject_Z (pow10 d)).

(** [parseFloat(x.toFixed(d))]. *)
Definition toFixed (x : Q) (d : nat) : Q := inject_Z (fixed_n x d) / inject_Z (pow10 d).

Definition digit_char (q : Z) : ascii := ascii_of_nat (48 + Z.to_nat q).

(** The last [w] decimal digits of [n], most significant first, padded
    with zeros. *)
Fixpoint fixed_digits (n : Z) (w : nat) : list ascii :=
  match w with
  | O => []
  | S w' => digit_char ((n / pow10 w') mod 10) :: fixed_digits n w'
  end.

(** The characters of [x.toFixed(d)] for [x >= 0] and [d > 0]: the
    digits of [n / 10^d], a point, and the last [d] digits of [n]. *)
Definition toFixed_chars (x : Q) (d : nat) : list ascii :=
  let n := fixed_n x d in
  list_ascii_of_string (zstring (n / pow10 d)) ++ "."%char :: fixed_digits n d.

Fixpoint after_dot (s : list ascii) : option (list ascii) :=
  match s with
  | [] => None
  | c :: rest => if Ascii.eqb c "."%char then Some rest else after_dot rest
  end.

(** [priceString.substring(priceString.indexOf('.') + 1)]: everything
    after the first point, the whole string when there is none. *)
Definition decimal_part (s : list ascii) : list ascii :=
  match after_dot s with Some r => r | None => s end.

(** The [for (const char of decimalPart)] loop. *)
Fixpoint count_leading_zeros (s : list ascii) : nat :=
  match s with
  | c :: rest => if Ascii.eqb c "0"%char then S (count_leading_zeros rest) else 0
  | [] => 0
  end.

(** The [switch (leadingZeros)]. *)
Definition decimalPlaces (leadingZeros : nat) : nat :=
  match leadingZeros with
  | 0 => 4
  | 1 | 2 => 5
  | 3 => 6
  | 4 => 7
  | _ => 8
  end%nat.

Definition formatPriceValue (value : Q) : Q :=
  if value <=? 0 then 0
  else if 1 <=? value then toFixed value (if 100 <? value then 2 else 4)
  else
    let priceString := toFixed_chars value 20 in
    let decimalPart := decimal_part priceString in
    toFixed value (decimalPlaces (count_leading_zeros decimalPart)).

(** ** Arithmetic of [toFixed] *)

Lemma pow10_pos d : (0 < pow10 d)%Z.
Proof. unfold pow10. apply Z.pow_pos_nonneg; lia. Qed.

Lemma pow10_posQ d : 0 < inject_Z (pow10 d).
Proof. change 0 with (inject_Z 0). rewrite <- Zlt_Qlt. apply pow10_pos. Qed.

Lemma pow10_add a b : pow10 (a + b) = (pow10 a * pow10 b)%Z.
Proof. unfold pow10. rewrite Nat2Z.inj_add. apply Z.pow_add_r; lia. Qed.

#[export] Hint Resolve pow10_pos pow10_posQ : sniper.

(** [toFixed] moves a number by at most half a unit of its last digit. *)
Lemma toFixed_error x d : Qabs (toFixed x d - x) <= 1 / (2 * inject_Z (pow10 d)).
Proof.
  pose proof (pow10_posQ d) as HP. set (P := inject_Z (pow10 d)) in *.
  pose proof (js_round_bounds (x * P)) as [Hlo Hhi].
  unfold toFixed, fixed_n. fold P. set (n := inject_Z (js_round (x * P))) in *.
  assert (Hi : 0 < / P) by (apply Qinv_lt_0_compat; lra).
  assert (E : n / P - x == (n - x * P) * / P) by (field; lra).
  assert (E' : 1 / (2 * P) == (1 # 2) * / P) by (field; lra).
  rewrite E, E'. apply Qabs_Qle_condition. split; nra.
Qed.

Lemma toFixed_mono x y d : x <= y -> toFixed x d <= toFixed y d.
Proof.
  intros H. pose proof (pow10_posQ d). unfold toFixed, fixed_n.
  apply Qmult_le_r; [apply Qinv_lt_0_compat; lra|].
  rewrite <- Zle_Qle. apply js_round_mono. apply Qmult_le_r; lra.
Qed.

Lemma toFixed_nonneg x d : 0 <= x -> 0 <= toFixed x d.
Proof.
  intros H. pose proof (pow10_posQ d). unfold toFixed, fixed_n.
  apply Qle_shift_div_l; [lra|]. rewrite Qmult_0_l.
  change 0 with (inject_Z 0). rewrite <- Zle_Qle. unfold js_round.
  change 0%Z with (Qfloor 0). apply Qfloor_resp_le. nra.
Qed.

(** A level [t / 10^k] lies on the grid of [toFixed x d] for [k <= d],
    so a number below it is not rounded past it and a number at most
    half a unit below it is rounded up to it. *)
Lemma grid_scale t k d : (k <= d)%nat ->
  inject_Z t / inject_Z (pow10 k) * inject_Z (pow10 d) == inject_Z (t * pow10 (d - k)).
Proof.
  intros Hk. replace d with (k + (d - k))%nat at 1 by lia.
  rewrite pow10_add, !inject_Z_mult. pose proof (pow10_posQ k). field. lra.
Qed.

Lemma Qfloor_le_Z q m : q < inject_Z m + 1 -> (Qfloor q <= m)%Z.
Proof.
  intros H. pose proof (Qfloor_le q) as Hf.
  assert (inject_Z (Qfloor q) < inject_Z (m + 1)) as Hl
    by (rewrite inject_Z_plus; change (inject_Z 1) with 1; lra).
  rewrite <- Zlt_Qlt in Hl. lia.
Qed.

Lemma Qfloor_ge_Z q m : inject_Z m <= q -> (m <= Qfloor q)%Z.
Proof. intros H. rewrite <- (Qfloor_Z m). apply Qfloor_resp_le, H. Qed.

Lemma toFixed_le_int x d m :
  x * inject_Z (pow10 d) + (1 # 2) < inject_Z m + 1 -> toFixed x d <= inject_Z m / inject_Z (pow10 d).
Proof.
  intros H. pose proof (pow10_posQ d). unfold toFixed, fixed_n, js_round.
  apply Qmult_le_r; [apply Qinv_lt_0_compat; lra|].
  rewrite <- Zle_Qle. apply Qfloor_le_Z, H.
Qed.

Lemma toFixed_ge_int x d m :
  inject_Z m <= x * inject_Z (pow10 d) + (1 # 2) -> inject_Z m / inject_Z (pow10 d) <= toFixed x d.
Proof.
  intros H. pose proof (pow10_posQ d). unfold toFixed, fixed_n, js_round.
  apply Qmult_le_r; [apply Qinv_lt_0_compat; lra|].
  rewrite <- Zle_Qle. apply Qfloor_ge_Z, H.
Qed.

Lemma grid_level t k d : (k <= d)%nat ->
  inject_Z t / inject_Z (pow10 k) == inject_Z (t * pow10 (d - k)) / inject_Z (pow10 d).
Proof.
  intros Hk. pose proof (pow10_posQ d). pose proof (pow10_posQ k).
  rewrite <- (grid_scale t k d Hk). field. split; intro; lra.
Qed.

(** A level [t / 10^k] lies on the grid of [toFixed x d] for [k <= d]:
    a number below it is not rounded past it, and a number at most half
    a unit of the [d]-th digit below it is rounded up to it. *)
Lemma toFixed_below_level x t k d : (k <= d)%nat ->
  x <= inject_Z t / inject_Z (pow10 k) -> toFixed x d <= inject_Z t / inject_Z (pow10 k).
Proof.
  intros Hk Hx. rewrite (grid_level t k d Hk). apply toFixed_le_int.
  pose proof (pow10_posQ d). rewrite <- (grid_scale t k d Hk).
  assert (x * inject_Z (pow10 d) <= inject_Z t / inject_Z (pow10 k) * inject_Z (pow10 d))
    by (apply Qmult_le_r; lra). lra.
Qed.

Lemma toFixed_above_level y t k d : (k <= d)%nat ->
  inject_Z t / inject_Z (pow10 k) - 1 / (2 * inject_Z (pow10 d)) <= y ->
  inject_Z t / inject_Z (pow10 k) <= toFixed y d.
Proof.
  intros Hk Hy. rewrite (grid_level t k d Hk). apply toFixed_ge_int.
  pose proof (pow10_posQ d) as HP. rewrite <- (grid_scale t k d Hk).
  set (T := inject_Z t / inject_Z (pow10 k)) in *. set (P := inject_Z (pow10 d)) in *.
  assert (E : (T - 1 / (2 * P)) * P == T * P - (1 # 2)) by (field; lra).
  assert ((T - 1 / (2 * P)) * P <= y * P) by (apply Qmult_le_r; lra). lra.
Qed.

(** ** The leading-zero scan *)

Lemma pow10_S w : pow10 (S w) = (10 * pow10 w)%Z.
Proof. unfold pow10. rewrite Nat2Z.inj_succ, Z.pow_succ_r by lia. lia. Qed.

Lemma pow10_le a b : (a <= b)%nat -> (pow10 a <= pow10 b)%Z.
Proof. intros H. unfold pow10. apply Z.pow_le_mono_r; lia. Qed.

Lemma digit_char_zero q : (0 <= q < 10)%Z -> Ascii.eqb (digit_char q) "0"%char = true <-> q = 0%Z.
Proof.
  intros Hq. split; [|intros ->; reflexivity].
  intros E. apply Ascii.eqb_eq, (f_equal nat_of_ascii) in E. unfold digit_char in E.
  rewrite nat_ascii_embedding in E by lia. change (nat_of_ascii "0") with 48%nat in E. lia.
Qed.

Lemma length_fixed_digits n w : length (fixed_digits n w) = w.
Proof. induction w; simpl; auto. Qed.

Lemma count_leading_zeros_le l : (count_leading_zeros l <= length l)%nat.
Proof. induction l as [|c l IH]; simpl; [lia|]. destruct (Ascii.eqb c "0"%char); lia. Qed.

(** The scan counts the zeros of the expansion: it finds at least [k]
    of them exactly when [n] has fewer than [w - k] digits. *)
Lemma clz_fixed_digits n w k : (0 <= n < pow10 w)%Z -> (k <= w)%nat ->
  (k <= count_leading_zeros (fixed_digits n w))%nat <-> (n < pow10 (w - k))%Z.
Proof.
  revert k. induction w as [|w IH]; intros k Hn Hk.
  - assert (k = 0)%nat by lia. subst. simpl. split; [lia|auto].
  - rewrite pow10_S in Hn. pose proof (pow10_pos w) as Hp.
    assert (Hq : (0 <= n / pow10 w < 10)%Z).
    { split; [apply Z.div_pos; lia|apply Z.div_lt_upper_bound; lia]. }
    cbn [fixed_digits count_leading_zeros]. rewrite Z.mod_small by exact Hq.
    destruct (Ascii.eqb (digit_char (n / pow10 w)) "0"%char) eqn:E.
    + apply digit_char_zero in E; [|exact Hq]. apply Z.div_small_iff in E; [|lia].
      destruct k as [|k]; [rewrite Nat.sub_0_r, pow10_S; lia|].
      change (S w - S k)%nat with (w - k)%nat. rewrite <- IH by lia. lia.
    + assert (Hge : (pow10 w <= n)%Z).
      { destruct (Z.lt_ge_cases n (pow10 w)) as [Hlt|]; auto.
        rewrite Z.div_small in E by lia. discriminate. }
      destruct k as [|k]; [rewrite Nat.sub_0_r, pow10_S; lia|].
      pose proof (pow10_le (S w - S k) w ltac:(lia)). lia.
Qed.

Lemma after_dot_digits l r :
  Forall (fun c => is_key_char c = true) l -> after_dot (l ++ "."%char :: r) = Some r.
Proof.
  induction 1 as [|c l Hc _ IH]; [reflexivity|]. simpl.
  destruct (Ascii.eqb_spec c "."%char) as [->|_]; [discriminate|exact IH].
Qed.

(** The text after the point of [toFixed] is the padded expansion. *)
Lemma decimal_part_toFixed x d : decimal_part (toFixed_chars x d) = fixed_digits (fixed_n x d) d.
Proof. unfold decimal_part, toFixed_chars. rewrite after_dot_digits; auto using zstring_key_chars. Qed.

(** ** Decimals chosen by [formatPriceValue] *)

(** The places chosen for a price below 1 from the integer [n] of its
    20-digit expansion. *)
Definition small_decimals (n : Z) : nat := decimalPlaces (count_leading_zeros (fixed_digits n 20)).

Lemma formatPriceValue_small v : 0 < v -> v < 1 ->
  formatPriceValue v = toFixed v (small_decimals (fixed_n v 20)).
Proof.
  intros H0 H1. unfold formatPriceValue.
  qcase (v <=? 0); [lra|]. qcase (1 <=? v); [lra|].
  cbv zeta. rewrite decimal_part_toFixed. reflexivity.
Qed.

Lemma formatPriceValue_large v : 1 <= v ->
  formatPriceValue v = toFixed v (if 100 <? v then 2 else 4).
Proof.
  intros H1. unfold formatPriceValue.
  qcase (v <=? 0); [lra|]. qcase (1 <=? v); [reflexivity|lra].
Qed.

Lemma formatPriceValue_nonneg v : 0 <= formatPriceValue v.
Proof.
  unfold formatPriceValue. qcase (v <=? 0); [lra|].
  destruct (1 <=? v); apply toFixed_nonneg; lra.
Qed.

Lemma decimalPlaces_bounds z : (4 <= decimalPlaces z /\ Nat.min (S z) 5 <= decimalPlaces z <= 8)%nat.
Proof. do 5 (destruct z as [|z]; [simpl; lia|]). simpl. lia. Qed.

Lemma fixed_n_mono x y d : x <= y -> (fixed_n x d <= fixed_n y d)%Z.
Proof. intros H. apply js_round_mono. pose proof (pow10_posQ d). apply Qmult_le_r; lra. Qed.

Lemma fixed_n_nonneg x d : 0 <= x -> (0 <= fixed_n x d)%Z.
Proof.
  intros H. unfold fixed_n, js_round. apply Qfloor_ge_Z.
  pose proof (pow10_posQ d). change (inject_Z 0) with 0. nra.
Qed.

Lemma fixed_n_below_one x : x < 1 -> (fixed_n x 20 <= pow10 20)%Z.
Proof.
  intros H. unfold fixed_n, js_round. apply Qfloor_le_Z.
  pose proof (pow10_posQ 20). nra.
Qed.

Lemma inject_Z_plus_1_helper z : inject_Z (z + 1) == inject_Z z + 1.
Proof. rewrite inject_Z_plus. reflexivity. Qed.

(** Half a unit of a later digit is smaller. *)
Lemma half_ulp_anti a b : (a <= b)%nat -> 1 / (2 * inject_Z (pow10 b)) <= 1 / (2 * inject_Z (pow10 a)).
Proof.
  intros Hab. pose proof (pow10_posQ a). pose proof (pow10_posQ b).
  assert (inject_Z (pow10 a) <= inject_Z (pow10 b)) by (rewrite <- Zle_Qle; apply pow10_le, Hab).
  unfold Qdiv. rewrite !Qmult_1_l. apply Qle_shift_inv_l; [lra|].
  assert (/ (2 * inject_Z (pow10 b)) * (2 * inject_Z (pow10 b)) == 1) by (field; lra).
  assert (0 < / (2 * inject_Z (pow10 b))) by (apply Qinv_lt_0_compat; lra). nra.
Qed.

(** Reading a level off the 20-digit expansion of a price. *)
Lemma level_below_from_n x t k : (k <= 20)%nat ->
  (fixed_n x 20 < t * pow10 (20 - k))%Z -> x <= inject_Z t / inject_Z (pow10 k).
Proof.
  intros Hk Hn. pose proof (pow10_posQ 20) as HP.
  pose proof (Qlt_floor (x * inject_Z (pow10 20) + (1 # 2))) as Hf.
  unfold fixed_n, js_round in Hn.
  assert (Hm : inject_Z (Qfloor (x * inject_Z (pow10 20) + (1 # 2))) + 1 <= inject_Z (t * pow10 (20 - k))).
  { rewrite <- inject_Z_plus_1_helper. rewrite <- Zle_Qle. lia. }
  rewrite inject_Z_plus_1_helper in Hf.
  rewrite (grid_level t k 20 Hk). apply Qle_shift_div_l; [exact HP|]. lra.
Qed.

Lemma level_above_from_n y t k d : (k <= d)%nat -> (d <= 20)%nat ->
  (t * pow10 (20 - k) <= fixed_n y 20)%Z -> inject_Z t / inject_Z (pow10 k) <= toFixed y d.
Proof.
  intros Hkd Hd Hn. apply toFixed_above_level; [exact Hkd|].
  pose proof (pow10_posQ 20) as HP. pose proof (pow10_posQ d) as HPd.
  pose proof (Qfloor_le (y * inject_Z (pow10 20) + (1 # 2))) as Hf.
  unfold fixed_n, js_round in Hn. rewrite Zle_Qle in Hn.
  rewrite (grid_level t k 20 ltac:(lia)).
  pose proof (half_ulp_anti d 20 Hd) as Hh.
  set (m := inject_Z (t * pow10 (20 - k))) in *. set (P := inject_Z (pow10 20)) in *.
  assert (E : m / P - 1 / (2 * P) == (m - (1 # 2)) / P) by (field; lra).
  assert ((m - (1 # 2)) / P <= y) by (apply Qle_shift_div_r; lra). lra.
Qed.

Lemma decimalPlaces_ge5 z : (5 <= z)%nat -> decimalPlaces z = 8%nat.
Proof. intros H. do 5 (destruct z as [|z]; [lia|]). reflexivity. Qed.

Lemma clz20_le n : (count_leading_zeros (fixed_digits n 20) <= 20)%nat.
Proof. rewrite <- (length_fixed_digits n 20) at 2. apply count_leading_zeros_le. Qed.

Lemma level_one : inject_Z 1 / inject_Z (pow10 0) == 1.
Proof. reflexivity. Qed.

(** Below 1, a larger price never gets more places unless it is rounded
    up to a power of ten that the smaller one cannot pass. *)
Lemma small_mono x y : 0 < x -> x <= y -> y < 1 ->
  toFixed x (small_decimals (fixed_n x 20)) <= toFixed y (small_decimals (fixed_n y 20)).
Proof.
  intros Hx Hxy Hy. unfold small_decimals.
  pose proof (fixed_n_mono x y 20 Hxy) as Hn. pose proof (fixed_n_nonneg x 20 ltac:(lra)) as Hx0.
  set (nx := fixed_n x 20) in *. set (ny := fixed_n y 20) in *.
  destruct (Z.eq_dec nx ny) as [E|Ne]; [rewrite E; apply toFixed_mono, Hxy|].
  set (zx := count_leading_zeros (fixed_digits nx 20)).
  set (zy := count_leading_zeros (fixed_digits ny 20)).
  pose proof (decimalPlaces_bounds zx). pose proof (decimalPlaces_bounds zy).
  destruct (Z.le_gt_cases (pow10 20) ny) as [Hbig|Hsmall].
  - apply Qle_trans with (inject_Z 1 / inject_Z (pow10 0)).
    + apply toFixed_below_level; [lia|]. rewrite level_one. lra.
    + apply level_above_from_n; [lia|lia|]. simpl (20 - 0)%nat. lia.
  - pose proof (clz_fixed_digits nx 20) as Cx. pose proof (clz_fixed_digits ny 20) as Cy.
    fold zx in Cx. fold zy in Cy.
    destruct (Nat.le_gt_cases 5 zy) as [H5|H5].
    + assert (5 <= zx)%nat by (apply Cx; [lia|lia|]; apply Cy in H5; lia).
      unfold zx, zy in *. rewrite !decimalPlaces_ge5 by assumption. apply toFixed_mono, Hxy.
    + destruct (Nat.le_gt_cases (S zy) zx) as [Hk|Hk].
      * apply Qle_trans with (inject_Z 1 / inject_Z (pow10 (S zy))).
        -- apply toFixed_below_level; [lia|]. apply level_below_from_n; [lia|].
           rewrite Z.mul_1_l. apply Cx; lia.
        -- apply level_above_from_n; [lia|lia|]. rewrite Z.mul_1_l.
           destruct (Z.lt_ge_cases ny (pow10 (20 - S zy))) as [Hl|Hl]; [|exact Hl].
           apply Cy in Hl; lia.
      * assert (zy <= zx)%nat.
        { assert (zy <= 20)%nat by apply clz20_le.
          apply Cx; [lia|lia|].
          assert (ny < pow10 (20 - zy))%Z by (apply Cy; lia).
          lia. }
        assert (zx = zy) as -> by lia. apply toFixed_mono, Hxy.
Qed.

(** [formatPriceValue] is monotone: rounding never reverses the
    order of two prices, so the order of the levels of a signal (stop,
    entry zone, targets) survives the formatting of the stored values. *)
Theorem formatPriceValue_mono x y : x <= y -> formatPriceValue x <= formatPriceValue y.
Proof.
  intros Hxy. destruct (Qlt_le_dec 0 x) as [Hx|Hx].
  2:{ unfold formatPriceValue at 1. qcase (x <=? 0); [apply formatPriceValue_nonneg|lra]. }
  destruct (Qlt_le_dec x 1) as [Hx1|Hx1]; destruct (Qlt_le_dec y 1) as [Hy1|Hy1].
  - rewrite !formatPriceValue_small by lra. apply small_mono; lra.
  - rewrite formatPriceValue_small, formatPriceValue_large by lra.
    apply Qle_trans with (inject_Z 1 / inject_Z (pow10 0)).
    + apply toFixed_below_level; [lia|]. rewrite level_one. lra.
    + apply toFixed_above_level; [lia|]. rewrite level_one.
      assert (0 < 1 / (2 * inject_Z (pow10 (if 100 <? y then 2 else 4)))).
      { apply Qlt_shift_div_l; [pose proof (pow10_posQ (if 100 <? y then 2 else 4)); lra|lra]. }
      lra.
  - lra.
  - rewrite !formatPriceValue_large by lra.
    qcase (100 <? x); qcase (100 <? y); try (apply toFixed_mono; exact Hxy); [lra|].
    apply Qle_trans with (inject_Z 100 / inject_Z (pow10 0)).
    + apply toFixed_below_level; [lia|]. change (inject_Z 100 / inject_Z (pow10 0)) with 100. exact Hc.
    + apply toFixed_above_level; [lia|]. change (inject_Z 100 / inject_Z (pow10 0)) with 100.
      change (inject_Z (pow10 2)) with 100.
      assert (E : 1 / (2 * 100) == 1 # 200) by reflexivity. rewrite E. lra.
Qed.

(** [formatPriceValue] moves a positive price by at most 1/20000 of
    the larger of the price and 1: at most 0.005% of a price of at least
    1, and at most 0.00005 below 1. *)
Theorem formatPriceValue_error v : 0 < v ->
  Qabs (formatPriceValue v - v) <= js_max v 1 / 20000.
Proof.
  intros Hv. pose proof (js_max_ge_l v 1). pose proof (js_max_ge_r v 1).
  assert (Hm : 1 / 20000 <= js_max v 1 / 20000) by (apply Qmult_le_r; [reflexivity|lra]).
  assert (Hv' : v / 20000 <= js_max v 1 / 20000) by (apply Qmult_le_r; [reflexivity|lra]).
  assert (E4 : 1 / (2 * inject_Z (pow10 4)) == 1 / 20000) by reflexivity.
  destruct (Qlt_le_dec v 1) as [Hv1|Hv1].
  - rewrite formatPriceValue_small by lra.
    eapply Qle_trans; [apply toFixed_error|].
    eapply Qle_trans; [apply (half_ulp_anti 4)|rewrite E4; exact Hm].
    pose proof (decimalPlaces_bounds (count_leading_zeros (fixed_digits (fixed_n v 20) 20))).
    unfold small_decimals. lia.
  - rewrite formatPriceValue_large by lra.
    eapply Qle_trans; [apply toFixed_error|].
    qcase (100 <? v).
    + change (1 / (2 * inject_Z (pow10 2))) with (1 # 200).
      assert (v / 20000 == v * (1 # 20000)) by reflexivity. lra.
    + rewrite E4. exact Hm.
Qed.

End Format.

Module FormattingExamples.
Import Format.

(** Across the change from five to four places at 0.1. *)
Lemma formatPriceValue_mono_witness : formatPriceValue (9999996 # 100000000) <= formatPriceValue (10000004 # 100000000).
Proof. apply formatPriceValue_mono. apply Qle_bool_iff. reflexivity. Defined.

Lemma formatPriceValue_error_witness :
  Qabs (formatPriceValue (1234 # 100000000) - (1234 # 100000000)) <= js_max (1234 # 100000000) 1 / 20000.
Proof. apply formatPriceValue_error. reflexivity. Defined.

End FormattingExamples.
