(* ===== verification/PriceAction.v ===== *)
(** * PriceAction: fair value gaps and pivot levels
    ([src/services/mockSignalService.ts], [findFairValueGaps] and
    [findSupportResistance])

    [findFairValueGaps] scans every triple of consecutive candles;
    [findSupportResistance] scans every candle with five neighbours on
    each side, keeps the highs (lows) that dominate their window, then
    removes duplicates with a [Set] (first occurrence kept, numbers
    compared by value) and sorts them with the comparator [b - a].
    [Array.prototype.sort] returns the sorted permutation; a stable
    insertion sort by the same comparator is that permutation.

    Theorems: the gaps are exactly the triples with a gap; a level is
    returned exactly when some candle is a pivot with that high (low);
    both level lists are strictly descending, hence free of duplicates. *)

From Stdlib Require Import QArith Lqa ZArith List Lia Sorted Permutation.
From S2P Require Import Prelude Types.
Import ListNotations.
Open Scope Q_scope.
Open Scope js_scope.

Module PriceAction.

(** [type FVG = { start: number; end: number }]. *)
Record FVG := mkFVG { fvg_start : Q; fvg_end : Q }.

(** The loop [for (let i = 2; i < klines.length; i++)], candle 1 being
    [klines[i - 2]] and candle 3 [klines[i]]. *)
Fixpoint fvg_scan (klines : list Kline) : list FVG * list FVG :=
  match klines with
  | candle1 :: ((_ :: candle3 :: _) as rest) =>
      let '(bullish, bearish) := fvg_scan rest in
      ((if high candle3 <? low candle1 then [mkFVG (high candle3) (low candle1)] else []) ++ bullish,
       (if high candle1 <? low candle3 then [mkFVG (high candle1) (low candle3)] else []) ++ bearish)
  | _ => ([], [])
  end.

Definition findFairValueGaps (klines : list Kline) : list FVG * list FVG :=
  if (length klines <? 3)%nat then ([], []) else fvg_scan klines.

Definition lookback : nat := 5.

(** [klines.slice(i - lookback, i + lookback + 1)]. *)
Definition window (klines : list Kline) (i : nat) : list Kline :=
  firstn (2 * lookback + 1) (skipn (i - lookback) klines).

(** One iteration of the pivot loop at index [i], pushing onto
    [(supports, resistances)]. *)
Definition pivot_step (klines : list Kline) (acc : list Q * list Q) (i : nat) : list Q * list Q :=
  let window := window klines i in
  match nth_error window lookback with
  | None => acc
  | Some c =>
      let currentHigh := high c in
      let currentLow := low c in
      let isPivotHigh := forallb (fun k => high k <=? currentHigh) window in
      let isPivotLow := forallb (fun k => currentLow <=? low k) window in
      let '(supports, resistances) := acc in
      (if isPivotLow then supports ++ [currentLow] else supports,
       if isPivotHigh then resistances ++ [currentHigh] else resistances)
  end.

(** [[...new Set(xs)]]: first occurrences, in order. *)
Fixpoint dedup_from (seen : list Q) (xs : list Q) : list Q :=
  match xs with
  | [] => []
  | x :: rest =>
      if existsb (Qeqb x) seen then dedup_from seen rest else x :: dedup_from (x :: seen) rest
  end.

Definition js_set_values (xs : list Q) : list Q := dedup_from [] xs.

(** [.sort((a, b) => b - a)]: [x] goes after every [y] with [x <= y]. *)
Fixpoint insert_desc (x : Q) (l : list Q) : list Q :=
  match l with
  | [] => [x]
  | y :: rest => if x <=? y then y :: insert_desc x rest else x :: l
  end.

Definition sort_desc (xs : list Q) : list Q := fold_left (fun acc x => insert_desc x acc) xs [].

Record Levels := mkLevels { supports : list Q; resistances : list Q }.

Definition findSupportResistance (klines : list Kline) : Levels :=
  if (length klines <=? lookback * 2)%nat then mkLevels [] []
  else
    let '(sup, res) := fold_left (pivot_step klines)
                         (seq lookback (length klines - 2 * lookback)) ([], []) in
    mkLevels (sort_desc (js_set_values sup)) (sort_desc (js_set_values res)).

(** ** Specification: pivots *)

(** Candle [i] dominates the highs of its window of eleven candles. *)
Definition pivot_high (klines : list Kline) (i : nat) (c : Kline) : Prop :=
  (lookback <= i)%nat /\ (i + lookback < length klines)%nat /\ nth_error klines i = Some c /\
  forall j k, (i - lookback <= j <= i + lookback)%nat -> nth_error klines j = Some k -> high k <= high c.

Definition pivot_low (klines : list Kline) (i : nat) (c : Kline) : Prop :=
  (lookback <= i)%nat /\ (i + lookback < length klines)%nat /\ nth_error klines i = Some c /\
  forall j k, (i - lookback <= j <= i + lookback)%nat -> nth_error klines j = Some k -> low c <= low k.

(** ** Fair value gaps *)

Lemma fvg_scan_cons k1 k2 k3 rest :
  fvg_scan (k1 :: k2 :: k3 :: rest) =
  let '(bullish, bearish) := fvg_scan (k2 :: k3 :: rest) in
  ((if high k3 <? low k1 then [mkFVG (high k3) (low k1)] else []) ++ bullish,
   (if high k1 <? low k3 then [mkFVG (high k1) (low k3)] else []) ++ bearish).
Proof. reflexivity. Qed.

Lemma fvg_scan_spec klines g :
  (In g (fst (fvg_scan klines)) <-> exists i k1 k3, nth_error klines i = Some k1 /\
     nth_error klines (i + 2) = Some k3 /\ high k3 < low k1 /\ g = mkFVG (high k3) (low k1)) /\
  (In g (snd (fvg_scan klines)) <-> exists i k1 k3, nth_error klines i = Some k1 /\
     nth_error klines (i + 2) = Some k3 /\ high k1 < low k3 /\ g = mkFVG (high k1) (low k3)).
Proof.
  induction klines as [|k1 rest IH].
  - simpl. split; split; [tauto| |tauto|];
      intros (i & ? & ? & _ & H & _); apply nth_error_Some_lt in H; simpl in H; lia.
  - destruct rest as [|k2 [|k3 rest']].
    1, 2: simpl; split; split; [tauto| |tauto|];
      intros (i & ? & ? & _ & H & _); apply nth_error_Some_lt in H; simpl in H; lia.
    + rewrite fvg_scan_cons. destruct (fvg_scan (k2 :: k3 :: rest')) as [b br] eqn:E. cbn [fst snd] in *. destruct IH as [IHb IHbr]. split.
      * rewrite in_app_iff, IHb. split.
        -- intros [Hg|(i & a & c & Ha & Hc & Hlt & ->)].
           ++ qcase (high k3 <? low k1); [|contradiction]. destruct Hg as [<-|[]].
              exists 0%nat, k1, k3. repeat split; auto.
           ++ exists (S i), a, c. auto.
        -- intros ([|i] & a & c & Ha & Hc & Hlt & ->).
           ++ simpl in Ha, Hc. injection Ha as <-. injection Hc as <-. left.
              replace (high k3 <? low k1) with true by (symmetry; apply Qltb_iff; exact Hlt). left; reflexivity.
           ++ right. exists i, a, c. auto.
      * rewrite in_app_iff, IHbr. split.
        -- intros [Hg|(i & a & c & Ha & Hc & Hlt & ->)].
           ++ qcase (high k1 <? low k3); [|contradiction]. destruct Hg as [<-|[]].
              exists 0%nat, k1, k3. repeat split; auto.
           ++ exists (S i), a, c. auto.
        -- intros ([|i] & a & c & Ha & Hc & Hlt & ->).
           ++ simpl in Ha, Hc. injection Ha as <-. injection Hc as <-. left.
              replace (high k1 <? low k3) with true by (symmetry; apply Qltb_iff; exact Hlt). left; reflexivity.
           ++ right. exists i, a, c. auto.
Qed.

Lemma findFairValueGaps_scan klines : findFairValueGaps klines = fvg_scan klines.
Proof.
  unfold findFairValueGaps. destruct (length klines <? 3)%nat eqn:E; [|reflexivity].
  apply Nat.ltb_lt in E. destruct klines as [|a [|b [|c l]]]; simpl in *; auto; lia.
Qed.

(** ** The pivot loop *)

Lemma window_nth klines i j : nth_error (window klines i) j =
  if (j <? 2 * lookback + 1)%nat then nth_error klines (i - lookback + j) else None.
Proof. unfold window. rewrite nth_error_firstn, nth_error_skipn. reflexivity. Qed.

Lemma window_center klines i : (lookback <= i)%nat -> nth_error (window klines i) lookback = nth_error klines i.
Proof. intros H. rewrite window_nth. simpl. f_equal. unfold lookback in *. lia. Qed.

Lemma window_forallb (f : Kline -> bool) klines i : (lookback <= i)%nat ->
  forallb f (window klines i) = true <->
  forall j k, (i - lookback <= j <= i + lookback)%nat -> nth_error klines j = Some k -> f k = true.
Proof.
  intros Hi. rewrite forallb_forall. split.
  - intros H j k Hj Hk. apply H, (nth_error_In _ (j - (i - lookback))%nat).
    rewrite window_nth. unfold lookback in *.
    replace (j - (i - 5) <? 2 * 5 + 1)%nat with true by (symmetry; apply Nat.ltb_lt; lia).
    rewrite <- Hk. f_equal. lia.
  - intros H k Hk. apply In_nth_error in Hk as [j Hj]. rewrite window_nth in Hj.
    destruct (j <? 2 * lookback + 1)%nat eqn:E; [|discriminate]. apply Nat.ltb_lt in E.
    apply (H (i - lookback + j)%nat); [unfold lookback in *; lia|exact Hj].
Qed.

(** What one iteration pushes onto each list. *)
Definition res_at (klines : list Kline) (i : nat) : list Q :=
  match nth_error (window klines i) lookback with
  | Some c => if forallb (fun k => high k <=? high c) (window klines i) then [high c] else []
  | None => []
  end.

Definition sup_at (klines : list Kline) (i : nat) : list Q :=
  match nth_error (window klines i) lookback with
  | Some c => if forallb (fun k => low c <=? low k) (window klines i) then [low c] else []
  | None => []
  end.

Lemma pivot_step_split klines acc i :
  pivot_step klines acc i = (fst acc ++ sup_at klines i, snd acc ++ res_at klines i).
Proof.
  unfold pivot_step, sup_at, res_at. destruct acc as [sup res].
  destruct (nth_error (window klines i) lookback); simpl; [|rewrite !app_nil_r; reflexivity].
  destruct (forallb _ _), (forallb _ _); simpl; rewrite ?app_nil_r; reflexivity.
Qed.

Lemma pivot_fold klines idx acc :
  fold_left (pivot_step klines) idx acc =
  (fst acc ++ flat_map (sup_at klines) idx, snd acc ++ flat_map (res_at klines) idx).
Proof.
  revert acc. induction idx as [|i idx IH]; intros acc; simpl.
  - rewrite !app_nil_r. destruct acc; reflexivity.
  - rewrite IH, pivot_step_split. simpl. rewrite !app_assoc. reflexivity.
Qed.

Lemma res_at_spec klines i v : (lookback <= i)%nat -> (i + lookback < length klines)%nat ->
  In v (res_at klines i) <-> exists c, pivot_high klines i c /\ v = high c.
Proof.
  intros H1 H2. unfold res_at, pivot_high. rewrite window_center by exact H1.
  destruct (nth_error klines i) as [c|] eqn:Ec.
  2:{ apply nth_error_None in Ec. lia. }
  destruct (forallb _ _) eqn:F.
  - rewrite window_forallb in F by exact H1. simpl. split.
    + intros [<-|[]]. exists c. repeat split; auto. intros j k Hj Hk. apply Qleb_iff, (F j k Hj Hk).
    + intros (c' & (_ & _ & Hc' & _) & ->). left. congruence.
  - simpl. split; [tauto|]. intros (c' & (_ & _ & Hc' & Hall) & ->).
    injection Hc' as <-. rewrite <- not_true_iff_false in F. apply F.
    apply window_forallb; [exact H1|]. intros j k Hj Hk. apply Qleb_iff, (Hall j k Hj Hk).
Qed.

Lemma sup_at_spec klines i v : (lookback <= i)%nat -> (i + lookback < length klines)%nat ->
  In v (sup_at klines i) <-> exists c, pivot_low klines i c /\ v = low c.
Proof.
  intros H1 H2. unfold sup_at, pivot_low. rewrite window_center by exact H1.
  destruct (nth_error klines i) as [c|] eqn:Ec.
  2:{ apply nth_error_None in Ec. lia. }
  destruct (forallb _ _) eqn:F.
  - rewrite window_forallb in F by exact H1. simpl. split.
    + intros [<-|[]]. exists c. repeat split; auto. intros j k Hj Hk. apply Qleb_iff, (F j k Hj Hk).
    + intros (c' & (_ & _ & Hc' & _) & ->). left. congruence.
  - simpl. split; [tauto|]. intros (c' & (_ & _ & Hc' & Hall) & ->).
    injection Hc' as <-. rewrite <- not_true_iff_false in F. apply F.
    apply window_forallb; [exact H1|]. intros j k Hj Hk. apply Qleb_iff, (Hall j k Hj Hk).
Qed.

(** ** [new Set] and the sort *)

Lemma existsb_Qeqb_false x seen : existsb (Qeqb x) seen = false -> forall s, In s seen -> ~ s == x.
Proof.
  intros H s Hs E. apply not_true_iff_false in H. apply H, existsb_exists.
  exists s. split; [exact Hs|]. apply Qeqb_iff. symmetry. exact E.
Qed.

Lemma dedup_from_sub seen xs y : In y (dedup_from seen xs) -> In y xs /\ forall s, In s seen -> ~ s == y.
Proof.
  revert seen. induction xs as [|x xs IH]; intros seen; simpl; [tauto|].
  destruct (existsb (Qeqb x) seen) eqn:E.
  - intros H. apply IH in H. tauto.
  - intros [<-|H].
    + split; [left; reflexivity|]. apply existsb_Qeqb_false, E.
    + apply IH in H as [H1 H2]. split; [right; exact H1|]. intros s Hs. apply H2. right. exact Hs.
Qed.

Lemma dedup_from_complete seen xs x : In x xs ->
  (exists s, In s seen /\ s == x) \/ (exists y, In y (dedup_from seen xs) /\ y == x).
Proof.
  revert seen. induction xs as [|x' xs IH]; intros seen; simpl; [tauto|].
  intros [<-|Hx].
  - destruct (existsb (Qeqb x') seen) eqn:E.
    + left. apply existsb_exists in E as (s & Hs & Es). exists s. split; [exact Hs|].
      apply Qeqb_iff in Es. symmetry. exact Es.
    + right. exists x'. split; [left; reflexivity|reflexivity].
  - destruct (existsb (Qeqb x') seen); [apply IH, Hx|].
    destruct (IH (x' :: seen) Hx) as [(s & [<-|Hs] & Es)|(y & Hy & Ey)].
    + right. exists x'. split; [left; reflexivity|exact Es].
    + left. exists s. auto.
    + right. exists y. split; [right; exact Hy|exact Ey].
Qed.

Lemma dedup_from_distinct seen xs : ForallOrdPairs (fun a b => ~ a == b) (dedup_from seen xs).
Proof.
  revert seen. induction xs as [|x xs IH]; intros seen; simpl; [constructor|].
  destruct (existsb (Qeqb x) seen); [apply IH|]. constructor; [|apply IH].
  apply Forall_forall. intros y Hy. apply dedup_from_sub in Hy as [_ H]. apply H. left. reflexivity.
Qed.

(** Membership up to numeric equality survives [new Set]. *)
Lemma js_set_values_spec xs v :
  (exists y, In y (js_set_values xs) /\ y == v) <-> (exists x, In x xs /\ x == v).
Proof.
  unfold js_set_values. split.
  - intros (y & Hy & E). exists y. split; [apply (dedup_from_sub _ _ _ Hy)|exact E].
  - intros (x & Hx & E). destruct (dedup_from_complete [] xs x Hx) as [(s & [] & _)|(y & Hy & Ey)].
    exists y. split; [exact Hy|]. rewrite Ey. exact E.
Qed.

Definition desc (a b : Q) : Prop := b < a.

Lemma insert_desc_In x l v : In v (insert_desc x l) <-> v = x \/ In v l.
Proof.
  induction l as [|y l IH]; simpl; [intuition congruence|].
  destruct (x <=? y); simpl; [rewrite IH|]; split; intros; intuition congruence.
Qed.

Lemma sort_desc_In_aux xs acc v :
  In v (fold_left (fun acc x => insert_desc x acc) xs acc) <-> In v acc \/ In v xs.
Proof.
  revert acc. induction xs as [|x xs IH]; intros acc; simpl; [tauto|].
  rewrite IH, insert_desc_In. intuition congruence.
Qed.

Lemma sort_desc_In xs v : In v (sort_desc xs) <-> In v xs.
Proof. unfold sort_desc. rewrite sort_desc_In_aux. simpl. tauto. Qed.

Lemma insert_desc_strict x l :
  StronglySorted desc l -> (forall y, In y l -> ~ x == y) -> StronglySorted desc (insert_desc x l).
Proof.
  induction l as [|y l IH]; intros Hs Hd; simpl; [repeat constructor|].
  inversion Hs as [|? ? Hl Hy]; subst.
  assert (Hxy : ~ x == y) by (apply Hd; left; reflexivity).
  qcase (x <=? y).
  - constructor; [apply IH; auto; intros z Hz; apply Hd; right; exact Hz|].
    apply Forall_forall. intros z Hz. apply insert_desc_In in Hz as [->|Hz].
    + unfold desc. destruct (Qle_lt_or_eq _ _ Hc); [assumption|contradiction].
    + exact (proj1 (Forall_forall _ _) Hy z Hz).
  - constructor; [exact Hs|]. constructor; [exact Hc|].
    apply Forall_forall. intros z Hz. unfold desc in *.
    pose proof (proj1 (Forall_forall _ _) Hy z Hz). simpl in *. lra.
Qed.

Lemma sort_desc_sorted_aux xs acc :
  StronglySorted desc acc -> (forall a x, In a acc -> In x xs -> ~ a == x) ->
  ForallOrdPairs (fun a b => ~ a == b) xs ->
  StronglySorted desc (fold_left (fun acc x => insert_desc x acc) xs acc).
Proof.
  revert acc. induction xs as [|x xs IH]; intros acc Hs Hd Hp; simpl; [exact Hs|].
  inversion Hp as [|? ? Hx Hp']; subst. apply IH; auto.
  - apply insert_desc_strict; [exact Hs|]. intros y Hy E. apply (Hd y x Hy); [left; reflexivity|].
    symmetry. exact E.
  - intros a z Ha Hz. apply insert_desc_In in Ha as [->|Ha].
    + exact (proj1 (Forall_forall _ _) Hx z Hz).
    + apply Hd; [exact Ha|right; exact Hz].
Qed.

(** The levels: a sorted copy of the values of the set. *)
Lemma sorted_set_spec xs :
  StronglySorted desc (sort_desc (js_set_values xs)) /\
  forall v, (exists y, In y (sort_desc (js_set_values xs)) /\ y == v) <-> (exists x, In x xs /\ x == v).
Proof.
  split.
  - apply sort_desc_sorted_aux; [constructor|intros a x []|apply dedup_from_distinct].
  - intros v. rewrite <- (js_set_values_spec xs v).
    split; intros (y & Hy & E); exists y; split; auto; apply sort_desc_In, Hy.
Qed.

(** The loop collects, over the scanned indices, the values of the
    candles that satisfy the pivot condition. *)
Lemma collect_spec (at_ : list Kline -> nat -> list Q) (P : list Kline -> nat -> Kline -> Prop)
    (val : Kline -> Q) klines v :
  (forall i w, (lookback <= i)%nat -> (i + lookback < length klines)%nat ->
     In w (at_ klines i) <-> exists c, P klines i c /\ w = val c) ->
  (forall i c, P klines i c -> (lookback <= i)%nat /\ (i + lookback < length klines)%nat) ->
  (exists x, In x (flat_map (at_ klines) (seq lookback (length klines - 2 * lookback))) /\ x == v) <->
  (exists i c, P klines i c /\ val c == v).
Proof.
  intros Hat HP. split.
  - intros (x & Hx & E). apply in_flat_map in Hx as (i & Hi & Hx). apply in_seq in Hi.
    apply Hat in Hx as (c & Hc & ->); [|unfold lookback in *; lia|unfold lookback in *; lia].
    exists i, c. auto.
  - intros (i & c & Hc & E). destruct (HP i c Hc) as [H1 H2]. exists (val c). split; [|exact E].
    apply in_flat_map. exists i. split; [apply in_seq; unfold lookback in *; lia|].
    apply Hat; auto. exists c. auto.
Qed.

Lemma pivot_high_range klines i c : pivot_high klines i c -> (lookback <= i)%nat /\ (i + lookback < length klines)%nat.
Proof. intros (H1 & H2 & _). auto. Qed.

Lemma pivot_low_range klines i c : pivot_low klines i c -> (lookback <= i)%nat /\ (i + lookback < length klines)%nat.
Proof. intros (H1 & H2 & _). auto. Qed.

(** ** Properties of the price-action helpers *)

(** [findFairValueGaps] returns, on each side, exactly the gaps of
    the triples of consecutive candles: a bullish gap [high3, low1] when
    the first candle's low is above the third's high, a bearish gap
    [high1, low3] when the first candle's high is below the third's low.
    Every gap returned is a non-empty interval. *)
Theorem findFairValueGaps_spec klines g :
  (In g (fst (findFairValueGaps klines)) <-> exists i k1 k3, nth_error klines i = Some k1 /\
     nth_error klines (i + 2) = Some k3 /\ high k3 < low k1 /\ g = mkFVG (high k3) (low k1)) /\
  (In g (snd (findFairValueGaps klines)) <-> exists i k1 k3, nth_error klines i = Some k1 /\
     nth_error klines (i + 2) = Some k3 /\ high k1 < low k3 /\ g = mkFVG (high k1) (low k3)).
Proof. rewrite findFairValueGaps_scan. apply fvg_scan_spec. Qed.

(** C8: A level returned by [findSupportResistance] is the high (low) of
    a candle that dominates the highs (lows) of the five candles on each
    side, and every such pivot's level is returned. *)
Theorem findSupportResistance_levels klines v :
  ((exists r, In r (resistances (findSupportResistance klines)) /\ r == v) <->
     (exists i c, pivot_high klines i c /\ high c == v)) /\
  ((exists s, In s (supports (findSupportResistance klines)) /\ s == v) <->
     (exists i c, pivot_low klines i c /\ low c == v)).
Proof.
  unfold findSupportResistance. destruct (length klines <=? lookback * 2)%nat eqn:E.
  - apply Nat.leb_le in E. cbn [resistances supports In].
    split; split; [intros (? & [] & _)| |intros (? & [] & _)|].
    + intros (i & c & Hc & _). apply pivot_high_range in Hc. unfold lookback in *. lia.
    + intros (i & c & Hc & _). apply pivot_low_range in Hc. unfold lookback in *. lia.
  - rewrite pivot_fold. cbn [fst snd app resistances supports]. split.
    + rewrite (proj2 (sorted_set_spec _)). apply collect_spec; [apply res_at_spec|apply pivot_high_range].
    + rewrite (proj2 (sorted_set_spec _)). apply collect_spec; [apply sup_at_spec|apply pivot_low_range].
Qed.

(** Both level lists of [findSupportResistance] are strictly
    descending, hence free of duplicates. *)
Theorem findSupportResistance_sorted klines :
  StronglySorted desc (resistances (findSupportResistance klines)) /\
  StronglySorted desc (supports (findSupportResistance klines)).
Proof.
  unfold findSupportResistance. destruct (length klines <=? lookback * 2)%nat.
  - split; constructor.
  - rewrite pivot_fold. split; apply sorted_set_spec.
Qed.

End PriceAction.
