(* ===== verification/Generator.v ===== *)
(** * Generator: [generateSignalParameters]
    ([src/services/mockSignalService.ts], lines 306-563)

    The analysis of one ticker: the candle fetch, the indicator gate,
    the trend decision, the choice of the entry level among supports,
    resistances, gaps and moving averages, the entry zone, stop and five
    targets, the freshness gate, the leverage and the random probability,
    and the rounding of every stored price by [formatPriceValue].

    The function is split where the code changes from computing to
    storing: [analyze] runs everything up to the [return] and yields the
    raw numbers as a [Plan], [finalize] builds the returned object, and
    [generateSignalParameters] is their composition after the fetch. The
    fetch is an input: [None] when [fetch] throws or the response is not
    [ok], the parsed candles otherwise. [Math.random()] and [Date.now()]
    are inputs as well.

    Theorems: a signal is only produced past the indicator and trend
    gates; its target is on the favourable side of the price; the raw
    first target is beyond the current price (the freshness gate), and
    the stored one, once rounded, can fall short of it by at most the
    rounding error; stop, zone and targets are stored in order; the
    leverage lies in [5, 25]; the probability lies in the range of its
    confidence label. *)

From Stdlib Require Import String Ascii.
From Stdlib Require Import QArith Qround Qabs Lqa ZArith List Lia Bool Sorted.
From S2P Require Import Prelude Types Indicators PriceAction Formatting.
Import ListNotations.
Open Scope Q_scope.
Open Scope js_scope.

Module Generator.
Import Indicators PriceAction Format.

Local Open Scope string_scope.
Definition CONF_LONG_STRONG : string := "Muito Alta - Confluência de tendência de alta (EMAs + MACD) e RSI saudável.".
Definition CONF_LONG : string := "Alta - Tendência de alta primária (EMAs) com RSI favorável.".
Definition CONF_SHORT_STRONG : string := "Muito Alta - Confluência de tendência de baixa (EMAs + MACD) e RSI saudável.".
Definition CONF_SHORT : string := "Alta - Tendência de baixa primária (EMAs) com RSI favorável.".
Definition VERY_HIGH : string := "Muito Alta".

Definition REASON_NA : string := "N/A".
Definition REASON_SUPPORT : string := "Retração para a zona de suporte/demanda mais próxima.".
Definition REASON_SUPPORT_ALL : string := "Confluência de Suporte, FVG e Média Móvel.".
Definition REASON_SUPPORT_EMA : string := "Retração para Média Móvel confluente com Suporte.".
Definition REASON_FVG : string := "Retração para Fair Value Gap (FVG).".
Definition REASON_BREAKOUT : string := "Reteste (pullback) de resistência rompida (breakout).".
Definition REASON_RESISTANCE : string := "Retração para a zona de resistência/oferta mais próxima.".
Definition REASON_RESISTANCE_ALL : string := "Confluência de Resistência, FVG e Média Móvel.".
Definition REASON_RESISTANCE_EMA : string := "Retração para Média Móvel confluente com Resistência.".
Definition REASON_BREAKDOWN : string := "Reteste (pullback) de suporte rompido (breakdown).".
Definition RISK_NOTE_SUFFIX : string := " Stop-Loss posicionado com base na volatilidade (ATR).".
Close Scope string_scope.

(** [s.replace('USDT', '')]: the first occurrence only. *)
Fixpoint replace_first (pat rep s : string) : string :=
  if String.prefix pat s then (rep ++ substring (String.length pat) (String.length s) s)%string
  else match s with
       | EmptyString => EmptyString
       | String c s' => String c (replace_first pat rep s')
       end.

(** ** Step 3: trend and direction *)

Definition trendSignal (currentPrice ema21 ema50 rsi : Q) (m : MACD) : option (SignalDirection * string) :=
  let isUptrend := (ema21 <? currentPrice) && (ema50 <? ema21) in
  let isDowntrend := (currentPrice <? ema21) && (ema21 <? ema50) in
  if isUptrend && (rsi <? 75) then
    Some (LONG, if (signalLine m <? macdLine m) && (0 <? histogram m) then CONF_LONG_STRONG else CONF_LONG)
  else if isDowntrend && (25 <? rsi) then
    Some (SHORT, if (macdLine m <? signalLine m) && (histogram m <? 0) then CONF_SHORT_STRONG else CONF_SHORT)
  else None.

(** ** Step 4: the entry level *)

(** [Math.abs(a - b) / b < bound]; a division by zero gives [Infinity]
    or [NaN], and neither is below the bound. *)
Definition near (a b bound : Q) : bool :=
  if b =? 0 then false else js_abs (a - b) / b <? bound.

Definition fvg_mid (g : FVG) : Q := (fvg_start g + fvg_end g) / 2.

Definition in_fvg (t : Q) (g : FVG) : bool := (fvg_start g <=? t) && (t <=? fvg_end g).

(** The reason attached to a level chosen from the pool. *)
Definition poolReason (t ema21 ema50 : Q) (gaps : list FVG) (base all ema : string) : string :=
  let isNearEma := near t ema21 (5 # 1000) || near t ema50 (5 # 1000) in
  let isInFVG := existsb (in_fvg t) gaps in
  if isNearEma && isInFVG then all
  else if isNearEma then ema
  else if isInFVG then REASON_FVG
  else base.

Definition longEntry (currentPrice atr ema21 ema50 : Q) (lv : Levels) (bullish : list FVG)
    : option Q * string :=
  let potentialSupports :=
    List.filter (fun s => s <? currentPrice) (supports lv) ++
    map fvg_mid (List.filter (fun g => fvg_end g <? currentPrice) bullish) ++
    (if ema21 <? currentPrice then [ema21] else []) ++
    (if ema50 <? currentPrice then [ema50] else []) in
  match js_max_list potentialSupports with
  | Some t => (Some t, poolReason t ema21 ema50 bullish REASON_SUPPORT REASON_SUPPORT_ALL REASON_SUPPORT_EMA)
  | None =>
      match js_min_list (List.filter (fun r => (r <? currentPrice) && (currentPrice - r <? atr * 2))
                                     (resistances lv)) with
      | Some r => (Some r, REASON_BREAKOUT)
      | None => (None, REASON_NA)
      end
  end.

Definition shortEntry (currentPrice atr ema21 ema50 : Q) (lv : Levels) (bearish : list FVG)
    : option Q * string :=
  let potentialResistances :=
    List.filter (fun r => currentPrice <? r) (resistances lv) ++
    map fvg_mid (List.filter (fun g => currentPrice <? fvg_start g) bearish) ++
    (if currentPrice <? ema21 then [ema21] else []) ++
    (if currentPrice <? ema50 then [ema50] else []) in
  match js_min_list potentialResistances with
  | Some t => (Some t, poolReason t ema21 ema50 bearish REASON_RESISTANCE REASON_RESISTANCE_ALL REASON_RESISTANCE_EMA)
  | None =>
      match js_max_list (List.filter (fun s => (currentPrice <? s) && (s - currentPrice <? atr * 2))
                                     (supports lv)) with
      | Some s => (Some s, REASON_BREAKDOWN)
      | None => (None, REASON_NA)
      end
  end.

(** The direction picks the side of the pool. *)
Definition entrySelection (direction : SignalDirection) (currentPrice atr ema21 ema50 : Q)
    (lv : Levels) (fvgs : list FVG * list FVG) : option Q * string :=
  match direction with
  | LONG => longEntry currentPrice atr ema21 ema50 lv (fst fvgs)
  | SHORT => shortEntry currentPrice atr ema21 ema50 lv (snd fvgs)
  end.

(** ** Steps 5-11: zone, stop, targets, gates, leverage, probability *)

(** The freshness gate: the price has reached the first target. *)
Definition too_late (direction : SignalDirection) (currentPrice tp1 : Q) : bool :=
  match direction with
  | LONG => tp1 <=? currentPrice
  | SHORT => currentPrice <=? tp1
  end.

Definition rrMultiples : list Q := [6 # 10; 12 # 10; 2; 35 # 10; 5].

Record Plan := mkPlan {
  pl_direction : SignalDirection;
  pl_confidence : string;
  pl_entryReason : string;
  pl_entryTarget : Q;
  pl_entryZone : Q * Q;
  pl_stopLoss : Q;
  pl_takeProfit : list Q;
  pl_safeLeverage : Z;
  pl_probability : Z
}.

Definition takeProfits (direction : SignalDirection) (entryTarget riskDistance : Q) : list Q :=
  match direction with
  | LONG => map (fun m => entryTarget + riskDistance * m) rrMultiples
  | SHORT => map (fun m => js_max 0 (entryTarget - riskDistance * m)) rrMultiples
  end.

Definition leverageFor (riskPercent : Q) : Z :=
  if 0 <? riskPercent then js_round (js_min 25 (js_max 5 (20 / riskPercent))) else 5%Z.

Definition probabilityFor (confidence : string) (random : Q) : Z :=
  if String.prefix VERY_HIGH confidence then (Qfloor (random * 9) + 90)%Z
  else (Qfloor (random * 10) + 80)%Z.

(** Entry zone and stop before the clamping at zero (steps 5 and 6). *)
Definition zoneStop (direction : SignalDirection) (confidence : string) (atr entryTarget : Q) : Q * Q * Q :=
  let entryZoneSpread := atr * (1 # 4) in
  let z0 := entryTarget - entryZoneSpread / 2 in
  let z1 := entryTarget + entryZoneSpread / 2 in
  let stopLossDistanceMultiplier := if String.prefix VERY_HIGH confidence then 5 # 4 else 7 # 4 in
  match direction with
  | LONG => (z0, z1, z0 - atr * stopLossDistanceMultiplier)
  | SHORT =>
      let '(z0, z1) := if z1 <? z0 then (z1, z0) else (z0, z1) in
      (z0, z1, z1 + atr * stopLossDistanceMultiplier)
  end.

(** Everything between the candle check and the [return]. *)
Definition analyze (ticker : Binance.BinanceTicker) (klines : list Kline) (random : Q) : option Plan :=
  if (length klines <? 51)%nat then None else
  let relevantKlines := removelast klines in
  let closePrices := map close relevantKlines in
  let currentPrice := Binance.lastPrice ticker in
  let atr := calculateATR relevantKlines 14 in
  let ema21 := calculateEMA closePrices 21 in
  let ema50 := calculateEMA closePrices 50 in
  let macd := calculateMACD closePrices in
  let rsi := calculateRSI closePrices 14 in
  if (atr =? 0) || (ema21 =? 0) then None else
  match trendSignal currentPrice ema21 ema50 rsi macd with
  | None => None
  | Some (direction, confidence) =>
  let lv := findSupportResistance relevantKlines in
  let fvgs := findFairValueGaps relevantKlines in
  let '(entry, entryReason) := entrySelection direction currentPrice atr ema21 ema50 lv fvgs in
  match entry with
  | None => None
  | Some entryTarget =>
  if entryTarget <=? 0 then None else
  let '(z0, z1, stopLoss) := zoneStop direction confidence atr entryTarget in
  let entryZone := (js_max 0 z0, js_max 0 z1) in
  let stopLoss := js_max 0 stopLoss in
  let riskDistance := js_abs (entryTarget - stopLoss) in
  if (riskDistance =? 0) || (riskDistance / entryTarget <? 1 # 1000) then None else
  let takeProfit := takeProfits direction entryTarget riskDistance in
  let tp1 := nth 0 takeProfit 0 in
  if too_late direction currentPrice tp1 then None else
  let riskPercent := js_abs ((entryTarget - stopLoss) / entryTarget) * 100 in
  Some (mkPlan direction confidence entryReason entryTarget entryZone stopLoss takeProfit
               (leverageFor riskPercent) (probabilityFor confidence random))
  end
  end.

(** The returned object: every price through [formatPriceValue]. *)
Definition finalize (ticker : Binance.BinanceTicker) (now : Z) (p : Plan) : CachedSignalParameters :=
  let '(z0, z1) := pl_entryZone p in
  mkParams (Binance.symbol ticker) (replace_first "USDT" "" (Binance.symbol ticker)) "USDT"
    (pl_direction p) (pl_probability p)
    (formatPriceValue (js_min z0 z1), formatPriceValue (js_max z0 z1))
    (formatPriceValue (pl_stopLoss p)) (map formatPriceValue (pl_takeProfit p))
    (pl_confidence p) (pl_entryReason p ++ RISK_NOTE_SUFFIX) (pl_safeLeverage p) now.

(** [generateSignalParameters]: the fetch result, [Math.random()] and
    [Date.now()] as inputs. *)
Definition generateSignalParameters (ticker : Binance.BinanceTicker) (fetched : option (list Kline))
    (random : Q) (now : Z) : option CachedSignalParameters :=
  match fetched with
  | None => None
  | Some klines => option_map (finalize ticker now) (analyze ticker klines random)
  end.

(** ** What a produced plan satisfies *)

(** Every guard [analyze] passed, read back from a produced plan. *)
Lemma analyze_inv ticker klines random plan :
  analyze ticker klines random = Some plan ->
  let rk := removelast klines in
  let closes := map close rk in
  let price := Binance.lastPrice ticker in
  let atr := calculateATR rk 14 in
  let ema21 := calculateEMA closes 21 in
  let ema50 := calculateEMA closes 50 in
  (51 <= length klines)%nat /\ (atr =? 0) = false /\ (ema21 =? 0) = false /\
  trendSignal price ema21 ema50 (calculateRSI closes 14) (calculateMACD closes) =
    Some (pl_direction plan, pl_confidence plan) /\
  entrySelection (pl_direction plan) price atr ema21 ema50 (findSupportResistance rk) (findFairValueGaps rk) =
    (Some (pl_entryTarget plan), pl_entryReason plan) /\
  0 < pl_entryTarget plan /\
  (exists z0 z1 sl, zoneStop (pl_direction plan) (pl_confidence plan) atr (pl_entryTarget plan) = (z0, z1, sl) /\
     pl_entryZone plan = (js_max 0 z0, js_max 0 z1) /\ pl_stopLoss plan = js_max 0 sl) /\
  (js_abs (pl_entryTarget plan - pl_stopLoss plan) =? 0) = false /\
  (1 # 1000) <= js_abs (pl_entryTarget plan - pl_stopLoss plan) / pl_entryTarget plan /\
  pl_takeProfit plan = takeProfits (pl_direction plan) (pl_entryTarget plan)
                         (js_abs (pl_entryTarget plan - pl_stopLoss plan)) /\
  too_late (pl_direction plan) price (nth 0 (pl_takeProfit plan) 0) = false /\
  pl_safeLeverage plan =
    leverageFor (js_abs ((pl_entryTarget plan - pl_stopLoss plan) / pl_entryTarget plan) * 100) /\
  pl_probability plan = probabilityFor (pl_confidence plan) random.
Proof.
  unfold analyze. cbv zeta. intros H.
  destruct (length klines <? 51)%nat eqn:E1; [discriminate|]. apply Nat.ltb_ge in E1.
  destruct (calculateATR (removelast klines) 14 =? 0) eqn:E2; [discriminate|].
  destruct (calculateEMA (map close (removelast klines)) 21 =? 0) eqn:E3; [discriminate|].
  cbn [orb] in H.
  destruct (trendSignal _ _ _ _ _) as [[dir conf]|] eqn:E4; [|discriminate].
  destruct (entrySelection _ _ _ _ _ _ _) as [[t|] reason] eqn:E5; [|discriminate].
  destruct (t <=? 0) eqn:E6; [discriminate|]. apply Qleb_false in E6.
  destruct (zoneStop dir conf _ t) as [[z0 z1] sl] eqn:E7.
  destruct ((js_abs (t - js_max 0 sl) =? 0) || (js_abs (t - js_max 0 sl) / t <? 1 # 1000)) eqn:E8;
    [discriminate|]. apply orb_false_iff in E8 as [E8 E8'].
  destruct (too_late _ _ _) eqn:E9; [discriminate|].
  injection H as <-. cbn [pl_direction pl_confidence pl_entryReason pl_entryTarget pl_entryZone
    pl_stopLoss pl_takeProfit pl_safeLeverage pl_probability].
  apply Qltb_false in E8'.
  repeat split; auto. exists z0, z1, sl. auto.
Qed.

Lemma generate_inv ticker fetched random now p :
  generateSignalParameters ticker fetched random now = Some p ->
  exists klines plan, fetched = Some klines /\ analyze ticker klines random = Some plan /\
    p = finalize ticker now plan.
Proof.
  unfold generateSignalParameters. destruct fetched as [klines|]; [|discriminate].
  destruct (analyze ticker klines random) as [plan|] eqn:E; [|discriminate].
  intros H. injection H as <-. exists klines, plan. auto.
Qed.

(** The generated parameters carry the ticker's symbol and the
    creation instant. *)
Lemma generate_id_timestamp ticker fetched random now p :
  generateSignalParameters ticker fetched random now = Some p ->
  id p = Binance.symbol ticker /\ timestamp p = now.
Proof.
  intros H. apply generate_inv in H as (k & plan & _ & _ & ->).
  unfold finalize. destruct (pl_entryZone plan). simpl. auto.
Qed.

Lemma trendSignal_long price e21 e50 rsi m c :
  trendSignal price e21 e50 rsi m = Some (LONG, c) -> e21 < price /\ e50 < e21 /\ rsi < 75.
Proof.
  unfold trendSignal. destruct ((e21 <? price) && (e50 <? e21) && (rsi <? 75)) eqn:E.
  - intros _. apply andb_true_iff in E as [E E3]. apply andb_true_iff in E as [E1 E2].
    qbool_to_prop. auto.
  - destruct ((price <? e21) && (e21 <? e50) && (25 <? rsi)); intros H; inversion H.
Qed.

Lemma trendSignal_short price e21 e50 rsi m c :
  trendSignal price e21 e50 rsi m = Some (SHORT, c) -> price < e21 /\ e21 < e50 /\ 25 < rsi.
Proof.
  unfold trendSignal. destruct ((e21 <? price) && (e50 <? e21) && (rsi <? 75)); [intros H; inversion H|].
  destruct ((price <? e21) && (e21 <? e50) && (25 <? rsi)) eqn:E; [|discriminate].
  intros _. apply andb_true_iff in E as [E E3]. apply andb_true_iff in E as [E1 E2].
  qbool_to_prop. auto.
Qed.

Lemma gaps_ordered klines :
  Forall (fun g => fvg_start g <= fvg_end g) (fst (findFairValueGaps klines)) /\
  Forall (fun g => fvg_start g <= fvg_end g) (snd (findFairValueGaps klines)).
Proof.
  split; apply Forall_forall; intros g Hg.
  - apply (proj1 (findFairValueGaps_spec klines g)) in Hg as (i & k1 & k3 & _ & _ & Hlt & ->). simpl. lra.
  - apply (proj2 (findFairValueGaps_spec klines g)) in Hg as (i & k1 & k3 & _ & _ & Hlt & ->). simpl. lra.
Qed.

Lemma In_if_single (b : bool) (x y : Q) : In y (if b then [x] else []) -> b = true /\ y = x.
Proof. destruct b; simpl; intuition. Qed.

(** A LONG entry is a level below the price. *)
Lemma longEntry_below price atr e21 e50 lv gaps t reason :
  Forall (fun g => fvg_start g <= fvg_end g) gaps ->
  longEntry price atr e21 e50 lv gaps = (Some t, reason) -> t < price.
Proof.
  intros Hg. unfold longEntry. destruct (js_max_list _) as [m|] eqn:E.
  - intros H. injection H as -> _. apply js_max_list_spec in E as [Hin _].
    rewrite !in_app_iff in Hin. destruct Hin as [Hin|[Hin|[Hin|Hin]]].
    + apply filter_In in Hin as [_ Hlt]. apply Qltb_iff, Hlt.
    + apply in_map_iff in Hin as (g & <- & Hin). apply filter_In in Hin as [Hin Hlt].
      apply Qltb_iff in Hlt. pose proof (proj1 (Forall_forall _ _) Hg g Hin) as Hse. cbv beta in Hse.
      unfold fvg_mid. apply Qlt_shift_div_r; lra.
    + apply In_if_single in Hin as [Hb ->]. apply Qltb_iff, Hb.
    + apply In_if_single in Hin as [Hb ->]. apply Qltb_iff, Hb.
  - destruct (js_min_list _) as [r|] eqn:E'; intros H; [|discriminate]. injection H as -> _.
    apply js_min_list_spec in E' as [Hin _]. apply filter_In in Hin as [_ Hb].
    apply andb_true_iff in Hb as [Hb _]. apply Qltb_iff, Hb.
Qed.

(** A SHORT entry is a level above the price. *)
Lemma shortEntry_above price atr e21 e50 lv gaps t reason :
  Forall (fun g => fvg_start g <= fvg_end g) gaps ->
  shortEntry price atr e21 e50 lv gaps = (Some t, reason) -> price < t.
Proof.
  intros Hg. unfold shortEntry. destruct (js_min_list _) as [m|] eqn:E.
  - intros H. injection H as -> _. apply js_min_list_spec in E as [Hin _].
    rewrite !in_app_iff in Hin. destruct Hin as [Hin|[Hin|[Hin|Hin]]].
    + apply filter_In in Hin as [_ Hlt]. apply Qltb_iff, Hlt.
    + apply in_map_iff in Hin as (g & <- & Hin). apply filter_In in Hin as [Hin Hlt].
      apply Qltb_iff in Hlt. pose proof (proj1 (Forall_forall _ _) Hg g Hin) as Hse. cbv beta in Hse.
      unfold fvg_mid. apply Qlt_shift_div_l; lra.
    + apply In_if_single in Hin as [Hb ->]. apply Qltb_iff, Hb.
    + apply In_if_single in Hin as [Hb ->]. apply Qltb_iff, Hb.
  - destruct (js_max_list _) as [r|] eqn:E'; intros H; [|discriminate]. injection H as -> _.
    apply js_max_list_spec in E' as [Hin _]. apply filter_In in Hin as [_ Hb].
    apply andb_true_iff in Hb as [Hb _]. apply Qltb_iff, Hb.
Qed.

Lemma zoneStop_order dir conf atr t z0 z1 sl : 0 <= atr ->
  zoneStop dir conf atr t = (z0, z1, sl) ->
  z0 <= z1 /\ match dir with LONG => sl <= z0 | SHORT => z1 <= sl end.
Proof.
  intros Ha. unfold zoneStop.
  assert (Hm : 0 < (if String.prefix VERY_HIGH conf then 5 # 4 else 7 # 4))
    by (destruct (String.prefix VERY_HIGH conf); reflexivity).
  set (m := if String.prefix VERY_HIGH conf then 5 # 4 else 7 # 4) in *.
  assert (Hm0 : 0 <= atr * m) by (apply Qmult_le_0_compat; lra).
  assert (Hs : 0 <= atr * (1 # 4) / 2) by (apply Qle_shift_div_l; [reflexivity|]; nra).
  destruct dir.
  - intros Hz. injection Hz as <- <- <-. lra.
  - qcase (t + atr * (1 # 4) / 2 <? t - atr * (1 # 4) / 2); intros Hz; injection Hz as <- <- <-; lra.
Qed.

Lemma takeProfits_sorted dir t r : 0 <= r ->
  match dir with
  | LONG => Sorted Qle (takeProfits dir t r)
  | SHORT => Sorted (fun a b => b <= a) (takeProfits dir t r)
  end.
Proof.
  intros Hr. destruct dir; simpl.
  - repeat constructor; lra.
  - repeat constructor; apply js_max_mono_r; lra.
Qed.

Lemma leverageFor_bounds rp : (5 <= leverageFor rp <= 25)%Z.
Proof.
  unfold leverageFor. qcase (0 <? rp); [|lia].
  set (v := js_min 25 (js_max 5 (20 / rp))).
  assert (Hv : 5 <= v <= 25).
  { unfold v. split.
    - unfold js_min. qcase (js_max 5 (20 / rp) <? 25); [apply js_max_ge_l|lra].
    - apply js_min_le_l. }
  pose proof (js_round_bounds v) as [Hlo Hhi]. split.
  - assert (inject_Z 4 < inject_Z (js_round v)) as H by (change (inject_Z 4) with 4; lra).
    rewrite <- Zlt_Qlt in H. lia.
  - assert (inject_Z (js_round v) < inject_Z 26) as H by (change (inject_Z 26) with 26; lra).
    rewrite <- Zlt_Qlt in H. lia.
Qed.

Lemma Qfloor_ge_Z_helper q : 0 <= q -> (0 <= Qfloor q)%Z.
Proof. intros H. change 0%Z with (Qfloor 0). apply Qfloor_resp_le, H. Qed.

Lemma floor_scaled_bounds random (n : Z) : 0 <= random < 1 -> (0 < n)%Z ->
  (0 <= Qfloor (random * inject_Z n) <= n - 1)%Z.
Proof.
  intros Hr Hn. assert (Hn' : 0 < inject_Z n) by (change 0 with (inject_Z 0); rewrite <- Zlt_Qlt; exact Hn).
  split.
  - apply Qfloor_ge_Z_helper. nra.
  - pose proof (Qfloor_le (random * inject_Z n)) as H.
    assert (inject_Z (Qfloor (random * inject_Z n)) < inject_Z n) as H' by nra.
    rewrite <- Zlt_Qlt in H'. lia.
Qed.

(** ** Properties of the generator *)

(** A signal is only produced in a confirmed trend: a LONG when the
    price is above the 21-period EMA, which is above the 50-period EMA,
    with an RSI below 75; a SHORT in the mirror situation with an RSI
    above 25 (the indicators taken on the closed candles). *)
Theorem generate_trend_gate ticker klines random now p :
  generateSignalParameters ticker (Some klines) random now = Some p ->
  let closes := map close (removelast klines) in
  let price := Binance.lastPrice ticker in
  (direction p = LONG -> calculateEMA closes 21 < price /\
     calculateEMA closes 50 < calculateEMA closes 21 /\ calculateRSI closes 14 < 75) /\
  (direction p = SHORT -> price < calculateEMA closes 21 /\
     calculateEMA closes 21 < calculateEMA closes 50 /\ 25 < calculateRSI closes 14).
Proof.
  intros H. apply generate_inv in H as (k & plan & Hk & Ha & ->). injection Hk as <-.
  apply analyze_inv in Ha. cbv zeta in Ha. destruct Ha as (_ & _ & _ & Ht & _).
  unfold finalize. destruct (pl_entryZone plan). cbn [direction]. split; intros Hd; rewrite Hd in Ht.
  - eapply trendSignal_long; exact Ht.
  - eapply trendSignal_short; exact Ht.
Qed.

(** The entry level of a produced plan lies on the favourable side
    of the current price: below it for a LONG, above it for a SHORT. *)
Theorem analyze_entry_side ticker klines random plan :
  analyze ticker klines random = Some plan ->
  match pl_direction plan with
  | LONG => pl_entryTarget plan < Binance.lastPrice ticker
  | SHORT => Binance.lastPrice ticker < pl_entryTarget plan
  end.
Proof.
  intros Ha. apply analyze_inv in Ha. cbv zeta in Ha. destruct Ha as (_ & _ & _ & _ & He & _).
  destruct (gaps_ordered (removelast klines)) as [Gb Gs].
  unfold entrySelection in He. destruct (pl_direction plan).
  - eapply longEntry_below; [exact Gb|exact He].
  - eapply shortEntry_above; [exact Gs|exact He].
Qed.

Lemma plan_fresh ticker klines random plan :
  analyze ticker klines random = Some plan ->
  match pl_direction plan with
  | LONG => Binance.lastPrice ticker < nth 0 (pl_takeProfit plan) 0
  | SHORT => nth 0 (pl_takeProfit plan) 0 < Binance.lastPrice ticker
  end.
Proof.
  intros Ha. apply analyze_inv in Ha. cbv zeta in Ha.
  destruct Ha as (_ & _ & _ & _ & _ & _ & _ & _ & _ & _ & Hf & _).
  unfold too_late in Hf. destruct (pl_direction plan); apply Qleb_false in Hf; exact Hf.
Qed.

(** C5: The freshness gate: the first target a plan is built with lies
    strictly beyond the current price in the direction of the trade. *)
Theorem analyze_fresh ticker klines random plan :
  analyze ticker klines random = Some plan ->
  match pl_direction plan with
  | LONG => Binance.lastPrice ticker < nth 0 (pl_takeProfit plan) 0
  | SHORT => nth 0 (pl_takeProfit plan) 0 < Binance.lastPrice ticker
  end.
Proof. apply plan_fresh. Qed.

(** [lra] after turning the division by 20000 of the rounding bound
    into a product by a constant. *)
Ltac lra_ulp := unfold Qdiv in *; change (/ 20000) with (1 # 20000) in *; lra.

(** [x - max(x, 1) / 20000], the lowest value [formatPriceValue] can
    give for [x], grows with [x]. *)
Lemma margin_lower_mono x y : x < y -> x - js_max x 1 / 20000 < y - js_max y 1 / 20000.
Proof.
  intros H. pose proof (js_max_ge_l x 1). pose proof (js_max_ge_r x 1).
  pose proof (js_max_ge_l y 1). pose proof (js_max_ge_r y 1).
  destruct (js_max_cases x 1) as [Ex|Ex], (js_max_cases y 1) as [Ey|Ey];
    rewrite Ex, Ey in *; lra_ulp.
Qed.

Lemma margin_upper_mono x y : x < y -> x + js_max x 1 / 20000 < y + js_max y 1 / 20000.
Proof.
  intros H. pose proof (js_max_ge_l x 1). pose proof (js_max_ge_r x 1).
  pose proof (js_max_ge_l y 1). pose proof (js_max_ge_r y 1).
  destruct (js_max_cases x 1) as [Ex|Ex], (js_max_cases y 1) as [Ey|Ey];
    rewrite Ex, Ey in *; lra_ulp.
Qed.

(** A positive level above the price is stored above the price minus
    the rounding error at the price. *)
Lemma stored_above price raw : price < raw -> 0 < raw ->
  price - js_max price 1 / 20000 < formatPriceValue raw.
Proof.
  intros Hp Hr. pose proof (formatPriceValue_error raw Hr) as He.
  apply Qabs_Qle_condition in He as [He _]. pose proof (margin_lower_mono _ _ Hp).
  lra_ulp.
Qed.

(** A non-negative level below the price is stored below the price
    plus the rounding error at the price. *)
Lemma stored_below price raw : raw < price -> 0 <= raw ->
  formatPriceValue raw < price + js_max price 1 / 20000.
Proof.
  intros Hp Hr. pose proof (js_max_ge_r price 1).
  destruct (Qlt_le_dec 0 raw) as [Hpos|H0].
  - pose proof (formatPriceValue_error raw Hpos) as He.
    apply Qabs_Qle_condition in He as [_ He]. pose proof (margin_upper_mono _ _ Hp).
    lra_ulp.
  - unfold formatPriceValue. rewrite (proj2 (Qleb_iff raw 0) H0).
    lra_ulp.
Qed.

(** C6: The freshness gate runs on the raw first target, before
    [formatPriceValue] rounds it: the stored first target of a
    generated signal lies beyond the current price only up to the
    rounding error at that price, [max(price, 1) / 20000]; it may be
    reached already ([demo_stale_first_target]). *)
Theorem generate_first_target_margin ticker klines random now p :
  generateSignalParameters ticker (Some klines) random now = Some p ->
  match direction p with
  | LONG => Binance.lastPrice ticker - js_max (Binance.lastPrice ticker) 1 / 20000 < nth 0 (takeProfit p) 0
  | SHORT => nth 0 (takeProfit p) 0 < Binance.lastPrice ticker + js_max (Binance.lastPrice ticker) 1 / 20000
  end.
Proof.
  intros H. apply generate_inv in H as (k & plan & _ & Ha & ->).
  pose proof (plan_fresh _ _ _ _ Ha) as Hf. apply analyze_inv in Ha. cbv zeta in Ha.
  destruct Ha as (_ & _ & _ & _ & _ & Ht & _ & _ & _ & Htp & _).
  unfold finalize. destruct (pl_entryZone plan). cbn [direction takeProfit].
  rewrite Htp in *. pose proof (js_abs_nonneg (pl_entryTarget plan - pl_stopLoss plan)).
  destruct (pl_direction plan); cbn [takeProfits rrMultiples map nth] in *.
  - apply stored_above; [exact Hf|lra].
  - apply stored_below; [exact Hf|apply js_max_ge_l].
Qed.

(** A produced signal has five targets, the tuple type of [takeProfit]. *)
Lemma generate_five_targets ticker fetched random now p :
  generateSignalParameters ticker fetched random now = Some p -> length (takeProfit p) = 5%nat.
Proof.
  intros H. apply generate_inv in H as (k & plan & _ & Ha & ->). apply analyze_inv in Ha. cbv zeta in Ha.
  destruct Ha as (_ & _ & _ & _ & _ & _ & _ & _ & _ & Htp & _).
  unfold finalize. destruct (pl_entryZone plan). cbn [takeProfit].
  rewrite length_map, Htp. destruct (pl_direction plan); reflexivity.
Qed.

(** The stored levels are in order: the entry zone is ordered, the
    five targets climb (LONG) or fall (SHORT) away from the entry, and
    the stop lies on the other side of the zone, after rounding. *)
Theorem generate_levels_ordered ticker fetched random now p :
  generateSignalParameters ticker fetched random now = Some p ->
  length (takeProfit p) = 5%nat /\ fst (entryZone p) <= snd (entryZone p) /\
  match direction p with
  | LONG => stopLoss p <= fst (entryZone p) /\ Sorted Qle (takeProfit p)
  | SHORT => snd (entryZone p) <= stopLoss p /\ Sorted (fun a b => b <= a) (takeProfit p)
  end.
Proof.
  intros H. apply generate_inv in H as (k & plan & _ & Ha & ->). apply analyze_inv in Ha. cbv zeta in Ha.
  destruct Ha as (_ & Hatr & _ & _ & _ & _ & (z0 & z1 & sl & Hz & Hze & Hsl) & _ & _ & Htp & _).
  pose proof (calculateATR_nonneg (removelast k) 14 ltac:(lia)) as Hatr0.
  destruct (zoneStop_order _ _ _ _ _ _ _ Hatr0 Hz) as [Hz01 Hside].
  pose proof (takeProfits_sorted (pl_direction plan) (pl_entryTarget plan)
                (js_abs (pl_entryTarget plan - pl_stopLoss plan)) (js_abs_nonneg _)) as Hs.
  rewrite <- Htp in Hs.
  unfold finalize. rewrite Hze. cbn [direction takeProfit entryZone stopLoss fst snd].
  split; [rewrite length_map, Htp; destruct (pl_direction plan); reflexivity|].
  split; [apply formatPriceValue_mono, js_min_le_max|].
  destruct (pl_direction plan); rewrite Hsl.
  - split; [|apply Sorted_map_mono; [intros; apply formatPriceValue_mono; assumption|exact Hs]].
    apply formatPriceValue_mono. unfold js_min. qcase (js_max 0 z1 <? js_max 0 z0);
      apply js_max_mono_r; lra.
  - split; [|apply Sorted_map_mono; [intros; apply formatPriceValue_mono; assumption|exact Hs]].
    apply formatPriceValue_mono. unfold js_max at 1. qcase (js_max 0 z0 <? js_max 0 z1);
      apply js_max_mono_r; lra.
Qed.

(** The leverage of a produced signal lies in [5, 25]. *)
Theorem generate_leverage_bounds ticker fetched random now p :
  generateSignalParameters ticker fetched random now = Some p ->
  (5 <= safeLeverage p <= 25)%Z.
Proof.
  intros H. apply generate_inv in H as (k & plan & _ & Ha & ->). apply analyze_inv in Ha. cbv zeta in Ha.
  destruct Ha as (_ & _ & _ & _ & _ & _ & _ & _ & _ & _ & _ & Hl & _).
  unfold finalize. destruct (pl_entryZone plan). cbn [safeLeverage]. rewrite Hl. apply leverageFor_bounds.
Qed.

(** With [Math.random()] in [0, 1), the probability is an integer in
    [90, 98] when the confidence label starts with "Muito Alta" and in
    [80, 89] otherwise. *)
Theorem generate_probability_range ticker fetched random now p :
  0 <= random < 1 ->
  generateSignalParameters ticker fetched random now = Some p ->
  if String.prefix VERY_HIGH (confidence p) then (90 <= probability p <= 98)%Z
  else (80 <= probability p <= 89)%Z.
Proof.
  intros Hr H. apply generate_inv in H as (k & plan & _ & Ha & ->). apply analyze_inv in Ha. cbv zeta in Ha.
  destruct Ha as (_ & _ & _ & _ & _ & _ & _ & _ & _ & _ & _ & _ & Hp).
  unfold finalize. destruct (pl_entryZone plan). cbn [probability confidence]. rewrite Hp.
  unfold probabilityFor. destruct (String.prefix VERY_HIGH (pl_confidence plan)).
  - pose proof (floor_scaled_bounds random 9 Hr ltac:(lia)). change (inject_Z 9) with 9 in *. lia.
  - pose proof (floor_scaled_bounds random 10 Hr ltac:(lia)). change (inject_Z 10) with 10 in *. lia.
Qed.

(** No signal without data: a failed candle fetch, fewer than 51
    candles, or a zero ATR or 21-period EMA on the closed candles all
    yield [null]. *)
Theorem generate_no_data ticker klines random now :
  generateSignalParameters ticker None random now = None /\
  ((length klines < 51)%nat \/ calculateATR (removelast klines) 14 == 0 \/
     calculateEMA (map close (removelast klines)) 21 == 0 ->
   generateSignalParameters ticker (Some klines) random now = None).
Proof.
  split; [reflexivity|]. intros Hc. unfold generateSignalParameters.
  destruct (analyze ticker klines random) as [plan|] eqn:Ha; [|reflexivity].
  apply analyze_inv in Ha. cbv zeta in Ha. destruct Ha as (Hl & Ha & He & _).
  exfalso. destruct Hc as [Hc|[Hc|Hc]]; [lia| |].
  - apply Qeqb_iff in Hc. congruence.
  - apply Qeqb_iff in Hc. congruence.
Qed.

End Generator.

(** ** A worked input

    One hundred hourly candles, flat at 100 and then rising in a zigzag
    over the last seven (the last one still open): the averages turn up,
    the RSI stays moderate, and the numbers stay small enough for the
    kernel to evaluate the whole analysis. *)

Module GeneratorExamples.
Import Indicators PriceAction Format Generator.

Definition tailCloses : list Q := [101; 100.2; 101.2; 100.4; 101.4; 100.6; 101.6].

Definition demoCloses : list Q := repeat 100 (100 - List.length tailCloses) ++ tailCloses.

Definition demoCandle (i : nat) (c : Q) : Kline :=
  mkKline (Z.of_nat i * 3600000) c (c + (3 # 10)) (c - (3 # 10)) c 1 (Z.of_nat i * 3600000 + 3599999) 1 1 1 1.

Definition demoKlines : list Kline := map (fun '(i, c) => demoCandle i c) (combine (seq 0 100) demoCloses).

Definition demoTicker (price : Q) : Binance.BinanceTicker :=
  Binance.mkTicker "BTCUSDT" 5 price 1000.

(** A price just under the raw first target (101.0227114...). *)
Definition demoPrice : Q := 1010225 # 10000.

(** What the generator returns for it at [Date.now() = 0] with
    [Math.random() = 0]: a LONG whose stored first target, 101.02, is
    already below the price. *)
Definition demoParams : CachedSignalParameters :=
  mkParams "BTCUSDT" "BTC" "USDT" LONG 90 (100.25, 100.45) 99.2318
    [101.02; 101.69; 102.59; 104.27; 105.95] CONF_LONG_STRONG
    (REASON_SUPPORT_EMA ++ RISK_NOTE_SUFFIX) 18 0.

Lemma demo_analyze : exists plan, analyze (demoTicker demoPrice) demoKlines 0 = Some plan.
Proof.
  assert (Hb : match analyze (demoTicker demoPrice) demoKlines 0 with Some _ => true | None => false end = true)
    by (vm_compute; reflexivity).
  destruct (analyze (demoTicker demoPrice) demoKlines 0) as [plan|]; [exists plan; reflexivity|discriminate].
Qed.

Lemma demo_generate : generateSignalParameters (demoTicker demoPrice) (Some demoKlines) 0 0 = Some demoParams.
Proof. vm_compute. reflexivity. Qed.

(** The bound of [generate_first_target_margin] is reached: a LONG is
    stored whose first target, once rounded by [formatPriceValue], is
    already at or below the current price (here 101.02 against a price
    of 101.0225, the raw target being 101.0227114...). *)
Example demo_stale_first_target :
  exists ticker klines,
    match generateSignalParameters ticker (Some klines) 0 0 with
    | Some p => direction p = LONG /\ nth 0 (takeProfit p) 0 <= Binance.lastPrice ticker
    | None => False
    end.
Proof.
  exists (demoTicker demoPrice), demoKlines. rewrite demo_generate.
  split; [reflexivity|]. apply Qle_bool_iff. vm_compute. reflexivity.
Qed.

Lemma generate_first_target_margin_witness :
  Binance.lastPrice (demoTicker demoPrice) - js_max (Binance.lastPrice (demoTicker demoPrice)) 1 / 20000
    < nth 0 (takeProfit demoParams) 0.
Proof. exact (generate_first_target_margin _ _ _ _ _ demo_generate). Defined.

Lemma generate_trend_gate_witness :
  let closes := map close (removelast demoKlines) in
  let price := Binance.lastPrice (demoTicker demoPrice) in
  (direction demoParams = LONG -> calculateEMA closes 21 < price /\
     calculateEMA closes 50 < calculateEMA closes 21 /\ calculateRSI closes 14 < 75) /\
  (direction demoParams = SHORT -> price < calculateEMA closes 21 /\
     calculateEMA closes 21 < calculateEMA closes 50 /\ 25 < calculateRSI closes 14).
Proof. exact (generate_trend_gate _ _ _ _ _ demo_generate). Defined.

Lemma analyze_entry_side_witness :
  exists plan, analyze (demoTicker demoPrice) demoKlines 0 = Some plan /\
  match pl_direction plan with
  | LONG => pl_entryTarget plan < Binance.lastPrice (demoTicker demoPrice)
  | SHORT => Binance.lastPrice (demoTicker demoPrice) < pl_entryTarget plan
  end.
Proof.
  destruct demo_analyze as [plan E]. exists plan. split; [exact E|].
  exact (analyze_entry_side _ _ _ _ E).
Defined.

Lemma analyze_fresh_witness :
  exists plan, analyze (demoTicker demoPrice) demoKlines 0 = Some plan /\
  match pl_direction plan with
  | LONG => Binance.lastPrice (demoTicker demoPrice) < nth 0 (pl_takeProfit plan) 0
  | SHORT => nth 0 (pl_takeProfit plan) 0 < Binance.lastPrice (demoTicker demoPrice)
  end.
Proof.
  destruct demo_analyze as [plan E]. exists plan. split; [exact E|].
  exact (analyze_fresh _ _ _ _ E).
Defined.

Lemma generate_levels_ordered_witness :
  length (takeProfit demoParams) = 5%nat /\ fst (entryZone demoParams) <= snd (entryZone demoParams) /\
  match direction demoParams with
  | LONG => stopLoss demoParams <= fst (entryZone demoParams) /\ Sorted Qle (takeProfit demoParams)
  | SHORT => snd (entryZone demoParams) <= stopLoss demoParams /\
             Sorted (fun a b => b <= a) (takeProfit demoParams)
  end.
Proof. exact (generate_levels_ordered _ _ _ _ _ demo_generate). Defined.

Lemma generate_leverage_bounds_witness : (5 <= safeLeverage demoParams <= 25)%Z.
Proof. exact (generate_leverage_bounds _ _ _ _ _ demo_generate). Defined.

Lemma generate_probability_range_witness :
  if String.prefix VERY_HIGH (confidence demoParams) then (90 <= probability demoParams <= 98)%Z
  else (80 <= probability demoParams <= 89)%Z.
Proof.
  apply (generate_probability_range _ _ _ _ _ (conj (Qle_refl 0) (eq_refl : 0 < 1)) demo_generate).
Defined.

Lemma generate_no_data_witness :
  generateSignalParameters (demoTicker demoPrice) (Some []) 0 0 = None.
Proof.
  apply (proj2 (generate_no_data (demoTicker demoPrice) [] 0 0)). left. simpl. lia.
Defined.

End GeneratorExamples.
