(* ===== verification/Board.v ===== *)
(** * Board: [getTradingSignals] ([src/services/mockSignalService.ts])

    The replenishment of the board: the tradable perpetual contracts
    (cached for an hour), a second ticker snapshot, the symbols alerted
    today, the valid tickers sorted by the absolute 24 h change, and the
    loop that takes parameters from the cache or generates them, records
    each chosen symbol in the daily ledger, and stops at [count]
    signals.

    The exchange is an input, [MarketData]: the exchange-info and ticker
    responses, the candles of each symbol, and the value [Math.random()]
    takes when the symbol is analysed. The state is the [Store].

    The instance [boardProvider] makes this function the
    [SignalProvider] of [Lifecycle], and [boardProviderLaws] proves that
    it satisfies [SignalProviderLaws], so the theorems of the tick hold
    for the real provider. Two facts are needed: the parameter cache
    holds every parameter set under its own id (kept by the tick and by
    the provider), and the ticker snapshot lists each symbol once (the
    exchange's contract; [ValidMarket]).

    Theorems: a symbol alerted today is not selected; every selected
    symbol is alerted today afterwards; hence two calls on the same UTC
    day never select the same symbol. *)

From stdpp Require Import gmap strings list sorting.
From Stdlib Require Import String Ascii QArith Lqa ZArith.
From S2P Require Import Prelude Types Calendar Ledger Store Lifecycle LifecycleTheory LifecycleProps Generator.
Open Scope Q_scope.
Open Scope js_scope.

Module Board.
Import Binance DailyLedger Tradable Generator.Generator.

Record MarketData := mkMarket {
  exchangeInfoResponse : option (list ExchangeSymbolInfo);
  tickerResponse : option (list BinanceTicker);
  klinesResponse : string -> option (list Kline);
  randomFor : string -> Q
}.

(** [s.endsWith(suffix)]. *)
Fixpoint ends_with (suffix s : string) : bool :=
  String.eqb s suffix || match s with
                         | EmptyString => false
                         | String _ s' => ends_with suffix s'
                         end.

(** [getAllFuturesTickers]: [None] when it throws. *)
Definition getAllFuturesTickers (response : option (list BinanceTicker)) : option (list BinanceTicker) :=
  option_map (List.filter (fun t => ends_with "USDT" (symbol t))) response.

(** [validTickers.sort((a, b) => |b.change| - |a.change|)], stable. *)
Fixpoint insert_by_change (x : BinanceTicker) (l : list BinanceTicker) : list BinanceTicker :=
  match l with
  | [] => [x]
  | y :: rest =>
      if js_abs (priceChangePercent x) <=? js_abs (priceChangePercent y)
      then y :: insert_by_change x rest else x :: l
  end.

Definition sortByChange (l : list BinanceTicker) : list BinanceTicker :=
  fold_left (fun acc x => insert_by_change x acc) l [].

(** The signal pushed for a ticker with parameters [p]. *)
Definition signalOf (p : CachedSignalParameters) (t : BinanceTicker) : TradingSignal :=
  mkSignal p (lastPrice t) (priceChangePercent t) None (Some (quoteVolume t)).

(** The parameters of a ticker: from the cache, or generated and
    cached when a setup is found. *)
Definition lookupOrGenerate (mkt : MarketData) (now : Z) (st : Store) (t : BinanceTicker)
    : option CachedSignalParameters * ParamCache :=
  match signalParametersCache st !! symbol t with
  | Some p => (Some p, signalParametersCache st)
  | None =>
      let generated := generateSignalParameters t (klinesResponse mkt (symbol t))
                         (randomFor mkt (symbol t)) now in
      (generated, match generated with
                  | Some p => <[symbol t := p]> (signalParametersCache st)
                  | None => signalParametersCache st
                  end)
  end.

(** The [for (const ticker of sortedTickers)] loop. *)
Fixpoint collect (mkt : MarketData) (now : Z) (count : nat) (tickers : list BinanceTicker)
    (finalSignals : list TradingSignal) (st : Store) : list TradingSignal * Store :=
  match tickers with
  | [] => (finalSignals, st)
  | t :: rest =>
      if (count <=? List.length finalSignals)%nat then (finalSignals, st) else
      let '(parameters, cache) := lookupOrGenerate mkt now st t in
      let st1 := set_param_cache st cache in
      match parameters with
      | Some p =>
          let st2 := set_alerts st1 (addAlertedSymbol now (symbol t) (alertsItem st1)) in
          collect mkt now count rest (finalSignals ++ [signalOf p t]) st2
      | None => collect mkt now count rest finalSignals st1
      end
  end.

(** [getTradingSignals(count, excludeSymbols)]: [None] when it throws. *)
Definition getTradingSignals (mkt : MarketData) (now : Z) (count : nat) (excludeSymbols : list string)
    (st : Store) : option (list TradingSignal) * Store :=
  match getTradableFuturesSymbols now (exchangeInfoResponse mkt) st with
  | (None, st1) => (None, st1)
  | (Some tradableSymbols, st1) =>
      match getAllFuturesTickers (tickerResponse mkt) with
      | None => (None, st1)
      | Some tickers =>
          let '(alertedSymbolsToday, item) := getAlertedSymbolsToday now (alertsItem st1) in
          let st2 := set_alerts st1 item in
          let excludeSet := excludeSymbols ++ alertedSymbolsToday in
          let validTickers :=
            List.filter (fun t => bool_decide (symbol t ∈ tradableSymbols) &&
                                  negb (existsb (String.eqb (symbol t)) excludeSet)) tickers in
          let sortedTickers := sortByChange validTickers in
          let '(finalSignals, st3) := collect mkt now count sortedTickers [] st2 in
          (Some finalSignals, st3)
      end
  end.

(** The exchange lists each symbol once in its ticker snapshot. *)
Definition tickers_unique (response : option (list BinanceTicker)) : Prop :=
  match response with
  | Some ts => NoDup (map symbol ts)
  | None => True
  end.

Record ValidMarket := mkValidMarket {
  vm_data : MarketData;
  vm_unique : tickers_unique (tickerResponse vm_data)
}.

#[export] Instance boardProvider : SignalProvider ValidMarket :=
  {| Lifecycle.getTradingSignals := fun m => getTradingSignals (vm_data m) |}.

(** ** The loop *)

Lemma getTradable_store now ex st r st1 :
  getTradableFuturesSymbols now ex st = (r, st1) ->
  signalParametersCache st1 = signalParametersCache st /\ alertsItem st1 = alertsItem st.
Proof.
  unfold getTradableFuturesSymbols, fetchTradable.
  destruct (tradableSymbolsCache st), (lastCacheTime st); try destruct (_ && _);
    destruct ex; intros E; injection E as <- <-; auto.
Qed.

Lemma sortByChange_perm l : sortByChange l ≡ₚ l.
Proof.
  unfold sortByChange. cut (forall acc, fold_left (fun acc x => insert_by_change x acc) l acc ≡ₚ l ++ acc).
  { intros H. rewrite H. by rewrite app_nil_r. }
  induction l as [|x l IH]; intros acc; simpl; [done|]. rewrite IH.
  assert (Hi : insert_by_change x acc ≡ₚ x :: acc).
  { induction acc as [|y acc IHa]; simpl; [done|].
    destruct (_ <=? _); [|done]. rewrite IHa. apply Permutation_swap. }
  rewrite Hi. symmetry. apply Permutation_middle.
Qed.

Lemma lookupOrGenerate_spec mkt now st t parameters cache :
  lookupOrGenerate mkt now st t = (parameters, cache) ->
  cache_ok (signalParametersCache st) ->
  cache_ok cache /\
  (forall k q, cache !! k = Some q -> signalParametersCache st !! k = Some q \/ timestamp q = now) /\
  (forall p, parameters = Some p -> id p = symbol t /\
     (timestamp p = now \/ signalParametersCache st !! symbol t = Some p)).
Proof.
  unfold lookupOrGenerate. intros E Hc.
  destruct (signalParametersCache st !! symbol t) as [p|] eqn:Hl.
  - injection E as <- <-. split; [exact Hc|]. split; [intros k q Hk; by left|].
    intros q [= <-]. split; [by apply (map_Forall_lookup_1 _ _ _ _ Hc Hl)|by right].
  - destruct (generateSignalParameters _ _ _ _) as [p|] eqn:Hg; injection E as <- <-.
    + apply generate_id_timestamp in Hg as [Hid Hts].
      split; [by apply cache_ok_insert|]. split; [|intros q [= <-]; auto].
      intros k q Hk. destruct (decide (k = symbol t)) as [->|Hne].
      * rewrite lookup_insert_eq in Hk. injection Hk as <-. by right.
      * rewrite lookup_insert_ne in Hk by congruence. by left.
    + split; [exact Hc|]. split; [intros k q Hk; by left|]. discriminate.
Qed.

(** What the loop adds: signals for some of the tickers, in order, each
    fresh, created now or taken from the cache under its symbol, and
    recorded in the daily ledger; the cache only gains parameters created
    now, under their own id. *)
Lemma collect_loop_spec mkt now count ts : forall fin st fin' st',
  collect mkt now count ts fin st = (fin', st') ->
  cache_ok (signalParametersCache st) ->
  exists extra, fin' = fin ++ extra /\
    map sig_id extra `sublist_of` map symbol ts /\
    Forall (fun s => tpsHit s = None /\
      (sig_ts s = now \/ signalParametersCache st !! sig_id s = Some (params s))) extra /\
    ((List.length fin <= count)%nat -> (List.length fin' <= count)%nat) /\
    cache_ok (signalParametersCache st') /\
    (forall k p, signalParametersCache st' !! k = Some p ->
       signalParametersCache st !! k = Some p \/ timestamp p = now) /\
    (forall x, In x (fst (getAlertedSymbolsToday now (alertsItem st))) ->
       In x (fst (getAlertedSymbolsToday now (alertsItem st')))) /\
    Forall (fun s => In (sig_id s) (fst (getAlertedSymbolsToday now (alertsItem st')))) extra.
Proof.
  induction ts as [|t rest IH]; intros fin st fin' st' E Hc; simpl in E.
  { injection E as <- <-. exists []. rewrite app_nil_r. repeat split; auto using sublist_nil. }
  destruct (count <=? List.length fin)%nat eqn:Hn.
  { injection E as <- <-. exists []. rewrite app_nil_r.
    repeat split; auto using sublist_nil. apply sublist_nil_l. }
  apply Nat.leb_gt in Hn.
  destruct (lookupOrGenerate mkt now st t) as [parameters cache] eqn:Heq.
  destruct (lookupOrGenerate_spec _ _ _ _ _ _ Heq Hc) as (Hcc & Hgrow & Hpar).
  destruct parameters as [p|].
  - destruct (Hpar p eq_refl) as [Hid Hor].
    set (st2 := set_alerts (set_param_cache st cache) (addAlertedSymbol now (symbol t) (alertsItem st))) in E.
    destruct (IH _ _ _ _ E Hcc) as (extra & -> & Hsub & Hf & Hlen & Hc' & Hg' & Hk' & Ha').
    exists (signalOf p t :: extra). rewrite <- app_assoc. split; [done|].
    split; [cbn [map]; unfold sig_id at 1, signalOf; simpl; rewrite Hid; by apply sublist_skip|].
    split.
    { constructor.
      - split; [done|]. unfold sig_ts, sig_id, signalOf. simpl. rewrite Hid. exact Hor.
      - eapply Forall_impl; [exact Hf|]. intros s [Hs Ho]. split; [done|].
        destruct Ho as [Ho|Ho]; [by left|]. destruct (Hgrow _ _ Ho) as [Ho'|Ho']; [by right|].
        left. unfold sig_ts. done. }
    split; [rewrite app_assoc; rewrite length_app in Hlen; simpl in Hlen; intros _; apply Hlen; lia|].
    split; [done|].
    split; [intros k q Hk; destruct (Hg' _ _ Hk) as [Hk2|]; [by apply Hgrow|by right]|].
    split; [intros x Hx; apply Hk'; simpl; by apply add_get_keep|].
    constructor; [|done]. apply Hk'. unfold st2, sig_id, signalOf. simpl. rewrite Hid. apply add_get_In.
  - destruct (IH _ _ _ _ E Hcc) as (extra & -> & Hsub & Hf & Hlen & Hc' & Hg' & Hk' & Ha').
    exists extra. split; [done|]. split; [by apply sublist_cons|].
    split.
    { eapply Forall_impl; [exact Hf|]. intros s [Hs Ho]. split; [done|].
      destruct Ho as [Ho|Ho]; [by left|]. destruct (Hgrow _ _ Ho) as [Ho'|Ho']; [by right|].
      left. unfold sig_ts. done. }
    repeat split; auto.
    intros k q Hk. destruct (Hg' _ _ Hk) as [Hk2|]; [by apply Hgrow|by right].
Qed.

(** ** The call *)

Lemma ends_with_app suffix s : ends_with suffix s = true -> exists pre, s = (pre ++ suffix)%string.
Proof.
  induction s as [|c s IH]; intros E.
  - simpl in E. rewrite orb_false_r in E. destruct suffix; [|discriminate]. by exists EmptyString.
  - change (String.eqb (String c s) suffix || ends_with suffix s = true) in E.
    destruct (String.eqb_spec (String c s) suffix) as [<-|_].
    + by exists EmptyString.
    + destruct (IH E) as [pre ->]. by exists (String c pre).
Qed.

(** A symbol of the ticker list ends in [USDT], so it is a valid board id. *)
Lemma usdt_id_wf s : ends_with "USDT" s = true -> Keys.id_wf s = true.
Proof.
  intros E. destruct (ends_with_app _ _ E) as [pre ->].
  unfold Keys.id_wf. rewrite Keys.list_ascii_of_string_app, rev_app_distr. reflexivity.
Qed.

Lemma valid_ticker_In P tickers t :
  In t (sortByChange (List.filter P tickers)) -> In t tickers /\ P t = true.
Proof.
  intros H. apply list_elem_of_In in H. rewrite sortByChange_perm in H.
  apply list_elem_of_In, filter_In in H. exact H.
Qed.

(** One call of [getTradingSignals] that returns: the signals are taken,
    in order, from the valid tickers (tradable, not excluded, not
    alerted today) and are recorded in the ledger. *)
Lemma gts_spec mkt now n ex st l st' :
  getTradingSignals mkt now n ex st = (Some l, st') ->
  cache_ok (signalParametersCache st) ->
  exists tickers sorted,
    getAllFuturesTickers (tickerResponse mkt) = Some tickers /\
    (forall t, In t sorted -> In t tickers /\ ~ In (symbol t) ex /\
       ~ In (symbol t) (fst (getAlertedSymbolsToday now (alertsItem st)))) /\
    (NoDup (map symbol tickers) -> NoDup (map symbol sorted)) /\
    map sig_id l `sublist_of` map symbol sorted /\
    Forall (fun s => tpsHit s = None /\
      (sig_ts s = now \/ signalParametersCache st !! sig_id s = Some (params s))) l /\
    (List.length l <= n)%nat /\ cache_ok (signalParametersCache st') /\
    (forall x, In x (fst (getAlertedSymbolsToday now (alertsItem st))) ->
       In x (fst (getAlertedSymbolsToday now (alertsItem st')))) /\
    Forall (fun s => In (sig_id s) (fst (getAlertedSymbolsToday now (alertsItem st')))) l.
Proof.
  unfold getTradingSignals. intros E Hc.
  destruct (getTradableFuturesSymbols _ _ _) as [[tradable|] st1] eqn:E1; [|discriminate].
  destruct (getTradable_store _ _ _ _ _ E1) as [Hc1 Ha1].
  destruct (getAllFuturesTickers _) as [tickers|] eqn:E2; [|discriminate].
  destruct (getAlertedSymbolsToday now (alertsItem st1)) as [alerted item] eqn:Ea.
  set (P := fun t => bool_decide (symbol t ∈ tradable) &&
                     negb (existsb (String.eqb (symbol t)) (ex ++ alerted))) in E.
  destruct (collect _ _ _ _ _ _) as [fin st3] eqn:Ec. injection E as <- <-.
  assert (Hc2 : cache_ok (signalParametersCache (set_alerts st1 item))) by (simpl; by rewrite Hc1).
  destruct (collect_loop_spec _ _ _ _ _ _ _ _ Ec Hc2) as (extra & -> & Hsub & Hf & Hlen & Hc3 & _ & Hk & Ha).
  rewrite Ha1 in Ea.
  assert (Hitem : getAlertedSymbolsToday now item = (alerted, item)).
  { pose proof (get_today_idem now (alertsItem st)) as I. by rewrite Ea in I. }
  exists tickers, (sortByChange (List.filter P tickers)). split; [done|].
  split.
  { intros t Ht. apply valid_ticker_In in Ht as [Ht HP]. unfold P in HP.
    apply andb_true_iff in HP as [_ HP]. apply negb_true_iff, existsb_eqb_notIn in HP.
    rewrite Ea. simpl. split; [done|]. split; intros Hin; apply HP, in_or_app; auto. }
  split.
  { intros Hn. rewrite sortByChange_perm. by apply TickFacts.nodup_map_filter. }
  split; [done|].
  split.
  { eapply Forall_impl; [exact Hf|]. simpl. by rewrite Hc1. }
  split; [simpl in Hlen; apply Hlen; lia|].
  split; [done|].
  split.
  { rewrite Ea. intros x Hx. apply Hk. simpl. by rewrite Hitem. }
  exact Ha.
Qed.

(** The calls that throw leave the caches as they were. *)
Lemma gts_none_store mkt now n ex st st' :
  getTradingSignals mkt now n ex st = (None, st') ->
  signalParametersCache st' = signalParametersCache st.
Proof.
  unfold getTradingSignals. destruct (getTradableFuturesSymbols _ _ _) as [[tradable|] st1] eqn:E1;
    destruct (getTradable_store _ _ _ _ _ E1) as [Hc1 _].
  - destruct (getAllFuturesTickers _); [|intros E; injection E as <-; done].
    destruct (getAlertedSymbolsToday _ _). destruct (collect _ _ _ _ _ _). discriminate.
  - intros E. injection E as <-. done.
Qed.

Lemma gts_cache_ok mkt now n ex st r st' :
  cache_ok (signalParametersCache st) ->
  getTradingSignals mkt now n ex st = (r, st') -> cache_ok (signalParametersCache st').
Proof.
  intros Hc E. destruct r as [l|].
  - by destruct (gts_spec _ _ _ _ _ _ _ E Hc) as (? & ? & _ & _ & _ & _ & _ & _ & Hc' & _).
  - by rewrite (gts_none_store _ _ _ _ _ _ E).
Qed.

(** Every cache entry after a call was there before or was created now. *)
Lemma gts_cache_origin mkt now n ex st r st' :
  cache_ok (signalParametersCache st) -> getTradingSignals mkt now n ex st = (r, st') ->
  forall k p, signalParametersCache st' !! k = Some p ->
    signalParametersCache st !! k = Some p \/ timestamp p = now.
Proof.
  intros Hc E k p Hk. destruct r as [l|]; [|left; by rewrite <- (gts_none_store _ _ _ _ _ _ E)].
  unfold getTradingSignals in E.
  destruct (getTradableFuturesSymbols _ _ _) as [[tradable|] st1] eqn:E1; [|discriminate].
  destruct (getTradable_store _ _ _ _ _ E1) as [Hc1 _].
  destruct (getAllFuturesTickers _) as [tickers|]; [|discriminate].
  destruct (getAlertedSymbolsToday now (alertsItem st1)) as [alerted item].
  destruct (collect _ _ _ _ _ _) as [fin st3] eqn:Ec. injection E as <- <-.
  assert (Hc2 : cache_ok (signalParametersCache (set_alerts st1 item))) by (simpl; by rewrite Hc1).
  destruct (collect_loop_spec _ _ _ _ _ _ _ _ Ec Hc2) as (_ & _ & _ & _ & _ & _ & Hg & _).
  destruct (Hg _ _ Hk) as [Ho|Ho]; [left|by right]. simpl in Ho. by rewrite <- Hc1.
Qed.

(** A cache entry the loop adds is filed under the symbol of one of its tickers. *)
Lemma lookupOrGenerate_keys mkt now st t parameters cache :
  lookupOrGenerate mkt now st t = (parameters, cache) ->
  forall k p, cache !! k = Some p -> signalParametersCache st !! k = Some p \/ k = symbol t.
Proof.
  unfold lookupOrGenerate. intros E k p Hk.
  destruct (signalParametersCache st !! symbol t) as [q|]; [injection E as _ <-; by left|].
  destruct (generateSignalParameters _ _ _ _) as [q|]; injection E as _ <-; [|by left].
  destruct (decide (k = symbol t)) as [->|Hne]; [by right|left].
  by rewrite lookup_insert_ne in Hk by congruence.
Qed.

Lemma collect_cache_keys mkt now count ts : forall fin st fin' st',
  collect mkt now count ts fin st = (fin', st') ->
  forall k p, signalParametersCache st' !! k = Some p ->
    signalParametersCache st !! k = Some p \/ In k (map symbol ts).
Proof.
  induction ts as [|t rest IH]; intros fin st fin' st' E k p Hk; simpl in E; [injection E as _ <-; by left|].
  destruct (count <=? List.length fin)%nat; [injection E as _ <-; by left|].
  destruct (lookupOrGenerate mkt now st t) as [parameters cache] eqn:Heq.
  destruct parameters as [q|];
    (destruct (IH _ _ _ _ E k p Hk) as [Ho|Ho]; [|right; by right]);
    (destruct (lookupOrGenerate_keys _ _ _ _ _ _ Heq k p Ho) as [? | ->]; [by left|right; by left]).
Qed.

(** The parameters the loop uses have five targets: cached ones by the
    cache's invariant, generated ones by construction. *)
Lemma lookupOrGenerate_typed mkt now st t parameters cache :
  lookupOrGenerate mkt now st t = (parameters, cache) -> cache_typed (signalParametersCache st) ->
  cache_typed cache /\ (forall p, parameters = Some p -> List.length (takeProfit p) = 5%nat).
Proof.
  unfold lookupOrGenerate. intros E Hc.
  destruct (signalParametersCache st !! symbol t) as [p|] eqn:Hl.
  - injection E as <- <-. split; [exact Hc|]. intros ? [= <-]. exact (map_Forall_lookup_1 _ _ _ _ Hc Hl).
  - destruct (generateSignalParameters _ _ _ _) as [p|] eqn:G; injection E as <- <-; [|done].
    pose proof (generate_five_targets _ _ _ _ _ G) as H5.
    split; [by apply map_Forall_insert_2|]. by intros ? [= <-].
Qed.

Lemma collect_typed mkt now count ts : forall fin st fin' st',
  collect mkt now count ts fin st = (fin', st') -> cache_typed (signalParametersCache st) ->
  Forall (fun s => List.length (takeProfit (params s)) = 5%nat) fin ->
  Forall (fun s => List.length (takeProfit (params s)) = 5%nat) fin' /\ cache_typed (signalParametersCache st').
Proof.
  induction ts as [|t rest IH]; intros fin st fin' st' E Hc Hf; simpl in E; [by injection E as <- <-|].
  destruct (count <=? List.length fin)%nat; [by injection E as <- <-|].
  destruct (lookupOrGenerate mkt now st t) as [parameters cache] eqn:Heq.
  destruct (lookupOrGenerate_typed _ _ _ _ _ _ Heq Hc) as [Hc1 Hp].
  destruct parameters as [p|]; (eapply IH; [exact E|exact Hc1|]); [|exact Hf].
  apply Forall_app_2; [exact Hf|]. constructor; [exact (Hp p eq_refl)|constructor].
Qed.

Lemma gts_typed mkt now n ex st r st' :
  cache_typed (signalParametersCache st) -> getTradingSignals mkt now n ex st = (r, st') ->
  (forall l, r = Some l -> Forall (fun s => List.length (takeProfit (params s)) = 5%nat) l) /\
  cache_typed (signalParametersCache st').
Proof.
  unfold getTradingSignals. intros Hc E.
  destruct (getTradableFuturesSymbols _ _ _) as [[tradable|] st1] eqn:E1;
    destruct (getTradable_store _ _ _ _ _ E1) as [Hc1 _];
    [|injection E as <- <-; split; [done|by rewrite Hc1]].
  destruct (getAllFuturesTickers _) as [tickers|]; [|injection E as <- <-; split; [done|by rewrite Hc1]].
  destruct (getAlertedSymbolsToday now (alertsItem st1)) as [alerted item].
  destruct (collect _ _ _ _ _ _) as [fin st3] eqn:Ec. injection E as <- <-.
  destruct (collect_typed _ _ _ _ _ _ _ _ Ec) as [Hf Hc3]; [simpl; by rewrite Hc1|constructor|].
  split; [by intros l [= <-]|exact Hc3].
Qed.

Lemma gts_selected mkt now n ex st l st' s :
  getTradingSignals mkt now n ex st = (Some l, st') -> cache_ok (signalParametersCache st) -> In s l ->
  exists tickers t, getAllFuturesTickers (tickerResponse mkt) = Some tickers /\ In t tickers /\
    sig_id s = symbol t /\ ~ In (symbol t) ex /\
    ~ In (symbol t) (fst (getAlertedSymbolsToday now (alertsItem st))).
Proof.
  intros E Hc Hs. destruct (gts_spec _ _ _ _ _ _ _ E Hc) as (tickers & sorted & Ht & Hv & _ & Hsub & _).
  assert (Hm : sig_id s ∈ map symbol sorted).
  { eapply elem_of_sublist; [|exact Hsub]. apply list_elem_of_In, in_map, Hs. }
  apply list_elem_of_In, in_map_iff in Hm as (t & Hts & Hin).
  destruct (Hv t Hin) as (Ht' & Hex & Hal). exists tickers, t. repeat split; auto.
Qed.

Lemma ticker_symbol_usdt response tickers t :
  getAllFuturesTickers response = Some tickers -> In t tickers -> ends_with "USDT" (symbol t) = true.
Proof.
  unfold getAllFuturesTickers. destruct response as [ts|]; [|discriminate].
  intros E Ht. injection E as <-. apply filter_In in Ht. apply Ht.
Qed.

Lemma gts_nodup_ids mkt now n ex st l st' :
  tickers_unique (tickerResponse mkt) ->
  getTradingSignals mkt now n ex st = (Some l, st') -> cache_ok (signalParametersCache st) ->
  NoDup (map sig_id l).
Proof.
  intros Hu E Hc. destruct (gts_spec _ _ _ _ _ _ _ E Hc) as (tickers & sorted & Ht & _ & Hn & Hsub & _).
  eapply sublist_NoDup; [|exact Hsub]. apply Hn.
  unfold getAllFuturesTickers, tickers_unique in *. destruct (tickerResponse mkt); [|discriminate].
  injection Ht as <-. by apply TickFacts.nodup_map_filter.
Qed.

(** Every cache entry after a call was there before or is filed under
    an exchange symbol. *)
Lemma gts_cache_ids mkt now n ex st r st' :
  getTradingSignals mkt now n ex st = (r, st') ->
  forall k p, signalParametersCache st' !! k = Some p ->
    signalParametersCache st !! k = Some p \/ Keys.id_wf k = true.
Proof.
  intros E k p Hk. destruct r as [l|]; [|left; by rewrite <- (gts_none_store _ _ _ _ _ _ E)].
  unfold getTradingSignals in E.
  destruct (getTradableFuturesSymbols _ _ _) as [[tradable|] st1] eqn:E1; [|discriminate].
  destruct (getTradable_store _ _ _ _ _ E1) as [Hc1 _].
  destruct (getAllFuturesTickers _) as [tickers|] eqn:E2; [|discriminate].
  destruct (getAlertedSymbolsToday now (alertsItem st1)) as [alerted item].
  destruct (collect _ _ _ _ _ _) as [fin st3] eqn:Ec. injection E as <- <-.
  destruct (collect_cache_keys _ _ _ _ _ _ _ _ Ec k p Hk) as [Ho|Hin].
  - left. simpl in Ho. by rewrite <- Hc1.
  - right. apply in_map_iff in Hin as (t & <- & Ht). apply valid_ticker_In in Ht as [Ht _].
    by apply usdt_id_wf, (ticker_symbol_usdt _ _ _ E2 Ht).
Qed.

#[export] Instance boardProviderLaws : SignalProviderLaws ValidMarket.
Proof.
  split.
  - intros m now n ex st l st' Hc E.
    by destruct (gts_spec _ _ _ _ _ _ _ E Hc) as (? & ? & _ & _ & _ & _ & _ & Hl & _).
  - intros m now n ex st l st' Hc E s Hs.
    by destruct (gts_selected _ _ _ _ _ _ _ _ E Hc Hs) as (tickers & t & _ & _ & -> & Hex & _).
  - intros m now n ex st l st' Hc E. exact (gts_nodup_ids _ _ _ _ _ _ _ (vm_unique m) E Hc).
  - intros m now n ex st l st' Hc E s Hs.
    destruct (gts_selected _ _ _ _ _ _ _ _ E Hc Hs) as (tickers & t & Ht & Hin & -> & _).
    by apply usdt_id_wf, (ticker_symbol_usdt _ _ _ Ht Hin).
  - intros m now n ex st l st' Hc E s Hs.
    destruct (gts_spec _ _ _ _ _ _ _ E Hc) as (? & ? & _ & _ & _ & _ & Hf & _).
    apply (proj1 (List.Forall_forall _ _) Hf s Hs).
  - intros m now n ex st l st' Hc E s Hs.
    destruct (gts_spec _ _ _ _ _ _ _ E Hc) as (? & ? & _ & _ & _ & _ & Hf & _).
    apply (proj1 (List.Forall_forall _ _) Hf s Hs).
  - intros m now n ex st r st'. apply gts_cache_ok.
  - intros m now n ex st r st'. apply gts_cache_origin.
  - intros m now n ex st l st' Hc E s Hs.
    exact (proj1 (List.Forall_forall _ _) (proj1 (gts_typed _ _ _ _ _ _ _ Hc E) l eq_refl) s Hs).
  - intros m now n ex st r st' Hc E. exact (proj2 (gts_typed _ _ _ _ _ _ _ Hc E)).
Qed.

Lemma gts_recorded mkt now n ex st l st' s :
  getTradingSignals mkt now n ex st = (Some l, st') -> cache_ok (signalParametersCache st) -> In s l ->
  In (sig_id s) (fst (getAlertedSymbolsToday now (alertsItem st'))).
Proof.
  intros E Hc Hs. destruct (gts_spec _ _ _ _ _ _ _ E Hc) as (? & ? & _ & _ & _ & _ & _ & _ & _ & _ & Ha).
  exact (proj1 (List.Forall_forall _ _) Ha s Hs).
Qed.

(** ** Properties of the replenishment *)

(** C9: [getTradingSignals] meets the contract the tick relies on: at most
    [count] signals, none excluded, distinct ids that are exchange
    symbols, no target hit, parameters created now or taken from the
    cache under their id; and the cache keeps its invariant. This is
    what [boardProviderLaws] packages for [Lifecycle]. *)
Theorem getTradingSignals_contract mkt now n ex st l st' :
  tickers_unique (tickerResponse mkt) -> cache_ok (signalParametersCache st) ->
  getTradingSignals mkt now n ex st = (Some l, st') ->
  (List.length l <= n)%nat /\ NoDup (map sig_id l) /\
  (forall s, In s l -> ~ In (sig_id s) ex /\ Keys.id_wf (sig_id s) = true /\ tpsHit s = None /\
     (sig_ts s = now \/ signalParametersCache st !! sig_id s = Some (params s))) /\
  cache_ok (signalParametersCache st').
Proof.
  intros Hu Hc E.
  destruct (gts_spec _ _ _ _ _ _ _ E Hc) as (? & ? & _ & _ & _ & _ & Hf & Hl & Hc' & _).
  split; [done|]. split; [exact (gts_nodup_ids _ _ _ _ _ _ _ Hu E Hc)|]. split; [|done].
  intros s Hs. destruct (gts_selected _ _ _ _ _ _ _ _ E Hc Hs) as (tickers & t & Ht & Hin & Hid & Hex & _).
  rewrite Hid. split; [done|]. split; [by apply usdt_id_wf, (ticker_symbol_usdt _ _ _ Ht Hin)|].
  rewrite <- Hid. exact (proj1 (List.Forall_forall _ _) Hf s Hs).
Qed.

(** A symbol the daily ledger reports for today is not selected. *)
Theorem getTradingSignals_skips_alerted mkt now n ex st l st' :
  cache_ok (signalParametersCache st) -> getTradingSignals mkt now n ex st = (Some l, st') ->
  forall s, In s l -> ~ In (sig_id s) (fst (getAlertedSymbolsToday now (alertsItem st))).
Proof.
  intros Hc E s Hs. destruct (gts_selected _ _ _ _ _ _ _ _ E Hc Hs) as (? & t & _ & _ & -> & _ & Hal).
  exact Hal.
Qed.

(** C7: No repeat alert within a UTC day: two successive calls made on
    the same UTC calendar day never select the same symbol. *)
Theorem getTradingSignals_once_per_day mkt1 mkt2 now1 now2 n1 n2 ex1 ex2 st st1 st2 l1 l2 :
  cache_ok (signalParametersCache st) -> getTodayUTCString now1 = getTodayUTCString now2 ->
  getTradingSignals mkt1 now1 n1 ex1 st = (Some l1, st1) ->
  getTradingSignals mkt2 now2 n2 ex2 st1 = (Some l2, st2) ->
  forall s1 s2, In s1 l1 -> In s2 l2 -> sig_id s1 <> sig_id s2.
Proof.
  intros Hc Hday E1 E2 s1 s2 H1 H2 Heq.
  pose proof (gts_cache_ok _ _ _ _ _ _ _ Hc E1) as Hc1.
  pose proof (gts_recorded _ _ _ _ _ _ _ _ E1 Hc H1) as Hr.
  destruct (gts_selected _ _ _ _ _ _ _ _ E2 Hc1 H2) as (? & t & _ & _ & Hid & _ & Hal).
  apply Hal. rewrite <- Hid, <- Heq. by rewrite <- (get_today_same_day _ _ _ Hday).
Qed.

End Board.

Module BoardExamples.
Import Binance DailyLedger Board Generator.GeneratorExamples.
Local Open Scope string_scope.

Definition perpetual (sym : string) : ExchangeSymbolInfo := mkSymbolInfo sym sym "PERPETUAL" "TRADING" "USDT".

(** Two tradable contracts; BTCUSDT moved most over 24 h. Only BTCUSDT
    has candles in the first market; both have in the second. *)
Definition market (ethCandles : bool) : MarketData :=
  mkMarket (Some [perpetual "BTCUSDT"; perpetual "ETHUSDT"])
    (Some [mkTicker "BTCUSDT" 5 demoPrice 1000; mkTicker "ETHUSDT" 2 demoPrice 500;
           mkTicker "BTCUSD_PERP" 9 demoPrice 10])
    (fun s => if String.eqb s "BTCUSDT" || (ethCandles && String.eqb s "ETHUSDT")
              then Some demoKlines else None)
    (fun _ => 0).

Definition emptyStore : Store := mkStore ∅ None None AlertsMissing.

Lemma market_unique b : tickers_unique (tickerResponse (market b)).
Proof. unfold tickers_unique. simpl. apply (bool_decide_unpack _). vm_compute. reflexivity. Qed.

Lemma first_call : exists l st',
  getTradingSignals (market false) 0 8 [] emptyStore = (Some l, st').
Proof.
  assert (Hb : match fst (getTradingSignals (market false) 0 8 [] emptyStore) with
               | Some _ => true | None => false end = true) by (vm_compute; reflexivity).
  destruct (getTradingSignals (market false) 0 8 [] emptyStore) as [[l|] st'] eqn:E; [eauto|discriminate].
Qed.

Lemma getTradingSignals_contract_witness : exists l st',
  getTradingSignals (market false) 0 8 [] emptyStore = (Some l, st') /\
  (List.length l <= 8)%nat /\ NoDup (map sig_id l) /\
  (forall s, In s l -> ~ In (sig_id s) [] /\ Keys.id_wf (sig_id s) = true /\ tpsHit s = None /\
     (sig_ts s = 0%Z \/ signalParametersCache emptyStore !! sig_id s = Some (params s))) /\
  cache_ok (signalParametersCache st').
Proof.
  destruct first_call as (l & st' & E). exists l, st'. split; [exact E|].
  exact (getTradingSignals_contract _ _ _ _ _ _ _ (market_unique false) (map_Forall_empty _) E).
Defined.

Lemma getTradingSignals_skips_alerted_witness : exists l st',
  getTradingSignals (market false) 0 8 [] emptyStore = (Some l, st') /\
  forall s, In s l -> ~ In (sig_id s) (fst (getAlertedSymbolsToday 0 (alertsItem emptyStore))).
Proof.
  destruct first_call as (l & st' & E). exists l, st'. split; [exact E|].
  exact (getTradingSignals_skips_alerted _ _ _ _ _ _ _ (map_Forall_empty _) E).
Defined.

(** The second call, a minute later on the same day, with candles for
    both symbols: BTCUSDT, alerted by the first call, is skipped. *)
Lemma second_call : exists l1 st1 l2 st2,
  getTradingSignals (market false) 0 8 [] emptyStore = (Some l1, st1) /\
  getTradingSignals (market true) 60000 8 [] st1 = (Some l2, st2).
Proof.
  assert (Hb : match getTradingSignals (market false) 0 8 [] emptyStore with
               | (Some _, st1) => match fst (getTradingSignals (market true) 60000 8 [] st1) with
                                  | Some _ => true | None => false end
               | _ => false end = true) by (vm_compute; reflexivity).
  destruct (getTradingSignals (market false) 0 8 [] emptyStore) as [[l1|] st1] eqn:E1; [|discriminate].
  destruct (getTradingSignals (market true) 60000 8 [] st1) as [[l2|] st2] eqn:E2; [|discriminate].
  eauto 7.
Qed.

Lemma getTradingSignals_once_per_day_witness : exists l1 st1 l2 st2,
  getTradingSignals (market false) 0 8 [] emptyStore = (Some l1, st1) /\
  getTradingSignals (market true) 60000 8 [] st1 = (Some l2, st2) /\
  forall s1 s2, In s1 l1 -> In s2 l2 -> sig_id s1 <> sig_id s2.
Proof.
  destruct second_call as (l1 & st1 & l2 & st2 & E1 & E2). exists l1, st1, l2, st2.
  split; [exact E1|]. split; [exact E2|].
  exact (getTradingSignals_once_per_day _ _ _ _ _ _ _ _ _ _ _ _ _ (map_Forall_empty _)
           (eq_refl : getTodayUTCString 0 = getTodayUTCString 60000) E1 E2).
Defined.

End BoardExamples.
