(* ===== verification/JsRuntime.v ===== *)
(** * JsRuntime: the JavaScript built-ins the persistence layer relies on

    [localStorage] keeps text: the services write it with
    [JSON.stringify] and read it back with [JSON.parse] and a reviver
    that turns the date strings back into [Date] objects. This file
    models those built-ins after the ECMAScript specification; they are
    not code of the repository.

    - Dates: a [Date] is its time value in milliseconds ([Z]);
      [toISOString] prints the Date Time String Format
      [YYYY-MM-DDTHH:mm:ss.sssZ] (six-digit signed years outside 0..9999)
      and [parseISO] reads that format back, [None] standing for an
      Invalid Date. Strings in other formats are read by engines in
      implementation-defined ways; the stored strings are never such.
    - JSON: [JSON] is the tree of a JSON text; printing and reading the
      text is the identity on trees (numbers are exact, as everywhere in
      the development). [JsVal] is a JavaScript value as the services
      see it. [stringify] is [JSON.stringify] ([undefined] properties
      dropped, dates through [toJSON]); [parseWith] is [JSON.parse] with
      a reviver ([InternalizeJSONProperty]).

    Theorems: [parseISO] inverts [toISOString] on every time value a
    [Date] can hold (|t| <= 8.64e15). *)

From stdpp Require Import base option list strings.
From Stdlib Require Import String Ascii ZArith QArith Lia.
From S2P Require Import Prelude Calendar.
Open Scope Z_scope.

#[local] Set Warnings "-register-all".

Module JsRuntime.

(** ** Fixed-width decimal fields *)

Definition digit_of (k : Z) : ascii := ascii_of_nat (48 + Z.to_nat k).

Definition value_of (c : ascii) : option Z :=
  let n := nat_of_ascii c in
  if (48 <=? n)%nat && (n <=? 57)%nat then Some (Z.of_nat (n - 48)) else None.

(** The [n] last decimal digits of [k], before [acc]. *)
Fixpoint digits_acc (n : nat) (k : Z) (acc : string) : string :=
  match n with
  | O => acc
  | S n' => digits_acc n' (k / 10) (String (digit_of (k mod 10)) acc)
  end.

Definition digits (n : nat) (k : Z) : string := digits_acc n k "".

(** Read [n] digits, accumulating their value onto [v]. *)
Fixpoint read_digits (n : nat) (v : Z) (s : string) : option (Z * string) :=
  match n with
  | O => Some (v, s)
  | S n' =>
      match s with
      | String c s' =>
          match value_of c with
          | Some dv => read_digits n' (v * 10 + dv) s'
          | None => None
          end
      | EmptyString => None
      end
  end.

Definition expect (c : ascii) (s : string) : option string :=
  match s with
  | String c' s' => if Ascii.eqb c c' then Some s' else None
  | EmptyString => None
  end.

(** ** Dates *)

Definition msPerHour : Z := 3600000.
Definition msPerMinute : Z := 60000.
Definition msPerSecond : Z := 1000.

(** The largest time value of a [Date] (TimeClip). *)
Definition maxTime : Z := 8640000000000000.

(** [Date.prototype.toISOString]. *)
Definition toISOString (t : Z) : string :=
  let '(y, m, d) := utc_ymd t in
  let tod := t mod msPerDay in
  let yearStr :=
    if (0 <=? y) && (y <=? 9999) then digits 4 y
    else String (if y <? 0 then "-"%char else "+"%char) (digits 6 (Z.abs y)) in
  (yearStr ++ "-" ++ digits 2 m ++ "-" ++ digits 2 d ++ "T" ++
   digits 2 (tod / msPerHour) ++ ":" ++ digits 2 ((tod / msPerMinute) mod 60) ++ ":" ++
   digits 2 ((tod / msPerSecond) mod 60) ++ "." ++ digits 3 (tod mod msPerSecond) ++ "Z")%string.

(** The year field: four digits, or a sign and six digits ([-000000]
    is not a year). *)
Definition read_year (s : string) : option (Z * string) :=
  match read_digits 4 0 s with
  | Some r => Some r
  | None =>
      match s with
      | String c r =>
          if Ascii.eqb c "+"%char then read_digits 6 0 r
          else if Ascii.eqb c "-"%char then
            '(v, r') ← read_digits 6 0 r; if v =? 0 then None else Some (- v, r')
          else None
      | EmptyString => None
      end
  end.

(** [Date.parse] on the Date Time String Format with all fields and the
    [Z] offset, as [toISOString] writes it; out-of-range fields and time
    values beyond [maxTime] give an Invalid Date ([None]). *)
Definition parseISO (s : string) : option Z :=
  '(y, s) ← read_year s; s ← expect "-"%char s;
  '(m, s) ← read_digits 2 0 s; s ← expect "-"%char s;
  '(d, s) ← read_digits 2 0 s; s ← expect "T"%char s;
  '(h, s) ← read_digits 2 0 s; s ← expect ":"%char s;
  '(mi, s) ← read_digits 2 0 s; s ← expect ":"%char s;
  '(sec, s) ← read_digits 2 0 s; s ← expect "."%char s;
  '(ms, s) ← read_digits 3 0 s; s ← expect "Z"%char s;
  match s with
  | EmptyString =>
      if (1 <=? m) && (m <=? 12) && (1 <=? d) && (d <=? 31) && (h <=? 24) && (mi <=? 59) && (sec <=? 59)
         && (implb (h =? 24) ((mi =? 0) && (sec =? 0) && (ms =? 0)))
      then
        let tv := days_from_civil y m d * msPerDay + h * msPerHour + mi * msPerMinute + sec * msPerSecond + ms in
        if Z.abs tv <=? maxTime then Some tv else None
      else None
  | _ => None
  end.

(** ** JSON *)

(** The tree of a JSON text. *)
Inductive JSON :=
| JNull
| JBool (b : bool)
| JNum (q : Q)
| JStr (s : string)
| JArr (l : list JSON)
| JObj (kvs : list (string * JSON)).

(** JavaScript values as the services handle them; a [Date] holds a
    time value or is an Invalid Date ([None]). *)
Inductive JsVal :=
| VUndefined
| VNull
| VBool (b : bool)
| VNum (q : Q)
| VStr (s : string)
| VDate (t : option Z)
| VArr (l : list JsVal)
| VObj (kvs : list (string * JsVal)).

(** [JSON.stringify]: [undefined] has no text, and is dropped from
    objects and written [null] in arrays; a [Date] goes through [toJSON]
    ([toISOString], or [null] for an Invalid Date). *)
Fixpoint stringify (v : JsVal) : option JSON :=
  match v with
  | VUndefined => None
  | VNull => Some JNull
  | VBool b => Some (JBool b)
  | VNum q => Some (JNum q)
  | VStr s => Some (JStr s)
  | VDate (Some t) => Some (JStr (toISOString t))
  | VDate None => Some JNull
  | VArr l => Some (JArr (map (fun x => match stringify x with Some j => j | None => JNull end) l))
  | VObj kvs =>
      Some (JObj ((fix props (kvs : list (string * JsVal)) : list (string * JSON) :=
                     match kvs with
                     | [] => []
                     | (k, x) :: rest =>
                         match stringify x with
                         | Some j => (k, j) :: props rest
                         | None => props rest
                         end
                     end) kvs))
  end.

(** The key of the [i]-th element of an array, as the reviver sees it. *)
Definition index_key (i : nat) : string := zstring (Z.of_nat i).

(** [InternalizeJSONProperty]: the tree is revived bottom-up, the
    reviver receiving each property's key and revived value; a property
    revived to [undefined] is deleted. *)
Fixpoint internalize (reviver : string -> JsVal -> JsVal) (j : JSON) : JsVal :=
  match j with
  | JNull => VNull
  | JBool b => VBool b
  | JNum q => VNum q
  | JStr s => VStr s
  | JArr l =>
      VArr ((fix elems (i : nat) (l : list JSON) : list JsVal :=
               match l with
               | [] => []
               | x :: rest => reviver (index_key i) (internalize reviver x) :: elems (S i) rest
               end) 0%nat l)
  | JObj kvs =>
      VObj ((fix props (kvs : list (string * JSON)) : list (string * JsVal) :=
               match kvs with
               | [] => []
               | (k, x) :: rest =>
                   match reviver k (internalize reviver x) with
                   | VUndefined => props rest
                   | v => (k, v) :: props rest
                   end
               end) kvs)
  end.

(** [JSON.parse(text, reviver)] on the tree of [text]: the root is
    revived under the key [""]. *)
Definition parseWith (reviver : string -> JsVal -> JsVal) (j : JSON) : JsVal :=
  reviver "" (internalize reviver j).

(** The services' reviver: a string under one of [dateKeys] becomes
    [new Date(value)]. *)
Definition dateReviver (dateKeys : list string) (key : string) (value : JsVal) : JsVal :=
  match value with
  | VStr s => if existsb (String.eqb key) dateKeys then VDate (parseISO s) else value
  | _ => value
  end.

(** ** Lemmas on the decimal fields *)

Lemma value_of_digit_of j : 0 <= j < 10 -> value_of (digit_of j) = Some j.
Proof.
  intros Hj. assert (j = 0 \/ j = 1 \/ j = 2 \/ j = 3 \/ j = 4 \/ j = 5 \/ j = 6 \/ j = 7 \/ j = 8 \/ j = 9)
    as Hc by lia.
  repeat (destruct Hc as [->|Hc]; [reflexivity|]). subst j. reflexivity.
Qed.

Lemma digits_acc_app n k a r : (digits_acc n k a ++ r)%string = digits_acc n k (a ++ r)%string.
Proof. revert k a. induction n as [|n IH]; intros k a; simpl; [done|]. by rewrite IH. Qed.

Lemma digits_app n k r : (digits n k ++ r)%string = digits_acc n k r.
Proof. unfold digits. by rewrite digits_acc_app. Qed.

Lemma read_digits_S n v s :
  read_digits (S n) v s = match read_digits n v s with Some (v', s') => read_digits 1 v' s' | None => None end.
Proof.
  revert v s. induction n as [|n IH]; intros v [|c s]; simpl; try done;
    destruct (value_of c) as [dv|]; try done. apply IH.
Qed.

Lemma read_digits_acc n : forall v k r, 0 <= k ->
  read_digits n v (digits_acc n k r) = Some (v * 10 ^ Z.of_nat n + k mod 10 ^ Z.of_nat n, r).
Proof.
  induction n as [|n IH]; intros v k r Hk.
  - cbn [read_digits digits_acc]. rewrite Z.pow_0_r, Z.mod_1_r. f_equal. f_equal. lia.
  - cbn [digits_acc]. rewrite read_digits_S, IH by (apply Z.div_pos; lia).
    cbn [read_digits]. rewrite value_of_digit_of by (apply Z.mod_pos_bound; lia).
    f_equal. f_equal. rewrite Nat2Z.inj_succ, Z.pow_succ_r by lia.
    pose proof (Z.pow_pos_nonneg 10 (Z.of_nat n) ltac:(lia) ltac:(lia)) as Hp.
    rewrite Z.rem_mul_r by lia. ring.
Qed.

Lemma read_digits_exact n k r : 0 <= k < 10 ^ Z.of_nat n ->
  read_digits n 0 (digits_acc n k r) = Some (k, r).
Proof. intros Hk. rewrite read_digits_acc by lia. rewrite Z.mod_small by lia. done. Qed.

(** ** The ISO round trip *)

Lemma obind_Some {A B} (x : A) (f : A -> option B) : (Some x ≫= f) = f x.
Proof. reflexivity. Qed.

Lemma expect_same c s : expect c (String c s) = Some s.
Proof. unfold expect. by rewrite Ascii.eqb_refl. Qed.

Lemma read_year_short y r : 0 <= y <= 9999 -> read_year (digits_acc 4 y r) = Some (y, r).
Proof. intros Hy. unfold read_year. rewrite read_digits_exact; [done|cbn; lia]. Qed.

Lemma read_year_neg k r : 0 < k < 1000000 ->
  read_year (String "-"%char (digits_acc 6 k r)) = Some (- k, r).
Proof.
  intros Hk. unfold read_year.
  replace (read_digits 4 0 (String "-"%char (digits_acc 6 k r))) with (@None (Z * string)) by reflexivity.
  replace (Ascii.eqb "-"%char "+"%char) with false by reflexivity. rewrite Ascii.eqb_refl.
  rewrite read_digits_exact by (cbn; lia). rewrite obind_Some. cbv beta iota.
  by rewrite (proj2 (Z.eqb_neq k 0)) by lia.
Qed.

Lemma read_year_pos k r : 0 <= k < 1000000 ->
  read_year (String "+"%char (digits_acc 6 k r)) = Some (k, r).
Proof.
  intros Hk. unfold read_year.
  replace (read_digits 4 0 (String "+"%char (digits_acc 6 k r))) with (@None (Z * string)) by reflexivity.
  rewrite Ascii.eqb_refl.
  apply read_digits_exact. cbn. lia.
Qed.

(** A time value splits into its day and the fields of its time of day. *)
Lemma time_value_split t :
  day_of t * msPerDay + (t mod msPerDay) / msPerHour * msPerHour
  + ((t mod msPerDay) / msPerMinute) mod 60 * msPerMinute
  + ((t mod msPerDay) / msPerSecond) mod 60 * msPerSecond + (t mod msPerDay) mod msPerSecond = t.
Proof. unfold day_of, msPerDay, msPerHour, msPerMinute, msPerSecond. Z.div_mod_to_equations. lia. Qed.

(** The years of the time values of [Date] have at most six digits. *)
Lemma year_of_time_value t :
  Z.abs t <= maxTime -> let '(y, _, _) := utc_ymd t in Z.abs y < 1000000.
Proof.
  intros Ht. unfold utc_ymd. pose proof (civil_year_bounds (day_of t)) as YB.
  destruct (civil_from_days (day_of t)) as [[y m] d]. unfold day_of, msPerDay, maxTime in *.
  Z.div_mod_to_equations. lia.
Qed.

Ltac iso_step :=
  repeat first
    [ rewrite obind_Some; cbv beta iota
    | rewrite expect_same
    | rewrite read_digits_exact by (cbn; unfold msPerDay, msPerHour, msPerMinute, msPerSecond in *;
                                    Z.div_mod_to_equations; lia) ].

Ltac iso_finish Hciv Hsplit :=
  rewrite Hciv, Hsplit;
  rewrite (proj2 (Z.eqb_neq _ 24))
    by (unfold msPerDay, msPerHour in *; Z.div_mod_to_equations; lia);
  repeat rewrite (proj2 (Z.leb_le _ _))
    by (unfold msPerDay, msPerHour, msPerMinute, msPerSecond in *; Z.div_mod_to_equations; lia);
  reflexivity.

(** [Date] values survive their ISO text: reading back the string
    [toISOString] prints gives the same time value, for every time value
    a [Date] can hold. *)
Theorem parseISO_toISOString t : Z.abs t <= maxTime -> parseISO (toISOString t) = Some t.
Proof.
  intros Ht. pose proof (year_of_time_value t Ht) as Hy. pose proof (time_value_split t) as Hsplit.
  unfold toISOString. destruct (utc_ymd t) as [[y m] d] eqn:U.
  pose proof (civil_from_days_spec (day_of t)) as C. unfold utc_ymd in U. rewrite U in C.
  destruct C as (Hciv & Hm & Hd).
  pose proof (Z.mod_pos_bound t msPerDay ltac:(unfold msPerDay; lia)) as Htod.
  cbv beta iota zeta.
  set (tod := t mod msPerDay) in *.
  unfold parseISO.
  destruct ((0 <=? y) && (y <=? 9999)) eqn:Yr; cbv beta iota.
  - apply andb_true_iff in Yr as [Y1 Y2]. apply Z.leb_le in Y1, Y2.
    repeat (rewrite digits_app || rewrite append_String || rewrite append_Empty).
    rewrite read_year_short by lia. iso_step. iso_finish Hciv Hsplit.
  - apply andb_false_iff in Yr.
    destruct (y <? 0) eqn:Yn; [apply Z.ltb_lt in Yn|apply Z.ltb_ge in Yn];
      repeat (rewrite digits_app || rewrite append_String || rewrite append_Empty).
    + rewrite read_year_neg by lia. rewrite obind_Some. cbv beta iota.
      replace (- Z.abs y) with y by lia. iso_step. iso_finish Hciv Hsplit.
    + assert (9999 < y) by (destruct Yr as [Yr|Yr]; apply Z.leb_gt in Yr; lia).
      rewrite read_year_pos by lia. rewrite obind_Some. cbv beta iota.
      replace (Z.abs y) with y by lia. iso_step. iso_finish Hciv Hsplit.
Qed.

End JsRuntime.

Module JsRuntimeExamples.
Import JsRuntime.
Local Open Scope string_scope.

Lemma demo_iso : toISOString 1731110400000 = "2024-11-09T00:00:00.000Z".
Proof. vm_compute. reflexivity. Qed.

(** Before the epoch, and in the six-digit years at the end of the range. *)
Lemma demo_iso_negative : toISOString (-1) = "1969-12-31T23:59:59.999Z".
Proof. vm_compute. reflexivity. Qed.

Lemma demo_iso_max : toISOString maxTime = "+275760-09-13T00:00:00.000Z".
Proof. vm_compute. reflexivity. Qed.

Lemma parseISO_toISOString_witness :
  Z.abs (-8640000000000000) <= maxTime /\ parseISO (toISOString (-8640000000000000)) = Some (-8640000000000000).
Proof.
  assert (H : Z.abs (-8640000000000000) <= maxTime) by (unfold maxTime; lia).
  split; [exact H|]. exact (parseISO_toISOString (-8640000000000000) H).
Defined.

End JsRuntimeExamples.
