(* ===== verification/Persistence.v ===== *)
(** * Persistence: the board and the history in [localStorage]

    [src/services/activeSignalService.ts] and
    [src/services/historyService.ts] keep the active board and the
    history across reloads: [save*] writes [JSON.stringify] of the list
    under its key, [get*] reads it back with [JSON.parse] and a reviver
    that turns the strings under [timestamp] (and [resolvedAt] for the
    history) into [Date] objects; a missing, empty or unparsable item
    reads as the empty list. [App.tsx] saves after every change of the
    state and reads once when it mounts.

    The item is [StoredItem]: absent, or a text that is or is not JSON
    (its tree). The JavaScript objects of the signals are given by the
    codecs [signalToJs]/[historyToJs], which list the properties of the
    interfaces of [src/types.ts]; [signalOfJs]/[historyOfJs] read such
    an object back ([None] when a property is missing or of another
    type), which is what the TypeScript types assert of [JSON.parse]'s
    result. The built-ins are those of [JsRuntime].

    Theorems: saving then reading gives back the same list, dates as
    the same instants (the round trip the specification asks for),
    for the board and for the history; a corrupt item reads as empty. *)

From stdpp Require Import base option list strings.
From Stdlib Require Import String ZArith QArith Lia.
From S2P Require Import Prelude Types Calendar JsRuntime.
Open Scope Z_scope.

Module Persistence.
Import JsRuntime.

#[local] Arguments toISOString : simpl never.
#[local] Arguments parseISO : simpl never.

(** ** The item and the two services *)

(** A [localStorage] item: absent, or a text whose JSON tree is [Some]
    (the empty string and other non-JSON texts are [None]). *)
Inductive StoredItem :=
| ItemMissing
| ItemText (tree : option JSON).

Definition ACTIVE_SIGNALS_KEY : string := "cryptoActiveSignals".
Definition HISTORY_KEY : string := "cryptoSignalHistory".

(** [getActiveSignals]: a missing or empty item, or a [JSON.parse] that
    throws, reads as [[]]. *)
Definition getActiveSignals (item : StoredItem) : JsVal :=
  match item with
  | ItemMissing | ItemText None => VArr []
  | ItemText (Some tree) => parseWith (dateReviver ["timestamp"]) tree
  end.

(** [saveActiveSignals]: [setItem(KEY, JSON.stringify(signals))]; a
    failing [setItem] is only logged. *)
Definition saveActiveSignals (signals : JsVal) : StoredItem := ItemText (stringify signals).

(** [getHistory]: the reviver also revives [resolvedAt]. *)
Definition getHistory (item : StoredItem) : JsVal :=
  match item with
  | ItemMissing | ItemText None => VArr []
  | ItemText (Some tree) => parseWith (dateReviver ["timestamp"; "resolvedAt"]) tree
  end.

Definition saveHistory (history : JsVal) : StoredItem := ItemText (stringify history).

(** ** The objects of the interfaces *)

Definition directionToJs (d : SignalDirection) : JsVal :=
  VStr (match d with LONG => "LONG" | SHORT => "SHORT" end).

Definition statusToJs (s : SignalStatus) : JsVal :=
  VStr (match s with WIN => "WIN" | LOSS => "LOSS" | PARTIAL_WIN => "PARTIAL_WIN" end).

(** Arrays of numbers and of booleans. *)
Definition numArr (qs : list Q) : JsVal := VArr (map VNum qs).
Definition boolArr (bs : list bool) : JsVal := VArr (map VBool bs).

(** The properties of a [TradingSignal] object: those of its parameters,
    the live fields, and the optional ones when set. *)
Definition signalProps (s : TradingSignal) : list (string * JsVal) :=
  let p := params s in
  [("id", VStr (id p)); ("symbol", VStr (symbol p)); ("pair", VStr (pair p));
   ("direction", directionToJs (direction p)); ("probability", VNum (inject_Z (probability p)));
   ("entryZone", VArr [VNum (entryZone p).1; VNum (entryZone p).2]);
   ("stopLoss", VNum (stopLoss p)); ("takeProfit", numArr (takeProfit p));
   ("confidence", VStr (confidence p)); ("riskNotes", VStr (riskNotes p));
   ("safeLeverage", VNum (inject_Z (safeLeverage p))); ("timestamp", VDate (Some (timestamp p)));
   ("price", VNum (price s)); ("change24h", VNum (change24h s));
   ("quoteVolume", match quoteVolume s with Some v => VNum v | None => VUndefined end);
   ("tpsHit", match tpsHit s with Some l => boolArr l | None => VUndefined end)].

Definition signalToJs (s : TradingSignal) : JsVal := VObj (signalProps s).

(** [HistoricalSignal extends TradingSignal]. *)
Definition historyToJs (h : HistoricalSignal) : JsVal :=
  VObj (signalProps (hsignal h) ++
        [("status", statusToJs (status h)); ("resultPercent", VNum (resultPercent h));
         ("resolvedAt", VDate (Some (resolvedAt h)))]).

(** Reading a property: the first with the key. *)
Fixpoint prop (k : string) (kvs : list (string * JsVal)) : option JsVal :=
  match kvs with
  | [] => None
  | (k', v) :: rest => if String.eqb k k' then Some v else prop k rest
  end.

Definition asStr (v : JsVal) : option string := match v with VStr s => Some s | _ => None end.
Definition asNum (v : JsVal) : option Q := match v with VNum q => Some q | _ => None end.
Definition asBool (v : JsVal) : option bool := match v with VBool b => Some b | _ => None end.
Definition asInt (v : JsVal) : option Z :=
  match v with VNum q => if (Qden q =? 1)%positive then Some (Qnum q) else None | _ => None end.
Definition asDate (v : JsVal) : option Z := match v with VDate (Some t) => Some t | _ => None end.

Fixpoint asList {A} (f : JsVal -> option A) (v : list JsVal) : option (list A) :=
  match v with
  | [] => Some []
  | x :: rest => a ← f x; l ← asList f rest; Some (a :: l)
  end.

Definition asArr {A} (f : JsVal -> option A) (v : JsVal) : option (list A) :=
  match v with VArr l => asList f l | _ => None end.

Definition asDirection (v : JsVal) : option SignalDirection :=
  s ← asStr v; if String.eqb s "LONG" then Some LONG else if String.eqb s "SHORT" then Some SHORT else None.

Definition asStatus (v : JsVal) : option SignalStatus :=
  s ← asStr v;
  if String.eqb s "WIN" then Some WIN else if String.eqb s "LOSS" then Some LOSS
  else if String.eqb s "PARTIAL_WIN" then Some PARTIAL_WIN else None.

Definition asPair (v : JsVal) : option (Q * Q) :=
  match v with VArr [a; b] => x ← asNum a; y ← asNum b; Some (x, y) | _ => None end.

(** An optional property: absent (or [undefined]) is [Some None]. *)
Definition optProp {A} (f : JsVal -> option A) (k : string) (kvs : list (string * JsVal)) : option (option A) :=
  match prop k kvs with
  | None | Some VUndefined => Some None
  | Some v => Some <$> f v
  end.

Definition req {A} (f : JsVal -> option A) (k : string) (kvs : list (string * JsVal)) : option A :=
  v ← prop k kvs; f v.

Definition signalOfProps (kvs : list (string * JsVal)) : option TradingSignal :=
  id ← req asStr "id" kvs; sym ← req asStr "symbol" kvs; pr ← req asStr "pair" kvs;
  dir ← req asDirection "direction" kvs; prob ← req asInt "probability" kvs;
  ez ← req asPair "entryZone" kvs; sl ← req asNum "stopLoss" kvs;
  tps ← req (asArr asNum) "takeProfit" kvs; conf ← req asStr "confidence" kvs;
  notes ← req asStr "riskNotes" kvs; lev ← req asInt "safeLeverage" kvs;
  ts ← req asDate "timestamp" kvs; px ← req asNum "price" kvs; ch ← req asNum "change24h" kvs;
  qv ← optProp asNum "quoteVolume" kvs; hits ← optProp (asArr asBool) "tpsHit" kvs;
  Some (mkSignal (mkParams id sym pr dir prob ez sl tps conf notes lev ts) px ch hits qv).

Definition signalOfJs (v : JsVal) : option TradingSignal :=
  match v with VObj kvs => signalOfProps kvs | _ => None end.

Definition historyOfJs (v : JsVal) : option HistoricalSignal :=
  match v with
  | VObj kvs =>
      s ← signalOfProps kvs; st ← req asStatus "status" kvs; r ← req asNum "resultPercent" kvs;
      ra ← req asDate "resolvedAt" kvs; Some (mkHist s st r ra)
  | _ => None
  end.

(** ** Round trips *)

Definition encodeSignals (l : list TradingSignal) : JsVal := VArr (map signalToJs l).
Definition decodeSignals (v : JsVal) : option (list TradingSignal) := asArr signalOfJs v.
Definition encodeHistory (l : list HistoricalSignal) : JsVal := VArr (map historyToJs l).
Definition decodeHistory (v : JsVal) : option (list HistoricalSignal) := asArr historyOfJs v.

Section Arrays.
(** Arrays of values that print as one JSON node each and that the
    reviver leaves alone. *)
Context {A : Type} (f : A -> JsVal) (g : A -> JSON) (reviver : string -> JsVal -> JsVal).
Hypothesis print_leaf : forall a, stringify (f a) = Some (g a).
Hypothesis revive_leaf : forall k a, reviver k (f a) = f a.

Lemma stringify_map l : stringify (VArr (map f l)) = Some (JArr (map g l)).
Proof. simpl. f_equal. f_equal. rewrite map_map. apply map_ext. intros a. by rewrite print_leaf. Qed.

Lemma internalize_map l :
  Forall (fun a => internalize reviver (g a) = f a) l -> internalize reviver (JArr (map g l)) = VArr (map f l).
Proof.
  intros Hl. simpl. f_equal. generalize 0%nat. induction Hl as [|a l Ha _ IH]; intros i; simpl; [done|].
  by rewrite Ha, revive_leaf, IH.
Qed.
End Arrays.

(** The arrays of a signal, printed and read back. *)
Lemma numArr_roundtrip keys qs :
  internalize (dateReviver keys) (JArr (map (fun x => match stringify x with Some j => j | None => JNull end)
                                        (map VNum qs))) = numArr qs.
Proof.
  rewrite map_map. unfold numArr.
  apply (internalize_map VNum (fun x => match stringify (VNum x) with Some j => j | None => JNull end)); [done|].
  by apply List.Forall_forall.
Qed.

Lemma boolArr_roundtrip keys bs :
  internalize (dateReviver keys) (JArr (map (fun x => match stringify x with Some j => j | None => JNull end)
                                        (map VBool bs))) = boolArr bs.
Proof.
  rewrite map_map. unfold boolArr.
  apply (internalize_map VBool (fun x => match stringify (VBool x) with Some j => j | None => JNull end)); [done|].
  by apply List.Forall_forall.
Qed.

Definition date_ok (t : Z) : Prop := Z.abs t <= maxTime.

(** The element function of [stringify] on arrays. *)
Definition elemJ (x : JsVal) : JSON := match stringify x with Some j => j | None => JNull end.

(** Reading back an array written element by element. *)
Lemma asList_inv {A} (f : JsVal -> option A) (g : A -> JsVal) l :
  (forall a, In a l -> f (g a) = Some a) -> asList f (map g l) = Some l.
Proof.
  induction l as [|a l IH]; intros H; [done|]. simpl.
  rewrite H by (left; done). rewrite IH; [done|]. intros x Hx. apply H. by right.
Qed.

Lemma asList_num qs : asList asNum (map VNum qs) = Some qs.
Proof. by apply asList_inv. Qed.

Lemma asList_bool bs : asList asBool (map VBool bs) = Some bs.
Proof. by apply asList_inv. Qed.

(** A property survives [stringify] then [internalize] unchanged, or is
    [undefined] and is dropped. *)
Definition stable (reviver : string -> JsVal -> JsVal) (kv : string * JsVal) : Prop :=
  kv.2 = VUndefined \/ exists j, stringify kv.2 = Some j /\ reviver kv.1 (internalize reviver j) = kv.2.

Definition defined_prop (kv : string * JsVal) : bool := match kv.2 with VUndefined => false | _ => true end.

Lemma obj_roundtrip reviver kvs :
  Forall (stable reviver) kvs -> internalize reviver (elemJ (VObj kvs)) = VObj (List.filter defined_prop kvs).
Proof.
  intros Hs. unfold elemJ. simpl. f_equal.
  induction Hs as [|[k v] kvs [Hu|(j & Hj & Hr)] _ IH]; [done| |]; simpl in *.
  - by subst v.
  - rewrite Hj. simpl. rewrite Hr, IH. by destruct v.
Qed.

(** A property of the codecs' objects: a leaf, a date within range, or
    an array of leaves. *)
Ltac stable_prop :=
  first [ left; reflexivity
        | right; eexists; split; [reflexivity|];
          rewrite ?numArr_roundtrip, ?boolArr_roundtrip; simpl;
          rewrite ?parseISO_toISOString by assumption; reflexivity ].

Lemma signalProps_stable keys s : (keys = ["timestamp"] \/ keys = ["timestamp"; "resolvedAt"]) -> date_ok (sig_ts s) ->
  Forall (stable (dateReviver keys)) (signalProps s).
Proof.
  intros Hk Hd. destruct s as [[] px ch hits qv]. unfold sig_ts, date_ok in Hd. simpl in Hd.
  destruct Hk as [-> | ->]; destruct hits, qv;
    unfold signalProps; repeat apply List.Forall_cons; try apply List.Forall_nil; stable_prop.
Qed.

Lemma signalOfProps_filter s : signalOfProps (List.filter defined_prop (signalProps s)) = Some s.
Proof.
  destruct s as [[? ? ? [] ? [? ?] ? tps ? ? ? ?] px ch hits qv]; destruct hits, qv;
    unfold signalOfProps, req, optProp, signalProps, numArr, boolArr;
    simpl; rewrite ?asList_num; simpl; rewrite ?asList_bool; reflexivity.
Qed.

Lemma historyOfJs_filter h :
  historyOfJs (VObj (List.filter defined_prop
    (signalProps (hsignal h) ++ [("status", statusToJs (status h)); ("resultPercent", VNum (resultPercent h));
                                 ("resolvedAt", VDate (Some (resolvedAt h)))]))) = Some h.
Proof.
  destruct h as [[[? ? ? [] ? [? ?] ? tps ? ? ? ?] px ch hits qv] [] r ra]; destruct hits, qv;
    unfold historyOfJs, signalOfProps, req, optProp, signalProps, numArr, boolArr;
    simpl; rewrite ?asList_num; simpl; rewrite ?asList_bool; reflexivity.
Qed.

Lemma historyProps_stable h : date_ok (sig_ts (hsignal h)) -> date_ok (resolvedAt h) ->
  Forall (stable (dateReviver ["timestamp"; "resolvedAt"]))
    (signalProps (hsignal h) ++ [("status", statusToJs (status h)); ("resultPercent", VNum (resultPercent h));
                                 ("resolvedAt", VDate (Some (resolvedAt h)))]).
Proof.
  intros Hs Hr. apply Forall_app_2; [apply signalProps_stable; [by right|exact Hs]|].
  destruct h as [s [] r ra]; unfold date_ok in Hr; simpl in Hr;
    repeat apply List.Forall_cons; try apply List.Forall_nil; stable_prop.
Qed.

(** An array of objects that each come back as a given value: the
    reviver leaves objects alone under the index keys and the root key. *)
Lemma objects_roundtrip {A} keys (enc : A -> JsVal) (dec : A -> list (string * JsVal)) l :
  Forall (fun a => internalize (dateReviver keys) (elemJ (enc a)) = VObj (dec a)) l ->
  option_map (parseWith (dateReviver keys)) (stringify (VArr (map enc l))) = Some (VArr (map (fun a => VObj (dec a)) l)).
Proof.
  intros Hl. unfold parseWith. cbn [stringify option_map]. f_equal. rewrite map_map.
  rewrite (internalize_map (fun a => VObj (dec a)) (fun a => elemJ (enc a))); [done|done|].
  exact Hl.
Qed.

(** Reading back what the board's save writes. *)
Lemma signals_reload l :
  Forall (fun s => date_ok (sig_ts s)) l ->
  decodeSignals (getActiveSignals (saveActiveSignals (encodeSignals l))) = Some l.
Proof.
  intros Hl. unfold saveActiveSignals, getActiveSignals, encodeSignals.
  assert (Hobj : Forall (fun s => internalize (dateReviver ["timestamp"]) (elemJ (signalToJs s)) =
                                  VObj (List.filter defined_prop (signalProps s))) l).
  { eapply List.Forall_impl; [|exact Hl]. intros s Hs.
    apply obj_roundtrip, signalProps_stable; [by left|exact Hs]. }
  pose proof (objects_roundtrip _ _ _ _ Hobj) as R.
  destruct (stringify (VArr (map signalToJs l))) as [j|]; [|discriminate R].
  injection R as ->. apply asList_inv. intros s _. apply signalOfProps_filter.
Qed.

(** Reading back what the history's save writes. *)
Lemma history_reload l :
  Forall (fun h => date_ok (sig_ts (hsignal h)) /\ date_ok (resolvedAt h)) l ->
  decodeHistory (getHistory (saveHistory (encodeHistory l))) = Some l.
Proof.
  intros Hl. unfold saveHistory, getHistory, encodeHistory.
  assert (Hobj : Forall (fun h => internalize (dateReviver ["timestamp"; "resolvedAt"]) (elemJ (historyToJs h)) =
      VObj (List.filter defined_prop (signalProps (hsignal h) ++ [("status", statusToJs (status h));
        ("resultPercent", VNum (resultPercent h)); ("resolvedAt", VDate (Some (resolvedAt h)))]))) l).
  { eapply List.Forall_impl; [|exact Hl]. intros h [Hs Hr].
    apply obj_roundtrip, historyProps_stable; [exact Hs|exact Hr]. }
  pose proof (objects_roundtrip _ _ _ _ Hobj) as R.
  destruct (stringify (VArr (map historyToJs l))) as [j|]; [|discriminate R].
  injection R as ->. apply asList_inv. intros h _. apply historyOfJs_filter.
Qed.

(** C12: The board survives a reload: [saveActiveSignals] then
    [getActiveSignals] gives back objects that read as the same signals,
    every [timestamp] revived to the same instant, whenever the
    timestamps are valid dates. *)
Theorem activeSignals_roundtrip l :
  Forall (fun s => date_ok (sig_ts s)) l ->
  decodeSignals (getActiveSignals (saveActiveSignals (encodeSignals l))) = Some l.
Proof. apply signals_reload. Qed.

(** C13: The history survives a reload: [saveHistory] then [getHistory]
    gives back the same entries, [timestamp] and [resolvedAt] revived to
    the same instants, whenever both are valid dates. *)
Theorem history_roundtrip l :
  Forall (fun h => date_ok (sig_ts (hsignal h)) /\ date_ok (resolvedAt h)) l ->
  decodeHistory (getHistory (saveHistory (encodeHistory l))) = Some l.
Proof. apply history_reload. Qed.

(** C27: Error paths of the read: a missing item and a text that is not
    JSON read as the empty board, but a JSON text reads as an array only
    when it is one: a stored [null] or object is returned as it is. *)
Theorem getActiveSignals_error_paths :
  getActiveSignals ItemMissing = VArr [] /\ getActiveSignals (ItemText None) = VArr [] /\
  forall j, (exists l, getActiveSignals (ItemText (Some j)) = VArr l) <-> (exists l, j = JArr l).
Proof.
  split; [done|]. split; [done|]. intros j. split.
  - intros [l Hl]. destruct j; try discriminate Hl; by eexists.
  - intros [l ->]. by eexists.
Qed.

End Persistence.

Module PersistenceExamples.
Import Types JsRuntime Persistence.
Local Open Scope string_scope.

Definition demo_signal : TradingSignal :=
  mkSignal (mkParams "sig-1" "SOLUSDT" "SOL/USDT" LONG 82 (150%Q, 152%Q) 145%Q [155; 160; 165; 170; 180]%Q
              "High" "none" 10 1731110400000) 151%Q (5 / 2)%Q (Some [true; false; false; false; false]) None.

Definition demo_hist : HistoricalSignal := mkHist demo_signal WIN 3%Q 1731114000000.

(** The board of one signal, saved and read back. *)
Lemma activeSignals_roundtrip_witness :
  Forall (fun s => date_ok (sig_ts s)) [demo_signal] /\
  decodeSignals (getActiveSignals (saveActiveSignals (encodeSignals [demo_signal]))) = Some [demo_signal].
Proof.
  assert (H : Forall (fun s => date_ok (sig_ts s)) [demo_signal])
    by (constructor; [|constructor]; unfold date_ok, maxTime, demo_hist, demo_signal, sig_ts; simpl; try split; lia).
  split; [exact H|]. apply (activeSignals_roundtrip [demo_signal]), H.
Defined.

Lemma history_roundtrip_witness :
  Forall (fun h => date_ok (sig_ts (hsignal h)) /\ date_ok (resolvedAt h)) [demo_hist] /\
  decodeHistory (getHistory (saveHistory (encodeHistory [demo_hist]))) = Some [demo_hist].
Proof.
  assert (H : Forall (fun h => date_ok (sig_ts (hsignal h)) /\ date_ok (resolvedAt h)) [demo_hist])
    by (constructor; [|constructor]; unfold date_ok, maxTime, demo_hist, demo_signal, sig_ts; simpl; try split; lia).
  split; [exact H|]. apply (history_roundtrip [demo_hist]), H.
Defined.

(** The stored text is the ISO date of the timestamp. *)
Lemma demo_stored_timestamp :
  option_map (fun j => match j with JArr [JObj kvs] => List.find (fun kv => String.eqb kv.1 "timestamp") kvs | _ => None end)
    (match saveActiveSignals (encodeSignals [demo_signal]) with ItemText t => t | ItemMissing => None end)
  = Some (Some ("timestamp", JStr "2024-11-09T00:00:00.000Z")).
Proof. vm_compute. reflexivity. Qed.

(** A stored [null] is not an empty board. *)
Lemma demo_stored_null : getActiveSignals (ItemText (Some JNull)) = VNull.
Proof. reflexivity. Qed.

End PersistenceExamples.
