(* ===== verification/Report.v ===== *)
(** * Report: the performance report of the history ([historyReport] in [src/src/App.tsx])

    The history view shows a report computed by [useMemo] from the
    history, the period filter and the date picked in the calendar:
    the records of the period, a summary of the closed trades (total
    PnL, win rate, best trade, wins and losses) and the records grouped
    by UTC calendar day, each day with its PnL and its win and loss
    counts, newest record first.

    The clock is the argument [now]; the picked date is the instant
    [Date.UTC(year, month - 1, day)] that [handleDateInputChange] of
    [src/components/HistoryView.tsx] builds. The [dateKey] object is a
    [gmap] from the key to the day's group; its key order is not
    observable, since the view sorts the keys. Every record the engine
    writes carries [resolvedAt], so [signal.resolvedAt || signal.timestamp]
    is [resolvedAt].

    Theorems: a record of the period lands in exactly one day group,
    the one of its UTC day; a day's PnL and counts are those of its
    records; the summary counts are consistent and the win rate is
    wins/(wins + losses) in [0, 100]; the best trade is a closed trade
    with the largest result; a custom date selects exactly the records
    of its UTC day, so the report then has a single group. *)

From stdpp Require Import gmap strings list sorting.
From Stdlib Require Import String QArith Lqa ZArith Lia.
From S2P Require Import Prelude Types Calendar.
Open Scope Q_scope.
Open Scope js_scope.

Module Report.

(** [HistoryFilter] of [src/types.ts]. *)
Inductive HistoryFilter := day | week | month | year | all | custom.

(** [getUTCDay()]: 1970-01-01 was a Thursday. *)
Definition getUTCDay (t : Z) : Z := ((day_of t + 4) mod 7)%Z.

(** [Date.UTC(y, m0, dt)]: midnight of day [dt] of the zero-based month
    [m0] (MakeDay of the ECMAScript specification; [dt] may fall outside
    the month). [Date.UTC] reads the years 0 to 99 as 1900 to 1999; the
    clock of the report is past the year 100, where this does not apply. *)
Definition date_UTC (y m0 dt : Z) : Z :=
  ((days_from_civil (y + m0 / 12) (m0 mod 12 + 1) 1 + dt - 1) * msPerDay)%Z.

(** The bounds of the periods: [today], [startOfWeek], [startOfMonth],
    [startOfYear]. *)
Record Periods := mkPeriods {
  today : Z;
  startOfWeek : Z;
  startOfMonth : Z;
  startOfYear : Z
}.

Definition periods (now : Z) : Periods :=
  let '(y, m, d) := utc_ymd now in
  let dayOfWeek := getUTCDay now in
  mkPeriods (date_UTC y (m - 1) d) (date_UTC y (m - 1) (d - dayOfWeek))
            (date_UTC y (m - 1) 1) (date_UTC y 0 1).

(** [signal.resolvedAt || signal.timestamp]. *)
Definition signalDate (h : HistoricalSignal) : Z := resolvedAt h.

(** The predicate of [historicalSignals.filter]. [selectedDayEnd] is
    [selectedDayStart] with [setUTCDate(getUTCDate() + 1)]: one day later. *)
Definition inPeriod (now : Z) (historyFilter : HistoryFilter) (customHistoryDate : option Z)
    (h : HistoricalSignal) : bool :=
  let signalDate := signalDate h in
  let p := periods now in
  match historyFilter with
  | day => (today p <=? signalDate)%Z
  | week => (startOfWeek p <=? signalDate)%Z
  | month => (startOfMonth p <=? signalDate)%Z
  | year => (startOfYear p <=? signalDate)%Z
  | custom =>
      match customHistoryDate with
      | None => false
      | Some selectedDayStart =>
          let selectedDayEnd := (selectedDayStart + msPerDay)%Z in
          (selectedDayStart <=? signalDate)%Z && (signalDate <? selectedDayEnd)%Z
      end
  | all => true
  end.

Definition is_win (h : HistoricalSignal) : bool :=
  match status h with WIN => true | _ => false end.
Definition is_loss (h : HistoricalSignal) : bool :=
  match status h with LOSS => true | _ => false end.
Definition is_completed (h : HistoricalSignal) : bool := is_win h || is_loss h.

(** The best-trade scan: a later record replaces the best only with a
    strictly larger result. *)
Definition better (bestTrade c : HistoricalSignal) : HistoricalSignal :=
  if resultPercent bestTrade <? resultPercent c then c else bestTrade.

Definition bestOf (completedSignals : list HistoricalSignal) : option HistoricalSignal :=
  match completedSignals with
  | [] => None
  | first :: rest => Some (fold_left better rest first)
  end.

Record Summary := mkSummary {
  totalPnl : Q;
  winRate : Q;
  totalTrades : nat;
  bestTrade : option HistoricalSignal;
  wins : nat;
  losses : nat
}.

(** A day's group: [{ signals, dailyPnl, wins, losses }]. *)
Record DayGroup := mkDayGroup {
  day_signals : list HistoricalSignal;
  dailyPnl : Q;
  day_wins : nat;
  day_losses : nat
}.

Definition emptyGroup : DayGroup := mkDayGroup [] 0 0 0.

(** The body of the [reduce] for one record, on the day's group. *)
Definition group_add (g : DayGroup) (signal : HistoricalSignal) : DayGroup :=
  let g1 := mkDayGroup (day_signals g ++ [signal]) (dailyPnl g) (day_wins g) (day_losses g) in
  match status signal with
  | WIN | LOSS | PARTIAL_WIN =>
      mkDayGroup (day_signals g1) (dailyPnl g1 + resultPercent signal)
        (if is_win signal then S (day_wins g1) else day_wins g1)
        (if is_win signal then day_losses g1
         else if is_loss signal then S (day_losses g1) else day_losses g1)
  end.

Definition group_step (acc : gmap string DayGroup) (signal : HistoricalSignal) : gmap string DayGroup :=
  let dateKey := day_key (signalDate signal) in
  <[dateKey := group_add (default emptyGroup (acc !! dateKey)) signal]> acc.

(** [signals.sort((a, b) => dateB - dateA)]: stable, newest first. *)
Definition sortByDateDesc (l : list HistoricalSignal) : list HistoricalSignal :=
  sort_key_desc Z.leb signalDate l.

Definition sort_group (g : DayGroup) : DayGroup :=
  mkDayGroup (sortByDateDesc (day_signals g)) (dailyPnl g) (day_wins g) (day_losses g).

Definition groupedByDay (filteredSignals : list HistoricalSignal) : gmap string DayGroup :=
  sort_group <$> fold_left group_step filteredSignals ∅.

(** [historyReport]. *)
Definition historyReport (now : Z) (historyFilter : HistoryFilter) (customHistoryDate : option Z)
    (historicalSignals : list HistoricalSignal) : Summary * gmap string DayGroup :=
  let filteredSignals := List.filter (inPeriod now historyFilter customHistoryDate) historicalSignals in
  let completedSignals := List.filter is_completed filteredSignals in
  let wins := List.length (List.filter is_win completedSignals) in
  let losses := List.length (List.filter is_loss completedSignals) in
  let totalTrades := List.length completedSignals in
  if (List.length filteredSignals =? 0)%nat then (mkSummary 0 0 0 None 0 0, ∅) else
  let winRate := if (0 <? totalTrades)%nat
                 then inject_Z (Z.of_nat wins) / inject_Z (Z.of_nat totalTrades) * 100 else 0 in
  let totalPnl := fold_left (fun acc s => acc + resultPercent s) completedSignals 0 in
  (mkSummary totalPnl winRate totalTrades (bestOf completedSignals) wins losses,
   groupedByDay filteredSignals).

(** ** The day groups *)

(** The records of the UTC day whose key is [k]. *)
Definition on_day (k : string) (h : HistoricalSignal) : bool :=
  bool_decide (day_key (signalDate h) = k).

(** The reduction files the records of day [k], in order, into the
    group [k] and leaves the other groups alone. *)
Lemma fold_group_lookup l : forall acc k,
  fold_left group_step l acc !! k =
  match List.filter (on_day k) l with
  | [] => acc !! k
  | hs => Some (fold_left group_add hs (default emptyGroup (acc !! k)))
  end.
Proof.
  induction l as [|h l IH]; intros acc k; simpl; [done|].
  rewrite IH. unfold group_step, on_day at 2.
  destruct (decide (day_key (signalDate h) = k)) as [<-|Hne].
  - rewrite bool_decide_true, lookup_insert_eq by done. by destruct (List.filter _ l).
  - by rewrite bool_decide_false, lookup_insert_ne by done.
Qed.

Lemma fold_group_add hs : forall g,
  fold_left group_add hs g =
  mkDayGroup (day_signals g ++ hs) (fold_left (fun acc s => acc + resultPercent s) hs (dailyPnl g))
    (day_wins g + List.length (List.filter is_win hs))
    (day_losses g + List.length (List.filter is_loss hs)).
Proof.
  induction hs as [|h hs IH]; intros [sg p w lo]; simpl.
  - by rewrite app_nil_r, !Nat.add_0_r.
  - rewrite IH. unfold group_add, is_win, is_loss.
    destruct (status h); simpl; rewrite <- app_assoc; f_equal; lia.
Qed.

(** The group of day [k]: the records of that day, newest first, their
    summed result and their win and loss counts; no group for a day
    without records. *)
Lemma groupedByDay_lookup l k :
  groupedByDay l !! k =
  match List.filter (on_day k) l with
  | [] => None
  | hs => Some (mkDayGroup (sortByDateDesc hs) (sumQ (map resultPercent hs))
                  (List.length (List.filter is_win hs)) (List.length (List.filter is_loss hs)))
  end.
Proof.
  unfold groupedByDay. rewrite lookup_fmap, fold_group_lookup, lookup_empty.
  destruct (List.filter (on_day k) l) as [|h hs] eqn:E; [done|].
  rewrite fold_group_add. change (dailyPnl emptyGroup) with 0. rewrite fold_add_sumQ. done.
Qed.

(** Outside the empty case the groups are those of the period's records;
    in the empty case there are none, as [groupedByDay] of no record. *)
Lemma historyReport_groups_lookup now historyFilter customHistoryDate hist k :
  (historyReport now historyFilter customHistoryDate hist).2 !! k =
  groupedByDay (List.filter (inPeriod now historyFilter customHistoryDate) hist) !! k.
Proof.
  unfold historyReport.
  destruct (List.length _ =? 0)%nat eqn:E; [|done].
  apply Nat.eqb_eq, length_zero_iff_nil in E. rewrite E. simpl. by rewrite lookup_empty.
Qed.

Lemma in_sortByDateDesc h l : In h (sortByDateDesc l) <-> In h l.
Proof. split; apply Permutation_in; [|symmetry]; apply sort_key_desc_perm. Qed.

(** The members of a group: the period's records of its day. *)
Lemma groupedByDay_members l k g :
  groupedByDay l !! k = Some g ->
  (forall h, In h (day_signals g) <-> In h l /\ day_key (signalDate h) = k) /\
  Sorted (key_desc Z.leb signalDate) (day_signals g) /\
  dailyPnl g == sumQ (map resultPercent (day_signals g)) /\
  day_wins g = List.length (List.filter is_win (day_signals g)) /\
  day_losses g = List.length (List.filter is_loss (day_signals g)).
Proof.
  rewrite groupedByDay_lookup. destruct (List.filter (on_day k) l) as [|h0 hs] eqn:E; [done|].
  rewrite <- E. intros Hg. injection Hg as <-. cbn [day_signals dailyPnl day_wins day_losses].
  pose proof (sort_key_desc_perm Z.leb signalDate (List.filter (on_day k) l)) as P.
  split; [|split; [apply sort_key_desc_sorted, Z_leb_total|split; [|split]]].
  - intros h. rewrite in_sortByDateDesc, filter_In. unfold on_day. by rewrite bool_decide_eq_true.
  - symmetry. apply sumQ_perm, Permutation_map, P.
  - apply Permutation_length, filter_perm. symmetry. exact P.
  - apply Permutation_length, filter_perm. symmetry. exact P.
Qed.

Lemma groupedByDay_present l h :
  In h l -> exists g, groupedByDay l !! day_key (signalDate h) = Some g.
Proof.
  intros Hh. rewrite groupedByDay_lookup.
  destruct (List.filter (on_day _) l) as [|h0 hs] eqn:E; [|by eexists].
  assert (Hin : In h (List.filter (on_day (day_key (signalDate h))) l)).
  { apply filter_In. split; [done|]. unfold on_day. by apply bool_decide_eq_true. }
  by rewrite E in Hin.
Qed.

(** ** The summary *)

Lemma win_loss_count l :
  (List.length (List.filter is_win (List.filter is_completed l)) +
   List.length (List.filter is_loss (List.filter is_completed l)))%nat =
  List.length (List.filter is_completed l).
Proof.
  induction l as [|h l IH]; simpl; [done|].
  destruct (is_completed h) eqn:Ec; simpl; [|exact IH].
  unfold is_completed, is_win, is_loss in *. destruct (status h); simpl in *; [lia|lia|discriminate].
Qed.

(** [(wins / totalTrades) * 100] is a percentage. *)
Lemma ratio_pct_bounds (w t : nat) :
  (w <= t)%nat -> (0 < t)%nat ->
  0 <= inject_Z (Z.of_nat w) / inject_Z (Z.of_nat t) * 100 <= 100.
Proof.
  intros Hw Ht.
  assert (Hb : 0 < inject_Z (Z.of_nat t)) by (change 0 with (inject_Z 0); rewrite <- Zlt_Qlt; lia).
  assert (Ha : 0 <= inject_Z (Z.of_nat w)) by (change 0 with (inject_Z 0); rewrite <- Zle_Qle; lia).
  assert (Hab : inject_Z (Z.of_nat w) <= inject_Z (Z.of_nat t)) by (rewrite <- Zle_Qle; lia).
  assert (0 <= inject_Z (Z.of_nat w) / inject_Z (Z.of_nat t)) by (apply Qle_shift_div_l; lra).
  assert (inject_Z (Z.of_nat w) / inject_Z (Z.of_nat t) <= 1) by (apply Qle_shift_div_r; lra).
  split; nra.
Qed.

Definition trade_le (b c : HistoricalSignal) : Prop := resultPercent b <= resultPercent c.

Lemma better_cases b c : better b c = b \/ better b c = c.
Proof. unfold better. destruct (_ <? _); auto. Qed.

Lemma better_l b c : trade_le b (better b c).
Proof. unfold better, trade_le. qcase (resultPercent b <? resultPercent c); lra. Qed.

Lemma better_r b c : trade_le c (better b c).
Proof. unfold better, trade_le. qcase (resultPercent b <? resultPercent c); lra. Qed.

(** The best trade: absent exactly when there is no closed trade, and
    otherwise a closed trade with the largest result. *)
Lemma bestOf_spec l :
  (bestOf l = None <-> l = []) /\
  (forall b, bestOf l = Some b -> In b l /\ forall c, In c l -> resultPercent c <= resultPercent b).
Proof.
  destruct l as [|x rest]; simpl; [split; [done|discriminate]|].
  split; [done|]. intros b [= <-]. split.
  - apply (fold_sel_in better better_cases).
  - intros c Hc. refine (fold_sel_bound better trade_le better_l better_r _ _ rest x c Hc);
      unfold trade_le; intros; lra.
Qed.

(** ** The custom date *)

(** The key of an instant depends only on its UTC day. *)
Lemma day_key_day_of t1 t2 : day_of t1 = day_of t2 -> day_key t1 = day_key t2.
Proof. intros E. unfold day_key, utc_ymd. by rewrite E. Qed.

Lemma day_of_date_UTC y m0 dt : day_of (date_UTC y m0 dt) = (days_from_civil (y + m0 / 12) (m0 mod 12 + 1) 1 + dt - 1)%Z.
Proof. unfold day_of, date_UTC, msPerDay. apply Z.div_mul. lia. Qed.

(** The window [[D * msPerDay, D * msPerDay + msPerDay)] is the UTC day [D]. *)
Lemma day_window D t : ((D * msPerDay <= t)%Z /\ (t < D * msPerDay + msPerDay)%Z) <-> day_of t = D.
Proof.
  unfold day_of, msPerDay. pose proof (Z.div_mod t 86400000) as Hd. pose proof (Z.mod_pos_bound t 86400000) as Hm.
  split; [intros [H1 H2]|intros <-]; lia.
Qed.

(** ** Properties of the report *)

(** Grouping by day: a record appears in the group of key [k] exactly
    when it is a record of the period whose UTC day has key [k]
    (so in exactly one group); each group lists its records newest
    first, and its PnL, wins and losses are the sum of its records'
    results and the counts of its WIN and LOSS records. *)
Theorem historyReport_groups now historyFilter customHistoryDate hist :
  (forall h k,
     (exists g, (historyReport now historyFilter customHistoryDate hist).2 !! k = Some g /\ In h (day_signals g)) <->
     In h hist /\ inPeriod now historyFilter customHistoryDate h = true /\ day_key (signalDate h) = k) /\
  (forall k g, (historyReport now historyFilter customHistoryDate hist).2 !! k = Some g ->
     Sorted (key_desc Z.leb signalDate) (day_signals g) /\
     dailyPnl g == sumQ (map resultPercent (day_signals g)) /\
     day_wins g = List.length (List.filter is_win (day_signals g)) /\
     day_losses g = List.length (List.filter is_loss (day_signals g))).
Proof.
  split.
  - intros h k. rewrite historyReport_groups_lookup. split.
    + intros (g & Hg & Hh). apply groupedByDay_members in Hg as [Hm _].
      apply Hm in Hh as [Hh ->]. apply filter_In in Hh. tauto.
    + intros (Hh & Hp & <-).
      assert (Hin : In h (List.filter (inPeriod now historyFilter customHistoryDate) hist)) by (by apply filter_In).
      destruct (groupedByDay_present _ _ Hin) as [g Hg]. exists g. split; [done|].
      by apply (proj1 (groupedByDay_members _ _ _ Hg)).
  - intros k g. rewrite historyReport_groups_lookup. intros Hg. apply groupedByDay_members in Hg. tauto.
Qed.

(** The summary: wins and losses add up to the closed trades (the
    WIN and LOSS records of the period); the win rate is a percentage,
    wins/(wins + losses) * 100 when there is a closed trade; the total
    PnL is the sum of the closed trades' results; the best trade is
    absent exactly when there is no closed trade, and otherwise a closed
    trade with the largest result. *)
Theorem historyReport_summary now historyFilter customHistoryDate hist :
  let completed := List.filter is_completed (List.filter (inPeriod now historyFilter customHistoryDate) hist) in
  let sm := (historyReport now historyFilter customHistoryDate hist).1 in
  (wins sm + losses sm = totalTrades sm)%nat /\ totalTrades sm = List.length completed /\
  0 <= winRate sm <= 100 /\
  ((0 < totalTrades sm)%nat ->
     winRate sm == inject_Z (Z.of_nat (wins sm)) / inject_Z (Z.of_nat (wins sm + losses sm)) * 100) /\
  totalPnl sm == sumQ (map resultPercent completed) /\
  (bestTrade sm = None <-> completed = []) /\
  (forall b, bestTrade sm = Some b -> In b completed /\ forall c, In c completed -> resultPercent c <= resultPercent b).
Proof.
  intros completed sm. subst sm. unfold historyReport. fold completed.
  set (filtered := List.filter (inPeriod now historyFilter customHistoryDate) hist) in *.
  pose proof (win_loss_count filtered) as Hc. fold completed in Hc.
  destruct (List.length filtered =? 0)%nat eqn:E.
  - apply Nat.eqb_eq, length_zero_iff_nil in E.
    assert (Hn : completed = []) by (subst completed; by rewrite E). rewrite Hn. simpl.
    repeat split; try lra; try lia; done.
  - simpl. destruct (bestOf_spec completed) as [Hb1 Hb2].
    split; [exact Hc|]. split; [done|]. split; [|split; [|split; [rewrite fold_add_sumQ; reflexivity|done]]].
    + destruct (0 <? List.length completed)%nat eqn:Et; [|lra].
      apply Nat.ltb_lt in Et. apply ratio_pct_bounds; [lia|done].
    + intros Ht. apply Nat.ltb_lt in Ht as Et. rewrite Et, Hc. reflexivity.
Qed.

(** A custom date picked in the calendar ([Date.UTC(year, month - 1,
    day)]) selects exactly the records resolved on that UTC day, so the
    report then has a single day group. *)
Theorem historyReport_custom_day now hist (y m0 dd : Z) :
  (forall h, inPeriod now custom (Some (date_UTC y m0 dd)) h = true <->
             day_of (signalDate h) = day_of (date_UTC y m0 dd)) /\
  (forall k1 k2 g1 g2,
     (historyReport now custom (Some (date_UTC y m0 dd)) hist).2 !! k1 = Some g1 ->
     (historyReport now custom (Some (date_UTC y m0 dd)) hist).2 !! k2 = Some g2 -> k1 = k2).
Proof.
  assert (Hday : forall h, inPeriod now custom (Some (date_UTC y m0 dd)) h = true <->
                           day_of (signalDate h) = day_of (date_UTC y m0 dd)).
  { intros h. simpl. rewrite andb_true_iff, Z.leb_le, Z.ltb_lt, day_of_date_UTC, <- day_window.
    unfold date_UTC. tauto. }
  split; [exact Hday|].
  intros k1 k2 g1 g2. rewrite !historyReport_groups_lookup, !groupedByDay_lookup.
  destruct (List.filter (on_day k1) _) as [|h1 l1] eqn:E1; [done|].
  destruct (List.filter (on_day k2) _) as [|h2 l2] eqn:E2; [done|]. intros _ _.
  assert (H1 : In h1 (List.filter (on_day k1) (List.filter (inPeriod now custom (Some (date_UTC y m0 dd))) hist)))
    by (rewrite E1; left; done).
  assert (H2 : In h2 (List.filter (on_day k2) (List.filter (inPeriod now custom (Some (date_UTC y m0 dd))) hist)))
    by (rewrite E2; left; done).
  apply filter_In in H1 as [H1 Hk1], H2 as [H2 Hk2]. apply filter_In in H1 as [_ Hp1], H2 as [_ Hp2].
  unfold on_day in Hk1, Hk2. apply bool_decide_eq_true in Hk1, Hk2. subst k1 k2.
  apply day_key_day_of. apply Hday in Hp1, Hp2. congruence.
Qed.

End Report.

Module ReportExamples.
Import Report.
Local Open Scope string_scope.

Definition demoSignal : TradingSignal :=
  mkSignal (mkParams "BTCUSDT" "BTC" "USDT" LONG 70 (99, 100) 95 [101; 102; 103; 104; 105] "" "" 10 0)
    100 0 None None.

(** A win and a partial win on 1970-01-02, a loss on 1970-01-03. *)
Definition r1 : HistoricalSignal := mkHist demoSignal WIN 5 (msPerDay + 1000)%Z.
Definition r2 : HistoricalSignal := mkHist demoSignal PARTIAL_WIN 2 (msPerDay + 5000)%Z.
Definition r3 : HistoricalSignal := mkHist demoSignal LOSS (-3) (2 * msPerDay + 10)%Z.
Definition demoHistory : list HistoricalSignal := [r1; r2; r3].

Definition demoReport := historyReport (3 * msPerDay)%Z all None demoHistory.

(** Two closed trades, one win: a 50% win rate, total PnL 5 - 3 = 2,
    the win as best trade. *)
Lemma demo_report_summary : demoReport.1 = mkSummary 2 (100 # 2) 2 (Some r1) 1 1.
Proof. vm_compute. reflexivity. Qed.

(** The day groups, newest record first. The PnL of 1970-01-02 counts
    the partial win: the two day totals add up to 7 - 3 = 4, while the
    summary's total PnL is 2. *)
Lemma demo_report_days :
  demoReport.2 !! "1970-01-02" = Some (mkDayGroup [r2; r1] 7 1 0) /\
  demoReport.2 !! "1970-01-03" = Some (mkDayGroup [r3] (-3) 0 1) /\
  totalPnl demoReport.1 = 2.
Proof. split; [|split]; vm_compute; reflexivity. Qed.

(** The calendar's 1970-01-02 keeps the two records of that day only. *)
Lemma demo_report_custom :
  option_map day_signals ((historyReport (3 * msPerDay)%Z custom (Some (date_UTC 1970 0 2)) demoHistory).2
                            !! "1970-01-02") = Some [r2; r1] /\
  (historyReport (3 * msPerDay)%Z custom (Some (date_UTC 1970 0 2)) demoHistory).2 !! "1970-01-03" = None.
Proof. split; vm_compute; reflexivity. Qed.

End ReportExamples.
