(* ===== verification/Proxy.v ===== *)
(** * Proxy: the caching, rate-limited proxy to the exchange

    The browser reaches the exchange through a small proxy, deployed in
    two flavours with the same logic: the serverless handlers of
    [src/api/] ([ticker.ts], [exchangeInfo.ts], [klines/index.ts]) over
    [src/api/_lib/proxy-helpers.ts], and the Express app of
    [src/functions/src/index.ts] over its copy
    [src/functions/src/proxy-helpers.ts].

    The helpers keep two process-wide maps: a response [cache] whose
    entries live for 15 s, and [ipRequests], a fixed-window counter of
    45 requests per minute and client address. Both are the record
    [ProxyState]; the clock reads ([Date.now()]) are arguments: [now]
    when the request arrives, [fetchedAt] when the upstream answer has
    been read (the cache is stamped after the [await]). The upstream
    answer is an input [Upstream]: the fetch throws, or an HTTP status
    with a body that parses ([Some]) or not ([None], [response.json()]
    throws). The JSON payload is an abstract type [Data].

    Theorems: a client gets exactly its first 45 requests of a window
    through; a cached response is served for 15 s and then dropped; a
    HIT always carries an upstream success for the same key fetched
    less than 15 s before, along any sequence of requests; the klines
    cache key identifies the query when the fields hold no underscore;
    the Express routes, translated from their own copy, answer as the
    serverless handlers. *)

From stdpp Require Import gmap strings list.
From Stdlib Require Import String Ascii ZArith Lia.
From S2P Require Import Prelude Calendar.
Open Scope Z_scope.

Module Proxy.

Definition CACHE_DURATION_MS : Z := 15 * 1000.
Definition RATE_LIMIT_WINDOW_MS : Z := 60 * 1000.
Definition RATE_LIMIT_MAX_REQUESTS : Z := 45.

(** The constants of the Express copy [src/functions/src/proxy-helpers.ts]. *)
Definition EXPRESS_CACHE_DURATION_MS : Z := 15 * 1000.
Definition EXPRESS_RATE_LIMIT_WINDOW_MS : Z := 60 * 1000.
Definition EXPRESS_RATE_LIMIT_MAX_REQUESTS : Z := 45.

Section WithData.
Context {Data : Type}.
(** JavaScript truthiness of a payload, read by [if (cachedData)]: the
    exchange answers with arrays and objects, which are truthy; a
    falsy payload found in the cache is fetched again. *)
Context (truthy : Data -> bool).

(** A cache entry [{ data, timestamp }]. *)
Record CacheEntry := mkCacheEntry { data : Data; timestamp : Z }.

(** A rate-limit entry [{ count, startTime }]. *)
Record RateEntry := mkRateEntry { count : Z; startTime : Z }.

Record ProxyState := mkProxyState {
  cache : gmap string CacheEntry;
  ipRequests : gmap string RateEntry
}.

(** [getFromCache(key)]: the data of a fresh entry; an expired entry is
    deleted. *)
Definition getFromCache (now : Z) (key : string) (c : gmap string CacheEntry)
    : option Data * gmap string CacheEntry :=
  match c !! key with
  | Some entry =>
      if now - timestamp entry <? CACHE_DURATION_MS then (Some (data entry), c)
      else (None, delete key c)
  | None => (None, c)
  end.

(** [setInCache(key, data)]. *)
Definition setInCache (now : Z) (key : string) (d : Data) (c : gmap string CacheEntry)
    : gmap string CacheEntry :=
  <[key := mkCacheEntry d now]> c.

(** [checkRateLimit]: whether the request may go on. [entry.count++]
    mutates the entry held by the map, so the increment is stored
    whether or not the request is then refused. *)
Definition checkRateLimit (now : Z) (ip : string) (m : gmap string RateEntry)
    : bool * gmap string RateEntry :=
  match m !! ip with
  | None => (true, <[ip := mkRateEntry 1 now]> m)
  | Some entry =>
      if RATE_LIMIT_WINDOW_MS <? now - startTime entry
      then (true, <[ip := mkRateEntry 1 now]> m)
      else
        let entry' := mkRateEntry (count entry + 1) (startTime entry) in
        (negb (RATE_LIMIT_MAX_REQUESTS <? count entry'), <[ip := entry']> m)
  end.

(** [checkRateLimit] of the Express copy
    [src/functions/src/proxy-helpers.ts]: a middleware that calls
    [next()] to let the request through or sends the 429 itself. *)
Inductive MiddlewareOutcome := CallNext | SentTooMany.

Definition checkRateLimitMiddleware (now : Z) (ip : string) (m : gmap string RateEntry)
    : MiddlewareOutcome * gmap string RateEntry :=
  match m !! ip with
  | None => (CallNext, <[ip := mkRateEntry 1 now]> m)
  | Some entry =>
      if EXPRESS_RATE_LIMIT_WINDOW_MS <? now - startTime entry
      then (CallNext, <[ip := mkRateEntry 1 now]> m)
      else
        let entry' := mkRateEntry (count entry + 1) (startTime entry) in
        if EXPRESS_RATE_LIMIT_MAX_REQUESTS <? count entry' then (SentTooMany, <[ip := entry']> m)
        else (CallNext, <[ip := entry']> m)
  end.

(** The body of a response: the upstream JSON or [{ error }]. *)
Inductive Body :=
| JsonData (d : Data)
| ErrorMsg (msg : string).

Record Response := mkResponse {
  status : Z;
  xCache : option string;
  body : Body
}.

(** What the upstream request gives: the fetch throws, or a status and
    a body ([None] when [response.json()] throws). *)
Inductive Upstream :=
| UpThrow
| UpHttp (httpStatus : Z) (json : option Data).

Definition response_ok (s : Z) : bool := (200 <=? s) && (s <=? 299).

Definition TOO_MANY : Response := mkResponse 429 None (ErrorMsg "Too Many Requests").

(** The upstream part of a route: failures are not cached; a thrown
    fetch or an unreadable body is a 502. *)
Definition fetchUpstream (cacheKey failure : string) (fetchedAt : Z) (upstream : Upstream)
    (st : ProxyState) : Response * ProxyState :=
  match upstream with
  | UpHttp s (Some d) =>
      if response_ok s
      then (mkResponse 200 (Some "MISS") (JsonData d),
            mkProxyState (setInCache fetchedAt cacheKey d (cache st)) (ipRequests st))
      else (mkResponse s None (JsonData d), st)
  | UpHttp _ None | UpThrow => (mkResponse 502 None (ErrorMsg failure), st)
  end.

(** The part shared by the three routes once the request is admitted:
    the cache lookup, then the upstream request. *)
Definition cachedFetch (cacheKey failure : string) (now fetchedAt : Z) (upstream : Upstream)
    (st : ProxyState) : Response * ProxyState :=
  let '(cachedData, c1) := getFromCache now cacheKey (cache st) in
  let st1 := mkProxyState c1 (ipRequests st) in
  match cachedData with
  | Some d => if truthy d then (mkResponse 200 (Some "HIT") (JsonData d), st1)
              else fetchUpstream cacheKey failure fetchedAt upstream st1
  | None => fetchUpstream cacheKey failure fetchedAt upstream st1
  end.

(** A serverless handler: the rate limit, then the route. *)
Definition admitted (now : Z) (ip : string) (st : ProxyState) (route : ProxyState -> Response * ProxyState)
    : Response * ProxyState :=
  let '(allowed, m) := checkRateLimit now ip (ipRequests st) in
  let st1 := mkProxyState (cache st) m in
  if allowed then route st1 else (TOO_MANY, st1).

(** The Express app: [app.use(checkRateLimit)] before the route. *)
Definition admittedExpress (now : Z) (ip : string) (st : ProxyState) (route : ProxyState -> Response * ProxyState)
    : Response * ProxyState :=
  let '(outcome, m) := checkRateLimitMiddleware now ip (ipRequests st) in
  let st1 := mkProxyState (cache st) m in
  match outcome with CallNext => route st1 | SentTooMany => (TOO_MANY, st1) end.

(** [api/ticker.ts]. *)
Definition tickerHandler (now fetchedAt : Z) (ip : string) (upstream : Upstream) (st : ProxyState)
    : Response * ProxyState :=
  admitted now ip st (cachedFetch "ticker_24hr" "Failed to fetch data from upstream API" now fetchedAt upstream).

(** [api/exchangeInfo.ts]. *)
Definition exchangeInfoHandler (now fetchedAt : Z) (ip : string) (upstream : Upstream) (st : ProxyState)
    : Response * ProxyState :=
  admitted now ip st
    (cachedFetch "exchange_info" "Failed to fetch exchange info from upstream API" now fetchedAt upstream).

(** The query of [api/klines]: a missing or empty parameter is [None]. *)
Record KlinesQuery := mkKlinesQuery {
  q_symbol : option string;
  q_interval : option string;
  q_limit : option string
}.

(** [`klines_${symbol}_${interval}_${limit || 'default'}`]. *)
Definition klinesCacheKey (symbol interval : string) (limit : option string) : string :=
  "klines_" ++ symbol ++ "_" ++ interval ++ "_" ++ default "default" limit.

(** The klines route once admitted: both parameters are required. *)
Definition klinesRoute (now fetchedAt : Z) (q : KlinesQuery) (upstream : Upstream) (st : ProxyState)
    : Response * ProxyState :=
  match q_symbol q, q_interval q with
  | Some symbol, Some interval =>
      cachedFetch (klinesCacheKey symbol interval (q_limit q))
        ("Failed to fetch kline data for " ++ symbol) now fetchedAt upstream st
  | _, _ =>
      (mkResponse 400 None (ErrorMsg "Missing required query parameters: symbol, interval"), st)
  end.

(** [api/klines/index.ts]. *)
Definition klinesHandler (now fetchedAt : Z) (ip : string) (q : KlinesQuery) (upstream : Upstream)
    (st : ProxyState) : Response * ProxyState :=
  admitted now ip st (klinesRoute now fetchedAt q upstream).

(** The client address: [x-forwarded-for], else the socket's address
    (serverless); [req.ip] (Express). *)
Definition vercelIp (xForwardedFor remoteAddress : option string) : string :=
  match xForwardedFor with
  | Some ip => ip
  | None => default "unknown" remoteAddress
  end.

Definition expressIp (reqIp : option string) : string := default "unknown" reqIp.

(** The GET routes of both deployments; anything else is not found. *)
Inductive Route :=
| RTicker
| RKlines (q : KlinesQuery)
| RExchangeInfo
| RNotFound.

Definition NOT_FOUND : Response := mkResponse 404 None (ErrorMsg "Not Found").

(** ** The Express deployment

    [src/functions/src/proxy-helpers.ts] repeats the cache helpers of
    the serverless library with its own constants, and the three routes
    of [src/functions/src/index.ts] repeat the handlers' bodies; they
    are translated here from those files. *)

(** [getFromCache] of the Express copy. *)
Definition expressGetFromCache (now : Z) (key : string) (c : gmap string CacheEntry)
    : option Data * gmap string CacheEntry :=
  match c !! key with
  | Some entry =>
      if now - timestamp entry <? EXPRESS_CACHE_DURATION_MS then (Some (data entry), c)
      else (None, delete key c)
  | None => (None, c)
  end.

(** [setInCache] of the Express copy. *)
Definition expressSetInCache (now : Z) (key : string) (d : Data) (c : gmap string CacheEntry)
    : gmap string CacheEntry :=
  <[key := mkCacheEntry d now]> c.

(** The body every Express route repeats after its own checks: the
    cache lookup and [if (cachedData)], then the [try] around the
    upstream request ([!response.ok] passes the status and body on, a
    thrown fetch or body is the route's 502). *)
Definition expressCachedRoute (cacheKey failure : string) (now fetchedAt : Z) (upstream : Upstream)
    (st : ProxyState) : Response * ProxyState :=
  let '(cachedData, c1) := expressGetFromCache now cacheKey (cache st) in
  let st1 := mkProxyState c1 (ipRequests st) in
  let viaUpstream :=
    match upstream with
    | UpHttp s (Some d) =>
        if response_ok s
        then (mkResponse 200 (Some "MISS") (JsonData d),
              mkProxyState (expressSetInCache fetchedAt cacheKey d c1) (ipRequests st))
        else (mkResponse s None (JsonData d), st1)
    | UpHttp _ None | UpThrow => (mkResponse 502 None (ErrorMsg failure), st1)
    end in
  match cachedData with
  | Some d => if truthy d then (mkResponse 200 (Some "HIT") (JsonData d), st1) else viaUpstream
  | None => viaUpstream
  end.

(** [app.get("/ticker", ...)]. *)
Definition expressTicker (now fetchedAt : Z) (upstream : Upstream) (st : ProxyState) : Response * ProxyState :=
  expressCachedRoute "ticker_24hr" "Failed to fetch data from upstream API" now fetchedAt upstream st.

(** [app.get("/klines", ...)], with its own key template. *)
Definition expressKlinesKey (symbol interval : string) (limit : option string) : string :=
  "klines_" ++ symbol ++ "_" ++ interval ++ "_" ++ default "default" limit.

Definition expressKlines (now fetchedAt : Z) (q : KlinesQuery) (upstream : Upstream) (st : ProxyState)
    : Response * ProxyState :=
  match q_symbol q, q_interval q with
  | Some symbol, Some interval =>
      expressCachedRoute (expressKlinesKey symbol interval (q_limit q))
        ("Failed to fetch kline data for " ++ symbol) now fetchedAt upstream st
  | _, _ =>
      (mkResponse 400 None (ErrorMsg "Missing required query parameters: symbol, interval"), st)
  end.

(** [app.get("/exchangeInfo", ...)]. *)
Definition expressExchangeInfo (now fetchedAt : Z) (upstream : Upstream) (st : ProxyState)
    : Response * ProxyState :=
  expressCachedRoute "exchange_info" "Failed to fetch exchange info from upstream API" now fetchedAt upstream st.

(** The Express app of [functions/src/index.ts]: [app.use(checkRateLimit)]
    runs before every route, the unknown ones included. *)
Definition expressApi (now fetchedAt : Z) (ip : string) (r : Route) (upstream : Upstream)
    (st : ProxyState) : Response * ProxyState :=
  admittedExpress now ip st (fun st1 =>
    match r with
    | RTicker => expressTicker now fetchedAt upstream st1
    | RKlines q => expressKlines now fetchedAt q upstream st1
    | RExchangeInfo => expressExchangeInfo now fetchedAt upstream st1
    | RNotFound => (NOT_FOUND, st1)
    end).

(** The serverless deployment: one handler per file; a path without a
    handler never reaches the proxy's code. *)
Definition vercelApi (now fetchedAt : Z) (ip : string) (r : Route) (upstream : Upstream)
    (st : ProxyState) : Response * ProxyState :=
  match r with
  | RTicker => tickerHandler now fetchedAt ip upstream st
  | RKlines q => klinesHandler now fetchedAt ip q upstream st
  | RExchangeInfo => exchangeInfoHandler now fetchedAt ip upstream st
  | RNotFound => (NOT_FOUND, st)
  end.

Inductive Deployment := Vercel | Express.

Definition serve (dep : Deployment) : Z -> Z -> string -> Route -> Upstream -> ProxyState -> Response * ProxyState :=
  match dep with Vercel => vercelApi | Express => expressApi end.

(** The cache key a route reads and writes. *)
Definition routeKey (r : Route) : option string :=
  match r with
  | RTicker => Some "ticker_24hr"
  | RExchangeInfo => Some "exchange_info"
  | RKlines q =>
      match q_symbol q, q_interval q with
      | Some symbol, Some interval => Some (klinesCacheKey symbol interval (q_limit q))
      | _, _ => None
      end
  | RNotFound => None
  end.

(** The requests one process serves, one after another, from empty maps;
    the log holds each request's route, the instant its upstream answer
    was read and that answer. *)
Inductive served (dep : Deployment) : ProxyState -> list (Route * Z * Upstream) -> Prop :=
| served_start : served dep (mkProxyState ∅ ∅) []
| served_next st log now fetchedAt ip r upstream resp st' :
    served dep st log -> serve dep now fetchedAt ip r upstream st = (resp, st') ->
    served dep st' (log ++ [(r, fetchedAt, upstream)]).

(** Successive requests of one client at the given instants, each
    through [checkRateLimit]: whether each went through. *)
Fixpoint rateRun (ip : string) (times : list Z) (m : gmap string RateEntry) : list bool * gmap string RateEntry :=
  match times with
  | [] => ([], m)
  | t :: ts =>
      let '(allowed, m1) := checkRateLimit t ip m in
      let '(rest, m2) := rateRun ip ts m1 in
      (allowed :: rest, m2)
  end.

(** The characters of a string contain an underscore. *)
Fixpoint has_underscore (s : string) : bool :=
  match s with
  | EmptyString => false
  | String c s' => Ascii.eqb c "_"%char || has_underscore s'
  end.

(** ** The cache *)

(** Round trip of the response cache: data stored at [t] is returned
    by a lookup at [now] while [now - t] is under 15 s; afterwards the
    lookup misses and removes the entry, leaving the other keys. *)
Theorem getFromCache_setInCache t now key d c :
  getFromCache now key (setInCache t key d c) =
  if now - t <? CACHE_DURATION_MS then (Some d, setInCache t key d c) else (None, delete key c).
Proof.
  unfold getFromCache, setInCache. rewrite lookup_insert_eq. simpl.
  destruct (now - t <? CACHE_DURATION_MS); [done|]. by rewrite delete_insert_eq.
Qed.

(** A lookup only removes entries, and a hit is fresh. *)
Lemma getFromCache_spec now key c r c1 :
  getFromCache now key c = (r, c1) ->
  (forall k e, c1 !! k = Some e -> c !! k = Some e) /\
  (forall d, r = Some d -> exists e, c !! key = Some e /\ data e = d /\ now - timestamp e < CACHE_DURATION_MS).
Proof.
  unfold getFromCache. destruct (c !! key) as [e|] eqn:E; [|intros [= <- <-]; split; [done|discriminate]].
  destruct (now - timestamp e <? CACHE_DURATION_MS) eqn:F; intros [= <- <-].
  - split; [done|]. intros d [= <-]. exists e. split; [done|]. split; [done|]. by apply Z.ltb_lt.
  - split; [|discriminate]. intros k e' Hk. destruct (decide (k = key)) as [->|Hne].
    + by rewrite lookup_delete_eq in Hk.
    + by rewrite lookup_delete_ne in Hk.
Qed.

(** The upstream part never answers HIT; it stores exactly a successful
    answer under its key. *)
Lemma fetchUpstream_spec key failure fetchedAt upstream st resp st' :
  fetchUpstream key failure fetchedAt upstream st = (resp, st') ->
  xCache resp <> Some "HIT" /\ ipRequests st' = ipRequests st /\
  (cache st' = cache st \/
   exists s d, upstream = UpHttp s (Some d) /\ response_ok s = true /\
               cache st' = <[key := mkCacheEntry d fetchedAt]> (cache st)).
Proof.
  unfold fetchUpstream. destruct upstream as [|s [d|]].
  - intros [= <- <-]. simpl. split; [discriminate|auto].
  - destruct (response_ok s) eqn:E; intros [= <- <-]; simpl; (split; [discriminate|split; [done|]]); [|auto].
    right. by exists s, d.
  - intros [= <- <-]. simpl. split; [discriminate|auto].
Qed.

(** ** The rate limiter *)

(** Inside a window the count grows by one per request, refused ones
    included, and a request goes through while the count is at most 45. *)
Lemma rateRun_window ip t0 ts : forall c m,
  m !! ip = Some (mkRateEntry c t0) -> Forall (fun t => t - t0 <= RATE_LIMIT_WINDOW_MS) ts ->
  fst (rateRun ip ts m) = map (fun i => c + 1 + Z.of_nat i <=? RATE_LIMIT_MAX_REQUESTS) (seq 0 (List.length ts)).
Proof.
  induction ts as [|t ts IH]; intros c m Hm Hts; [done|].
  inversion Hts as [|? ? Ht Hts']; subst. simpl. unfold checkRateLimit at 1. rewrite Hm. simpl.
  destruct (RATE_LIMIT_WINDOW_MS <? t - t0) eqn:W; [apply Z.ltb_lt in W; lia|].
  destruct (rateRun ip ts _) as [rest m2] eqn:R. simpl.
  assert (Hm1 : <[ip := mkRateEntry (c + 1) t0]> m !! ip = Some (mkRateEntry (c + 1) t0)) by apply lookup_insert_eq.
  pose proof (IH (c + 1) _ Hm1 Hts') as IH'. rewrite R in IH'. simpl in IH'. rewrite IH'.
  f_equal.
  - apply Bool.eq_iff_eq_true. rewrite negb_true_iff, Z.ltb_ge, Z.leb_le. lia.
  - rewrite <- seq_shift, map_map. apply map_ext. intros i. f_equal. lia.
Qed.

(** The fixed window of the rate limiter: when a client without an
    entry sends a request at [t0] and further requests no later than
    60 s after it, exactly the first 45 go through and every later one
    is refused with 429. *)
Theorem rate_limit_window ip t0 ts m :
  m !! ip = None -> Forall (fun t => t - t0 <= RATE_LIMIT_WINDOW_MS) ts ->
  fst (rateRun ip (t0 :: ts) m) = map (fun i => Z.of_nat i <? RATE_LIMIT_MAX_REQUESTS) (seq 0 (S (List.length ts))).
Proof.
  intros Hm Hts. simpl. unfold checkRateLimit at 1. rewrite Hm.
  destruct (rateRun ip ts _) as [rest m2] eqn:R. simpl.
  pose proof (rateRun_window ip t0 ts 1 _ (lookup_insert_eq m ip _) Hts) as H. rewrite R in H. simpl in H.
  rewrite H, <- seq_shift, map_map. f_equal. apply map_ext. intros i.
  apply Bool.eq_iff_eq_true. rewrite Z.leb_le, Z.ltb_lt. unfold RATE_LIMIT_MAX_REQUESTS. lia.
Qed.

(** ** The klines cache key *)

Lemma split_underscore s1 s2 r1 r2 :
  has_underscore s1 = false -> has_underscore s2 = false ->
  (s1 ++ String "_" r1 = s2 ++ String "_" r2)%string -> s1 = s2 /\ r1 = r2.
Proof.
  revert s2. induction s1 as [|a s1 IH]; intros [|b s2] H1 H2 E;
    rewrite ?append_String, ?append_Empty in E; simpl in H1, H2.
  - by injection E.
  - injection E as Eb _. subst b. by rewrite Ascii.eqb_refl in H2.
  - injection E as Ea _. subst a. by rewrite Ascii.eqb_refl in H1.
  - apply orb_false_iff in H1 as [_ H1], H2 as [_ H2]. injection E as <- E.
    destruct (IH s2 H1 H2 E) as [-> ->]. done.
Qed.

(** The klines cache key identifies the query: two queries whose
    symbol and interval hold no underscore and whose limit is not the
    literal [default] share a key only when they are the same query. *)
Theorem klinesCacheKey_inj s1 i1 l1 s2 i2 l2 :
  has_underscore s1 = false -> has_underscore s2 = false ->
  has_underscore i1 = false -> has_underscore i2 = false ->
  l1 <> Some "default" -> l2 <> Some "default" ->
  klinesCacheKey s1 i1 l1 = klinesCacheKey s2 i2 l2 -> s1 = s2 /\ i1 = i2 /\ l1 = l2.
Proof.
  intros Hs1 Hs2 Hi1 Hi2 Hl1 Hl2 E. unfold klinesCacheKey in E.
  rewrite !append_String, !append_Empty in E. do 7 apply String_inj in E.
  destruct (split_underscore _ _ _ _ Hs1 Hs2 E) as [-> E'].
  destruct (split_underscore _ _ _ _ Hi1 Hi2 E') as [-> E''].
  split; [done|]. split; [done|].
  destruct l1 as [x|], l2 as [y|]; simpl in E''; subst; done.
Qed.

(** ** Soundness of the cache along a run *)

Definition ProxyLog := list (Route * Z * Upstream).

(** Every entry of the cache holds data that an upstream success for its
    key returned at the entry's time. *)
Definition cache_sound (log : ProxyLog) (c : gmap string CacheEntry) : Prop :=
  forall k e, c !! k = Some e ->
  exists r s, In (r, timestamp e, UpHttp s (Some (data e))) log /\ routeKey r = Some k /\ response_ok s = true.

(** A HIT for route [r] at [now]: the data of an upstream success for the
    same key, read less than 15 s before. *)
Definition hit_ok (log : ProxyLog) (r : Route) (now : Z) (resp : Response) : Prop :=
  exists k d r' t s, routeKey r = Some k /\ body resp = JsonData d /\
    In (r', t, UpHttp s (Some d)) log /\ routeKey r' = Some k /\ response_ok s = true /\
    now - t < CACHE_DURATION_MS.

(** What a route does to the cache and its answers, for the request
    [(r, fetchedAt, upstream)] appended to the log. *)
Definition route_ok (log : ProxyLog) (r : Route) (now fetchedAt : Z) (upstream : Upstream)
    (R : ProxyState -> Response * ProxyState) : Prop :=
  forall st resp st', cache_sound log (cache st) -> R st = (resp, st') ->
  cache_sound (log ++ [(r, fetchedAt, upstream)]) (cache st') /\
  (xCache resp = Some "HIT" -> hit_ok log r now resp).

Lemma cache_sound_app log extra c : cache_sound log c -> cache_sound (log ++ extra) c.
Proof.
  intros H k e Hk. destruct (H k e Hk) as (r & s & Hin & Hr & Hs).
  exists r, s. split; [apply in_or_app; auto|auto].
Qed.

Lemma cache_sound_sub log c c1 :
  (forall k e, c1 !! k = Some e -> c !! k = Some e) -> cache_sound log c -> cache_sound log c1.
Proof. intros Hsub H k e Hk. exact (H k e (Hsub k e Hk)). Qed.

Lemma cache_sound_insert log r s key d t c :
  routeKey r = Some key -> response_ok s = true -> cache_sound log c ->
  cache_sound (log ++ [(r, t, UpHttp s (Some d))]) (<[key := mkCacheEntry d t]> c).
Proof.
  intros Hr Hs H k e. destruct (decide (k = key)) as [->|Hne].
  - rewrite lookup_insert_eq. intros [= <-]. exists r, s. simpl. split; [apply in_or_app; simpl; auto|auto].
  - rewrite lookup_insert_ne by done. intros Hk. exact (cache_sound_app _ _ _ H k e Hk).
Qed.

Lemma cachedFetch_ok log r key failure now fetchedAt upstream :
  routeKey r = Some key ->
  route_ok log r now fetchedAt upstream (cachedFetch key failure now fetchedAt upstream).
Proof.
  intros Hr st resp st' Hs. unfold cachedFetch.
  destruct (getFromCache now key (cache st)) as [r0 c1] eqn:G.
  destruct (getFromCache_spec _ _ _ _ _ G) as [Hsub Hhit].
  assert (Hs1 : cache_sound log c1) by exact (cache_sound_sub _ _ _ Hsub Hs).
  assert (Up : fetchUpstream key failure fetchedAt upstream (mkProxyState c1 (ipRequests st)) = (resp, st') ->
               cache_sound (log ++ [(r, fetchedAt, upstream)]) (cache st') /\
               (xCache resp = Some "HIT" -> hit_ok log r now resp)).
  { intros F. destruct (fetchUpstream_spec _ _ _ _ _ _ _ F) as (Hn & _ & [Hc|(s & d & -> & Hok & Hc)]);
      (split; [|by intros]); rewrite Hc; [by apply cache_sound_app|by apply cache_sound_insert]. }
  destruct r0 as [d|]; [|exact Up]. destruct (truthy d); [|exact Up].
  intros [= <- <-]. split; [by apply cache_sound_app|]. intros _.
  destruct (Hhit d eq_refl) as (e & He & <- & Hf). destruct (Hs _ _ He) as (r' & s & Hin & Hr' & Hok).
  exists key, (data e), r', (timestamp e), s. done.
Qed.

Lemma fixed_ok log r now fetchedAt upstream resp0 :
  xCache resp0 <> Some "HIT" -> route_ok log r now fetchedAt upstream (fun st => (resp0, st)).
Proof. intros Hn st resp st' Hs [= <- <-]. split; [by apply cache_sound_app|done]. Qed.

Lemma admitted_ok log r now fetchedAt upstream ip R :
  route_ok log r now fetchedAt upstream R ->
  route_ok log r now fetchedAt upstream (fun st => admitted now ip st R).
Proof.
  intros HR st resp st' Hs. unfold admitted.
  destruct (checkRateLimit now ip (ipRequests st)) as [[|] m].
  - apply HR. exact Hs.
  - intros [= <- <-]. split; [by apply cache_sound_app|discriminate].
Qed.

(** The two deployments limit alike: the middleware calls [next()]
    exactly when the serverless [checkRateLimit] returns [true], and
    both store the same counter. *)
Lemma checkRateLimitMiddleware_agrees now ip m :
  checkRateLimitMiddleware now ip m =
  (if fst (checkRateLimit now ip m) then CallNext else SentTooMany, snd (checkRateLimit now ip m)).
Proof.
  unfold checkRateLimitMiddleware, checkRateLimit.
  change EXPRESS_RATE_LIMIT_WINDOW_MS with RATE_LIMIT_WINDOW_MS.
  change EXPRESS_RATE_LIMIT_MAX_REQUESTS with RATE_LIMIT_MAX_REQUESTS.
  destruct (m !! ip) as [entry|]; [|reflexivity].
  destruct (RATE_LIMIT_WINDOW_MS <? now - startTime entry); [reflexivity|].
  cbn zeta. cbn [count]. destruct (RATE_LIMIT_MAX_REQUESTS <? count entry + 1); reflexivity.
Qed.

Lemma admittedExpress_admitted now ip st R : admittedExpress now ip st R = admitted now ip st R.
Proof.
  unfold admittedExpress, admitted. rewrite checkRateLimitMiddleware_agrees.
  destruct (checkRateLimit now ip (ipRequests st)) as [[|] m]; reflexivity.
Qed.

Lemma admittedExpress_ok log r now fetchedAt upstream ip R :
  route_ok log r now fetchedAt upstream R ->
  route_ok log r now fetchedAt upstream (fun st => admittedExpress now ip st R).
Proof.
  intros HR st. rewrite admittedExpress_admitted. exact (admitted_ok log r now fetchedAt upstream ip R HR st).
Qed.

(** The Express copy of the cache helpers and the repeated route body
    compute what the serverless ones do. *)
Lemma expressCachedRoute_agrees key failure now fetchedAt upstream st :
  expressCachedRoute key failure now fetchedAt upstream st = cachedFetch key failure now fetchedAt upstream st.
Proof.
  unfold expressCachedRoute, cachedFetch, expressGetFromCache, getFromCache, fetchUpstream.
  destruct (cache st !! key) as [e|]; [destruct (now - timestamp e <? 15 * 1000)|];
    cbn [fst snd]; [destruct (truthy (data e))| |];
    (destruct upstream as [|s [d|]]; [|destruct (response_ok s)|]); reflexivity.
Qed.

Lemma expressKlines_agrees now fetchedAt q upstream st :
  expressKlines now fetchedAt q upstream st = klinesRoute now fetchedAt q upstream st.
Proof.
  unfold expressKlines, klinesRoute.
  destruct (q_symbol q), (q_interval q); [apply expressCachedRoute_agrees|reflexivity..].
Qed.

Lemma route_ok_ext log r now fetchedAt upstream R R' :
  (forall st, R' st = R st) -> route_ok log r now fetchedAt upstream R -> route_ok log r now fetchedAt upstream R'.
Proof. intros E HR st resp st' Hs. rewrite E. exact (HR st resp st' Hs). Qed.

Lemma klinesRoute_ok log q now fetchedAt upstream :
  route_ok log (RKlines q) now fetchedAt upstream (klinesRoute now fetchedAt q upstream).
Proof.
  unfold klinesRoute. destruct (q_symbol q) as [symbol|] eqn:Es; [destruct (q_interval q) as [interval|] eqn:Ei|].
  - apply cachedFetch_ok. simpl. by rewrite Es, Ei.
  - by apply fixed_ok.
  - by apply fixed_ok.
Qed.

Lemma serve_ok dep log now fetchedAt ip r upstream :
  route_ok log r now fetchedAt upstream (serve dep now fetchedAt ip r upstream).
Proof.
  destruct dep; cbn [serve].
  - destruct r; unfold vercelApi, tickerHandler, klinesHandler, exchangeInfoHandler.
    + apply admitted_ok, cachedFetch_ok. done.
    + apply admitted_ok, klinesRoute_ok.
    + apply admitted_ok, cachedFetch_ok. done.
    + by apply fixed_ok.
  - unfold expressApi. apply admittedExpress_ok. destruct r.
    + eapply route_ok_ext; [intros st; apply expressCachedRoute_agrees|by apply cachedFetch_ok].
    + eapply route_ok_ext; [intros st; apply expressKlines_agrees|apply klinesRoute_ok].
    + eapply route_ok_ext; [intros st; apply expressCachedRoute_agrees|by apply cachedFetch_ok].
    + by apply fixed_ok.
Qed.

Lemma served_sound dep st log : served dep st log -> cache_sound log (cache st).
Proof.
  induction 1 as [|st log now fetchedAt ip r upstream resp st' _ IH E].
  - intros k e Hk. simpl in Hk. by rewrite lookup_empty in Hk.
  - exact (proj1 (serve_ok dep log now fetchedAt ip r upstream st resp st' IH E)).
Qed.

(** Cache soundness, for both deployments and along any sequence of
    requests: a response marked [X-Cache: HIT] carries the data of an
    upstream success for the same cache key, read less than 15 s before
    the request. *)
Theorem proxy_hit_fresh dep st log now fetchedAt ip r upstream resp st' :
  served dep st log -> serve dep now fetchedAt ip r upstream st = (resp, st') ->
  xCache resp = Some "HIT" ->
  exists k d r' t s, routeKey r = Some k /\ body resp = JsonData d /\
    In (r', t, UpHttp s (Some d)) log /\ routeKey r' = Some k /\ response_ok s = true /\
    now - t < CACHE_DURATION_MS.
Proof.
  intros Hrun E Hhit. exact (proj2 (serve_ok dep log now fetchedAt ip r upstream st resp st' (served_sound _ _ _ Hrun) E) Hhit).
Qed.

(** C39: The two deployments answer alike: on the three routes the Express
    app (its middleware and its handlers) gives the same response and
    leaves the same caches and counters as the serverless handlers. An
    unknown path differs: the serverless platform answers 404 without
    running the proxy, while the Express middleware counts it against
    the client's limit and may answer 429. *)
Theorem deployments_agree now fetchedAt ip r upstream st :
  r <> RNotFound -> expressApi now fetchedAt ip r upstream st = vercelApi now fetchedAt ip r upstream st.
Proof.
  intros Hr. unfold expressApi, vercelApi, tickerHandler, klinesHandler, exchangeInfoHandler.
  rewrite admittedExpress_admitted. unfold admitted.
  destruct r; [| | |contradiction]; destruct (checkRateLimit now ip (ipRequests st)) as [[|] m];
    first [apply expressCachedRoute_agrees|apply expressKlines_agrees|reflexivity].
Qed.

End WithData.

Arguments CacheEntry : clear implicits.
Arguments RateEntry : clear implicits.
Arguments ProxyState : clear implicits.
Arguments Body : clear implicits.
Arguments Response : clear implicits.
Arguments Upstream : clear implicits.
Arguments KlinesQuery : clear implicits.
Arguments Route : clear implicits.

End Proxy.

Module ProxyExamples.
Import Proxy.
Local Open Scope string_scope.

(** Payloads are numbers here, all of them served. *)
Definition served_payload (_ : nat) : bool := true.

Definition start : ProxyState nat := mkProxyState ∅ ∅.

(** A ticker request at t = 0 whose upstream answer (7) is read at
    t = 100, then a second one at t = 5000 while the exchange is down. *)
Definition first := serve served_payload Vercel 0 100 "10.0.0.1" RTicker (UpHttp 200 (Some 7%nat)) start.
Definition second := serve served_payload Vercel 5000 5100 "10.0.0.1" RTicker UpThrow first.2.

Lemma first_is_miss : xCache first.1 = Some "MISS".
Proof. vm_compute. reflexivity. Qed.

Lemma proxy_hit_fresh_witness :
  exists k d r' t s, routeKey RTicker = Some k /\ body second.1 = JsonData d /\
    In (r', t, UpHttp s (Some d)) [(RTicker, 100, UpHttp 200 (Some 7%nat))] /\ routeKey r' = Some k /\
    response_ok s = true /\ 5000 - t < CACHE_DURATION_MS.
Proof.
  apply (proxy_hit_fresh served_payload Vercel first.2 [(RTicker, 100, UpHttp 200 (Some 7%nat))]
           5000 5100 "10.0.0.1" RTicker UpThrow second.1 second.2).
  - change [(RTicker, 100, UpHttp 200 (Some 7%nat))] with (app [] [(RTicker, 100, UpHttp (Data:=nat) 200 (Some 7%nat))]).
    eapply served_next; [apply served_start|apply surjective_pairing].
  - apply surjective_pairing.
  - vm_compute. reflexivity.
Defined.

Lemma deployments_agree_witness :
  RTicker <> RNotFound /\
  expressApi served_payload 0 100 "10.0.0.1" RTicker (UpHttp 200 (Some 7%nat)) start =
  vercelApi served_payload 0 100 "10.0.0.1" RTicker (UpHttp 200 (Some 7%nat)) start.
Proof.
  assert (H : RTicker <> RNotFound) by discriminate.
  split; [exact H|exact (deployments_agree served_payload 0 100 "10.0.0.1" RTicker (UpHttp 200 (Some 7%nat)) start H)].
Defined.

(** An unknown path: 404 from both, but the Express app has counted it. *)
Lemma demo_unknown_path :
  status (expressApi served_payload 0 0 "10.0.0.1" RNotFound UpThrow start).1 = 404%Z /\
  (ipRequests (expressApi served_payload 0 0 "10.0.0.1" RNotFound UpThrow start).2) !! "10.0.0.1" = Some (mkRateEntry 1 0) /\
  (ipRequests (vercelApi served_payload 0 0 "10.0.0.1" RNotFound UpThrow start).2) !! "10.0.0.1" = None.
Proof. vm_compute. repeat split. Qed.

(** Forty-seven requests within one minute: the 46th and 47th are refused. *)
Lemma rate_limit_window_witness :
  fst (rateRun "10.0.0.1" (0 :: repeat 1000 46) ∅) =
  map (fun i => (Z.of_nat i <? RATE_LIMIT_MAX_REQUESTS)%Z) (seq 0 (S (List.length (repeat 1000 46)))).
Proof.
  apply rate_limit_window; [reflexivity|].
  apply List.Forall_forall. intros t Ht. apply repeat_spec in Ht. subst t. unfold RATE_LIMIT_WINDOW_MS. lia.
Defined.

Lemma rate_limit_refuses_46th :
  List.nth 45 (fst (rateRun "10.0.0.1" (0 :: repeat 1000 46) ∅)) true = false.
Proof. vm_compute. reflexivity. Qed.

Lemma klinesCacheKey_inj_witness :
  "BTCUSDT" = "BTCUSDT" /\ "1h" = "1h" /\ Some "100" = Some "100".
Proof.
  apply (klinesCacheKey_inj "BTCUSDT" "1h" (Some "100") "BTCUSDT" "1h" (Some "100"));
    try reflexivity; discriminate.
Defined.

(** Without the hypotheses of [klinesCacheKey_inj] two queries share a
    key: a literal [limit=default], and a symbol with an underscore (the
    exchange's delivery contracts are named so). *)
Lemma klinesCacheKey_collisions :
  klinesCacheKey "BTCUSDT" "1h" (Some "default") = klinesCacheKey "BTCUSDT" "1h" None /\
  klinesCacheKey "BTCUSDT_250328" "1h" None = klinesCacheKey "BTCUSDT" "250328_1h" None.
Proof. split; reflexivity. Qed.

End ProxyExamples.
