(* ===== verification/Sentiment.v ===== *)
(** * Sentiment: the market mood ([getMarketSentiment] in [src/services/sentimentService.ts])

    Once an hour the dashboard classifies the market: it takes the 30
    USDT perpetuals other than BTC and ETH with the largest 24 h quote
    volume, fetches the last four 15-minute candles of each, and counts
    the symbols whose close at the end is above (bullish) or below
    (bearish) the open at the start. A strict majority decides; a tie,
    no symbol, or a failed ticker request gives NEUTRAL.

    The ticker snapshot is the input of [Board.getAllFuturesTickers];
    the outcome of each candle request ([Promise.allSettled]) is the
    input [klinesFor]. Prices are parsed numbers ([Q]).

    Theorems: the function computes the strict-majority verdict of the
    specification over the symbols whose candles arrived (refinement),
    so failed requests only remove votes; the analysed symbols are at
    most 30 eligible ones, each with a volume at least that of every
    eligible symbol left out. *)

From stdpp Require Import gmap strings list sorting.
From Stdlib Require Import String QArith Lqa ZArith Lia.
From S2P Require Import Prelude Types Board.
Open Scope Q_scope.
Open Scope js_scope.

Module Sentiment.
Import Binance Board.

(** [MarketSentiment] of [src/types.ts]. *)
Inductive MarketSentiment := BULLISH | BEARISH | NEUTRAL.

(** A settled candle request: rejected (the fetch failed or the status
    was not ok), or fulfilled with a value; [None] stands for a value
    that is not a non-empty array. *)
Inductive KlineResult :=
| Rejected
| Fulfilled (value : option (list Kline)).

(** The symbols considered: USDT pairs except BTCUSDT and ETHUSDT. *)
Definition eligible (t : BinanceTicker) : bool :=
  ends_with "USDT" (symbol t) && negb (String.eqb (symbol t) "BTCUSDT")
  && negb (String.eqb (symbol t) "ETHUSDT").

(** [.filter(...).sort((a, b) => b.quoteVolume - a.quoteVolume).slice(0, 30)]. *)
Definition topAltcoins (allTickers : list BinanceTicker) : list BinanceTicker :=
  firstn 30 (sort_key_desc Qleb quoteVolume (List.filter eligible allTickers)).

(** The [forEach] body: the first candle's open against the last
    candle's close. *)
Definition count_step (acc : nat * nat) (result : KlineResult) : nat * nat :=
  let '(bullishCount, bearishCount) := acc in
  match result with
  | Fulfilled (Some (firstCandle :: rest)) =>
      let lastCandle := List.last (firstCandle :: rest) firstCandle in
      let open := open firstCandle in
      let close := close lastCandle in
      if open <? close then (S bullishCount, bearishCount)
      else if close <? open then (bullishCount, S bearishCount)
      else acc
  | _ => acc
  end.

(** [getMarketSentiment]. *)
Definition getMarketSentiment (tickers : option (list BinanceTicker)) (klinesFor : string -> KlineResult)
    : MarketSentiment :=
  match getAllFuturesTickers tickers with
  | None => NEUTRAL
  | Some allTickers =>
      let top := topAltcoins allTickers in
      if (List.length top =? 0)%nat then NEUTRAL else
      let klineResults := map (fun t => klinesFor (symbol t)) top in
      let '(bullishCount, bearishCount) := fold_left count_step klineResults (0%nat, 0%nat) in
      if (bearishCount <? bullishCount)%nat then BULLISH
      else if (bullishCount <? bearishCount)%nat then BEARISH
      else NEUTRAL
  end.

(** ** The specification: a strict majority of the symbols that answered *)

(** The move of a symbol whose candles arrived: (open, close). *)
Definition move (r : KlineResult) : option (Q * Q) :=
  match r with
  | Fulfilled (Some (k :: ks)) => Some (open k, close (List.last (k :: ks) k))
  | _ => None
  end.

Definition is_up (m : Q * Q) : bool := m.1 <? m.2.
Definition is_down (m : Q * Q) : bool := m.2 <? m.1.

(** Bullish or bearish by strict majority; a tie, the empty set
    included, is neutral. *)
Definition verdict (moves : list (Q * Q)) : MarketSentiment :=
  let ups := List.length (List.filter is_up moves) in
  let downs := List.length (List.filter is_down moves) in
  if (downs <? ups)%nat then BULLISH else if (ups <? downs)%nat then BEARISH else NEUTRAL.

(** One step of the loop adds the vote of one move. *)
Lemma count_step_move r b d :
  count_step (b, d) r =
  match move r with
  | Some m => (if is_up m then S b else b, if is_down m then S d else d)
  | None => (b, d)
  end.
Proof.
  destruct r as [|[[|k ks]|]]; try reflexivity.
  unfold count_step, move, is_up, is_down. cbn [fst snd].
  destruct (open k <? close (List.last (k :: ks) k)) eqn:U;
    destruct (close (List.last (k :: ks) k) <? open k) eqn:D; try reflexivity.
  qbool_to_prop. lra.
Qed.

(** The counters of the loop are the up and down votes of the moves. *)
Lemma fold_count_step rs : forall b d,
  fold_left count_step rs (b, d) =
  (b + List.length (List.filter is_up (omap move rs)), d + List.length (List.filter is_down (omap move rs)))%nat.
Proof.
  induction rs as [|r rs IH]; intros b d; [simpl; f_equal; lia|].
  assert (O : omap move (r :: rs) = match move r with Some m => m :: omap move rs | None => omap move rs end)
    by reflexivity.
  cbn [fold_left]. rewrite count_step_move, O.
  destruct (move r) as [m|]; rewrite IH; [|reflexivity].
  destruct (is_up m) eqn:U, (is_down m) eqn:D; simpl; rewrite ?U, ?D; simpl; f_equal; lia.
Qed.

(** C15: Refinement of the specification: the verdict is the strict
    majority of bullish against bearish moves among the analysed
    symbols whose candles arrived; failed or empty answers only remove
    votes, and a failed ticker request gives NEUTRAL. *)
Theorem getMarketSentiment_spec tickers klinesFor :
  getMarketSentiment tickers klinesFor =
  match getAllFuturesTickers tickers with
  | None => NEUTRAL
  | Some allTickers => verdict (omap move (map (fun t => klinesFor (symbol t)) (topAltcoins allTickers)))
  end.
Proof.
  unfold getMarketSentiment. destruct (getAllFuturesTickers tickers) as [allTickers|]; [|done].
  destruct (List.length (topAltcoins allTickers) =? 0)%nat eqn:E.
  - apply Nat.eqb_eq, length_zero_iff_nil in E. rewrite E. reflexivity.
  - rewrite fold_count_step. reflexivity.
Qed.

(** The ranking is a permutation of the eligible tickers, largest volume
    first. *)
Lemma ranking_spec l :
  Permutation (sort_key_desc Qleb quoteVolume (List.filter eligible l)) (List.filter eligible l) /\
  Sorted (key_desc Qleb quoteVolume) (sort_key_desc Qleb quoteVolume (List.filter eligible l)).
Proof. split; [apply sort_key_desc_perm|apply sort_key_desc_sorted, Qleb_total]. Qed.

Lemma Sorted_desc_prefix (l : list BinanceTicker) n a b :
  Sorted (key_desc Qleb quoteVolume) l -> In a (firstn n l) -> In b (skipn n l) ->
  quoteVolume b <= quoteVolume a.
Proof.
  intros Hs. apply Sorted_StronglySorted in Hs.
  2: { intros x y z Hxy Hyz. unfold key_desc in *. qbool_to_prop. apply Qleb_iff. lra. }
  rewrite <- (firstn_skipn n l) in Hs. intros Ha Hb.
  induction (firstn n l) as [|x pre IH]; [done|].
  inversion Hs as [|? ? Hs' Hall]; subst. destruct Ha as [<-|Ha]; [|exact (IH Hs' Ha)].
  apply List.Forall_forall with (x := b) in Hall; [|apply in_or_app; auto].
  unfold key_desc in Hall. by apply Qleb_iff.
Qed.

(** The analysed symbols are at most 30 eligible tickers (USDT pairs
    other than BTCUSDT and ETHUSDT) of the snapshot, and each has a
    quote volume at least that of every eligible ticker left out. *)
Theorem topAltcoins_spec allTickers :
  (List.length (topAltcoins allTickers) <= 30)%nat /\
  (forall t, In t (topAltcoins allTickers) -> In t allTickers /\ eligible t = true) /\
  (forall a b, In a (topAltcoins allTickers) -> In b allTickers -> eligible b = true ->
     ~ In b (topAltcoins allTickers) -> quoteVolume b <= quoteVolume a).
Proof.
  unfold topAltcoins. destruct (ranking_spec allTickers) as [P S].
  set (r := sort_key_desc Qleb quoteVolume (List.filter eligible allTickers)) in *.
  assert (Hr : forall t, In t r <-> In t allTickers /\ eligible t = true).
  { intros t. rewrite <- filter_In. split; apply Permutation_in; [exact P|symmetry; exact P]. }
  split; [apply firstn_le_length|]. split.
  - intros t Ht. apply Hr. rewrite <- (firstn_skipn 30 r). apply in_or_app. by left.
  - intros a b Ha Hb He Hn.
    assert (Hb' : In b r) by (by apply Hr).
    rewrite <- (firstn_skipn 30 r) in Hb'. apply in_app_or in Hb' as [Hb'|Hb']; [done|].
    exact (Sorted_desc_prefix r 30 a b S Ha Hb').
Qed.

End Sentiment.

Module SentimentExamples.
Import Binance Sentiment.
Local Open Scope string_scope.

Definition candle (o c : Q) : Kline := mkKline 0 o (js_max o c) (js_min o c) c 1 0 1 1 1 1.

(** BTC, the largest volume, is left out; SOL rises, XRP falls, the DOGE
    request fails and ADA rises over its four candles. *)
Definition snapshot : list BinanceTicker :=
  [mkTicker "BTCUSDT" 1 60000 900; mkTicker "SOLUSDT" 2 150 500; mkTicker "XRPUSDT" 1 2 400;
   mkTicker "DOGEUSDT" 3 1 300; mkTicker "ADAUSDT" 0 1 200; mkTicker "ADABTC" 0 1 1000].

Definition answers (s : string) : KlineResult :=
  if String.eqb s "SOLUSDT" then Fulfilled (Some [candle 100 101; candle 101 103])
  else if String.eqb s "XRPUSDT" then Fulfilled (Some [candle 2 1])
  else if String.eqb s "ADAUSDT" then Fulfilled (Some [candle 1 1; candle 1 2; candle 2 3; candle 3 (3 / 2)])
  else Rejected.

Lemma demo_top : map symbol (topAltcoins snapshot) = ["SOLUSDT"; "XRPUSDT"; "DOGEUSDT"; "ADAUSDT"].
Proof. vm_compute. reflexivity. Qed.

(** Two rises against one fall: bullish, the failed request ignored. *)
Lemma demo_sentiment : getMarketSentiment (Some snapshot) answers = BULLISH.
Proof. vm_compute. reflexivity. Qed.

Lemma demo_offline : getMarketSentiment None answers = NEUTRAL.
Proof. reflexivity. Qed.

End SentimentExamples.
