(* ===== verification/UI.v ===== *)
(** * UI: the state logic of the signal card and of its meters

    The components of [src/components/] render the engine's state; most
    of their code is markup. What they decide is modelled here:

    - [Meter]: the level of [VolatilityMeter.tsx] (the absolute 24 h
      change and the quote volume against four thresholds each, then
      the rounded mean) and the win percentage of [PieChart.tsx];
    - [Validation]: [validateSignalAnalysis] of
      [src/services/geminiValidationService.ts] as a function of whether
      the API key is set and of the outcome of the model call (its text,
      an [Error] with its message, or another thrown value); the prompt
      is text for the external model and is not modelled;
    - [Card]: the panels of [SignalCard.tsx]. The state is the card's
      [useState] cells; each click handler is a function from the state
      to the new state and the requests it starts ([getCryptoInfo],
      [validateSignalAnalysis]); the code after an [await] is a separate
      event carrying the request's outcome, so any interleaving of
      clicks, answers and the 50 s hiding timer is a sequence of events.

    Theorems: the level of the meter is between 1 and 5; the win
    percentage is a percentage; in every state reachable by any sequence
    of events at most one panel is open; and the unknown-error message
    of the validation service is kept as if it were the model's
    analysis, so the card never asks again (a defect). *)

From stdpp Require Import base list strings.
From Stdlib Require Import String Ascii QArith Lqa ZArith Lia.
From S2P Require Import Prelude Types.
Open Scope Q_scope.
Open Scope js_scope.

Module Meter.

(** [value < thresholds[i]]: an index past the end reads [undefined],
    and a comparison with it is false. *)
Definition below_at (value : Q) (thresholds : list Q) (i : nat) : bool :=
  match thresholds !! i with Some t => value <? t | None => false end.

(** [getLevel]. *)
Definition getLevel (value : Q) (thresholds : list Q) : Z :=
  if below_at value thresholds 0 then 1
  else if below_at value thresholds 1 then 2
  else if below_at value thresholds 2 then 3
  else if below_at value thresholds 3 then 4
  else 5.

Definition volatilityLevel (volatility : Q) : Z := getLevel (js_abs volatility) [2; 5; 10; 20].

Definition volumeLevel (volume : Q) : Z := getLevel volume [10000000; 50000000; 200000000; 1000000000].

(** [Math.max(1, Math.round((volatilityLevel + volumeLevel) / 2))]; the
    component renders nothing without a volume. *)
Definition finalLevel (volatility : Q) (volume : option Q) : option Z :=
  match volume with
  | None => None
  | Some v =>
      Some (Z.max 1 (js_round (inject_Z (volatilityLevel volatility + volumeLevel v) / 2)))
  end.

(** [PieChart]: [N/A] without a closed trade, else [wins / total * 100]. *)
Definition winPercentage (wins losses : Q) : option Q :=
  let total := wins + losses in
  if total =? 0 then None else Some (wins / total * 100).

(** A threshold the larger value is below, the smaller one is below too. *)
Lemma below_at_mono v w ts i : v <= w -> below_at w ts i = true -> below_at v ts i = true.
Proof.
  unfold below_at. intros Hvw. destruct (ts !! i); [|done]. intros H. qbool_to_prop. apply Qltb_iff. lra.
Qed.

Lemma getLevel_bounds v ts : (1 <= getLevel v ts <= 5)%Z.
Proof. unfold getLevel. repeat destruct (below_at _ _ _); lia. Qed.

Lemma getLevel_mono v w ts : v <= w -> (getLevel v ts <= getLevel w ts)%Z.
Proof.
  intros Hvw. unfold getLevel.
  repeat match goal with |- context [below_at ?x ts ?i] => destruct (below_at x ts i) eqn:? end; try lia;
  match goal with
  | H : below_at w ts ?i = true, H' : below_at v ts ?i = false |- _ =>
      rewrite (below_at_mono _ _ _ _ Hvw H) in H'; discriminate
  end.
Qed.

Lemma js_round_half_mono (a b : Z) : (a <= b)%Z -> (js_round (inject_Z a / 2) <= js_round (inject_Z b / 2))%Z.
Proof.
  intros H. apply js_round_mono. apply Qmult_le_compat_r; [rewrite <- Zle_Qle; exact H|compute; discriminate].
Qed.

(** The meter shows a level from 1 to 5 whenever the signal has a
    volume, and a larger move or a larger volume never shows a lower
    level. *)
Theorem finalLevel_spec vol v :
  (exists l, finalLevel vol (Some v) = Some l /\ (1 <= l <= 5)%Z) /\
  forall vol' v', js_abs vol <= js_abs vol' -> v <= v' ->
    exists l l', finalLevel vol (Some v) = Some l /\ finalLevel vol' (Some v') = Some l' /\ (l <= l')%Z.
Proof.
  unfold finalLevel, volatilityLevel, volumeLevel. split.
  - eexists. split; [reflexivity|].
    pose proof (getLevel_bounds (js_abs vol) [2; 5; 10; 20]) as B1.
    pose proof (getLevel_bounds v [10000000; 50000000; 200000000; 1000000000]) as B2.
    set (a := getLevel (js_abs vol) _) in *. set (b := getLevel v _) in *.
    pose proof (js_round_half_mono (a + b) 10 ltac:(lia)) as Hhi.
    pose proof (js_round_half_mono 2 (a + b) ltac:(lia)) as Hlo.
    change (js_round (inject_Z 10 / 2)) with 5%Z in Hhi. change (js_round (inject_Z 2 / 2)) with 1%Z in Hlo. lia.
  - intros vol' v' H1 H2. do 2 eexists. split; [reflexivity|]. split; [reflexivity|].
    apply Z.max_le_compat_l, js_round_half_mono.
    pose proof (getLevel_mono _ _ [2; 5; 10; 20] H1). pose proof (getLevel_mono _ _ [10000000; 50000000; 200000000; 1000000000] H2).
    lia.
Qed.

(** The win rate of the chart is a percentage. *)
Lemma winPercentage_bounds wins losses p :
  0 <= wins -> 0 <= losses -> winPercentage wins losses = Some p -> 0 <= p <= 100.
Proof.
  unfold winPercentage. intros Hw Hl. destruct (wins + losses =? 0) eqn:E; [discriminate|].
  intros [= <-]. apply Qeq_bool_neq in E. change (~ wins + losses == 0) in E. assert (Ht : 0 < wins + losses).
  { destruct (Qle_lt_or_eq 0 (wins + losses)) as [H|H]; [lra|exact H|]. exfalso. apply E. by symmetry. }
  assert (H0 : 0 <= wins / (wins + losses)) by (apply Qle_shift_div_l; lra).
  assert (H1 : wins / (wins + losses) <= 1) by (apply Qle_shift_div_r; lra).
  lra.
Qed.

End Meter.

Module Validation.
Local Open Scope string_scope.

(** The outcome of [ai.models.generateContent]: the response's text, a
    thrown [Error] with its message, or a thrown value that is not an
    [Error]. *)
Inductive GenOutcome :=
| GenText (text : string)
| GenError (message : string)
| GenThrown.

(** [message.includes(needle)]. *)
Fixpoint includes (needle message : string) : bool :=
  String.prefix needle message ||
  match message with
  | EmptyString => false
  | String _ rest => includes needle rest
  end.

Definition MSG_NO_KEY : string := "Erro de Configuração: A chave da API do Gemini não foi definida.".
Definition MSG_BAD_KEY : string := "Erro: A chave da API do Gemini é inválida ou expirou.".
Definition MSG_CONTACT : string := "Erro ao contatar a A.I. de validação. Por favor, tente novamente mais tarde.".
Definition MSG_UNKNOWN : string := "Ocorreu um erro desconhecido durante a validação.".

(** [validateSignalAnalysis]: it never throws; every failure is a
    message. *)
Definition validateSignalAnalysis (apiKeySet : bool) (outcome : GenOutcome) : string :=
  if negb apiKeySet then MSG_NO_KEY else
  match outcome with
  | GenText text => text
  | GenError message => if includes "API key not valid" message then MSG_BAD_KEY else MSG_CONTACT
  | GenThrown => MSG_UNKNOWN
  end.

End Validation.

Module Card.
Import Validation.
Local Open Scope string_scope.

(** [CryptoInfo] of [src/types.ts]. *)
Record CryptoInfo := mkCryptoInfo {
  ci_symbol : string; ci_name : string; ci_ath : Q; ci_atl : Q; ci_maxSupply : string;
  ci_totalSupply : string; ci_marketCap : Q; ci_launchDate : string; ci_category : string; ci_website : string
}.

(** The [useState] cells of the card that its handlers change. *)
Record CardState := mkCard {
  isMetricsVisible : bool;
  isInfoVisible : bool;
  isValidationVisible : bool;
  validationResult : option string;
  isValidationLoading : bool;
  validationError : option string;
  cryptoInfo : option CryptoInfo;
  isInfoLoading : bool
}.

Definition initialCard : CardState := mkCard false false false None false None None false.

(** The requests a handler starts. *)
Inductive Request := FetchCryptoInfo | RequestValidation.

(** The events: the three clicks, the resumption of an [await] with the
    outcome of its request, and the 50 s timer of the [useEffect]. *)
Inductive CardEvent :=
| ClickMetrics
| ClickInfo
| InfoSettled (info : option CryptoInfo)
| ClickValidation
| ValidationSettled (outcome : string + string)
| HideTimeout.

Definition set_panels (st : CardState) (m i v : bool) : CardState :=
  mkCard m i v (validationResult st) (isValidationLoading st) (validationError st) (cryptoInfo st) (isInfoLoading st).

Definition set_validation (st : CardState) (r : option string) (loading : bool) (err : option string) : CardState :=
  mkCard (isMetricsVisible st) (isInfoVisible st) (isValidationVisible st) r loading err (cryptoInfo st) (isInfoLoading st).

Definition set_info (st : CardState) (info : option CryptoInfo) (loading : bool) : CardState :=
  mkCard (isMetricsVisible st) (isInfoVisible st) (isValidationVisible st) (validationResult st)
         (isValidationLoading st) (validationError st) info loading.

(** [handleMetricsClick]. *)
Definition handleMetricsClick (st : CardState) : CardState :=
  if isMetricsVisible st then set_panels st false (isInfoVisible st) (isValidationVisible st)
  else set_panels st true false false.

(** [handleInfoClick] up to its [await]. *)
Definition handleInfoClick (st : CardState) : CardState * list Request :=
  if isInfoVisible st then (set_panels st (isMetricsVisible st) false (isValidationVisible st), [])
  else
    let st1 := set_panels st false true false in
    match cryptoInfo st with
    | None => (set_info st1 None true, [FetchCryptoInfo])
    | Some _ => (st1, [])
    end.

(** The placeholder the card shows when [getCryptoInfo] throws. *)
Definition errorInfo (symbol : string) : CryptoInfo :=
  mkCryptoInfo symbol "Erro" 0 0 "N/A" "N/A" 0 "N/A" "Não foi possível carregar os dados." "".

(** [handleInfoClick] after its [await]: the info or the placeholder,
    then [finally]. *)
Definition infoSettled (symbol : string) (st : CardState) (info : option CryptoInfo) : CardState :=
  set_info st (Some (match info with Some i => i | None => errorInfo symbol end)) false.

(** [handleValidationClick] up to its [await]. *)
Definition handleValidationClick (st : CardState) : CardState * list Request :=
  if isValidationVisible st then (set_panels st (isMetricsVisible st) (isInfoVisible st) false, [])
  else
    let st1 := set_panels st false false true in
    match validationResult st with
    | None => (set_validation st1 None true None, [RequestValidation])
    | Some _ => (st1, [])
    end.

(** [handleValidationClick] after its [await]: a result that starts
    with [Erro] is an error; a thrown error is reported with its
    message. *)
Definition validationSettled (st : CardState) (outcome : string + string) : CardState :=
  match outcome with
  | inl result =>
      if String.prefix "Erro" result then set_validation st None false (Some result)
      else set_validation st (Some result) false (validationError st)
  | inr message =>
      set_validation st (validationResult st) false (Some ("Falha na validação: " ++ message))
  end.

(** The timer closes every panel. *)
Definition hideTimeout (st : CardState) : CardState := set_panels st false false false.

Definition card_step (symbol : string) (st : CardState) (ev : CardEvent) : CardState * list Request :=
  match ev with
  | ClickMetrics => (handleMetricsClick st, [])
  | ClickInfo => handleInfoClick st
  | InfoSettled info => (infoSettled symbol st info, [])
  | ClickValidation => handleValidationClick st
  | ValidationSettled outcome => (validationSettled st outcome, [])
  | HideTimeout => (hideTimeout st, [])
  end.

(** The states of a card after any sequence of events. *)
Inductive reachable (symbol : string) : CardState -> Prop :=
| reach_init : reachable symbol initialCard
| reach_step st ev : reachable symbol st -> reachable symbol (card_step symbol st ev).1.

(** At most one panel open. *)
Definition one_panel (st : CardState) : bool :=
  negb (isMetricsVisible st && isInfoVisible st) && negb (isMetricsVisible st && isValidationVisible st)
  && negb (isInfoVisible st && isValidationVisible st).

(** A sequence of events from a state: the last state and the requests
    started, in order. *)
Fixpoint run (symbol : string) (st : CardState) (evs : list CardEvent) : CardState * list Request :=
  match evs with
  | [] => (st, [])
  | ev :: rest =>
      let '(st1, r1) := card_step symbol st ev in
      let '(st2, r2) := run symbol st1 rest in
      (st2, (r1 ++ r2)%list)
  end.

Definition answers_validation (ev : CardEvent) : bool :=
  match ev with ValidationSettled _ => true | _ => false end.

Lemma step_one_panel symbol st ev : one_panel st = true -> one_panel (card_step symbol st ev).1 = true.
Proof.
  destruct st as [m i v r vl ve ci il]. unfold one_panel.
  destruct ev; cbn -[String.prefix]; unfold handleMetricsClick, handleInfoClick, handleValidationClick,
    infoSettled, validationSettled, hideTimeout, set_panels, set_validation, set_info;
    cbn -[String.prefix]; destruct m, i, v; cbn -[String.prefix]; try done; repeat (case_match; cbn -[String.prefix]); done.
Qed.

(** Only the answer of a validation request changes a result the card
    holds, and while it holds one no click asks for another. *)
Lemma step_keeps_result symbol st ev r :
  validationResult st = Some r -> answers_validation ev = false ->
  validationResult (card_step symbol st ev).1 = Some r /\ ~ In RequestValidation (card_step symbol st ev).2.
Proof.
  destruct st as [m i v res vl ve ci il]. cbn. intros -> Hev.
  destruct ev; try discriminate Hev; cbn;
    unfold handleMetricsClick, handleInfoClick, handleValidationClick, hideTimeout, set_panels, set_info;
    cbn; repeat (case_match; cbn); (split; [done|]); cbn; intuition discriminate.
Qed.

Lemma run_keeps_result symbol evs : forall st r,
  validationResult st = Some r -> Forall (fun ev => answers_validation ev = false) evs ->
  validationResult (run symbol st evs).1 = Some r /\ ~ In RequestValidation (run symbol st evs).2.
Proof.
  induction evs as [|ev evs IH]; intros st r Hr Hf; cbn; [split; [exact Hr|intros []]|].
  inversion Hf as [|? ? Hev Hrest]; subst.
  destruct (step_keeps_result symbol st ev r Hr Hev) as [H1 H2].
  destruct (card_step symbol st ev) as [st1 r1] eqn:E. destruct (run symbol st1 evs) as [st2 r2] eqn:E2.
  cbn in *. destruct (IH st1 r H1 Hrest) as [H3 H4]. rewrite E2 in H3, H4. cbn in *.
  split; [done|]. intros Hin. apply in_app_or in Hin as [?|?]; auto.
Qed.

(** C28: The unknown-error message of [validateSignalAnalysis] does not
    start with [Erro], so the card takes it for the model's analysis:
    opening the panel requests a validation, the answer is stored as the
    result with no error, and after that no event but another answer
    changes it and no click ever requests a validation again. *)
Theorem validation_unknown_error_kept symbol st :
  isValidationVisible st = false -> validationResult st = None ->
  let st1 := (card_step symbol st ClickValidation).1 in
  let st2 := (card_step symbol st1 (ValidationSettled (inl (validateSignalAnalysis true GenThrown)))).1 in
  (card_step symbol st ClickValidation).2 = [RequestValidation] /\
  validationResult st2 = Some MSG_UNKNOWN /\ validationError st2 = None /\
  forall evs, Forall (fun ev => answers_validation ev = false) evs ->
    validationResult (run symbol st2 evs).1 = Some MSG_UNKNOWN /\ ~ In RequestValidation (run symbol st2 evs).2.
Proof.
  intros Hv Hr. cbn zeta.
  assert (E : card_step symbol st ClickValidation =
              (set_validation (set_panels st false false true) None true None, [RequestValidation]))
    by (cbn; unfold handleValidationClick; by rewrite Hv, Hr).
  rewrite E. cbn -[run]. split; [done|]. split; [done|]. split; [done|].
  intros evs Hf. by apply run_keeps_result.
Qed.

(** At most one of the three panels is open, in every state a card
    reaches from its initial state by any sequence of clicks, answers
    and timer expiries, in any interleaving. *)
Theorem reachable_one_panel symbol st : reachable symbol st -> one_panel st = true.
Proof. induction 1 as [|st ev _ IH]; [reflexivity|by apply step_one_panel]. Qed.

End Card.

Module UIExamples.
Import Meter Validation Card.
Local Open Scope string_scope.

(** A 3 % move on 60 M of volume: levels 2 and 3, shown as 3; a 12 %
    move on 300 M: level 4. *)
Lemma demo_levels : finalLevel 3 (Some 60000000) = Some 3%Z /\ finalLevel (-12) (Some 300000000) = Some 4%Z.
Proof. split; vm_compute; reflexivity. Qed.

Lemma finalLevel_spec_witness :
  js_abs 3 <= js_abs (-12) /\ 60000000 <= 300000000 /\
  exists l l', finalLevel 3 (Some 60000000) = Some l /\ finalLevel (-12) (Some 300000000) = Some l' /\ (l <= l')%Z.
Proof.
  assert (H1 : js_abs 3 <= js_abs (-12)) by (vm_compute; discriminate).
  assert (H2 : 60000000 <= 300000000) by (vm_compute; discriminate).
  split; [exact H1|]. split; [exact H2|]. exact (proj2 (finalLevel_spec 3 60000000) (-12) 300000000 H1 H2).
Defined.

(** Of the four failure messages, only the unknown-error one does not
    start with [Erro]. *)
Lemma demo_messages :
  map (String.prefix "Erro") [MSG_NO_KEY; MSG_BAD_KEY; MSG_CONTACT; MSG_UNKNOWN] = [true; true; true; false].
Proof. reflexivity. Qed.

Lemma demo_bad_key :
  validateSignalAnalysis true (GenError "[400] API key not valid. Please pass a valid API key.") = MSG_BAD_KEY.
Proof. reflexivity. Qed.

Lemma validation_unknown_error_kept_witness :
  isValidationVisible initialCard = false /\ validationResult initialCard = None /\
  validationResult (card_step "SOLUSDT" (card_step "SOLUSDT" initialCard ClickValidation).1
                      (ValidationSettled (inl (validateSignalAnalysis true GenThrown)))).1 = Some MSG_UNKNOWN.
Proof.
  split; [reflexivity|]. split; [reflexivity|].
  exact (proj1 (proj2 (validation_unknown_error_kept "SOLUSDT" initialCard eq_refl eq_refl))).
Defined.

(** Metrics, then info: the info panel replaces the metrics panel. *)
Lemma reachable_one_panel_witness :
  one_panel (card_step "SOLUSDT" (card_step "SOLUSDT" initialCard ClickMetrics).1 ClickInfo).1 = true.
Proof.
  apply (reachable_one_panel "SOLUSDT"). apply reach_step, reach_step, reach_init.
Defined.

End UIExamples.
