(* ===== verification/HistoryView.v ===== *)
(** * HistoryView: the history screen ([src/components/HistoryView.tsx])
    and the filter state of [App.tsx]

    The screen shows the report of [Report] for the period the App's
    state selects. What it decides, beyond markup, is modelled here:

    - [DateInput]: the calendar field. [handleDateInputChange] reads
      the field's text [YYYY-MM-DD] with [split('-').map(Number)] into
      [new Date(Date.UTC(year, month - 1, day))], and
      [formatDateForInput] writes a date back as
      [`${year}-${month}-${day}`] with month and day padded. A [Date]
      is [option Z] (an instant, or an Invalid Date) and a nullable
      date is [option (option Z)]; [Number] is modelled on optionally
      signed digit strings, any other text giving [NaN];
    - [Pages]: the days of the report sorted by [localeCompare],
      newest first, and the pagination: three days at first, five more
      per click on "Carregar mais", back to three when the list of days
      changes;
    - [Records]: the status label and the target badge of a record;
    - [Filters]: [handleFilterChange] and [handleDateChange] of
      [App.tsx] over the state [historyFilter] and [customHistoryDate],
      and the view's [tempDate] with its "Aplicar" button.

    Theorems: a date written to the field reads back as the same
    instant for every midnight from the year 100 on, and a year below
    100 typed in the field selects a day of the 1900s (a finding); the
    "load more" loop ends, after exactly the clicks that reveal every
    day; the App's filter is [custom] exactly when a date is set, in
    every reachable state; every partial win of the engine's history
    shows its badge of 1 to 5 targets. *)

From stdpp Require Import gmap strings list sorting.
From Stdlib Require Import String Ascii QArith ZArith Lia DecimalString DecimalZ.
From S2P Require Import Prelude Types Calendar Lifecycle LifecycleTheory LifecycleProps JsRuntime Report.
Open Scope Z_scope.

Module DateInput.
Import Report JsRuntime.

(** [s.split(c)] for a one-character separator. *)
Fixpoint split_on (c : ascii) (s : string) : list string :=
  match s with
  | EmptyString => [EmptyString]
  | String a rest =>
      let parts := split_on c rest in
      if Ascii.eqb a c then EmptyString :: parts
      else match parts with
           | p :: ps => String a p :: ps
           | [] => [String a EmptyString]
           end
  end.

(** [Number(s)]: the empty string is [0]; a (signed) decimal numeral
    its value; anything else [NaN] ([None]). *)
Definition jsNumber (s : string) : option Z :=
  match s with
  | EmptyString => Some 0
  | _ => option_map Z.of_int (NilZero.int_of_string s)
  end.

(** [MakeFullYear]: [Date.UTC] reads the years 0 to 99 as 1900 to 1999. *)
Definition makeFullYear (y : Z) : Z := if (0 <=? y) && (y <=? 99) then 1900 + y else y.

(** [TimeClip]: beyond 8.64e15 ms the date is invalid. *)
Definition timeClip (t : Z) : option Z := if Z.abs t <=? maxTime then Some t else None.

(** [new Date(Date.UTC(year, monthIndex, day))]. *)
Definition DateUTC (y m0 dt : Z) : option Z := timeClip (date_UTC (makeFullYear y) m0 dt).

(** [handleDateInputChange]: [None] is [setTempDate(null)] (an empty
    field); a missing part is [undefined], whose [Number] is [NaN]. *)
Definition parseDateInput (value : string) : option (option Z) :=
  if String.eqb value "" then None
  else
    let nums := map jsNumber (split_on "-" value) in
    let arg (i : nat) := match nums !! i with Some (Some n) => Some n | _ => None end in
    Some (match arg 0%nat, arg 1%nat, arg 2%nat with
          | Some year', Some month', Some day' => DateUTC year' (month' - 1) day'
          | _, _, _ => None
          end).

(** [formatDateForInput]: an Invalid Date prints its [NaN] fields. *)
Definition formatDateForInput (date : option (option Z)) : string :=
  match date with
  | None => ""
  | Some None => "NaN-NaN-NaN"
  | Some (Some t) =>
      let '(year', month', day') := utc_ymd t in
      (zstring year' ++ "-" ++ padStart0 2 (zstring month') ++ "-" ++ padStart0 2 (zstring day'))%string
  end.

(** [date?.getTime()]: [undefined] for [null], [NaN] for an Invalid Date. *)
Inductive TimeValue := TUndefined | TNaN | TNum (t : Z).

Definition getTime (date : option (option Z)) : TimeValue :=
  match date with None => TUndefined | Some None => TNaN | Some (Some t) => TNum t end.

(** [===] on the two values: [NaN] equals nothing. *)
Definition strictEq (a b : TimeValue) : bool :=
  match a, b with
  | TUndefined, TUndefined => true
  | TNum x, TNum y => Z.eqb x y
  | _, _ => false
  end.

(** The [disabled] attribute of "Aplicar". *)
Definition applyDisabled (currentDate tempDate : option (option Z)) : bool :=
  strictEq (getTime currentDate) (getTime tempDate).

(** ** Reading back what the field shows *)

Lemma uint_no_dash u : Forall (fun c => c <> "-"%char) (list_ascii_of_string (NilEmpty.string_of_uint u)).
Proof. induction u; simpl; constructor; auto; discriminate. Qed.

Lemma zstring_not_empty y : zstring y <> EmptyString.
Proof.
  unfold zstring, NilZero.string_of_int, NilZero.string_of_uint.
  destruct (Z.to_int y) as [u|u]; [destruct u|]; cbn; discriminate.
Qed.

Lemma zstring_no_dash y : 0 <= y -> Forall (fun c => c <> "-"%char) (list_ascii_of_string (zstring y)).
Proof.
  intros Hy. unfold zstring. destruct y as [|p|p]; [cbn; repeat constructor; discriminate| |lia].
  cbn [Z.to_int]. unfold NilZero.string_of_int, NilZero.string_of_uint.
  pose proof (uint_no_dash (Pos.to_uint p)) as H. destruct (Pos.to_uint p); [cbn; repeat constructor; discriminate|exact H..].
Qed.

(** [Number(String(y))] is [y]. *)
Lemma jsNumber_zstring y : jsNumber (zstring y) = Some y.
Proof.
  unfold jsNumber. pose proof (zstring_not_empty y) as Hne.
  destruct (zstring y) eqn:E; [done|]. rewrite <- E. unfold zstring.
  destruct (Keys.to_int_not_nil y) as [H1 H2]. rewrite NilZero.isi by assumption.
  cbn. by rewrite DecimalZ.of_to.
Qed.

Lemma split_on_app c s r :
  Forall (fun a => a <> c) (list_ascii_of_string s) -> split_on c (s ++ String c r) = s :: split_on c r.
Proof.
  induction s as [|a s IH]; intros Hs.
  - change (split_on c (String c r) = "" :: split_on c r). cbn [split_on]. by rewrite Ascii.eqb_refl.
  - change (split_on c (String a (s ++ String c r)) = String a s :: split_on c r).
    inversion Hs as [|? ? Ha Hs']; subst. cbn [split_on]. rewrite IH by exact Hs'.
    destruct (Ascii.eqb_spec a c); [contradiction|done].
Qed.

Lemma split_on_none c s : Forall (fun a => a <> c) (list_ascii_of_string s) -> split_on c s = [s].
Proof.
  induction s as [|a s IH]; intros Hs; cbn [split_on]; [done|].
  inversion Hs as [|? ? Ha Hs']; subst. rewrite IH by exact Hs'.
  destruct (Ascii.eqb_spec a c); [contradiction|done].
Qed.

(** Months and days, padded to two digits, read back and hold no dash. *)
Definition pad2_ok (k : Z) : bool :=
  match jsNumber (padStart0 2 (zstring k)) with Some v => Z.eqb v k | None => false end &&
  forallb (fun c => negb (Ascii.eqb c "-")) (list_ascii_of_string (padStart0 2 (zstring k))).

Lemma pad2_ok_1_31 : forallb pad2_ok (map (fun n => Z.of_nat n + 1) (seq 0 31)) = true.
Proof. vm_compute. reflexivity. Qed.

Lemma pad2_spec k : 1 <= k <= 31 ->
  jsNumber (padStart0 2 (zstring k)) = Some k /\ Forall (fun c => c <> "-"%char) (list_ascii_of_string (padStart0 2 (zstring k))).
Proof.
  intros Hk. pose proof pad2_ok_1_31 as H. rewrite forallb_forall in H.
  specialize (H k). unfold pad2_ok in H. rewrite andb_true_iff, forallb_forall in H.
  destruct H as [H1 H2].
  { apply in_map_iff. exists (Z.to_nat (k - 1)). split; [lia|]. apply in_seq. lia. }
  split; [destruct (jsNumber _) as [v|]; [apply Z.eqb_eq in H1; by subst|discriminate]|].
  apply List.Forall_forall. intros c Hc E. subst c. specialize (H2 _ Hc). discriminate.
Qed.

Lemma days_from_civil_day y m d : days_from_civil y m 1 + d - 1 = days_from_civil y m d.
Proof. unfold days_from_civil. lia. Qed.

Lemma append_not_empty s r : s <> EmptyString -> (s ++ r)%string <> EmptyString.
Proof. destruct s; [done|discriminate]. Qed.

(** The midnight of a civil day is [Date.UTC] of its fields. *)
Lemma date_UTC_civil t y m d :
  utc_ymd t = (y, m, d) -> t mod msPerDay = 0 -> date_UTC y (m - 1) d = t.
Proof.
  intros U Hmod. pose proof (civil_from_days_spec (day_of t)) as C.
  unfold utc_ymd in U. rewrite U in C. destruct C as (Hciv & Hm & Hd).
  unfold date_UTC. replace ((m - 1) / 12) with 0 by (symmetry; apply Z.div_small; lia).
  rewrite Z.mod_small by lia. rewrite Z.add_0_r. replace (m - 1 + 1) with m by lia.
  rewrite days_from_civil_day, Hciv. unfold day_of.
  pose proof (Z.div_mod t msPerDay ltac:(unfold msPerDay; lia)). lia.
Qed.

(** The text [formatDateForInput] writes for a date: three dash-free
    fields, the year unpadded. *)
Lemma formatDateForInput_split t y m d :
  utc_ymd t = (y, m, d) -> 0 <= y ->
  split_on "-" (formatDateForInput (Some (Some t))) =
    [zstring y; padStart0 2 (zstring m); padStart0 2 (zstring d)].
Proof.
  intros U Hy. pose proof (civil_from_days_spec (day_of t)) as C.
  unfold utc_ymd in U. rewrite U in C. destruct C as (_ & Hm & Hd).
  unfold formatDateForInput, utc_ymd. rewrite U, !append_String, !append_Empty.
  rewrite split_on_app by (apply zstring_no_dash; exact Hy).
  rewrite split_on_app by (apply (pad2_spec m); lia).
  rewrite split_on_none by (apply (pad2_spec d); lia). reflexivity.
Qed.

Lemma parse_format_midnight t y m d :
  utc_ymd t = (y, m, d) -> t mod msPerDay = 0 -> 100 <= y -> Z.abs t <= maxTime ->
  parseDateInput (formatDateForInput (Some (Some t))) = Some (Some t).
Proof.
  intros U Hmod Hy Ht. pose proof (civil_from_days_spec (day_of t)) as C.
  unfold utc_ymd in U. rewrite U in C. destruct C as (_ & Hm & Hd).
  unfold parseDateInput. rewrite formatDateForInput_split with (y := y) (m := m) (d := d) by (done || lia).
  destruct (String.eqb_spec (formatDateForInput (Some (Some t))) "") as [E|_].
  { exfalso. revert E. unfold formatDateForInput, utc_ymd. rewrite U.
    apply append_not_empty, zstring_not_empty. }
  cbn [map lookup list_lookup]. rewrite jsNumber_zstring, (proj1 (pad2_spec m ltac:(lia))), (proj1 (pad2_spec d Hd)).
  unfold DateUTC, makeFullYear. replace ((0 <=? y) && (y <=? 99)) with false
    by (symmetry; apply andb_false_iff; right; apply Z.leb_gt; lia).
  rewrite (date_UTC_civil t y m d) by done. unfold timeClip.
  by rewrite (proj2 (Z.leb_le _ _) Ht).
Qed.

(** C30: The calendar field reads back what it shows: for every
    midnight of a valid [Date] from the year 100 on, parsing the text
    [formatDateForInput] writes gives the same instant. *)
Theorem date_input_roundtrip t y m d :
  utc_ymd t = (y, m, d) -> t mod msPerDay = 0 -> 100 <= y -> Z.abs t <= maxTime ->
  parseDateInput (formatDateForInput (Some (Some t))) = Some (Some t).
Proof. apply parse_format_midnight. Qed.

End DateInput.

(** ** The records of a day: [MemoizedSignalCard] and [MemoizedSignalRow] *)

Module Records.
Import LifecycleTheory.Step LifecycleProps.TickFacts LifecycleProps.TickTheorems.

(** What a record shows beyond its raw fields: the status label and its
    colours, the colour of the result and of the direction, and the
    [{hitTargets}/5 Alvos] line when it is rendered. *)
Record RecordView := mkRecordView {
  statusText : string;
  statusBgColor : string;
  statusTextColor : string;
  resultColor : string;
  directionColor : string;
  targetsBadge : option nat
}.

(** [signal.tpsHit?.filter(Boolean).length || 0]. *)
Definition hitTargets (s : TradingSignal) : nat :=
  match tpsHit s with
  | Some l => List.length (List.filter (fun b : bool => b) l)
  | None => 0
  end.

Definition MemoizedSignalCard (signal : HistoricalSignal) : RecordView :=
  let isLong := match direction (params (hsignal signal)) with LONG => true | SHORT => false end in
  let isWin := match status signal with WIN => true | _ => false end in
  let isLoss := match status signal with LOSS => true | _ => false end in
  let isPartial := match status signal with PARTIAL_WIN => true | _ => false end in
  let resultColor := if isWin then "text-brand-green" else if isLoss then "text-brand-red" else "text-gray-300" in
  let '(statusText, statusBgColor, statusTextColor) :=
    if isWin then ("VITÓRIA", "bg-green-500/10", "text-brand-green")
    else if isLoss then ("DERROTA", "bg-red-500/10", "text-brand-red")
    else ("ATIVO", "bg-blue-500/10", "text-brand-blue") in
  let hitTargets := hitTargets (hsignal signal) in
  mkRecordView statusText statusBgColor statusTextColor resultColor
    (if isLong then "text-brand-green" else "text-brand-red")
    (if (isPartial || isWin) && (0 <? hitTargets)%nat then Some hitTargets else None).

Definition MemoizedSignalRow (signal : HistoricalSignal) : RecordView :=
  let isLong := match direction (params (hsignal signal)) with LONG => true | SHORT => false end in
  let isWin := match status signal with WIN => true | _ => false end in
  let isLoss := match status signal with LOSS => true | _ => false end in
  let isPartial := match status signal with PARTIAL_WIN => true | _ => false end in
  let resultColor := if isWin then "text-brand-green" else if isLoss then "text-brand-red" else "text-gray-300" in
  let '(statusText, statusBgColor, statusTextColor) :=
    if isWin then ("VITÓRIA", "bg-green-500/10", "text-brand-green")
    else if isLoss then ("DERROTA", "bg-red-500/10", "text-brand-red")
    else ("ATIVO", "bg-blue-500/10", "text-brand-blue") in
  let hitTargets := hitTargets (hsignal signal) in
  mkRecordView statusText statusBgColor statusTextColor resultColor
    (if isLong then "text-brand-green" else "text-brand-red")
    (if (isPartial || isWin) && (0 <? hitTargets)%nat then Some hitTargets else None).

(** The mobile card and the desktop row show the same thing. *)
Lemma card_row_agree signal : MemoizedSignalCard signal = MemoizedSignalRow signal.
Proof. reflexivity. Qed.

Lemma hitTargets_bounds s k :
  signal_typed s -> nth k (hits s) false = true -> (1 <= hitTargets s <= 5)%nat.
Proof.
  intros [_ Hl] Hk. unfold hits, hitTargets in *. destruct (tpsHit s) as [l|]; simpl in Hk; [|by destruct k].
  specialize (Hl l eq_refl). split; [|rewrite <- Hl; apply filter_length_le].
  destruct (List.length (List.filter _ l)) eqn:E; [|lia].
  apply List.length_zero_iff_nil in E. assert (Hin : In true l).
  { destruct (nth_in_or_default k l false) as [H|H]; [by rewrite Hk in H|by rewrite H in Hk]. }
  assert (In true (List.filter (fun b : bool => b) l)) by (apply filter_In; auto). by rewrite E in H.
Qed.

Section WithProvider.
Context {Market : Type} `{SignalProviderLaws Market}.

(** C25: Every partial win the engine records, after any run of
    ticks from a state with the engine's invariants, shows its target
    badge, with between one and five targets hit, on the card and on
    the row alike. *)
Theorem partial_win_badge e e' r :
  engine_inv e -> engine_typed e -> ticks e e' -> In r (historicalSignals e') -> status r = PARTIAL_WIN ->
  exists n, targetsBadge (MemoizedSignalCard r) = Some n /\ targetsBadge (MemoizedSignalRow r) = Some n /\
            (1 <= n <= 5)%nat /\ statusText (MemoizedSignalCard r) = "ATIVO".
Proof.
  intros Hi Ht Hr Hin Hs. destruct (ticks_inv_typed e e' Hi Ht Hr) as [(_ & _ & _ & Hc & _) (_ & Hh & _)].
  pose proof (proj1 (List.Forall_forall _ _) Hc r Hin) as Hok. unfold record_ok in Hok. rewrite Hs in Hok.
  destruct Hok as (_ & k & Hk & _).
  pose proof (hitTargets_bounds _ k (proj1 (List.Forall_forall _ _) Hh r Hin) Hk) as Hb.
  exists (hitTargets (hsignal r)). rewrite <- (card_row_agree r). unfold MemoizedSignalCard. rewrite Hs.
  replace (0 <? hitTargets (hsignal r))%nat with true by (symmetry; apply Nat.ltb_lt; lia).
  destruct (direction _); auto.
Qed.

End WithProvider.
End Records.

(** ** The screen's state: filter, date field and pagination *)

Module View.
Import Report JsRuntime DateInput.

Definition INITIAL_DAYS_TO_SHOW : nat := 3.
Definition DAYS_TO_LOAD_INCREMENT : nat := 5.

(** [b.localeCompare(a) <= 0]: [a] comes first when it is not before
    [b]. The day keys hold digits and dashes only, on which the
    collation of [localeCompare] is the order of the code units. *)
Definition newer_first (a b : string) : Prop := String.leb b a = true.

#[export] Instance newer_first_dec : RelDecision newer_first :=
  fun a b => decide (String.leb b a = true).

(** [Object.keys(groupedByDay).sort((a, b) => b.localeCompare(a))]. *)
Definition sortedDays (groupedByDay : gmap string DayGroup) : list string :=
  merge_sort newer_first (map_to_list groupedByDay).*1.

(** [sortedDays.slice(0, visibleDaysCount)]. *)
Definition visibleDays (days : list string) (visibleDaysCount : nat) : list string :=
  firstn visibleDaysCount days.

(** [visibleDaysCount < sortedDays.length]: the "Carregar mais" button. *)
Definition showLoadMore (days : list string) (visibleDaysCount : nat) : bool :=
  Nat.ltb visibleDaysCount (List.length days).

(** The filter buttons, in order. *)
Definition filters : list (HistoryFilter * string) :=
  [(day, "Hoje"); (week, "Esta Semana"); (month, "Este Mês"); (year, "Este Ano"); (all, "Tudo")].

(** The state the screen depends on: [historyFilter] and
    [customHistoryDate] of [App], [tempDate] and [visibleDaysCount] of
    [HistoryView], and the days of the last render ([sortedDays], the
    dependency of the pagination effect). *)
Record ViewState := mkView {
  historyFilter : HistoryFilter;
  customHistoryDate : option (option Z);
  tempDate : option (option Z);
  visibleDaysCount : nat;
  shownDays : list string
}.

Definition initialView : ViewState := mkView all None None INITIAL_DAYS_TO_SHOW [].

Definition set_filter (s : ViewState) (f : HistoryFilter) : ViewState :=
  mkView f (customHistoryDate s) (tempDate s) (visibleDaysCount s) (shownDays s).
Definition set_custom (s : ViewState) (d : option (option Z)) : ViewState :=
  mkView (historyFilter s) d (tempDate s) (visibleDaysCount s) (shownDays s).
Definition set_temp (s : ViewState) (d : option (option Z)) : ViewState :=
  mkView (historyFilter s) (customHistoryDate s) d (visibleDaysCount s) (shownDays s).
Definition set_count (s : ViewState) (n : nat) : ViewState :=
  mkView (historyFilter s) (customHistoryDate s) (tempDate s) n (shownDays s).
Definition set_days (s : ViewState) (days : list string) : ViewState :=
  mkView (historyFilter s) (customHistoryDate s) (tempDate s) (visibleDaysCount s) days.

Definition is_custom (f : HistoryFilter) : bool := match f with custom => true | _ => false end.

(** [handleFilterChange] of [App]. *)
Definition handleFilterChange (s : ViewState) (filter : HistoryFilter) : ViewState :=
  let s := if negb (is_custom filter) then set_custom s None else s in
  set_filter s filter.

(** [handleDateChange] of [App]: a [Date] object is truthy, an Invalid
    Date included. *)
Definition handleDateChange (s : ViewState) (date : option (option Z)) : ViewState :=
  handleFilterChange (set_custom s date) (match date with Some _ => custom | None => all end).

(** The effect [setTempDate(currentDate)] on a change of [currentDate]. *)
Definition syncTempDate (old : option (option Z)) (s : ViewState) : ViewState :=
  if bool_decide (old = customHistoryDate s) then s else set_temp s (customHistoryDate s).

(** The effect [setVisibleDaysCount(INITIAL_DAYS_TO_SHOW)] on a change
    of [sortedDays.join(',')]. *)
Definition resetPagination (days : list string) (s : ViewState) : ViewState :=
  let s' := set_days s days in
  if String.eqb (String.concat "," days) (String.concat "," (shownDays s)) then s'
  else set_count s' INITIAL_DAYS_TO_SHOW.

Inductive ViewEvent :=
| FilterClick (i : nat)
| DateInputChange (value : string)
| ApplyClick
| LoadMoreClick
| Render (days : list string).

Definition view_step (s : ViewState) (ev : ViewEvent) : ViewState :=
  match ev with
  | FilterClick i =>
      match filters !! i with
      | Some (key, _) => syncTempDate (customHistoryDate s) (handleFilterChange s key)
      | None => s
      end
  | DateInputChange value => set_temp s (parseDateInput value)
  | ApplyClick =>
      if applyDisabled (customHistoryDate s) (tempDate s) then s
      else syncTempDate (customHistoryDate s) (handleDateChange s (tempDate s))
  | LoadMoreClick =>
      if showLoadMore (shownDays s) (visibleDaysCount s)
      then set_count s (visibleDaysCount s + DAYS_TO_LOAD_INCREMENT)
      else s
  | Render days => resetPagination days s
  end.

(** [historyReport] reads an Invalid Date as no date: [selectedDayStart]
    is [NaN] and every comparison with it is false. *)
Definition reportDate (d : option (option Z)) : option Z := mjoin d.

(** The render of the screen at [now] for the App's history: the days
    of the report, newest first. *)
Definition render (now : Z) (hist : list HistoricalSignal) (s : ViewState) : ViewState :=
  view_step s (Render (sortedDays (historyReport now (historyFilter s) (reportDate (customHistoryDate s)) hist).2)).

Definition run_view (s : ViewState) (evs : list ViewEvent) : ViewState := fold_left view_step evs s.

End View.

Module ViewTheory.
Import Report JsRuntime DateInput View.

(** The states the screen reaches from its first render. *)
Inductive view_reachable : ViewState -> Prop :=
| view_init : view_reachable initialView
| view_next s ev : view_reachable s -> view_reachable (view_step s ev).

Lemma run_view_reachable evs : forall s, view_reachable s -> view_reachable (run_view s evs).
Proof. induction evs as [|ev evs IH]; intros s Hs; [exact Hs|apply IH; by constructor]. Qed.

(** The invariant of the screen: the filter is [custom] exactly when a
    date is set, and the pagination shows three days and a number of
    increments of five. *)
Definition view_inv (s : ViewState) : Prop :=
  (historyFilter s = custom <-> is_Some (customHistoryDate s)) /\
  exists j, visibleDaysCount s = (INITIAL_DAYS_TO_SHOW + j * DAYS_TO_LOAD_INCREMENT)%nat.

Lemma syncTempDate_fields old s :
  historyFilter (syncTempDate old s) = historyFilter s /\
  customHistoryDate (syncTempDate old s) = customHistoryDate s /\
  visibleDaysCount (syncTempDate old s) = visibleDaysCount s.
Proof. unfold syncTempDate. by case_bool_decide. Qed.

Lemma handleFilterChange_inv s key :
  key <> custom -> historyFilter (handleFilterChange s key) = key /\
                   customHistoryDate (handleFilterChange s key) = None /\
                   visibleDaysCount (handleFilterChange s key) = visibleDaysCount s.
Proof. intros Hk. unfold handleFilterChange. by destruct key. Qed.

Lemma handleDateChange_fields s date :
  historyFilter (handleDateChange s date) = match date with Some _ => custom | None => all end /\
  customHistoryDate (handleDateChange s date) = date /\
  visibleDaysCount (handleDateChange s date) = visibleDaysCount s.
Proof. unfold handleDateChange, handleFilterChange. by destruct date. Qed.

Lemma filters_not_custom i key label : filters !! i = Some (key, label) -> key <> custom.
Proof. intros Hi ->. repeat (destruct i as [|i]; try discriminate Hi). Qed.

Lemma view_step_inv s ev : view_inv s -> view_inv (view_step s ev).
Proof.
  intros [Hf [j Hj]]. destruct ev as [i|value| | |days]; cbn [view_step]; unfold view_inv.
  - destruct (filters !! i) as [[key label]|] eqn:Ei; [|split; [exact Hf|by exists j]].
    destruct (syncTempDate_fields (customHistoryDate s) (handleFilterChange s key)) as (-> & -> & ->).
    destruct (handleFilterChange_inv s key (filters_not_custom _ _ _ Ei)) as (-> & -> & ->).
    split; [split; [intros E; by destruct (filters_not_custom _ _ _ Ei E)|intros []; discriminate]|by exists j].
  - split; [exact Hf|by exists j].
  - destruct (applyDisabled _ _); [split; [exact Hf|by exists j]|].
    destruct (syncTempDate_fields (customHistoryDate s) (handleDateChange s (tempDate s))) as (-> & -> & ->).
    destruct (handleDateChange_fields s (tempDate s)) as (-> & -> & ->).
    split; [|by exists j]. destruct (tempDate s); split; try done; intros []; discriminate.
  - destruct (showLoadMore _ _); [|split; [exact Hf|by exists j]].
    split; [exact Hf|exists (S j); simpl; rewrite Hj; unfold INITIAL_DAYS_TO_SHOW, DAYS_TO_LOAD_INCREMENT; lia].
  - unfold resetPagination. destruct (String.eqb _ _); split; try exact Hf; [by exists j|by exists 0%nat].
Qed.

Lemma reachable_view_inv s : view_reachable s -> view_inv s.
Proof.
  induction 1 as [|s ev _ IH]; [|by apply view_step_inv].
  split; [split; [discriminate|intros []; discriminate]|by exists 0%nat].
Qed.


(** Clicking "Carregar mais" as long as it is shown. *)
Fixpoint loadAll (fuel : nat) (s : ViewState) : option (nat * ViewState) :=
  if showLoadMore (shownDays s) (visibleDaysCount s) then
    match fuel with
    | O => None
    | S f => option_map (fun '(k, s') => (S k, s')) (loadAll f (view_step s LoadMoreClick))
    end
  else Some (0%nat, s).

Lemma ceil_step n c : (c < n)%nat -> ((n - c + 4) / 5 = S ((n - (c + 5) + 4) / 5))%nat.
Proof.
  intros Hc. destruct (le_lt_dec (n - c) 5).
  - replace (n - (c + 5))%nat with 0%nat by lia. rewrite (Nat.div_small (0 + 4) 5) by lia. symmetry.
    apply (Nat.div_unique _ _ _ (n - c - 1)); lia.
  - replace (n - c + 4)%nat with ((n - (c + 5) + 4) + 1 * 5)%nat by lia. rewrite Nat.div_add by lia. lia.
Qed.

Lemma set_count_twice s a b : set_count (set_count s a) b = set_count s b.
Proof. by destruct s. Qed.

Lemma set_count_fields s n : shownDays (set_count s n) = shownDays s /\ visibleDaysCount (set_count s n) = n.
Proof. by destruct s. Qed.

Lemma set_count_same s : set_count s (visibleDaysCount s) = s.
Proof. by destruct s. Qed.

Lemma loadAll_spec fuel : forall s,
  (List.length (shownDays s) <= visibleDaysCount s + DAYS_TO_LOAD_INCREMENT * fuel)%nat ->
  let k := ((List.length (shownDays s) - visibleDaysCount s + 4) / 5)%nat in
  loadAll fuel s = Some (k, set_count s (visibleDaysCount s + DAYS_TO_LOAD_INCREMENT * k)%nat).
Proof.
  unfold DAYS_TO_LOAD_INCREMENT. induction fuel as [|f IH]; intros s Hn; cbv zeta; cbn [loadAll]; unfold showLoadMore.
  - destruct (Nat.ltb_spec (visibleDaysCount s) (List.length (shownDays s))); [lia|].
    rewrite (Nat.div_small _ 5) by lia. by rewrite Nat.add_0_r, set_count_same.
  - destruct (Nat.ltb_spec (visibleDaysCount s) (List.length (shownDays s))) as [Hlt|Hge].
    + cbn [view_step]. unfold showLoadMore. rewrite (proj2 (Nat.ltb_lt _ _) Hlt).
      rewrite IH by (simpl; unfold DAYS_TO_LOAD_INCREMENT; lia). cbn [option_map].
      destruct (set_count_fields s (visibleDaysCount s + DAYS_TO_LOAD_INCREMENT)) as [-> ->]. unfold DAYS_TO_LOAD_INCREMENT.
      rewrite set_count_twice, (ceil_step _ _ Hlt). do 3 f_equal. lia.
    + rewrite (Nat.div_small _ 5) by lia. by rewrite Nat.add_0_r, set_count_same.
Qed.

(** C29: In every state the history screen reaches, whatever the
    clicks, dates typed, applied dates and renders, the App's filter is
    [custom] exactly when a custom date is set, and the screen shows
    three days plus a whole number of pages of five. *)
Theorem view_filter_invariant s :
  view_reachable s ->
  (historyFilter s = custom <-> is_Some (customHistoryDate s)) /\
  exists j, visibleDaysCount s = (INITIAL_DAYS_TO_SHOW + j * DAYS_TO_LOAD_INCREMENT)%nat.
Proof. apply reachable_view_inv. Qed.

(** C31: The "Carregar mais" loop ends: clicking the button as long
    as it is shown stops, within as many clicks as there are days, after
    exactly the ceiling of (days - shown) / 5 clicks, with every day of
    the report on screen and the button gone. *)
Theorem loadAll_terminates s :
  exists k s', loadAll (List.length (shownDays s)) s = Some (k, s') /\
    k = ((List.length (shownDays s) - visibleDaysCount s + 4) / 5)%nat /\
    visibleDays (shownDays s') (visibleDaysCount s') = shownDays s /\
    showLoadMore (shownDays s') (visibleDaysCount s') = false.
Proof.
  eexists _, _. split; [apply loadAll_spec; unfold DAYS_TO_LOAD_INCREMENT; lia|]. split; [done|].
  unfold visibleDays, showLoadMore. destruct s as [f c tmp n days]; cbn [shownDays visibleDaysCount set_count].
  split; [apply firstn_all2|apply Nat.ltb_ge]; unfold DAYS_TO_LOAD_INCREMENT;
    pose proof (Nat.div_mod (List.length days - n + 4) 5 ltac:(lia)); pose proof (Nat.mod_upper_bound (List.length days - n + 4) 5 ltac:(lia)); lia.
Qed.

(** Typing the text of a midnight into the field and applying it. *)
Lemma apply_typed_date_state s t y m d :
  view_reachable s -> utc_ymd t = (y, m, d) -> t mod msPerDay = 0 -> 100 <= y -> Z.abs t <= maxTime ->
  let s' := run_view s [DateInputChange (formatDateForInput (Some (Some t))); ApplyClick] in
  historyFilter s' = custom /\ customHistoryDate s' = Some (Some t) /\ tempDate s' = Some (Some t).
Proof.
  intros Hr U Hmod Hy Ht. destruct (reachable_view_inv s Hr) as [Hf _].
  destruct s as [f c tmp n days]; cbn [historyFilter customHistoryDate] in Hf.
  cbn [run_view fold_left view_step]. rewrite (parse_format_midnight t y m d U Hmod Hy Ht).
  unfold applyDisabled, set_temp; cbn [tempDate customHistoryDate].
  destruct (strictEq (getTime c) (getTime (Some (Some t)))) eqn:E.
  - destruct c as [[t'|]|]; try discriminate E. simpl in E. apply Z.eqb_eq in E as ->. cbn. split; [by apply Hf|done].
  - unfold syncTempDate, handleDateChange, handleFilterChange. cbn. case_bool_decide; cbn; auto.
Qed.

(** The date field, the App's handlers and the report agree:
    in any state of the screen, typing the text of a midnight (from the
    year 100 on) and pressing "Aplicar" selects the [custom] filter with
    that instant, and the report then holds exactly the records resolved
    on that UTC day. *)
Theorem apply_typed_date s t y m d now :
  view_reachable s -> utc_ymd t = (y, m, d) -> t mod msPerDay = 0 -> 100 <= y -> Z.abs t <= maxTime ->
  let s' := run_view s [DateInputChange (formatDateForInput (Some (Some t))); ApplyClick] in
  historyFilter s' = custom /\ customHistoryDate s' = Some (Some t) /\
  forall h, inPeriod now (historyFilter s') (reportDate (customHistoryDate s')) h = true <->
            day_of (signalDate h) = day_of t.
Proof.
  intros Hr U Hmod Hy Ht s'. destruct (apply_typed_date_state s t y m d Hr U Hmod Hy Ht) as (Hf & Hc & _).
  fold s' in Hf, Hc. split; [exact Hf|split; [exact Hc|]]. intros h. rewrite Hf, Hc. simpl.
  rewrite andb_true_iff, Z.leb_le, Z.ltb_lt, <- day_window.
  pose proof (Z.div_mod t msPerDay ltac:(unfold msPerDay; lia)) as Hd. unfold day_of. rewrite Hmod in Hd. lia.
Qed.

End ViewTheory.

(** ** Examples *)

Module HistoryViewExamples.
Import Report JsRuntime DateInput Records View ViewTheory.
Import LifecycleProps.TickFacts LifecycleProps.TickTheorems LifecycleProps.TickExamples.

(** 2024-05-01T00:00:00Z. *)
Definition may1 : Z := 1714521600000.

Lemma demo_field_text : formatDateForInput (Some (Some may1)) = "2024-05-01".
Proof. vm_compute. reflexivity. Qed.

Lemma date_input_roundtrip_witness :
  utc_ymd may1 = (2024, 5, 1) /\ parseDateInput (formatDateForInput (Some (Some may1))) = Some (Some may1).
Proof.
  split; [vm_compute; reflexivity|].
  apply (date_input_roundtrip may1 2024 5 1); [vm_compute; reflexivity|vm_compute; reflexivity|lia|unfold maxTime, may1; lia].
Defined.

(** A two-digit year typed with its leading zeros, as the browser's
    date field sends it, selects a day of the 1900s: [0050-01-01] is
    read as 1950-01-01, and the year 1 as 1901. *)
Lemma year_0050_reads_1950 :
  parseDateInput "0050-01-01" = Some (Some (-631152000000)) /\
  utc_ymd (-631152000000) = (1950, 1, 1) /\
  parseDateInput "0001-12-31" = parseDateInput "1901-12-31".
Proof. vm_compute. repeat split; reflexivity. Qed.

(** An empty field is no date; a value past the range of [Date] is an
    Invalid Date, which [formatDateForInput] prints as [NaN] fields. *)
Lemma demo_date_edges :
  parseDateInput "" = None /\ parseDateInput "275760-09-14" = Some None /\
  formatDateForInput (Some None) = "NaN-NaN-NaN".
Proof. vm_compute. repeat split; reflexivity. Qed.

Definition demoRecord : HistoricalSignal := mkHist partialSignal PARTIAL_WIN (800 # 400) 2000.

Lemma demo_partial_in_history : In demoRecord (historicalSignals partialRun.1).
Proof. vm_compute. left. reflexivity. Qed.

Lemma partial_win_badge_witness :
  exists n, targetsBadge (MemoizedSignalCard demoRecord) = Some n /\ targetsBadge (MemoizedSignalRow demoRecord) = Some n /\
            (1 <= n <= 5)%nat /\ statusText (MemoizedSignalCard demoRecord) = "ATIVO".
Proof.
  apply (@partial_win_badge unit noSetups noSetups_laws demoEngine partialRun.1 demoRecord).
  - apply demo_engine_inv.
  - apply demo_engine_typed.
  - eapply ticks_step; [apply surjective_pairing|]. apply ticks_done.
  - apply demo_partial_in_history.
  - reflexivity.
Defined.

Lemma demo_badge : targetsBadge (MemoizedSignalCard demoRecord) = Some 2%nat.
Proof. reflexivity. Qed.

(** Pick "Hoje", type May 1st 2024 and apply it. *)
Definition demoEvents : list ViewEvent :=
  [FilterClick 0; DateInputChange "2024-05-01"; ApplyClick; Render ["2024-05-01"]].

Lemma view_filter_invariant_witness :
  let s := run_view initialView demoEvents in
  (historyFilter s = custom <-> is_Some (customHistoryDate s)) /\
  exists j, visibleDaysCount s = (INITIAL_DAYS_TO_SHOW + j * DAYS_TO_LOAD_INCREMENT)%nat.
Proof. apply view_filter_invariant, run_view_reachable, view_init. Defined.

Lemma demo_view_state :
  run_view initialView demoEvents = mkView custom (Some (Some may1)) (Some (Some may1)) 3 ["2024-05-01"].
Proof. vm_compute. reflexivity. Qed.

Lemma apply_typed_date_witness :
  let s' := run_view initialView [DateInputChange (formatDateForInput (Some (Some may1))); ApplyClick] in
  historyFilter s' = custom /\ customHistoryDate s' = Some (Some may1) /\
  forall h, inPeriod 0 (historyFilter s') (reportDate (customHistoryDate s')) h = true <->
            day_of (signalDate h) = day_of may1.
Proof.
  apply (apply_typed_date initialView may1 2024 5 1 0); [apply view_init|vm_compute; reflexivity|vm_compute; reflexivity|lia|unfold maxTime, may1; lia].
Defined.

(** Twelve days: two clicks show 3, 8, then all 12. *)
Definition twelveDays : ViewState :=
  mkView all None None 3 (map (fun n => zstring (Z.of_nat n)) (seq 0 12)).

Lemma demo_loadAll : option_map fst (loadAll 12 twelveDays) = Some 2%nat.
Proof. vm_compute. reflexivity. Qed.

End HistoryViewExamples.
