(* ===== verification/CryptoInfoService.v ===== *)
(** * CryptoInfoService: the CoinGecko lookup of [src/services/geminiService.ts]

    The info panel of a signal card asks [getCryptoInfo(symbol)]. The
    service keeps two kinds of [sessionStorage] items: the map from
    lowercased ticker symbols to CoinGecko ids ([getCoingeckoIdMap], the
    first coin of [/coins/list] winning for a shared symbol, stored as
    the JSON array of its entries) and one [CryptoInfo] object per
    symbol. Both are read back with [JSON.parse], the map through
    [new Map(...)].

    The state is the [sessionStorage] as a [gmap] of [StoredItem]s (the
    items of [Persistence]); the network is an input [Net]: the answer
    of [/coins/list] and of [/coins/{id}] for each id ([None] when the
    fetch throws, the status is not ok or the body is not JSON), and
    whether [setItem] succeeds (a full storage throws). The platform's
    [Intl.NumberFormat('en-US').format] and the [ToString] that
    [join] applies to an element that is not a string are the Section
    variables [intlFormat] and [jsToString]. [toLowerCase] and
    [toUpperCase] are modelled on ASCII letters.

    Theorems: the id map resolves a symbol to the first coin with that
    symbol; the stored map reads back as the same [Map], so the second
    lookup of a session needs no network; a stored info reads back as
    the object the first call returned (minus an undefined [name]); and
    the error paths, among them that a [setItem] failure turns answered
    requests into errors. *)

From stdpp Require Import base list strings gmap.
From Stdlib Require Import String Ascii QArith ZArith Lia.
From S2P Require Import Prelude JsRuntime Persistence.

Module CoinGecko.
Import JsRuntime Persistence.

(** [interface CoinGeckoCoin] (an entry of [/coins/list]). *)
Record CoinGeckoCoin := mkCoin { coin_id : string; coin_symbol : string; coin_name : string }.

Definition COINGECKO_ID_MAP_KEY : string := "coingeckoIdMap".

(** [toLowerCase] and [toUpperCase] on ASCII letters. *)
Definition lower_char (c : ascii) : ascii :=
  if (Nat.leb 65 (nat_of_ascii c) && Nat.leb (nat_of_ascii c) 90)%bool then ascii_of_nat (nat_of_ascii c + 32) else c.
Definition upper_char (c : ascii) : ascii :=
  if (Nat.leb 97 (nat_of_ascii c) && Nat.leb (nat_of_ascii c) 122)%bool then ascii_of_nat (nat_of_ascii c - 32) else c.
Definition toLowerCase (s : string) : string := string_of_list_ascii (map lower_char (list_ascii_of_string s)).
Definition toUpperCase (s : string) : string := string_of_list_ascii (map upper_char (list_ascii_of_string s)).

(** ** JavaScript [Map] *)

(** [SameValueZero] on the values [JSON.parse] builds: objects and
    arrays are fresh, so equal to nothing else. *)
Definition sameValueZero (a b : JsVal) : bool :=
  match a, b with
  | VUndefined, VUndefined | VNull, VNull => true
  | VBool x, VBool y => Bool.eqb x y
  | VNum x, VNum y => Qeq_bool x y
  | VStr x, VStr y => String.eqb x y
  | _, _ => false
  end.

(** A [Map]: its entries in insertion order, keys distinct. *)
Definition JsMap := list (JsVal * JsVal).

Definition map_has (m : JsMap) (k : JsVal) : bool := existsb (fun e => sameValueZero e.1 k) m.

(** [m.get(k)]: [undefined] when absent. *)
Definition map_get (m : JsMap) (k : JsVal) : JsVal :=
  match List.find (fun e => sameValueZero e.1 k) m with Some e => e.2 | None => VUndefined end.

(** [m.set(k, v)]: an existing key keeps its place. *)
Definition map_set (m : JsMap) (k v : JsVal) : JsMap :=
  if map_has m k then map (fun e => if sameValueZero e.1 k then (e.1, v) else e) m else m ++ [(k, v)].

(** [Array.from(m.entries())] as [JSON.stringify] sees it. *)
Definition entriesToJs (m : JsMap) : JsVal := VArr (map (fun e => VArr [e.1; e.2]) m).

(** An entry object's [0] and [1] properties. *)
Definition entry_kv (e : JsVal) : option (JsVal * JsVal) :=
  match e with
  | VArr l => Some (default VUndefined (l !! 0%nat), default VUndefined (l !! 1%nat))
  | VObj kvs => Some (default VUndefined (prop "0" kvs), default VUndefined (prop "1" kvs))
  | _ => None
  end.

(** One step of the [Map] constructor: [set] the entry's key and value. *)
Definition map_add_entry (acc : option JsMap) (e : JsVal) : option JsMap :=
  m ← acc; kv ← entry_kv e; Some (map_set m kv.1 kv.2).

(** [new Map(iterable)]: [null] and [undefined] give an empty map, an
    array its entries, set one after the other; a value that is not an
    entry object, or a non-iterable argument, throws a [TypeError]
    ([None]). A string iterates its characters, which are not entry
    objects. *)
Definition newMap (iterable : JsVal) : option JsMap :=
  match iterable with
  | VUndefined | VNull => Some []
  | VStr "" => Some []
  | VArr l => fold_left map_add_entry l (Some [])
  | _ => None
  end.

(** [JSON.parse(text)] without a reviver. *)
Definition noReviver (_ : string) (v : JsVal) : JsVal := v.
Definition jsonParse (j : JSON) : JsVal := parseWith noReviver j.

(** Truthiness of a value. *)
Definition truthy (v : JsVal) : bool :=
  match v with
  | VUndefined | VNull => false
  | VBool b => b
  | VNum q => negb (Qeq_bool q 0)
  | VStr s => negb (String.eqb s "")
  | VDate _ | VArr _ | VObj _ => true
  end.

(** ** The service *)

(** The [sessionStorage]. *)
Abbreviation Session := (gmap string StoredItem).

(** The answers of the network and of the storage: the coin list as
    the [CoinGeckoCoin[]] the code expects, and the JSON body of
    [/coins/{coinId}]. *)
Record Net := mkNet {
  coinsList : option (list CoinGeckoCoin);
  coinData : JsVal -> option JSON;
  setItemOk : bool
}.

(** The errors the service throws: an [Error] with its message, or the
    exception of a failing [setItem] rethrown as it is. *)
Inductive Failure := ErrMsg (msg : string) | StorageError.

Definition dq : string := String (ascii_of_nat 34) EmptyString.

Definition MSG_LIST : string := "Não foi possível carregar a lista de moedas da CoinGecko.".
Definition MSG_NOT_FOUND (symbol : string) : string :=
  "Não foi possível encontrar o ativo " ++ dq ++ symbol ++ dq ++ " na base de dados da CoinGecko.".
Definition MSG_DETAILS (symbol : string) : string :=
  "Não foi possível buscar os detalhes para " ++ symbol ++ " na CoinGecko.".

(** One iteration of the loop over [/coins/list]: a symbol already in
    the map keeps its first coin. *)
Definition idMap_step (idMap : JsMap) (coin : CoinGeckoCoin) : JsMap :=
  let k := VStr (toLowerCase (coin_symbol coin)) in
  if negb (map_has idMap k) then map_set idMap k (VStr (coin_id coin)) else idMap.

(** The id map built from [/coins/list]. *)
Definition buildIdMap (coins : list CoinGeckoCoin) : JsMap := fold_left idMap_step coins [].

(** [getCoingeckoIdMap]: the cached map, or the list fetched, mapped
    and stored. Every failure of the fetching part, the [setItem]
    included, becomes the one [Error] of the [catch]. *)
Definition getCoingeckoIdMap (net : Net) (session : Session) : (Failure + JsMap) * Session :=
  let cached :=
    match session !! COINGECKO_ID_MAP_KEY with
    | Some (ItemText (Some tree)) => newMap (jsonParse tree)
    | _ => None
    end in
  match cached with
  | Some m => (inr m, session)
  | None =>
      match coinsList net with
      | None => (inl (ErrMsg MSG_LIST), session)
      | Some coins =>
          let idMap := buildIdMap coins in
          if setItemOk net
          then (inr idMap, <[COINGECKO_ID_MAP_KEY := ItemText (stringify (entriesToJs idMap))]> session)
          else (inl (ErrMsg MSG_LIST), session)
      end
  end.

(** ** The details of a coin *)

Section Service.

(** [new Intl.NumberFormat('en-US').format(value)] and the [ToString]
    of an element of [join] that is not a string: the platform's. *)
Variable intlFormat : JsVal -> string.
Variable jsToString : JsVal -> string.

(** [v?.k] (and [v.k] on an object): the last property of the key, as
    [JSON.parse] keeps it; [undefined] on anything but an object. *)
Definition optGet (v : JsVal) (k : string) : JsVal :=
  match v with VObj kvs => default VUndefined (prop k (rev kvs)) | _ => VUndefined end.

(** [v.k]: a [TypeError] on [null] and [undefined]. *)
Definition get (v : JsVal) (k : string) : option JsVal :=
  match v with VUndefined | VNull => None | _ => Some (optGet v k) end.

(** [v ?? d]. *)
Definition nullish_or (v d : JsVal) : JsVal := match v with VUndefined | VNull => d | _ => v end.

(** [formatSupply]. *)
Definition formatSupply (value : JsVal) : string :=
  match value with VNull | VUndefined => "N/A" | _ => intlFormat value end.

(** [l.join(sep)]: [null] and [undefined] are empty. *)
Definition join (sep : string) (l : list JsVal) : string :=
  String.concat sep (map (fun v => match v with VStr s => s | VUndefined | VNull => "" | _ => jsToString v end) l).

(** [data.categories?.filter((c) => c).join(', ') || "N/A"]; a value
    without [filter] throws. *)
Definition category (data : JsVal) : option string :=
  match optGet data "categories" with
  | VUndefined | VNull => Some "N/A"
  | VArr l => let s := join ", " (List.filter truthy l) in Some (if String.eqb s "" then "N/A" else s)
  | _ => None
  end.

(** [data.links?.homepage?.find((h) => h) ?? ""]. *)
Definition website (data : JsVal) : option JsVal :=
  match optGet (optGet data "links") "homepage" with
  | VUndefined | VNull => Some (VStr "")
  | VArr l => Some (default (VStr "") (List.find truthy l))
  | _ => None
  end.

(** The [cryptoInfo] object literal; [None] is a [TypeError] of one of
    its fields. *)
Definition cryptoInfoOf (data : JsVal) : option JsVal :=
  match get data "symbol" with
  | Some (VStr sym) =>
      let md := optGet data "market_data" in
      cat ← category data;
      site ← website data;
      Some (VObj [("symbol", VStr (toUpperCase sym));
                  ("name", optGet data "name");
                  ("ath", nullish_or (optGet (optGet md "ath") "usd") (VNum 0));
                  ("atl", nullish_or (optGet (optGet md "atl") "usd") (VNum 0));
                  ("maxSupply", VStr (formatSupply (optGet md "max_supply")));
                  ("totalSupply", VStr (formatSupply (optGet md "total_supply")));
                  ("marketCap", nullish_or (optGet (optGet md "market_cap") "usd") (VNum 0));
                  ("launchDate", nullish_or (optGet data "genesis_date") (VStr "N/A"));
                  ("category", VStr cat);
                  ("website", site)])
  | _ => None
  end.

(** [getCryptoInfoWithCoinGecko]: the id lookup is outside the [try],
    so its errors pass unchanged; the fetch and the mapping are inside. *)
Definition getCryptoInfoWithCoinGecko (symbol : string) (net : Net) (session : Session)
    : (Failure + JsVal) * Session :=
  let '(r, session1) := getCoingeckoIdMap net session in
  match r with
  | inl e => (inl e, session1)
  | inr idMap =>
      let coinId := map_get idMap (VStr (toLowerCase symbol)) in
      if negb (truthy coinId) then (inl (ErrMsg (MSG_NOT_FOUND symbol)), session1)
      else match coinData net coinId ≫= fun body => cryptoInfoOf (jsonParse body) with
           | None => (inl (ErrMsg (MSG_DETAILS symbol)), session1)
           | Some info => (inr info, session1)
           end
  end.

Definition cacheKey (symbol : string) : string := "crypto_info_coingecko_" ++ toLowerCase symbol.

(** [getCryptoInfo]: a stored item is returned as [JSON.parse] reads
    it, without a check of its shape; otherwise the info is fetched and
    stored, a failing [setItem] failing the call. *)
Definition getCryptoInfo (symbol : string) (net : Net) (session : Session) : (Failure + JsVal) * Session :=
  match session !! cacheKey symbol with
  | Some (ItemText (Some tree)) => (inr (jsonParse tree), session)
  | _ =>
      let '(r, session1) := getCryptoInfoWithCoinGecko symbol net session in
      match r with
      | inl e => (inl e, session1)
      | inr info =>
          if setItemOk net then (inr info, <[cacheKey symbol := ItemText (stringify info)]> session1)
          else (inl StorageError, session1)
      end
  end.

End Service.

(** ** [JSON.parse] then [JSON.stringify] *)

(** Induction on JSON trees through their lists. *)
Definition JSON_ind' (P : JSON -> Prop)
    (Hnull : P JNull) (Hbool : forall b, P (JBool b)) (Hnum : forall q, P (JNum q))
    (Hstr : forall s, P (JStr s)) (Harr : forall l, Forall P l -> P (JArr l))
    (Hobj : forall kvs, Forall (fun kv => P kv.2) kvs -> P (JObj kvs)) : forall j, P j :=
  fix go j :=
    match j with
    | JNull => Hnull
    | JBool b => Hbool b
    | JNum q => Hnum q
    | JStr s => Hstr s
    | JArr l => Harr l ((fix goL l : Forall P l :=
                           match l with [] => @List.Forall_nil _ _ | x :: r => @List.Forall_cons _ _ x r (go x) (goL r) end) l)
    | JObj kvs => Hobj kvs ((fix goO kvs : Forall (fun kv => P kv.2) kvs :=
                               match kvs with
                               | [] => @List.Forall_nil _ _
                               | kv :: r => @List.Forall_cons _ (fun kv => P kv.2) kv r (go kv.2) (goO r)
                               end) kvs)
    end.

Lemma internalize_arr_id l i :
  (fix elems (i : nat) (l : list JSON) : list JsVal :=
     match l with [] => [] | x :: rest => noReviver (index_key i) (internalize noReviver x) :: elems (S i) rest end) i l
  = map (internalize noReviver) l.
Proof. revert i. induction l as [|x l IH]; intros i; [done|]. simpl. by rewrite IH. Qed.

Lemma internalize_obj_id kvs :
  (fix props (kvs : list (string * JSON)) : list (string * JsVal) :=
     match kvs with
     | [] => []
     | (k, x) :: rest => match noReviver k (internalize noReviver x) with VUndefined => props rest | v => (k, v) :: props rest end
     end) kvs
  = map (fun kv => (kv.1, internalize noReviver kv.2)) kvs.
Proof.
  induction kvs as [|[k x] kvs IH]; [done|]. simpl. rewrite IH. unfold noReviver.
  destruct x; simpl; try done.
Qed.

(** A value [JSON.parse] builds is written back as its own text. *)
Lemma stringify_parsed j : stringify (internalize noReviver j) = Some j.
Proof.
  induction j as [| | | |l Hl|kvs Hkvs] using JSON_ind'; try done.
  - simpl. rewrite internalize_arr_id, map_map. do 2 f_equal.
    induction Hl as [|x l Hx _ IH]; [done|]. simpl. by rewrite Hx, IH.
  - simpl. rewrite internalize_obj_id. do 2 f_equal.
    induction Hkvs as [|[k x] kvs Hx _ IH]; [done|]. simpl in *. rewrite Hx.
    destruct x; simpl in *; f_equal; exact IH.
Qed.

(** ** Maps *)

Lemma sameValueZero_str a b : sameValueZero (VStr a) (VStr b) = String.eqb a b.
Proof. reflexivity. Qed.

Lemma find_app {A} (f : A -> bool) l x :
  List.find f (l ++ [x]) = match List.find f l with Some e => Some e | None => if f x then Some x else None end.
Proof. induction l as [|y l IH]; simpl; [done|]. by destruct (f y). Qed.

Lemma map_has_app m k v k' : map_has (m ++ [(k, v)]) k' = map_has m k' || sameValueZero k k'.
Proof. unfold map_has. rewrite existsb_app. simpl. by rewrite orb_false_r. Qed.

Lemma map_get_app m k v k' :
  map_get (m ++ [(k, v)]) k' = if map_has m k' then map_get m k' else if sameValueZero k k' then v else VUndefined.
Proof.
  unfold map_get, map_has. rewrite find_app. simpl.
  destruct (List.find _ m) as [e|] eqn:E.
  - apply find_some in E as [Hin He]. rewrite (proj2 (existsb_exists _ _)); [done|]. by exists e.
  - replace (existsb _ m) with false; [by destruct (sameValueZero k k')|].
    symmetry. apply Bool.not_true_iff_false. intros Hx. apply existsb_exists in Hx as (e & Hin & He).
    by rewrite (find_none _ _ E e Hin) in He.
Qed.

Lemma map_get_absent m k : map_has m k = false -> map_get m k = VUndefined.
Proof.
  unfold map_get, map_has. intros H. destruct (List.find _ m) as [e|] eqn:E; [|done].
  apply find_some in E as [Hin He]. assert (existsb (fun e => sameValueZero e.1 k) m = true) as C
    by (apply existsb_exists; by exists e). by rewrite C in H.
Qed.

Lemma map_set_absent m k v : map_has m k = false -> map_set m k v = m ++ [(k, v)].
Proof. unfold map_set. by intros ->. Qed.

Lemma idMap_step_unfold m c :
  idMap_step m c = let k := VStr (toLowerCase (coin_symbol c)) in
                   if negb (map_has m k) then map_set m k (VStr (coin_id c)) else m.
Proof. reflexivity. Qed.

(** The first coin whose lowercased symbol is [s]. *)
Definition firstCoin (s : string) (coins : list CoinGeckoCoin) : option CoinGeckoCoin :=
  List.find (fun c => String.eqb (toLowerCase (coin_symbol c)) s) coins.

Lemma buildIdMap_get_aux coins : forall acc s,
  map_get (fold_left idMap_step coins acc) (VStr s) =
  if map_has acc (VStr s) then map_get acc (VStr s)
  else match firstCoin s coins with Some c => VStr (coin_id c) | None => VUndefined end.
Proof.
  induction coins as [|c coins IH]; intros acc s; simpl.
  - destruct (map_has acc (VStr s)) eqn:H; [done|]. by apply map_get_absent.
  - rewrite IH, idMap_step_unfold. unfold firstCoin. simpl. fold (firstCoin s coins).
    destruct (map_has acc (VStr (toLowerCase (coin_symbol c)))) eqn:Hk; simpl.
    + destruct (String.eqb_spec (toLowerCase (coin_symbol c)) s) as [<-|_]; [by rewrite Hk|done].
    + rewrite map_set_absent by exact Hk. rewrite map_has_app, map_get_app, sameValueZero_str.
      destruct (map_has acc (VStr s)); [done|]. simpl. by destruct (String.eqb _ s).
Qed.

(** Maps whose keys and values are strings, keys distinct. *)
Definition str_entries (l : list (string * string)) : JsMap := map (fun e => (VStr e.1, VStr e.2)) l.

Lemma map_has_str l k : map_has (str_entries l) (VStr k) = false -> k ∉ l.*1.
Proof.
  intros H Hin. apply list_elem_of_fmap in Hin as ([k' v] & -> & Hin). simpl in H.
  assert (map_has (str_entries l) (VStr k') = true) as C; [|by rewrite C in H].
  apply existsb_exists. exists (VStr k', VStr v). split; [|apply String.eqb_refl].
  apply in_map_iff. exists (k', v). split; [done|]. by apply list_elem_of_In.
Qed.

Lemma buildIdMap_str coins : exists l, buildIdMap coins = str_entries l /\ NoDup l.*1.
Proof.
  unfold buildIdMap. cut (forall l0, NoDup l0.*1 -> exists l,
    fold_left idMap_step coins (str_entries l0)
    = str_entries l /\ NoDup l.*1); [intros H; apply (H []); constructor|].
  induction coins as [|c coins IH]; intros l0 Hl0; simpl; [by exists l0|]. rewrite idMap_step_unfold; cbv zeta.
  destruct (map_has (str_entries l0) (VStr (toLowerCase (coin_symbol c)))) eqn:Hk; simpl; [by apply IH|].
  rewrite map_set_absent by exact Hk.
  replace (str_entries l0 ++ [(VStr (toLowerCase (coin_symbol c)), VStr (coin_id c))])
    with (str_entries (l0 ++ [(toLowerCase (coin_symbol c), coin_id c)])) by (unfold str_entries; by rewrite map_app).
  apply IH. rewrite fmap_app. apply NoDup_app. split; [done|split; [|apply NoDup_singleton]].
  intros x Hx Hy. apply list_elem_of_singleton in Hy. subst x. by apply (map_has_str _ _ Hk).
Qed.

Lemma newMap_fold l : forall l0, NoDup (l0 ++ l).*1 ->
  fold_left map_add_entry (map (fun e => VArr [VStr e.1; VStr e.2]) l) (Some (str_entries l0)) = Some (str_entries (l0 ++ l)).
Proof.
  induction l as [|[k v] l IH]; intros l0 Hl0; simpl; [by rewrite app_nil_r|].
  unfold map_add_entry at 1. simpl. rewrite map_set_absent.
  - replace (str_entries l0 ++ [(VStr k, VStr v)]) with (str_entries (l0 ++ [(k, v)])) by (unfold str_entries; by rewrite map_app).
    replace (l0 ++ (k, v) :: l) with ((l0 ++ [(k, v)]) ++ l) by (by rewrite <- app_assoc).
    apply IH. by rewrite <- app_assoc.
  - apply Bool.not_true_iff_false. intros Hx. apply existsb_exists in Hx as (e & Hin & He).
    apply in_map_iff in Hin as ([k' v'] & <- & Hin). simpl in He. apply String.eqb_eq in He. subst k'.
    rewrite fmap_app in Hl0. apply NoDup_app in Hl0 as (_ & Hd & _). apply (Hd k).
    + apply list_elem_of_fmap. exists (k, v'). split; [done|]. by apply list_elem_of_In.
    + by left.
Qed.

(** [new Map] on the entries of a string map gives it back. *)
Lemma newMap_str_entries l : NoDup l.*1 ->
  newMap (VArr (map (fun e => VArr [VStr e.1; VStr e.2]) l)) = Some (str_entries l).
Proof. intros Hl. exact (newMap_fold l [] Hl). Qed.

(** The stored text of a string map, parsed. *)
Lemma jsonParse_entries l :
  stringify (entriesToJs (str_entries l)) = Some (JArr (map (fun e => JArr [JStr e.1; JStr e.2]) l)) /\
  jsonParse (JArr (map (fun e => JArr [JStr e.1; JStr e.2]) l)) = VArr (map (fun e => VArr [VStr e.1; VStr e.2]) l).
Proof.
  split.
  - unfold entriesToJs, str_entries. simpl. by rewrite !map_map.
  - unfold jsonParse, parseWith, noReviver. simpl. rewrite internalize_arr_id, map_map. done.
Qed.

(** ** Values [JSON.parse] builds *)

Definition parsed (v : JsVal) : Prop := exists j, v = internalize noReviver j.

(** An object written then read back loses its undefined properties. *)
Definition dropUndefined (v : JsVal) : JsVal :=
  match v with VObj kvs => VObj (List.filter defined_prop kvs) | _ => v end.

Lemma prop_In k kvs v : prop k kvs = Some v -> In (k, v) kvs.
Proof.
  induction kvs as [|[k' x] kvs IH]; simpl; [done|].
  destruct (String.eqb_spec k k') as [<-|_]; [intros [= <-]; by left|intros H; right; auto].
Qed.

Lemma parsed_leaf_str s : parsed (VStr s).
Proof. by exists (JStr s). Qed.

Lemma parsed_leaf_num q : parsed (VNum q).
Proof. by exists (JNum q). Qed.

Lemma internalize_defined j : internalize noReviver j <> VUndefined.
Proof. by destruct j. Qed.

Lemma optGet_parsed v k : parsed v -> optGet v k = VUndefined \/ parsed (optGet v k).
Proof.
  intros [j ->]. destruct j as [| | | | |kvs]; try (left; reflexivity).
  simpl. rewrite internalize_obj_id. destruct (prop k _) as [x|] eqn:E; [right|by left]. simpl.
  apply prop_In, in_rev, in_map_iff in E as ([k' x'] & [= _ <-] & _). by exists x'.
Qed.

Lemma arr_parsed v l : parsed v -> v = VArr l -> Forall parsed l.
Proof.
  intros [j ->] E. destruct j as [| | | |xs|]; try discriminate E. simpl in E. rewrite internalize_arr_id in E.
  injection E as <-. apply List.Forall_forall. intros x Hx. apply in_map_iff in Hx as (y & <- & _). by exists y.
Qed.

Lemma stable_parsed k v : v = VUndefined \/ parsed v -> stable noReviver (k, v).
Proof. intros [->|[j ->]]; [by left|right]. exists j. split; [apply stringify_parsed|done]. Qed.

Lemma nullish_parsed v d : parsed d -> v = VUndefined \/ parsed v -> parsed (nullish_or v d).
Proof. intros Hd [->|Hv]; [exact Hd|]. destruct Hv as [j ->]. destruct j; try (eexists; reflexivity). exact Hd. Qed.

Lemma optGet_up v k : v = VUndefined \/ parsed v -> optGet v k = VUndefined \/ parsed (optGet v k).
Proof. intros [->|Hv]; [by left|by apply optGet_parsed]. Qed.

Section Shape.
Variable intlFormat : JsVal -> string.
Variable jsToString : JsVal -> string.

Lemma website_parsed data site : parsed data -> website data = Some site -> parsed site.
Proof.
  intros Hd. unfold website.
  assert (Hh : optGet (optGet data "links") "homepage" = VUndefined \/ parsed (optGet (optGet data "links") "homepage"))
    by (repeat apply optGet_up; by right).
  destruct (optGet (optGet data "links") "homepage") as [| | | | | |l|] eqn:E; intros [= <-]; try apply parsed_leaf_str.
  destruct Hh as [|Hh]; [discriminate|]. pose proof (arr_parsed _ l Hh eq_refl) as Hl.
  destruct (List.find truthy l) as [x|] eqn:F; [|apply parsed_leaf_str]. simpl.
  apply find_some in F as [Hin _]. exact (proj1 (List.Forall_forall _ _) Hl x Hin).
Qed.

(** The object the service builds is made of values that survive
    [JSON.stringify] then [JSON.parse]. *)
Lemma cryptoInfoOf_stable data info :
  parsed data -> cryptoInfoOf intlFormat jsToString data = Some info ->
  exists kvs, info = VObj kvs /\ Forall (stable noReviver) kvs.
Proof.
  intros Hd. unfold cryptoInfoOf. destruct (get data "symbol") as [[]|]; try discriminate.
  destruct (category _ data) as [cat|]; [|discriminate]. simpl.
  destruct (website data) as [site|] eqn:W; [|discriminate]. simpl. intros [= <-].
  eexists; split; [reflexivity|].
  repeat apply List.Forall_cons; try apply List.Forall_nil; apply stable_parsed;
    try (right; apply parsed_leaf_str); try (right; apply nullish_parsed; [apply parsed_leaf_num || apply parsed_leaf_str|]);
    try (repeat apply optGet_up; by right).
  right. exact (website_parsed _ _ Hd W).
Qed.

End Shape.

Lemma filter_defined_parsed kvs :
  List.filter defined_prop (map (fun kv => (kv.1, internalize noReviver kv.2)) kvs) =
  map (fun kv => (kv.1, internalize noReviver kv.2)) kvs.
Proof.
  induction kvs as [|[k x] kvs IH]; [done|]. simpl. rewrite IH. unfold defined_prop. simpl. by destruct x.
Qed.

Lemma dropUndefined_parsed j : dropUndefined (jsonParse j) = jsonParse j.
Proof.
  destruct j as [| | | | |kvs]; try reflexivity. unfold jsonParse, parseWith, noReviver. simpl.
  by rewrite internalize_obj_id, filter_defined_parsed.
Qed.

Lemma getCryptoInfoWithCoinGecko_ok f g sym net session info s1 :
  getCryptoInfoWithCoinGecko f g sym net session = (inr info, s1) ->
  exists body, cryptoInfoOf f g (jsonParse body) = Some info.
Proof.
  unfold getCryptoInfoWithCoinGecko. destruct (getCoingeckoIdMap net session) as [[e|idMap] s0]; [discriminate|].
  destruct (negb _); [discriminate|]. destruct (coinData net _) as [body|]; simpl; [|discriminate].
  destruct (cryptoInfoOf f g (jsonParse body)) eqn:E; [intros [= <- _]; by exists body|discriminate].
Qed.

(** ** Properties of the service *)

(** C37: The id map resolves a lowercased symbol to the id of the
    first coin of [/coins/list] with that symbol in any case, and to
    [undefined] when no coin has it. *)
Theorem buildIdMap_first_wins coins s :
  map_get (buildIdMap coins) (VStr s) =
  match firstCoin s coins with Some c => VStr (coin_id c) | None => VUndefined end.
Proof. unfold buildIdMap. by rewrite buildIdMap_get_aux. Qed.

(** The id map survives its [sessionStorage] item: once a call
    has produced a map, every later call of the session gives the same
    map and the same storage, whatever the network answers. *)
Theorem idMap_cached net net' session m s' :
  getCoingeckoIdMap net session = (inr m, s') -> getCoingeckoIdMap net' s' = (inr m, s').
Proof.
  unfold getCoingeckoIdMap. cbv zeta. destruct (match session !! COINGECKO_ID_MAP_KEY with
      | Some (ItemText (Some tree)) => newMap (jsonParse tree) | _ => None end) as [m0|] eqn:Hc.
  - intros [= <- <-]. by rewrite Hc.
  - destruct (coinsList net) as [coins|]; [|discriminate]. destruct (setItemOk net); [|discriminate].
    destruct (buildIdMap_str coins) as (l & -> & Hl). destruct (jsonParse_entries l) as [Hs Hp].
    rewrite Hs. intros [= <- <-]. rewrite lookup_insert_eq, Hp. by rewrite newMap_str_entries.
Qed.

(** A symbol's info survives its [sessionStorage] item: after a
    call that returned an info, the next call for the symbol returns the
    same object (without the [name] property when it was undefined) and
    leaves the storage as it is, whatever the network answers. *)
Theorem getCryptoInfo_cached f g sym net net' session info s' :
  getCryptoInfo f g sym net session = (inr info, s') ->
  getCryptoInfo f g sym net' s' = (inr (dropUndefined info), s').
Proof.
  unfold getCryptoInfo. destruct (session !! cacheKey sym) as [[|[tree|]]|] eqn:Hc;
    try (intros [= <- <-]; rewrite Hc; by rewrite dropUndefined_parsed);
    (destruct (getCryptoInfoWithCoinGecko f g sym net session) as [[e|info0] s1] eqn:G; [discriminate|];
     destruct (setItemOk net); [|discriminate]; intros [= <- <-]; rewrite lookup_insert_eq;
     destruct (getCryptoInfoWithCoinGecko_ok _ _ _ _ _ _ _ G) as [body Hb];
     destruct (cryptoInfoOf_stable f g _ _ (ex_intro _ body eq_refl) Hb) as (kvs & -> & Hs);
     exact (f_equal (fun v => (inr v, _)) (obj_roundtrip noReviver kvs Hs))).
Qed.

(** C38: The error paths of a first call in a session: a failed
    [/coins/list] gives the list error; a [setItem] that throws makes the
    call fail even when every request is answered; a symbol no coin has
    gives the not-found error; a failed [/coins/{id}] gives the details
    error. *)
Theorem getCryptoInfo_error_paths f g sym net :
  (coinsList net = None -> (getCryptoInfo f g sym net ∅).1 = inl (ErrMsg MSG_LIST)) /\
  (setItemOk net = false -> exists e, (getCryptoInfo f g sym net ∅).1 = inl e) /\
  (forall coins, coinsList net = Some coins -> setItemOk net = true -> firstCoin (toLowerCase sym) coins = None ->
     (getCryptoInfo f g sym net ∅).1 = inl (ErrMsg (MSG_NOT_FOUND sym))) /\
  (forall coins c, coinsList net = Some coins -> setItemOk net = true -> firstCoin (toLowerCase sym) coins = Some c ->
     coin_id c <> "" -> coinData net (VStr (coin_id c)) = None ->
     (getCryptoInfo f g sym net ∅).1 = inl (ErrMsg (MSG_DETAILS sym))).
Proof.
  unfold getCryptoInfo, getCryptoInfoWithCoinGecko, getCoingeckoIdMap. rewrite !lookup_empty. cbv zeta.
  split; [intros ->; reflexivity|]. split; [|split].
  - intros Hs. destruct (coinsList net); [|by eexists]. rewrite Hs. by eexists.
  - intros coins -> -> Hf. unfold buildIdMap. rewrite buildIdMap_get_aux. simpl. fold (firstCoin (toLowerCase sym) coins).
    by rewrite Hf.
  - intros coins c -> -> Hf Hid Hd. unfold buildIdMap. rewrite buildIdMap_get_aux. simpl. fold (firstCoin (toLowerCase sym) coins).
    rewrite Hf. simpl. destruct (String.eqb_spec (coin_id c) ""); [contradiction|]. simpl. by rewrite Hd.
Qed.

End CoinGecko.

Module CoinGeckoExamples.
Import JsRuntime Persistence CoinGecko.

(** Two coins share the symbol BTC; the first one listed wins. *)
Definition demoCoins : list CoinGeckoCoin :=
  [mkCoin "bitcoin" "btc" "Bitcoin"; mkCoin "batcoin" "BTC" "Batcoin"; mkCoin "ethereum" "eth" "Ethereum"].

Definition demoBody : JSON :=
  JObj [("symbol", JStr "btc"); ("name", JStr "Bitcoin");
        ("market_data", JObj [("ath", JObj [("usd", JNum 73000)]); ("max_supply", JNum 21000000)]);
        ("categories", JArr [JStr "Layer 1"; JNull; JStr ""; JStr "PoW"]);
        ("links", JObj [("homepage", JArr [JStr ""; JStr "http://www.bitcoin.org"])])].

Definition demoNet : Net := mkNet (Some demoCoins) (fun _ => Some demoBody) true.
Definition offlineNet : Net := mkNet None (fun _ => None) true.
Definition fullStorageNet : Net := mkNet (Some demoCoins) (fun _ => Some demoBody) false.

Definition fmt (_ : JsVal) : string := "21,000,000".
Definition str (_ : JsVal) : string := "".

Lemma demo_first_wins : map_get (buildIdMap demoCoins) (VStr "btc") = VStr "bitcoin".
Proof. vm_compute. reflexivity. Qed.

Lemma demo_info :
  (getCryptoInfo fmt str "Btc" demoNet ∅).1 =
  inr (VObj [("symbol", VStr "BTC"); ("name", VStr "Bitcoin"); ("ath", VNum 73000); ("atl", VNum 0);
             ("maxSupply", VStr "21,000,000"); ("totalSupply", VStr "N/A"); ("marketCap", VNum 0);
             ("launchDate", VStr "N/A"); ("category", VStr "Layer 1, PoW");
             ("website", VStr "http://www.bitcoin.org")]).
Proof. vm_compute. reflexivity. Qed.

Lemma idMap_cached_witness :
  getCoingeckoIdMap demoNet ∅ = (inr (buildIdMap demoCoins), (getCoingeckoIdMap demoNet ∅).2) /\
  getCoingeckoIdMap offlineNet (getCoingeckoIdMap demoNet ∅).2 =
    (inr (buildIdMap demoCoins), (getCoingeckoIdMap demoNet ∅).2).
Proof.
  assert (H : getCoingeckoIdMap demoNet ∅ = (inr (buildIdMap demoCoins), (getCoingeckoIdMap demoNet ∅).2))
    by (vm_compute; reflexivity).
  split; [exact H|exact (idMap_cached demoNet offlineNet ∅ _ _ H)].
Defined.

Definition demoInfo : JsVal := match (getCryptoInfo fmt str "BTC" demoNet ∅).1 with inr v => v | inl _ => VNull end.

Lemma getCryptoInfo_cached_witness :
  getCryptoInfo fmt str "BTC" demoNet ∅ = (inr demoInfo, (getCryptoInfo fmt str "BTC" demoNet ∅).2) /\
  getCryptoInfo fmt str "BTC" offlineNet (getCryptoInfo fmt str "BTC" demoNet ∅).2 =
    (inr (dropUndefined demoInfo), (getCryptoInfo fmt str "BTC" demoNet ∅).2).
Proof.
  assert (H : getCryptoInfo fmt str "BTC" demoNet ∅ = (inr demoInfo, (getCryptoInfo fmt str "BTC" demoNet ∅).2))
    by (vm_compute; reflexivity).
  split; [exact H|exact (getCryptoInfo_cached fmt str "BTC" demoNet offlineNet ∅ _ _ H)].
Defined.

(** Without a [name] in the body, the stored info reads back without
    the property. *)
Definition namelessNet : Net := mkNet (Some demoCoins) (fun _ => Some (JObj [("symbol", JStr "eth")])) true.

Lemma demo_nameless_cached :
  (getCryptoInfo fmt str "eth" namelessNet (getCryptoInfo fmt str "eth" namelessNet ∅).2).1 =
  inr (VObj [("symbol", VStr "ETH"); ("ath", VNum 0); ("atl", VNum 0); ("maxSupply", VStr "N/A");
             ("totalSupply", VStr "N/A"); ("marketCap", VNum 0); ("launchDate", VStr "N/A");
             ("category", VStr "N/A"); ("website", VStr "")]).
Proof. vm_compute. reflexivity. Qed.

Lemma getCryptoInfo_error_paths_witness :
  (getCryptoInfo fmt str "BTC" offlineNet ∅).1 = inl (ErrMsg MSG_LIST) /\
  (exists e, (getCryptoInfo fmt str "BTC" fullStorageNet ∅).1 = inl e) /\
  (getCryptoInfo fmt str "SOL" demoNet ∅).1 = inl (ErrMsg (MSG_NOT_FOUND "SOL")).
Proof.
  split; [apply (getCryptoInfo_error_paths fmt str "BTC" offlineNet); reflexivity|].
  split; [apply (getCryptoInfo_error_paths fmt str "BTC" fullStorageNet); reflexivity|].
  apply (proj1 (proj2 (proj2 (getCryptoInfo_error_paths fmt str "SOL" demoNet))) demoCoins); reflexivity.
Defined.

End CoinGeckoExamples.
