(* ===== verification/AppShell.v ===== *)
(** * AppShell: the component [App] of [src/src/App.tsx] around the engine

    [App] owns the engine's state ([signals], [historicalSignals]), the
    status cells the tick writes ([loading], [lastUpdated], [error],
    [bitcoinData], [usdtBrlData]), the hourly [marketSentiment], the
    [view] the header and the bottom bar switch, and the history
    filter. Two effects save the board and the history to
    [localStorage] whenever they change, and the state starts from what
    is stored. The cards area shows a skeleton, the error or the cards
    ([renderSignalCards]).

    The state is [AppState]; [app_step] runs one event: a whole tick
    ([fetchSignals] with the two price strips it also updates, then the
    two effects), the sentiment answer, the view switches of [Header]
    and [BottomNav], and the events of the history screen of
    [HistoryView] (its own cells are reset when it is mounted again).

    Theorems: along any run from a state started from the storage, with
    the clock a valid [Date], every date of the engine stays a valid
    time value, and the two [localStorage] items always read back as
    the current board and history, so a reload restores them; and the
    connection error of a tick is never shown while the board has
    signals (a divergence from the specification). *)

From stdpp Require Import base list strings gmap.
From Stdlib Require Import String Ascii QArith ZArith Lia.
From S2P Require Import Prelude Types Ledger Store Lifecycle LifecycleTheory LifecycleProps.
From S2P Require Import JsRuntime Persistence Sentiment HistoryView.

(** ** Valid dates along the engine's runs *)

Module EngineDates.
Import Tick Keys Scan Step Loop LifecycleProps.BoardSort LifecycleProps.Run LifecycleProps.TickFacts LifecycleProps.TickTheorems.
Import Persistence.

(** Every instant the engine holds is a valid [Date]: the creation of
    the signals of the board, of the history and of the cached plans,
    and the resolution of the records. *)
Definition dates_ok (e : Engine) : Prop :=
  Forall (fun s => date_ok (sig_ts s)) (signals e) /\
  Forall (fun h => date_ok (sig_ts (hsignal h)) /\ date_ok (resolvedAt h)) (historicalSignals e) /\
  map_Forall (fun _ p => date_ok (timestamp p)) (signalParametersCache (store e)).

Definition rec_dates_ok (h : HistoricalSignal) : Prop := date_ok (sig_ts (hsignal h)) /\ date_ok (resolvedAt h).

(** A record the loop writes snapshots the signal of its iteration at
    the tick's instant. *)
Lemma step_hist_Forall (P : HistoricalSignal -> Prop) now pm acc s s' acc' :
  processSignal now pm acc s = (s', acc') ->
  (forall r, params (hsignal r) = params s -> resolvedAt r = now -> P r) ->
  Forall P (newHistoricalSignals acc) -> Forall P (newHistoricalSignals acc').
Proof.
  unfold processSignal. intros E HP Hh.
  destruct (TWO_HOURS_IN_MS <? now - sig_ts s)%Z; [injection E as <- <-; done|].
  destruct (pm ≫= lookup (sig_id s)) as [td|]; [|injection E as <- <-; done].
  destruct (scanTargets _ _ _ _) as [newT hasNew] eqn:Hsc. simpl in E.
  assert (Hp : params (if hasNew then with_tps (with_live s (pd_price td) (pd_change td) (pd_volume td)) newT
                       else with_live s (pd_price td) (pd_change td) (pd_volume td)) = params s) by (by destruct hasNew).
  destruct (resolution _ _ _ newT).
  { injection E as <- <-. simpl.
    destruct (find_index _ _); [apply Forall_insert; [done|]|constructor; [|done]]; apply HP; done. }
  destruct (_ || _); [|injection E as <- <-; done].
  destruct (last_true_index newT); [|injection E as <- <-; done].
  destruct (find_index _ _) as [i|]; [destruct (_ !! i) as [h|]; [destruct (tps_changed _ _)|]|];
    injection E as <- <-; simpl; try done; [apply Forall_insert; [done|]|constructor; [|done]]; apply HP; done.
Qed.

Lemma loop_hist_Forall (P : HistoricalSignal -> Prop) now pm sigs : forall acc sigs' acc',
  processSignals now pm sigs acc = (sigs', acc') ->
  (forall r s, In s sigs -> params (hsignal r) = params s -> resolvedAt r = now -> P r) ->
  Forall P (newHistoricalSignals acc) -> Forall P (newHistoricalSignals acc').
Proof.
  loop_ind sigs; intros HP Hh; [done|].
  eapply IH; [exact H2| |].
  - intros r s0 Hs0. apply (HP r s0). by right.
  - eapply step_hist_Forall; [exact H1| |exact Hh]. intros r. apply (HP r s). by left.
Qed.

Section WithProvider.
Context {Market : Type} `{SignalProviderLaws Market}.

Lemma st1_dates now pm e newActive acc :
  processSignals now pm (signals e) (acc0 e) = (newActive, acc) ->
  map_Forall (fun _ p => date_ok (timestamp p)) (signalParametersCache (store e)) ->
  map_Forall (fun _ p => date_ok (timestamp p)) (paramCache acc).
Proof. intros Hp Hc k p Hk. apply (Hc k p). exact (loop_cache_sub _ _ _ _ _ _ _ _ Hp Hk). Qed.

Lemma provider_cache_dates mkt now n ex st r st' :
  cache_ok (signalParametersCache st) -> date_ok now ->
  map_Forall (fun _ p => date_ok (timestamp p)) (signalParametersCache st) ->
  getTradingSignals mkt now n ex st = (r, st') ->
  map_Forall (fun _ p => date_ok (timestamp p)) (signalParametersCache st').
Proof.
  intros Hok Hn Hc Hg k p Hk. destruct (gts_cache_from _ _ _ _ _ _ _ Hok Hg k p Hk) as [Ho| ->]; [exact (Hc k p Ho)|exact Hn].
Qed.

(** One tick keeps the dates valid when its clock is a valid [Date]. *)
Lemma fetch_dates mkt now tks e e' err :
  engine_inv e -> dates_ok e -> date_ok now -> fetchSignals mkt now tks e = (e', err) -> dates_ok e'.
Proof.
  intros Hi (Hb & Hh & Hc) Hn E. destruct (fetch_inv _ _ _ _ _ _ E) as (newActive & acc & Hp & Hhist & Hcase).
  pose proof (st1_dates _ _ _ _ _ Hp Hc) as Hc1.
  pose proof (st1_cache_ok _ _ _ _ _ Hp (proj2 (proj2 (proj2 (proj2 Hi))))) as Hok1.
  assert (Hnew : Forall rec_dates_ok (newHistoricalSignals acc)).
  { eapply (loop_hist_Forall rec_dates_ok); [exact Hp| |exact Hh].
    intros r s0 Hs0 Hpr Hr. split; [unfold sig_ts; rewrite Hpr; exact (proj1 (List.Forall_forall _ _) Hb s0 Hs0)|by rewrite Hr]. }
  split; [|split; [rewrite Hhist; by destruct (historyChanged acc)|]].
  - destruct Hcase as [(_ & -> & _)|(nw & He & _ & Hnw)]; [exact Hb|].
    rewrite He. apply List.Forall_forall. intros s Hin. rewrite sort_in in Hin.
    apply in_app_or in Hin as [Hin|Hin].
    + apply survivors_in in Hin as [Hin _].
      destruct (slot_of_right _ _ _ (loop_slots _ _ _ _ _ _ Hp) Hin) as (s0 & Hs0 & [Hps _]).
      unfold sig_ts. rewrite Hps. exact (proj1 (List.Forall_forall _ _) Hb s0 Hs0).
    + destruct Hnw as [(-> & _)|(_ & _ & Hg)]; [done|].
      destruct (gts_origin _ _ _ _ _ _ _ Hok1 Hg s Hin) as [->|Hs]; [exact Hn|exact (Hc1 _ _ Hs)].
  - destruct Hcase as [(_ & _ & _ & Hg)|(nw & _ & _ & [(_ & -> & _)|(_ & _ & Hg)])];
      [exact (provider_cache_dates _ _ _ _ _ _ _ Hok1 Hn Hc1 Hg)|exact Hc1|exact (provider_cache_dates _ _ _ _ _ _ _ Hok1 Hn Hc1 Hg)].
Qed.

End WithProvider.

End EngineDates.

(** ** The component *)

Module AppShell.
Import Tick Keys Scan Step Loop LifecycleProps.BoardSort LifecycleProps.Run LifecycleProps.TickFacts LifecycleProps.TickTheorems
  EngineDates Persistence Sentiment View.

(** [useState<'signals' | 'history'>]. *)
Inductive AppView := signals_view | history_view.

(** The state cells of [App] and the two [localStorage] items its
    effects write. The history screen's cells ([screen]) hold the App's
    [historyFilter] and [customHistoryDate] and, while the screen is
    mounted, its own [tempDate] and pagination. *)
Record AppState := mkApp {
  view : AppView;
  engine : Engine;
  loading : bool;
  lastUpdated : Z;
  error : option TickError;
  marketSentiment : MarketSentiment;
  bitcoinData : option (Q * Q);
  usdtBrlData : option (Q * Q);
  screen : ViewState;
  activeItem : StoredItem;
  historyItem : StoredItem
}.

(** The first render: the board and the history read from the storage
    ([useState(() => getActiveSignals())], [getHistory()]), the caches
    of the service empty, and the two effects writing both back. A
    stored value that does not decode to the types the code expects is
    outside the model ([None]). *)
Definition initialApp (now : Z) (alerts : StoredAlerts) (storedActive storedHistory : StoredItem) : option AppState :=
  match decodeSignals (getActiveSignals storedActive), decodeHistory (getHistory storedHistory) with
  | Some board, Some hist =>
      Some (mkApp signals_view (mkEngine board hist (mkStore ∅ None None alerts)) true now None NEUTRAL None None
                  initialView (saveActiveSignals (encodeSignals board)) (saveHistory (encodeHistory hist)))
  | _, _ => None
  end.

(** [allTickers.find(t => t.symbol === 'BTCUSDT')]. *)
Definition btcTicker (tickers : list Binance.BinanceTicker) : option Binance.BinanceTicker :=
  List.find (fun t => String.eqb (Binance.symbol t) "BTCUSDT") tickers.

(** The two messages of [setError]. *)
Definition errorMessage (err : TickError) : string :=
  match err with
  | ConnectionLost => "Não foi possível conectar à Binance. Verificando novamente..."
  | NoActiveSignals => "Nenhum sinal ativo no momento. O sistema está buscando novas oportunidades."
  end.

(** What the cards area shows ([renderSignalCards]). *)
Inductive CardsArea := Skeleton | ErrorBox (msg : string) | Cards (board : list TradingSignal).

Definition renderSignalCards (st : AppState) : CardsArea :=
  let board := signals (engine st) in
  if loading st && (List.length board =? 0)%nat then Skeleton
  else match error st with
       | Some err => if (List.length board =? 0)%nat then ErrorBox (errorMessage err) else Cards board
       | None => Cards board
       end.

Section Handlers.
Context {Market : Type} `{SignalProvider Market}.

(** [setHistoricalSignals] ran in the tick: the loop wrote a record. *)
Definition tickWroteHistory (now : Z) (tickers : option (list Binance.BinanceTicker)) (e : Engine) : bool :=
  historyChanged (processSignals now (priceMapOf <$> tickers) (signals e) (acc0 e)).2.

(** One run of [fetchSignals] with the [App] cells it sets, followed by
    the effects on [signals] and [historicalSignals]. [usdtBrl] is the
    USDT/BRL request ([None] when it throws or is not ok), made only
    after the ticker snapshot arrived. A tick whose [getTradingSignals]
    throws has published the history but neither the board, nor
    [lastUpdated], [error] and [loading]. *)
Definition appTick (mkt : Market) (now : Z) (tickers : option (list Binance.BinanceTicker))
    (usdtBrl : option (Q * Q)) (st : AppState) : AppState :=
  let e := engine st in
  let loading1 := if (List.length (signals e) =? 0)%nat then true else loading st in
  let btc := match tickers with
             | Some ts => match btcTicker ts with
                          | Some t => Some (Binance.lastPrice t, Binance.priceChangePercent t)
                          | None => bitcoinData st
                          end
             | None => bitcoinData st
             end in
  let usd := match tickers, usdtBrl with Some _, Some d => Some d | _, _ => usdtBrlData st end in
  let hItem e' := if tickWroteHistory now tickers e then saveHistory (encodeHistory (historicalSignals e'))
                  else historyItem st in
  let '(e', res) := fetchSignals mkt now tickers e in
  match res with
  | None => mkApp (view st) e' loading1 (lastUpdated st) (error st) (marketSentiment st) btc usd (screen st)
                  (activeItem st) (hItem e')
  | Some err => mkApp (view st) e' false now err (marketSentiment st) btc usd (screen st)
                      (saveActiveSignals (encodeSignals (signals e'))) (hItem e')
  end.

(** [setView]: mounting [HistoryView] again starts its own cells anew
    ([tempDate] from [currentDate], three days, no days rendered yet). *)
Definition setView (st : AppState) (v : AppView) : AppState :=
  let scr := match view st, v with
             | signals_view, history_view =>
                 mkView (historyFilter (screen st)) (customHistoryDate (screen st)) (customHistoryDate (screen st))
                        INITIAL_DAYS_TO_SHOW []
             | _, _ => screen st
             end in
  mkApp v (engine st) (loading st) (lastUpdated st) (error st) (marketSentiment st) (bitcoinData st)
        (usdtBrlData st) scr (activeItem st) (historyItem st).

Definition set_screen (st : AppState) (scr : ViewState) : AppState :=
  mkApp (view st) (engine st) (loading st) (lastUpdated st) (error st) (marketSentiment st) (bitcoinData st)
        (usdtBrlData st) scr (activeItem st) (historyItem st).

Definition set_sentiment (st : AppState) (m : MarketSentiment) : AppState :=
  mkApp (view st) (engine st) (loading st) (lastUpdated st) (error st) m (bitcoinData st)
        (usdtBrlData st) (screen st) (activeItem st) (historyItem st).

Inductive AppEvent :=
| TickDone (mkt : Market) (now : Z) (tickers : option (list Binance.BinanceTicker)) (usdtBrl : option (Q * Q))
| SentimentSettled (m : MarketSentiment)
| ToggleView
| NavTo (v : AppView)
| HistoryInput (ev : ViewEvent)
| HistoryRender (now : Z).

(** One event. The history screen only reacts while it is mounted; its
    renders are those of the report at the render's clock. *)
Definition app_step (st : AppState) (ev : AppEvent) : AppState :=
  match ev with
  | TickDone mkt now tickers usdtBrl => appTick mkt now tickers usdtBrl st
  | SentimentSettled m => set_sentiment st m
  | ToggleView => setView st (match view st with signals_view => history_view | history_view => signals_view end)
  | NavTo v => setView st v
  | HistoryInput ev' =>
      match view st, ev' with
      | history_view, Render _ => st
      | history_view, _ => set_screen st (view_step (screen st) ev')
      | signals_view, _ => st
      end
  | HistoryRender now =>
      match view st with
      | history_view => set_screen st (render now (historicalSignals (engine st)) (screen st))
      | signals_view => st
      end
  end.

End Handlers.

Arguments AppEvent : clear implicits.

(** ** Runs of the application *)

Section Runs.
Context {Market : Type} `{SignalProviderLaws Market}.

(** A tick reads a clock that is a valid [Date]. *)
Definition event_ok (ev : AppEvent Market) : Prop :=
  match ev with TickDone _ now _ _ => date_ok now | _ => True end.

(** The states of a browser session: a first visit with nothing
    stored, a reload from the storage of a state of the session, and
    any event. *)
Inductive app_reachable : AppState -> Prop :=
| app_fresh now alerts st :
    initialApp now alerts ItemMissing ItemMissing = Some st -> app_reachable st
| app_reload now st st' :
    app_reachable st -> initialApp now (alertsItem (store (engine st))) (activeItem st) (historyItem st) = Some st' ->
    app_reachable st'
| app_event st ev : app_reachable st -> event_ok ev -> app_reachable (app_step st ev).

(** The invariant of a session: the engine's, valid dates, and the
    two items holding the current board and history. *)
Definition app_inv (st : AppState) : Prop :=
  engine_inv (engine st) /\ dates_ok (engine st) /\
  activeItem st = saveActiveSignals (encodeSignals (signals (engine st))) /\
  historyItem st = saveHistory (encodeHistory (historicalSignals (engine st))).

Lemma fresh_engine_inv board hist alerts :
  board_wf board -> board_within_capacity board -> history_wf hist -> history_consistent hist ->
  engine_inv (mkEngine board hist (mkStore ∅ None None alerts)).
Proof. intros Hb Hc Hw Hh. split; [exact Hb|split; [exact Hc|split; [exact Hw|split; [exact Hh|apply map_Forall_empty]]]]. Qed.

Lemma initial_inv now alerts a h st :
  initialApp now alerts a h = Some st ->
  board_wf (signals (engine st)) /\ board_within_capacity (signals (engine st)) /\
  history_wf (historicalSignals (engine st)) /\ history_consistent (historicalSignals (engine st)) /\
  Forall (fun s => date_ok (sig_ts s)) (signals (engine st)) /\
  Forall rec_dates_ok (historicalSignals (engine st)) ->
  app_inv st.
Proof.
  unfold initialApp. destruct (decodeSignals _) as [board|]; [|discriminate].
  destruct (decodeHistory _) as [hist|]; [|discriminate]. intros [= <-] (Hb & Hc & Hw & Hh & Hd & Hr). simpl in *.
  split; [by apply fresh_engine_inv|]. split; [split; [exact Hd|split; [exact Hr|apply map_Forall_empty]]|done].
Qed.

Lemma initial_fresh now alerts st : initialApp now alerts ItemMissing ItemMissing = Some st -> app_inv st.
Proof.
  intros E. apply (initial_inv _ _ _ _ _ E). unfold initialApp in E. simpl in E. injection E as <-. simpl.
  repeat split; repeat constructor. unfold board_within_capacity, BOARD_SIZE. simpl. lia.
Qed.

Lemma reload_inv now st st' :
  app_inv st -> initialApp now (alertsItem (store (engine st))) (activeItem st) (historyItem st) = Some st' ->
  app_inv st' /\ signals (engine st') = signals (engine st) /\ historicalSignals (engine st') = historicalSignals (engine st).
Proof.
  intros ((Hb & Hc & Hw & Hh & _) & (Hd & Hr & _) & Ha & Hi) E.
  assert (Heng : signals (engine st') = signals (engine st) /\ historicalSignals (engine st') = historicalSignals (engine st)).
  { unfold initialApp in E. rewrite Ha, Hi, signals_reload, history_reload in E by assumption.
    by injection E as <-. }
  split; [|exact Heng]. destruct Heng as [E1 E2]. apply (initial_inv _ _ _ _ _ E). rewrite E1, E2. tauto.
Qed.

(** The tick keeps the invariant of the session. *)
Lemma appTick_inv mkt now tks usd st :
  app_inv st -> date_ok now -> app_inv (appTick mkt now tks usd st).
Proof.
  intros (Hi & Hd & Ha & Hh) Hn. unfold appTick.
  destruct (fetchSignals mkt now tks (engine st)) as [e' res] eqn:E.
  pose proof (fetch_engine_inv _ _ _ _ _ _ Hi E) as Hi'. pose proof (fetch_dates _ _ _ _ _ _ Hi Hd Hn E) as Hd'.
  destruct (fetch_inv _ _ _ _ _ _ E) as (newActive & acc & Hp & Hhist & Hcase).
  assert (Hhi : (if tickWroteHistory now tks (engine st) then saveHistory (encodeHistory (historicalSignals e'))
                 else historyItem st) = saveHistory (encodeHistory (historicalSignals e'))).
  { unfold tickWroteHistory. rewrite Hp. simpl. rewrite Hhist. by destruct (historyChanged acc). }
  destruct res as [err|]; simpl; (split; [exact Hi'|split; [exact Hd'|split; [|exact Hhi]]]); [done|].
  cbn [activeItem engine]. destruct Hcase as [(_ & -> & _)|(nw & _ & Herr & _)]; [exact Ha|discriminate].
Qed.

Lemma app_step_inv st ev : app_inv st -> event_ok ev -> app_inv (app_step st ev).
Proof.
  intros Hi Hev. destruct ev as [mkt now tks usd|m| |v|ev'|now]; simpl in *.
  - by apply appTick_inv.
  - exact Hi.
  - exact Hi.
  - exact Hi.
  - destruct (view st), ev'; exact Hi.
  - destruct (view st); exact Hi.
Qed.

Lemma reachable_app_inv st : app_reachable st -> app_inv st.
Proof.
  induction 1 as [now alerts st E|now st st' _ IH E|st ev _ IH Hev].
  - exact (initial_fresh _ _ _ E).
  - exact (proj1 (reload_inv _ _ _ IH E)).
  - by apply app_step_inv.
Qed.

(** C14: A reload in any state of a session gives back the board and the
    history it had, with the engine's invariant. *)
Theorem app_reload_restores st now :
  app_reachable st ->
  exists st', initialApp now (alertsItem (store (engine st))) (activeItem st) (historyItem st) = Some st' /\
    signals (engine st') = signals (engine st) /\ historicalSignals (engine st') = historicalSignals (engine st) /\
    engine_inv (engine st').
Proof.
  intros Hr. pose proof (reachable_app_inv st Hr) as Hi.
  destruct ((fun H => H) Hi) as ((Hb & Hc & Hw & Hh & _) & (Hd & Hrd & _) & Ha & Hhi).
  unfold initialApp. rewrite Ha, Hhi, signals_reload, history_reload by assumption.
  eexists; split; [reflexivity|]. simpl. split; [done|split; [done|by apply fresh_engine_inv]].
Qed.

(** C18: A tick without the ticker snapshot on a board that keeps a signal
    reports the connection error, yet the cards area shows the cards
    and nothing of the error. *)
Theorem connection_error_hidden st (mkt : Market) now usd s :
  board_wf (signals (engine st)) -> In s (signals (engine st)) -> agedb now s = false ->
  let st' := app_step st (TickDone mkt now None usd) in
  error st' = Some ConnectionLost /\ signals (engine st') <> [] /\
  renderSignalCards st' = Cards (signals (engine st')).
Proof.
  intros Hwf Hs Ha. cbn [app_step]. unfold appTick.
  destruct (fetchSignals mkt now None (engine st)) as [e' res] eqn:E.
  destruct (fetch_offline _ _ _ _ _ Hwf E) as (-> & _ & _ & Hb). cbn.
  assert (Hne : signals e' <> []).
  { rewrite Hb. intros Hnil. assert (Hin : In s (sortByTimestampDesc (List.filter (fun s => negb (agedb now s)) (signals (engine st)))))
      by (rewrite sort_in, filter_In, Ha; auto). by rewrite Hnil in Hin. }
  split; [done|split; [exact Hne|]]. unfold renderSignalCards. cbn.
  destruct (signals e'); [contradiction|reflexivity].
Qed.

End Runs.

End AppShell.

Module AppShellExamples.
Import Tick LifecycleProps.TickFacts LifecycleProps.TickTheorems LifecycleProps.TickExamples JsRuntime Persistence Sentiment View
  AppShell.

(** A provider that offers one BTCUSDT setup, created at the tick's
    instant, when a slot is free and BTCUSDT is not excluded. *)
Definition btcParams (now : Z) : CachedSignalParameters :=
  mkParams "BTCUSDT" "BTC" "USDT" LONG 90 (99, 101)%Q 95 [101; 102; 103; 104; 110]%Q "Alta" "" 5 now.

Definition oneSetup : SignalProvider unit :=
  {| getTradingSignals := fun _ now n ex st =>
       (Some (if (0 <? n)%nat && negb (existsb (String.eqb "BTCUSDT") ex)
              then [mkSignal (btcParams now) 100 0 None None] else []), st) |}.

Lemma oneSetup_laws : @SignalProviderLaws unit oneSetup.
Proof.
  constructor; intros mkt now n ex st l st' Hc E; injection E as <- <-.
  - destruct ((0 <? n)%nat && _) eqn:G; simpl; [|lia]. apply andb_true_iff in G as [G _]. apply Nat.ltb_lt in G. lia.
  - destruct (_ && _) eqn:G; [|intros ? []]. intros s [<-|[]] Hin. apply andb_true_iff in G as [_ G].
    apply negb_true_iff in G. simpl in Hin.
    match type of G with existsb ?f ?l = false =>
      assert (existsb f l = true) as C by (apply existsb_exists; exists "BTCUSDT"%string; split; [exact Hin|reflexivity])
    end. congruence.
  - destruct (_ && _); simpl; [apply NoDup_singleton|constructor].
  - destruct (_ && _); [intros s [<-|[]]; reflexivity|intros ? []].
  - destruct (_ && _); [intros s [<-|[]]; reflexivity|intros ? []].
  - destruct (_ && _); [intros s [<-|[]]; by left|intros ? []].
  - exact Hc.
  - intros k p Hk. by left.
  - destruct (_ && _); [intros s [<-|[]]; reflexivity|intros ? []].
  - exact Hc.
Qed.

Definition startState : AppState :=
  mkApp signals_view (mkEngine [] [] (mkStore ∅ None None AlertsMissing)) true 0 None NEUTRAL None None
        initialView (saveActiveSignals (encodeSignals [])) (saveHistory (encodeHistory [])).

Lemma start_fresh : initialApp 0 AlertsMissing ItemMissing ItemMissing = Some startState.
Proof. reflexivity. Qed.

(** The first tick of a first visit at 1000 ms puts the BTCUSDT setup
    on the board and stores it. *)
Definition afterTick : AppState :=
  @app_step unit oneSetup startState (TickDone tt 1000 (Some (demoTickers 100)) (Some (5, 1)%Q)).

Lemma demo_afterTick :
  List.length (signals (engine afterTick)) = 1%nat /\ loading afterTick = false /\ error afterTick = None /\
  bitcoinData afterTick = Some (100, 1)%Q /\ usdtBrlData afterTick = Some (5, 1)%Q.
Proof. vm_compute. repeat split; reflexivity. Qed.

Lemma afterTick_reachable : @app_reachable unit oneSetup afterTick.
Proof.
  apply app_event; [apply (app_fresh 0 AlertsMissing), start_fresh|]. simpl. unfold date_ok, maxTime. lia.
Defined.

Lemma app_reload_restores_witness :
  exists st', initialApp 5000 (alertsItem (store (engine afterTick))) (activeItem afterTick) (historyItem afterTick) = Some st' /\
    signals (engine st') = signals (engine afterTick) /\
    historicalSignals (engine st') = historicalSignals (engine afterTick) /\ engine_inv (engine st').
Proof. apply (@app_reload_restores unit oneSetup oneSetup_laws afterTick 5000), afterTick_reachable. Defined.

(** The connection drops at the next tick: the error is set, the cards
    stay on screen. *)
Lemma connection_error_hidden_witness :
  let st' := @app_step unit oneSetup afterTick (TickDone tt 6000 None None) in
  error st' = Some ConnectionLost /\ signals (engine st') <> [] /\ renderSignalCards st' = Cards (signals (engine st')).
Proof.
  apply (@connection_error_hidden unit oneSetup afterTick tt 6000 None (mkSignal (btcParams 1000) 100 0 None None)).
  - vm_compute. split; [apply NoDup_singleton|repeat constructor].
  - vm_compute. left. reflexivity.
  - vm_compute. reflexivity.
Defined.

End AppShellExamples.
