(* ===== verification/Timers.v ===== *)
(** * Timers: the two self-hiding pop-ups of the interface

    - [src/components/Header.tsx]: the sentiment info popover. The
      button toggles [isInfoVisible]; a [mousedown] outside the popover
      closes it; an effect on [isInfoVisible] starts a 10 s [setTimeout]
      that closes it, and its cleanup clears that timer when the
      popover closes first.
    - [src/components/CopyBlocker.tsx]: the toast shown on a copy, cut
      or context-menu attempt. [showToast] clears the timer kept in
      [toastTimerRef], shows the toast and starts a 3 s timer that hides
      it.

    Time is explicit: every event carries the instant it happens, and
    before an event at instant [t] the timers due by [t] fire, as the
    event loop runs a due timeout before a later event. The pending
    timeouts are a list of (id, deadline), [setTimeout] returning a
    fresh id and [clearTimeout] removing its id.

    Theorems: the popover is open only within 10 s of the click that
    opened it and is closed by any event from then on, and unmounting
    leaves no timeout pending; the toast is
    visible at the end of a run exactly when the run has a copy attempt
    less than 3 s before its end, whatever the attempts before. *)

From stdpp Require Import base list.
From Stdlib Require Import ZArith List Lia Bool.
From S2P Require Import Prelude.
Import ListNotations.
Open Scope Z_scope.

(** ** Timeouts *)

Module Timeouts.

(** The pending timeouts: id and deadline. *)
Definition Pending := list (nat * Z).

(** [clearTimeout(id)]. *)
Definition clearTimeout (id : nat) (p : Pending) : Pending := List.filter (fun x => negb (Nat.eqb (fst x) id)) p.

(** The timeouts due by [t], and those still pending. *)
Definition due (t : Z) (p : Pending) : Pending := List.filter (fun x => snd x <=? t) p.
Definition not_due (t : Z) (p : Pending) : Pending := List.filter (fun x => negb (snd x <=? t)) p.

End Timeouts.

(** ** The popover of the header *)

Module HeaderInfo.
Import Timeouts.

Definition INFO_TIMEOUT : Z := 10000.

Record HeaderState := mkHeader {
  isInfoVisible : bool;
  pending : Pending;
  infoTimer : option nat;
  nextId : nat;
  clock : Z
}.

Definition initialHeader : HeaderState := mkHeader false [] None 1 0.

Inductive HeaderEvent :=
| ToggleClick (t : Z)
| MouseDown (inside : bool) (t : Z)
| Elapse (t : Z).

Definition event_time (ev : HeaderEvent) : Z :=
  match ev with ToggleClick t | MouseDown _ t | Elapse t => t end.

(** [setIsInfoVisible(v)] followed by the effect on [isInfoVisible]
    when the value changes: the cleanup clears the timer of the previous
    run, and a run for [true] starts a new one. *)
Definition setVisible (v : bool) (st : HeaderState) : HeaderState :=
  if Bool.eqb v (isInfoVisible st) then st
  else
    let p := match infoTimer st with Some id => clearTimeout id (pending st) | None => pending st end in
    if v then mkHeader true (p ++ [(nextId st, clock st + INFO_TIMEOUT)]) (Some (nextId st)) (S (nextId st)) (clock st)
    else mkHeader false p None (nextId st) (clock st).

(** The clock reaches [t]: the due timeouts run [setIsInfoVisible(false)]. *)
Definition advance (t : Z) (st : HeaderState) : HeaderState :=
  let st1 := mkHeader (isInfoVisible st) (not_due t (pending st)) (infoTimer st) (nextId st) t in
  if negb (Nat.eqb (length (due t (pending st))) 0) then setVisible false st1 else st1.

(** A click on the button (its [mousedown] is inside the popover's
    container, so the outside handler leaves it alone); a [mousedown]
    elsewhere closes the popover. *)
Definition header_step (st : HeaderState) (ev : HeaderEvent) : HeaderState :=
  let st1 := advance (event_time ev) st in
  match ev with
  | ToggleClick _ => setVisible (negb (isInfoVisible st1)) st1
  | MouseDown inside _ => if inside then st1 else setVisible false st1
  | Elapse _ => st1
  end.

(** Unmounting the header runs the cleanups: the listener is removed
    and the pending timer of an open popover is cleared. *)
Definition header_unmount (st : HeaderState) : Pending :=
  match infoTimer st with Some id => if isInfoVisible st then clearTimeout id (pending st) else pending st | None => pending st end.

(** Runs whose events come in the order of time. *)
Inductive header_reachable : HeaderState -> Prop :=
| header_init : header_reachable initialHeader
| header_next st ev : header_reachable st -> clock st <= event_time ev -> header_reachable (header_step st ev).

(** The popover is closed with no timer, or open with the one timer
    of its opening, due less than 10 s from now. *)
Definition header_inv (st : HeaderState) : Prop :=
  (isInfoVisible st = false /\ infoTimer st = None /\ pending st = []) \/
  (isInfoVisible st = true /\ exists id d, infoTimer st = Some id /\ pending st = [(id, d)] /\
     clock st < d <= clock st + INFO_TIMEOUT).

Lemma setVisible_false st : header_inv st -> header_inv (setVisible false st).
Proof.
  destruct st as [v p tm n c]. unfold header_inv, setVisible; simpl.
  intros [(-> & -> & ->)|(-> & id & d & -> & -> & _)]; simpl; [by left|].
  left. unfold clearTimeout. simpl. by rewrite Nat.eqb_refl.
Qed.

Lemma setVisible_open st : header_inv st -> isInfoVisible st = false -> header_inv (setVisible true st).
Proof.
  destruct st as [v p tm n c]. unfold header_inv, setVisible; simpl.
  intros [(_ & -> & ->)|(-> & _)] Hv; [|discriminate]. subst v. simpl.
  right. split; [done|]. exists n, (c + INFO_TIMEOUT). unfold INFO_TIMEOUT. repeat split; lia.
Qed.

Lemma advance_inv t st : header_inv st -> clock st <= t -> header_inv (advance t st).
Proof.
  destruct st as [v p tm n c]. unfold header_inv, advance, due, not_due; simpl.
  intros [(-> & -> & ->)|(-> & id & d & -> & -> & Hd)] Hle; simpl; [by left|].
  destruct (Z.leb_spec d t) as [Hdt|Hdt]; simpl.
  - left. unfold clearTimeout. simpl. done.
  - right. split; [done|]. exists id, d. repeat split; lia.
Qed.

Lemma header_step_inv st ev : header_inv st -> clock st <= event_time ev -> header_inv (header_step st ev).
Proof.
  intros Hi Hle. pose proof (advance_inv _ _ Hi Hle) as Ha. unfold header_step.
  destruct ev as [t|[] t|t]; simpl in *; try exact Ha; [|by apply setVisible_false].
  destruct (isInfoVisible (advance t st)) eqn:Hv; simpl; [by apply setVisible_false|by apply setVisible_open].
Qed.

Lemma reachable_header_inv st : header_reachable st -> header_inv st.
Proof. induction 1; [by left|by apply header_step_inv]. Qed.

(** No timeout of the header outlives it. *)
Lemma header_unmount_clears st : header_reachable st -> header_unmount st = [].
Proof.
  intros Hr. destruct (reachable_header_inv st Hr) as [(_ & Ht & Hp)|(Hv & id & d & Ht & Hp & _)];
    unfold header_unmount; rewrite Ht; [exact Hp|]. rewrite Hv, Hp. unfold clearTimeout. simpl. by rewrite Nat.eqb_refl.
Qed.

(** C32: The popover closes by itself: once open, it has a timer due
    within 10 s, and any event from the deadline on, other than a click
    that opens it again, finds it closed. *)
Theorem popover_closes st :
  header_reachable st -> isInfoVisible st = true ->
  exists d, clock st < d <= clock st + INFO_TIMEOUT /\
    forall ev, d <= event_time ev -> (forall t, ev <> ToggleClick t) -> isInfoVisible (header_step st ev) = false.
Proof.
  intros Hr Hv. destruct (reachable_header_inv st Hr) as [(Hf & _)|(_ & id & d & Ht & Hp & Hd)]; [congruence|].
  exists d. split; [exact Hd|]. intros ev Hle Hnot.
  assert (Ha : isInfoVisible (advance (event_time ev) st) = false).
  { destruct st as [v p tm n c]; simpl in *. subst. unfold advance, due, not_due. simpl.
    rewrite (proj2 (Z.leb_le d (event_time ev)) Hle). reflexivity. }
  unfold header_step. destruct ev as [t|[] t|t].
  - by destruct (Hnot t).
  - exact Ha.
  - unfold setVisible. rewrite Ha. exact Ha.
  - exact Ha.
Qed.

End HeaderInfo.

(** ** The toast of the copy blocker *)

Module Toast.
Import Timeouts.

Definition TOAST_TIMEOUT : Z := 3000.

Record ToastState := mkToast {
  isToastVisible : bool;
  pending : Pending;
  toastTimerRef : option nat;
  nextId : nat;
  clock : Z
}.

Definition initialToast : ToastState := mkToast false [] None 1 0.

(** A copy, cut or context-menu attempt, or time passing. *)
Inductive ToastEvent := Attempt (t : Z) | Elapse (t : Z).

Definition event_time (ev : ToastEvent) : Z := match ev with Attempt t | Elapse t => t end.

(** The due timeouts run [setIsToastVisible(false)]; the ref keeps the
    id of a timeout that has run. *)
Definition advance (t : Z) (st : ToastState) : ToastState :=
  mkToast (if Nat.eqb (length (due t (pending st))) 0 then isToastVisible st else false)
          (not_due t (pending st)) (toastTimerRef st) (nextId st) t.

(** [showToast]: [if (toastTimerRef.current)] tests the id for
    truthiness, so an id 0 would not be cleared; browsers number their
    timeouts from 1. *)
Definition showToast (st : ToastState) : ToastState :=
  let p := match toastTimerRef st with
           | Some id => if negb (Nat.eqb id 0) then clearTimeout id (pending st) else pending st
           | None => pending st
           end in
  mkToast true (p ++ [(nextId st, clock st + TOAST_TIMEOUT)]) (Some (nextId st)) (S (nextId st)) (clock st).

(** The [copy], [cut] and [contextmenu] listeners all run
    [preventDefaultActions], that is [showToast]. *)
Definition toast_step (st : ToastState) (ev : ToastEvent) : ToastState :=
  let st1 := advance (event_time ev) st in
  match ev with Attempt _ => showToast st1 | Elapse _ => st1 end.

(** The cleanup of the listeners' effect, on unmount: the pending
    timeouts once the ref's timer, if truthy, is cleared. *)
Definition toast_unmount (st : ToastState) : Pending :=
  match toastTimerRef st with
  | Some id => if negb (Nat.eqb id 0) then clearTimeout id (pending st) else pending st
  | None => pending st
  end.

Definition toast_run (evs : list ToastEvent) : ToastState := fold_left toast_step evs initialToast.

(** The events of a run come in the order of time, from instant 0. *)
Fixpoint times_ordered (from : Z) (evs : list ToastEvent) : Prop :=
  match evs with
  | [] => True
  | ev :: rest => from <= event_time ev /\ times_ordered (event_time ev) rest
  end.

(** The instant of the last event. *)
Definition end_time (evs : list ToastEvent) : Z := fold_left (fun _ ev => event_time ev) evs 0.

(** The time of the last attempt of a run. *)
Definition lastStep (acc : option Z) (ev : ToastEvent) : option Z :=
  match ev with Attempt t => Some t | Elapse _ => acc end.
Definition lastAttempt (evs : list ToastEvent) : option Z := fold_left lastStep evs None.

(** Hidden with no timer since 3 s after the last attempt, or visible
    with the one timer of the last attempt, not yet due; the ids handed
    out are positive. *)
Definition toast_inv (st : ToastState) (la : option Z) : Prop :=
  nextId st <> 0%nat /\
  ((pending st = [] /\ isToastVisible st = false /\ forall ta, la = Some ta -> ta + TOAST_TIMEOUT <= clock st) \/
   (exists id ta, la = Some ta /\ pending st = [(id, ta + TOAST_TIMEOUT)] /\ toastTimerRef st = Some id /\
                  id <> 0%nat /\ isToastVisible st = true /\ clock st < ta + TOAST_TIMEOUT)).

Lemma toast_advance_inv t st la : toast_inv st la -> clock st <= t -> toast_inv (advance t st) la.
Proof.
  destruct st as [v p r n c]. unfold toast_inv, advance, due, not_due. simpl.
  intros [Hn [(-> & -> & Hb)|(id & ta & -> & -> & -> & Hid & -> & Hc)]] Hle; split; simpl; try done.
  - left. repeat split. intros ta Hta. specialize (Hb ta Hta). lia.
  - destruct (Z.leb_spec (ta + TOAST_TIMEOUT) t); simpl.
    + left. repeat split. by intros ? [= ->].
    + right. exists id, ta. repeat split; try done; lia.
Qed.

Lemma showToast_inv st la t : toast_inv st la -> clock st = t -> toast_inv (showToast st) (Some t).
Proof.
  destruct st as [v p r n c]. unfold toast_inv, showToast. simpl.
  intros [Hn Hi] <-. split; [done|]. right. exists n, c. repeat split; [|done|unfold TOAST_TIMEOUT; lia].
  destruct Hi as [(-> & _ & _)|(id & ta & _ & -> & -> & Hid & _ & _)].
  - by destruct r as [[|]|].
  - unfold clearTimeout. simpl. rewrite Nat.eqb_refl. by destruct id.
Qed.

Lemma toast_step_inv st la ev :
  toast_inv st la -> clock st <= event_time ev ->
  toast_inv (toast_step st ev) (lastStep la ev) /\ clock (toast_step st ev) = event_time ev.
Proof.
  intros Hi Hle. pose proof (toast_advance_inv _ _ _ Hi Hle) as Ha.
  unfold toast_step. destruct ev as [t|t]; simpl in *; [|done].
  split; [|done]. by apply (showToast_inv _ la).
Qed.

Lemma toast_fold_inv evs : forall st la from,
  toast_inv st la -> clock st = from -> times_ordered from evs ->
  toast_inv (fold_left toast_step evs st) (fold_left lastStep evs la) /\
  clock (fold_left toast_step evs st) = fold_left (fun _ ev => event_time ev) evs from.
Proof.
  induction evs as [|ev evs IH]; intros st la from Hi Hc Ho; simpl; [done|].
  destruct Ho as [Hle Ho]. destruct (toast_step_inv st la ev Hi ltac:(lia)) as [Hi' Hc'].
  exact (IH _ _ _ Hi' Hc' Ho).
Qed.

(** A run ordered in time ends in the invariant of its last attempt, at
    the instant of its last event. *)
Lemma toast_run_inv evs : times_ordered 0 evs ->
  toast_inv (toast_run evs) (lastAttempt evs) /\ clock (toast_run evs) = end_time evs.
Proof.
  intros Ho. apply (toast_fold_inv evs initialToast None 0); [|done|exact Ho].
  split; [done|left; by repeat split].
Qed.

(** Every attempt of an ordered run is no later than the last one. *)
Lemma last_attempt_max evs : forall la from ta,
  times_ordered from evs -> (forall tb, la = Some tb -> tb <= from) ->
  In (Attempt ta) evs \/ (exists tb, la = Some tb /\ ta <= tb) ->
  exists tl, fold_left lastStep evs la = Some tl /\ ta <= tl.
Proof.
  induction evs as [|ev evs IH]; intros la from ta Ho Hla Hin; simpl in *.
  - destruct Hin as [[] | (tb & -> & ?)]. by exists tb.
  - destruct Ho as [Hle Ho]. apply (IH (lastStep la ev) (event_time ev) ta Ho).
    + intros tb Htb. destruct ev as [t|t]; simpl in *; [injection Htb as ->; lia|]. specialize (Hla tb Htb). lia.
    + destruct Hin as [[-> | Hin] | (tb & Htb & ?)]; [right; exists ta; split; [reflexivity|lia] | by left |].
      right. destruct ev as [t|t]; simpl in *; [|by exists tb].
      exists t. specialize (Hla tb Htb). split; [done|lia].
Qed.

(** The last attempt is an attempt of the run, or the one before it. *)
Lemma last_attempt_in evs : forall la tl,
  fold_left lastStep evs la = Some tl -> In (Attempt tl) evs \/ la = Some tl.
Proof.
  induction evs as [|ev evs IH]; intros la tl H; simpl in *; [by right|].
  destruct (IH _ _ H) as [Hin | Hl]; [by left; right|].
  destruct ev as [t|t]; simpl in Hl; [injection Hl as ->; by left; left|by right].
Qed.

(** Unmounting after any run leaves no timeout of the toast. *)
Lemma toast_unmount_clears evs : times_ordered 0 evs -> toast_unmount (toast_run evs) = [].
Proof.
  intros Ho. destruct (toast_run_inv evs Ho) as [[_ Hi] _]. unfold toast_unmount.
  destruct Hi as [(Hp & _ & _)|(id & ta & _ & Hp & Hr & Hid & _)].
  - rewrite Hp. by destruct (toastTimerRef (toast_run evs)) as [[|]|].
  - rewrite Hr, Hp. unfold clearTimeout. simpl. rewrite Nat.eqb_refl. by destruct id.
Qed.

(** C33: The toast is visible at the end of a run of events ordered in time
    exactly when the run has a copy, cut or context-menu attempt less
    than 3 s before its last event: each attempt restarts the 3 s, and
    the timer of an earlier attempt never hides the toast of a later
    one. *)
Theorem toast_visible_iff evs :
  times_ordered 0 evs ->
  isToastVisible (toast_run evs) = true <->
  exists ta, In (Attempt ta) evs /\ end_time evs < ta + TOAST_TIMEOUT.
Proof.
  intros Ho. destruct (toast_run_inv evs Ho) as [[_ Hi] Hc]. rewrite Hc in Hi. split.
  - destruct Hi as [(_ & -> & _) | (id & ta & Hla & _ & _ & _ & _ & Hlt)]; [done|].
    intros _. exists ta. split; [|done].
    destruct (last_attempt_in _ _ _ Hla) as [Hin | Hn]; [exact Hin | discriminate].
  - intros (ta & Hin & Hlt).
    destruct (last_attempt_max evs None 0 ta Ho ltac:(done) (or_introl Hin)) as (tl & Htl & Hle).
    destruct Hi as [(_ & _ & Hb) | (_ & _ & _ & _ & _ & _ & Hv & _)]; [|exact Hv].
    specialize (Hb tl Htl). lia.
Qed.

End Toast.

(** ** Examples *)

Module TimersExamples.
Import HeaderInfo.

(** The popover opened by a click at 1 s closes at 11 s by itself; a
    [mousedown] outside closes it before. *)
Definition opened : HeaderState := header_step initialHeader (ToggleClick 1000).

Example demo_popover :
  isInfoVisible opened = true /\
  isInfoVisible (header_step opened (Elapse 10999)) = true /\
  isInfoVisible (header_step opened (Elapse 11000)) = false /\
  isInfoVisible (header_step opened (MouseDown false 2000)) = false /\
  isInfoVisible (header_step opened (MouseDown true 2000)) = true /\
  HeaderInfo.pending (header_step opened (ToggleClick 2000)) = [].
Proof. vm_compute. repeat split. Qed.

Lemma popover_closes_witness :
  header_reachable opened /\ isInfoVisible opened = true /\
  exists d, HeaderInfo.clock opened < d <= HeaderInfo.clock opened + INFO_TIMEOUT /\
    forall ev, d <= HeaderInfo.event_time ev -> (forall t, ev <> ToggleClick t) ->
      isInfoVisible (header_step opened ev) = false.
Proof.
  assert (Hr : header_reachable opened) by (apply header_next; [constructor | simpl; lia]).
  split; [exact Hr|]. split; [reflexivity|].
  apply (popover_closes opened Hr). reflexivity.
Defined.

Import Toast.

(** A second attempt at 3.5 s restarts the 3 s: the timer of the first
    attempt, due at 4 s, was cleared, and the toast is still shown at
    5 s; it is hidden at 6.5 s. *)
Definition demoAttempts : list ToastEvent := [Attempt 1000; Attempt 3500; Elapse 5000].

Example demo_toast :
  isToastVisible (toast_run demoAttempts) = true /\
  isToastVisible (toast_run (demoAttempts ++ [Elapse 6500])) = false /\
  isToastVisible (toast_run [Attempt 1000; Elapse 4000]) = false.
Proof. vm_compute. repeat split. Qed.

Lemma toast_visible_iff_witness :
  times_ordered 0 demoAttempts /\
  (isToastVisible (toast_run demoAttempts) = true <->
   exists ta, In (Attempt ta) demoAttempts /\ end_time demoAttempts < ta + TOAST_TIMEOUT).
Proof.
  assert (Ho : times_ordered 0 demoAttempts) by (simpl; lia).
  split; [exact Ho|]. apply (toast_visible_iff demoAttempts Ho).
Defined.

End TimersExamples.
