(* ===== verification/CardDisplay.v ===== *)
(** * CardDisplay: what the signal card prints ([src/components/SignalCard.tsx])

    The texts of the card, beside the panel logic of [UI.Card]:

    - [CardFormat]: the module-level helpers [formatTargetPrice] (the
      levels: entry zone, stop, targets), [formatPrice] (the current
      price, ATH and ATL) and [formatMarketData] (the market cap), with
      [Number.prototype.toFixed] as text for both signs. [formatPrice]
      calls [toLocaleString('en-US', {style: 'currency'})] of [Intl],
      and [formatMarketData] falls back on [Number.prototype.toString];
      both are Section variables, as the other uses of [Intl].
    - [readDecimal] is what a reader takes from such a text: the value
      of an optionally signed decimal numeral, as [parseFloat] reads it.

    - [Metrics]: the risk metrics panel: [lossPercent] and
      [profitPercents] from the current price, the risk/reward ratios
      and the texts of the rows.
    - [Panels]: the info panel (the rows of a [CryptoInfo], the site
      without its scheme) and the validation panel over [UI.Card].

    Theorems: every level the generator stores is printed exactly, the
    text of [formatTargetPrice] reading back as the stored number; a
    market figure's mantissa and its unit; the ratio of a target is its
    distance from the price over the stop's, whatever the leverage; a
    passed target shows "+-" before its profit, which two ticks of the
    application reach ([CardDisplayExamples.demo_reached_card]). *)

From Stdlib Require Import String Ascii QArith Qround Qabs Lqa ZArith List Lia.
From S2P Require Import Prelude Types Calendar Formatting JsRuntime.
From S2P Require Import HistoryView UI Lifecycle LifecycleProps AppShell.
Import ListNotations.
Open Scope Q_scope.
Open Scope js_scope.

Module CardFormat.
Import Format JsRuntime DateInput.

(** ** [toFixed] as text *)

(** The digits of [x.toFixed(d)] for [x >= 0]: without a point when
    [d] is 0. *)
Definition toFixed_digits (x : Q) (d : nat) : string :=
  match d with
  | O => zstring (fixed_n x 0)
  | S _ => string_of_list_ascii (toFixed_chars x d)
  end.

(** [x.toFixed(d)]: a negative number prints a minus sign and the digits
    of its opposite, so that [(-0.001).toFixed(2)] is ["-0.00"]. *)
Definition toFixed_str (x : Q) (d : nat) : string :=
  if x <? 0 then String "-" (toFixed_digits (- x) d) else toFixed_digits x d.

(** ** Reading a decimal text *)

Fixpoint digits_val (l : list ascii) (acc : Z) : option Z :=
  match l with
  | [] => Some acc
  | c :: r => match value_of c with Some k => digits_val r (acc * 10 + k)%Z | None => None end
  end.

(** The integer digits and, after the first point, the fraction digits. *)
Fixpoint split_dot (l : list ascii) : list ascii * option (list ascii) :=
  match l with
  | [] => ([], None)
  | c :: r => if Ascii.eqb c "."%char then ([], Some r) else let '(ip, fp) := split_dot r in (c :: ip, fp)
  end.

Definition readUnsigned (l : list ascii) : option Q :=
  let '(ip, fp) := split_dot l in
  match jsNumber (string_of_list_ascii ip), fp with
  | Some k, Some f => option_map (fun v => inject_Z k + inject_Z v / inject_Z (pow10 (length f))) (digits_val f 0)
  | Some k, None => Some (inject_Z k)
  | None, _ => None
  end.

(** The number a reader takes from a decimal text. *)
Definition readDecimal (s : string) : option Q :=
  match s with
  | String c r => if Ascii.eqb c "-"%char then option_map Qopp (readUnsigned (list_ascii_of_string r))
                  else readUnsigned (list_ascii_of_string s)
  | EmptyString => readUnsigned []
  end.

(** ** The helpers of [SignalCard.tsx] *)

(** [formatTargetPrice]: the places of [formatPriceValue] (2 above 100,
    4 from 1, 4 to 8 below 1 by the leading zeros of [toFixed(20)]),
    printed by [toFixed]; a price that is not positive prints ["0.00"]. *)
Definition formatTargetPrice (price : Q) : string :=
  if price <=? 0 then "0.00"
  else if 1 <=? price then toFixed_str price (if 100 <? price then 2 else 4)
  else
    let priceString := toFixed_chars price 20 in
    let decimalPart := decimal_part priceString in
    toFixed_str price (decimalPlaces (count_leading_zeros decimalPart)).

(** [formatMarketData(value: number | string)]. *)
Inductive MarketValue := MNum (v : Q) | MStr (s : string).

Section Intl.

(** [price.toLocaleString('en-US', {style: 'currency', currency: 'USD',
    minimumFractionDigits: d, maximumFractionDigits: d})]. *)
Variable toLocaleUSD : Q -> nat -> string.
(** [Number.prototype.toString]. *)
Variable numberToString : Q -> string.

(** [formatPrice]: the places of [formatTargetPrice] for a positive
    price, 2 otherwise; the [typeof]/[isNaN] guard has no case among
    the rationals. *)
Definition formatPrice (price : Q) : string :=
  if 1 <=? price then toLocaleUSD price (if 100 <? price then 2 else 4)
  else if 0 <? price then
    let priceString := toFixed_chars price 20 in
    let decimalPart := decimal_part priceString in
    toLocaleUSD price (decimalPlaces (count_leading_zeros decimalPart))
  else toLocaleUSD price 2.

(** [formatMarketData]: a string as it is, [0] as ["N/A"], then
    billions, millions and thousands with two places, a smaller number
    by [toString]. [Number(value)] of a number is the number itself. *)
Definition formatMarketData (value : MarketValue) : string :=
  match value with
  | MStr s => s
  | MNum v =>
      if v =? 0 then "N/A"
      else if 1000000000 <=? v then ("$" ++ toFixed_str (v / 1000000000) 2 ++ "B")%string
      else if 1000000 <=? v then ("$" ++ toFixed_str (v / 1000000) 2 ++ "M")%string
      else if 1000 <=? v then ("$" ++ toFixed_str (v / 1000) 2 ++ "K")%string
      else numberToString v
  end.

End Intl.

(** ** Lemmas *)

(** The places both routines choose for a positive number. *)
Definition chosenDecimals (p : Q) : nat :=
  if 1 <=? p then (if 100 <? p then 2 else 4) else small_decimals (fixed_n p 20).

Lemma formatTargetPrice_pos p : 0 < p -> formatTargetPrice p = toFixed_str p (chosenDecimals p).
Proof.
  intros Hp. unfold formatTargetPrice, chosenDecimals. qcase (p <=? 0); [lra|].
  destruct (1 <=? p); [reflexivity|]. cbv zeta. rewrite decimal_part_toFixed. reflexivity.
Qed.

Lemma formatPriceValue_chosen v : 0 < v -> formatPriceValue v = toFixed v (chosenDecimals v).
Proof.
  intros Hv. unfold chosenDecimals. qcase (1 <=? v).
  - apply formatPriceValue_large; lra.
  - apply formatPriceValue_small; lra.
Qed.

Lemma toFixed_str_nonneg x d : 0 <= x -> (d <> 0)%nat -> toFixed_str x d = string_of_list_ascii (toFixed_chars x d).
Proof. intros Hx Hd. unfold toFixed_str, toFixed_digits. qcase (x <? 0); [lra|]. destruct d; [contradiction|reflexivity]. Qed.

Lemma toFixed_str_neg x d : x < 0 -> (d <> 0)%nat ->
  toFixed_str x d = String "-" (string_of_list_ascii (toFixed_chars (- x) d)).
Proof. intros Hx Hd. unfold toFixed_str, toFixed_digits. qcase (x <? 0); [|lra]. destruct d; [contradiction|reflexivity]. Qed.

Lemma digits_val_fixed n w acc : (0 <= n)%Z ->
  digits_val (fixed_digits n w) acc = Some (acc * pow10 w + n mod pow10 w)%Z.
Proof.
  intros Hn. revert acc. induction w as [|w IH]; intros acc; cbn [fixed_digits digits_val].
  - change (pow10 0) with 1%Z. rewrite Z.mod_1_r. f_equal. lia.
  - pose proof (pow10_pos w) as Hp.
    assert (Hq : (0 <= (n / pow10 w) mod 10 < 10)%Z) by (apply Z.mod_pos_bound; lia).
    unfold digit_char. fold (digit_of ((n / pow10 w) mod 10)). rewrite (value_of_digit_of _ Hq). rewrite IH. f_equal.
    rewrite pow10_S, (Z.mul_comm 10 (pow10 w)), (Z.rem_mul_r n (pow10 w) 10) by lia. lia.
Qed.

Lemma split_dot_digits l r :
  Forall (fun c => is_key_char c = true) l -> split_dot (l ++ "."%char :: r) = (l, Some r).
Proof.
  induction 1 as [|c l Hc _ IH]; [reflexivity|]. simpl. rewrite IH.
  destruct (Ascii.eqb_spec c "."%char) as [->|_]; [discriminate|reflexivity].
Qed.

Lemma zstring_head_digit k : (0 <= k)%Z ->
  exists c r, zstring k = String c r /\ Ascii.eqb c "-"%char = false.
Proof.
  intros Hk. pose proof (zstring_no_dash k Hk) as H. pose proof (zstring_not_empty k) as Hne.
  destruct (zstring k) as [|c r]; [congruence|]. exists c, r. split; [reflexivity|].
  inversion H as [|? ? Hc]; subst. destruct (Ascii.eqb_spec c "-"%char); congruence.
Qed.

Lemma readDecimal_unsigned c l : Ascii.eqb c "-"%char = false ->
  readDecimal (string_of_list_ascii (c :: l)) = readUnsigned (c :: l).
Proof.
  intros Hc. cbn [string_of_list_ascii readDecimal]. rewrite Hc.
  cbn [list_ascii_of_string]. rewrite list_ascii_of_string_of_list_ascii. reflexivity.
Qed.

(** The digits of [toFixed] read back as the number [toFixed] rounds to. *)
Lemma readUnsigned_toFixed x d : 0 <= x ->
  exists q, readUnsigned (toFixed_chars x d) = Some q /\ q == toFixed x d.
Proof.
  intros Hx. pose proof (fixed_n_nonneg x d Hx) as Hn. pose proof (pow10_pos d) as Hp.
  set (n := fixed_n x d) in *. unfold toFixed_chars, readUnsigned. fold n.
  rewrite split_dot_digits by apply zstring_key_chars.
  rewrite string_of_list_ascii_of_string, jsNumber_zstring, digits_val_fixed by lia.
  eexists; split; [reflexivity|]. rewrite length_fixed_digits. unfold toFixed.
  assert (Hpq : 0 < inject_Z (pow10 d)) by apply pow10_posQ.
  fold n. rewrite Z.mul_0_l, Z.add_0_l. rewrite (Z.div_mod n (pow10 d)) at 3 by lia.
  rewrite inject_Z_plus, inject_Z_mult. field. lra.
Qed.

Lemma toFixed_chars_head x d : 0 <= x ->
  exists c l, toFixed_chars x d = c :: l /\ Ascii.eqb c "-"%char = false.
Proof.
  intros Hx. pose proof (fixed_n_nonneg x d Hx) as Hn. pose proof (pow10_pos d) as Hp.
  destruct (zstring_head_digit (fixed_n x d / pow10 d) ltac:(apply Z.div_pos; lia)) as (c & r & Hz & Hc).
  unfold toFixed_chars. rewrite Hz. cbn [list_ascii_of_string app]. eexists _, _. split; [reflexivity|exact Hc].
Qed.

(** The text of [toFixed] reads back as the number [toFixed] rounds to. *)
Lemma readDecimal_toFixed x d : 0 <= x ->
  exists q, readDecimal (string_of_list_ascii (toFixed_chars x d)) = Some q /\ q == toFixed x d.
Proof.
  intros Hx. destruct (toFixed_chars_head x d Hx) as (c & l & E & Hc).
  rewrite E, (readDecimal_unsigned c l Hc), <- E. apply readUnsigned_toFixed, Hx.
Qed.

(** A [toFixed] text with places, of either sign, reads back within half
    a unit of its last place. *)
Lemma readDecimal_toFixed_str x d : (d <> 0)%nat ->
  exists q, readDecimal (toFixed_str x d) = Some q /\ Qabs (q - x) <= 1 / (2 * inject_Z (pow10 d)).
Proof.
  intros Hd. destruct (Qlt_le_dec x 0) as [Hx|Hx].
  - rewrite (toFixed_str_neg x d Hx Hd). cbn [readDecimal]. change (Ascii.eqb "-" "-") with true. cbv iota.
    rewrite list_ascii_of_string_of_list_ascii.
    destruct (readUnsigned_toFixed (- x) d ltac:(lra)) as (q & Hr & Hq). rewrite Hr.
    exists (- q). split; [reflexivity|]. rewrite Hq.
    assert (E : - toFixed (- x) d - x == - (toFixed (- x) d - - x)) by ring.
    rewrite E, Qabs_opp. apply toFixed_error.
  - rewrite (toFixed_str_nonneg x d Hx Hd). destruct (readDecimal_toFixed x d Hx) as (q & Hr & Hq).
    exists q. split; [exact Hr|]. rewrite Hq. apply toFixed_error.
Qed.

(** ** Numbers on the grid of [toFixed] *)

Lemma fixed_n_exact x e z : x * inject_Z (pow10 e) == inject_Z z -> fixed_n x e = z.
Proof.
  intros H. unfold fixed_n, js_round.
  rewrite (Qfloor_comp _ (inject_Z z + (1 # 2))) by (rewrite H; reflexivity).
  apply Z.le_antisymm; [apply Qfloor_le_Z|apply Qfloor_ge_Z]; lra.
Qed.

(** A number with at most [e] places is printed by [toFixed(e)] as it is. *)
Lemma toFixed_on_grid x m k e : (k <= e)%nat ->
  x == inject_Z m / inject_Z (pow10 k) -> toFixed x e == x.
Proof.
  intros Hk Hx. pose proof (pow10_posQ e) as He.
  assert (Hg : x * inject_Z (pow10 e) == inject_Z (m * pow10 (e - k))) by (rewrite Hx; apply grid_scale, Hk).
  unfold toFixed. rewrite (fixed_n_exact _ _ _ Hg), <- Hg. field. lra.
Qed.

Lemma decimalPlaces_mono a b : (a <= b)%nat -> (decimalPlaces a <= decimalPlaces b)%nat.
Proof.
  intros H. destruct (Nat.le_gt_cases 5 a) as [Ha|Ha].
  - rewrite !decimalPlaces_ge5 by lia. lia.
  - do 5 (destruct a as [|a]; [do 5 (destruct b as [|b]; [simpl; lia|]); simpl; lia|]). lia.
Qed.

Lemma chosenDecimals_ge2 p : (2 <= chosenDecimals p)%nat.
Proof.
  unfold chosenDecimals, small_decimals. destruct (1 <=? p); [destruct (100 <? p); lia|].
  pose proof (decimalPlaces_bounds (count_leading_zeros (fixed_digits (fixed_n p 20) 20))). lia.
Qed.

Lemma level_Z1 k : inject_Z 1 / inject_Z (pow10 k) * inject_Z (pow10 20) == inject_Z (pow10 (20 - k)) \/ (20 < k)%nat.
Proof.
  destruct (Nat.le_gt_cases k 20) as [Hk|Hk]; [left|right; exact Hk].
  rewrite grid_scale by exact Hk. rewrite Z.mul_1_l. reflexivity.
Qed.

(** Below 1, a stored price that the scan of its own expansion gives
    fewer places than the original had is a power of ten with at most
    that many places: rounding carried it up to [10^-k]. *)
Lemma small_on_grid v : 0 < v -> v < 1 ->
  let d := small_decimals (fixed_n v 20) in
  let w := toFixed v d in
  0 < w -> w < 1 -> (small_decimals (fixed_n w 20) < d)%nat ->
  exists k, (k <= small_decimals (fixed_n w 20))%nat /\ w == inject_Z 1 / inject_Z (pow10 k).
Proof.
  intros Hv Hv1 d w Hw Hw1 Hlt. unfold small_decimals in *.
  set (nv := fixed_n v 20) in *. set (n := fixed_n v d).
  set (zv := count_leading_zeros (fixed_digits nv 20)) in *.
  pose proof (decimalPlaces_bounds zv) as Bv.
  assert (Hd20 : (d <= 20)%nat) by (unfold d; lia).
  assert (Hws0 : w * inject_Z (pow10 20) == inject_Z (n * pow10 (20 - d))).
  { unfold w, toFixed. fold n. apply grid_scale, Hd20. }
  assert (Hnw : fixed_n w 20 = (n * pow10 (20 - d))%Z) by (apply fixed_n_exact, Hws0).
  set (nw := fixed_n w 20) in *. set (zw := count_leading_zeros (fixed_digits nw 20)) in *.
  pose proof (decimalPlaces_bounds zw) as Bw.
  assert (Hz : (zw < zv)%nat).
  { destruct (Nat.lt_ge_cases zw zv) as [|Hge]; [assumption|].
    pose proof (decimalPlaces_mono _ _ Hge). unfold d in Hlt. lia. }
  assert (Hzw : (zw <= 4)%nat).
  { destruct (Nat.le_gt_cases zw 4) as [|Hg]; [assumption|].
    rewrite (decimalPlaces_ge5 zw) in Hlt by lia. unfold d in Hlt. lia. }
  pose proof (fixed_n_nonneg v 20 ltac:(lra)) as Hnv0. fold nv in Hnv0.
  pose proof (fixed_n_below_one v Hv1) as Hnv1. fold nv in Hnv1.
  assert (Hnv : (nv < pow10 20)%Z).
  { destruct (Z.eq_dec nv (pow10 20)) as [E|]; [|lia].
    assert (inject_Z 1 / inject_Z (pow10 0) <= w) by (apply level_above_from_n; [lia|lia|]; simpl; lia).
    change (inject_Z 1 / inject_Z (pow10 0)) with 1 in *. lra. }
  assert (Hvk : v <= inject_Z 1 / inject_Z (pow10 (S zw))).
  { apply level_below_from_n; [lia|]. rewrite Z.mul_1_l.
    apply (clz_fixed_digits nv 20 (S zw)); lia. }
  assert (Hwk : w <= inject_Z 1 / inject_Z (pow10 (S zw))) by (apply toFixed_below_level; [unfold d; lia|exact Hvk]).
  pose proof (pow10_posQ 20) as HP.
  assert (Hws : w * inject_Z (pow10 20) == inject_Z nw) by (rewrite Hnw; exact Hws0).
  assert (Hnw0 : (0 <= nw < pow10 20)%Z).
  { split; [apply fixed_n_nonneg; lra|]. rewrite Zlt_Qlt, <- Hws. nra. }
  assert (Hge : (pow10 (20 - S zw) <= nw)%Z).
  { destruct (Z.lt_ge_cases nw (pow10 (20 - S zw))) as [Hl|]; [|assumption].
    apply (clz_fixed_digits nw 20 (S zw)) in Hl; [|lia|lia]. fold zw in Hl. lia. }
  exists (S zw). split; [lia|].
  apply Qle_antisym; [exact Hwk|].
  apply (Qmult_le_r _ _ (inject_Z (pow10 20))); [exact HP|].
  rewrite Hws, grid_scale by lia. rewrite Z.mul_1_l. rewrite <- Zle_Qle. exact Hge.
Qed.

(** Every stored price lies on the grid of the places [formatTargetPrice]
    chooses for it. *)
Lemma stored_on_grid v : 0 < v ->
  let w := toFixed v (chosenDecimals v) in 0 < w ->
  exists m k, (k <= chosenDecimals w)%nat /\ w == inject_Z m / inject_Z (pow10 k).
Proof.
  cbv zeta. intros Hv Hw.
  destruct (Nat.le_gt_cases (chosenDecimals v) (chosenDecimals (toFixed v (chosenDecimals v)))) as [Hle|Hlt].
  { exists (fixed_n v (chosenDecimals v)), (chosenDecimals v). split; [exact Hle|reflexivity]. }
  pose proof (chosenDecimals_ge2 (toFixed v (chosenDecimals v))) as H2.
  destruct (Qlt_le_dec v 1) as [Hv1|Hv1].
  - assert (Ed : chosenDecimals v = small_decimals (fixed_n v 20))
      by (unfold chosenDecimals; qcase (1 <=? v); [lra|reflexivity]).
    rewrite Ed in *. set (w := toFixed v (small_decimals (fixed_n v 20))) in *.
    assert (Hw1 : w <= inject_Z 1 / inject_Z (pow10 0))
      by (apply toFixed_below_level; [lia|change (inject_Z 1 / inject_Z (pow10 0)) with 1; lra]).
    change (inject_Z 1 / inject_Z (pow10 0)) with 1 in Hw1.
    destruct (Qlt_le_dec w 1) as [Hw1'|Hw1'].
    + assert (Ew : chosenDecimals w = small_decimals (fixed_n w 20))
        by (unfold chosenDecimals; qcase (1 <=? w); [lra|reflexivity]).
      rewrite Ew in *. destruct (small_on_grid v Hv Hv1 Hw Hw1' Hlt) as (k & Hk & E).
      exists 1%Z, k. split; [exact Hk|exact E].
    + exists 1%Z, 0%nat. split; [lia|]. change (inject_Z 1 / inject_Z (pow10 0)) with 1. lra.
  - assert (Ed : chosenDecimals v = if 100 <? v then 2%nat else 4%nat)
      by (unfold chosenDecimals; qcase (1 <=? v); [reflexivity|lra]).
    rewrite Ed in *. qcase (100 <? v); [lia|].
    set (w := toFixed v 4) in *.
    assert (Hw100 : w <= inject_Z 100 / inject_Z (pow10 0)) by (apply toFixed_below_level; [lia|exact Hc]).
    change (inject_Z 100 / inject_Z (pow10 0)) with 100 in Hw100.
    unfold chosenDecimals, small_decimals in Hlt. qcase (1 <=? w); [qcase (100 <? w); [lra|lia]|].
    pose proof (decimalPlaces_bounds (count_leading_zeros (fixed_digits (fixed_n w 20) 20))). lia.
Qed.

(** The two copies of the places switch agree: [formatPrice] shows a
    positive price with the places of [formatTargetPrice]. *)
Lemma formatPrice_chosen toLocaleUSD p : 0 < p -> formatPrice toLocaleUSD p = toLocaleUSD p (chosenDecimals p).
Proof.
  intros Hp. unfold formatPrice, chosenDecimals. destruct (1 <=? p); [reflexivity|].
  qcase (0 <? p); [|lra]. cbv zeta. rewrite decimal_part_toFixed. reflexivity.
Qed.

(** The mantissa of a suffixed market figure as a reader reads it. *)
Lemma mantissa_read m : 1 <= m ->
  exists q, readDecimal (toFixed_str m 2) = Some q /\ Qabs (q - m) <= 1 # 200 /\ 1 <= q /\
            (m < 1000 -> q <= 1000).
Proof.
  intros Hm. rewrite toFixed_str_nonneg by (lra || discriminate).
  destruct (readDecimal_toFixed m 2 ltac:(lra)) as (q & Hr & Hq). exists q.
  split; [exact Hr|]. rewrite Hq. split; [exact (toFixed_error m 2)|]. split.
  - change 1 with (inject_Z 1 / inject_Z (pow10 0)) at 1. apply toFixed_above_level; [lia|].
    change (inject_Z 1 / inject_Z (pow10 0)) with 1. change (1 / (2 * inject_Z (pow10 2))) with (1 # 200). lra.
  - intros H. change 1000 with (inject_Z 1000 / inject_Z (pow10 0)).
    apply toFixed_below_level; [lia|]. change (inject_Z 1000 / inject_Z (pow10 0)) with 1000. lra.
Qed.

(** C19: The card prints every stored level exactly: the text that
    [formatTargetPrice] shows for a price rounded by [formatPriceValue]
    (the entry zone, the stop and the five targets of a signal) reads
    back as the stored number, whatever the raw price was. *)
Theorem stored_level_printed v :
  exists q, readDecimal (formatTargetPrice (formatPriceValue v)) = Some q /\ q == formatPriceValue v.
Proof.
  pose proof (formatPriceValue_nonneg v) as H0.
  destruct (Qlt_le_dec 0 (formatPriceValue v)) as [Hw|Hw].
  - assert (Hv : 0 < v) by (destruct (Qlt_le_dec 0 v) as [|Hv]; [assumption|];
      unfold formatPriceValue in Hw; qcase (v <=? 0); lra).
    rewrite formatTargetPrice_pos by lra.
    rewrite toFixed_str_nonneg; [|lra|pose proof (chosenDecimals_ge2 (formatPriceValue v)); lia].
    destruct (readDecimal_toFixed (formatPriceValue v) (chosenDecimals (formatPriceValue v)) H0) as (q & Hr & Hq).
    exists q. split; [exact Hr|]. rewrite Hq.
    rewrite formatPriceValue_chosen in * by exact Hv.
    destruct (stored_on_grid v Hv Hw) as (m & k & Hk & E). exact (toFixed_on_grid _ m k _ Hk E).
  - unfold formatTargetPrice. qcase (formatPriceValue v <=? 0); [|lra].
    eexists; split; [reflexivity|]. apply Qeq_trans with 0; [vm_compute; reflexivity|lra].
Qed.

(** C36: [formatMarketData] prints a figure of at least a thousand as a
    dollar sign, the figure divided by 10^3, 10^6 or 10^9 with two
    places, and the suffix [K], [M] or [B] of that unit. The printed
    mantissa is within 0.005 of the quotient and at least 1; below a
    billion it is at most 1000, and it reaches 1000 (["$1000.00K"] where
    ["$1.00M"] is meant) from 999.995 units on. There is no unit above
    the billion, so the mantissa of a larger figure exceeds 1000. *)
Theorem formatMarketData_mantissa numberToString v : 1000 <= v ->
  exists unit suffix q,
    In (unit, suffix) [(1000, "K"); (1000000, "M"); (1000000000, "B")]%string /\
    formatMarketData numberToString (MNum v) = ("$" ++ toFixed_str (v / unit) 2 ++ suffix)%string /\
    readDecimal (toFixed_str (v / unit) 2) = Some q /\
    Qabs (q - v / unit) <= 1 # 200 /\ 1 <= q /\ (unit < 1000000000 -> q <= 1000).
Proof.
  intros Hv. unfold formatMarketData. qcase (v =? 0); [lra|].
  qcase (1000000000 <=? v); [|qcase (1000000 <=? v); [|qcase (1000 <=? v); [|lra]]].
  - destruct (mantissa_read (v / 1000000000) ltac:(apply Qle_shift_div_l; lra)) as (q & Hr & He & H1 & _).
    exists 1000000000, "B"%string, q. repeat split; auto; [simpl; tauto|lra].
  - destruct (mantissa_read (v / 1000000) ltac:(apply Qle_shift_div_l; lra)) as (q & Hr & He & H1 & Hb).
    exists 1000000, "M"%string, q. repeat split; auto; [simpl; tauto|intros; apply Hb, Qlt_shift_div_r; lra].
  - destruct (mantissa_read (v / 1000) ltac:(apply Qle_shift_div_l; lra)) as (q & Hr & He & H1 & Hb).
    exists 1000, "K"%string, q. repeat split; auto; [simpl; tauto|intros; apply Hb, Qlt_shift_div_r; lra].
Qed.

End CardFormat.

(** ** The risk metrics panel *)

Module Metrics.
Import Format CardFormat.

Definition isLong (s : TradingSignal) : bool :=
  match direction (params s) with LONG => true | SHORT => false end.

(** [lossPercent]: the move to the stop from the current price, in
    percent, times the leverage. *)
Definition lossPercent (s : TradingSignal) : Q :=
  let entryPriceForMetrics := price s in
  let lev := inject_Z (safeLeverage (params s)) in
  if isLong s then ((stopLoss (params s) - entryPriceForMetrics) / entryPriceForMetrics) * 100 * lev
  else ((entryPriceForMetrics - stopLoss (params s)) / entryPriceForMetrics) * 100 * lev.

(** [profitPercents]: the same for each target. *)
Definition profitPercents (s : TradingSignal) : list Q :=
  let entryPriceForMetrics := price s in
  let lev := inject_Z (safeLeverage (params s)) in
  map (fun tp => if isLong s then ((tp - entryPriceForMetrics) / entryPriceForMetrics) * 100 * lev
                 else ((entryPriceForMetrics - tp) / entryPriceForMetrics) * 100 * lev)
      (takeProfit (params s)).

(** [rrRatio]: [lossPercent !== 0 ? Math.abs(profit / lossPercent) : 0]. *)
Definition rrRatio (profit loss : Q) : Q := if negb (loss =? 0) then js_abs (profit / loss) else 0.

(** An [InfoRow] of the panel: its label and the texts of its value. *)
Record MetricRow := mkRow { row_label : string; row_texts : list string }.

Fixpoint profitRows (loss : Q) (index : nat) (profits : list Q) : list MetricRow :=
  match profits with
  | [] => []
  | profit :: rest =>
      let rrRatio := rrRatio profit loss in
      mkRow ("Lucro (Alvo " ++ zstring (Z.of_nat (index + 1)) ++ ")")
            ["+" ++ toFixed_str profit 2 ++ "%"; "(1:" ++ toFixed_str rrRatio 1 ++ ")"]%string
        :: profitRows loss (S index) rest
  end.

(** The rows of the open metrics panel: the loss, then one row per
    target with its profit and its risk/reward ratio. *)
Definition metricsRows (s : TradingSignal) : list MetricRow :=
  mkRow "Perda (Stop)" [(toFixed_str (lossPercent s) 2 ++ "%")%string]
    :: profitRows (lossPercent s) 0 (profitPercents s).

(** [probabilityColor]. *)
Definition probabilityColor (s : TradingSignal) : string :=
  if (90 <=? probability (params s))%Z then "bg-brand-blue"
  else if (80 <=? probability (params s))%Z then "bg-brand-green" else "bg-yellow-400".

(** ** Lemmas *)

(** The percent of a level, from the current price [e] with leverage
    [lev], as both formulas of the card compute it. *)
Definition levelPercent (long : bool) (e lev x : Q) : Q :=
  if long then ((x - e) / e) * 100 * lev else ((e - x) / e) * 100 * lev.

Lemma lossPercent_level s :
  lossPercent s = levelPercent (isLong s) (price s) (inject_Z (safeLeverage (params s))) (stopLoss (params s)).
Proof. unfold lossPercent, levelPercent. destruct (isLong s); reflexivity. Qed.

Lemma nth_profitPercents s i tp : nth_error (takeProfit (params s)) i = Some tp ->
  nth_error (profitPercents s) i = Some (levelPercent (isLong s) (price s) (inject_Z (safeLeverage (params s))) tp).
Proof.
  intros H. unfold profitPercents. rewrite nth_error_map, H. cbn [option_map].
  unfold levelPercent. destruct (isLong s); reflexivity.
Qed.

Lemma levelPercent_nonzero long e lev x : ~ e == 0 -> ~ lev == 0 -> ~ x == e -> ~ levelPercent long e lev x == 0.
Proof.
  intros He Hl Hx H0.
  assert (E : levelPercent long e lev x * e == (if long then x - e else e - x) * 100 * lev)
    by (unfold levelPercent; destruct long; field; exact He).
  rewrite H0, Qmult_0_l in E. symmetry in E.
  apply Qmult_integral in E as [E|E]; [apply Qmult_integral in E as [E|E]|]; try contradiction; [|discriminate].
  destruct long; apply Hx; lra.
Qed.

(** The leverage and the direction cancel in the ratio of two levels. *)
Lemma levelPercent_ratio long e lev x y : ~ e == 0 -> ~ lev == 0 -> ~ y == e ->
  Qabs (levelPercent long e lev x / levelPercent long e lev y) == Qabs (x - e) / Qabs (e - y).
Proof.
  intros He Hl Hy.
  assert (Hye : ~ y - e == 0) by (intro; apply Hy; lra).
  assert (E : levelPercent long e lev x / levelPercent long e lev y == (x - e) * / - (e - y))
    by (unfold levelPercent; destruct long; field; repeat split; auto; intro; apply Hy; lra).
  rewrite E, Qabs_Qmult, Qabs_Qinv, Qabs_opp. reflexivity.
Qed.

Lemma profitRows_nth loss index profits i p : nth_error profits i = Some p ->
  nth_error (profitRows loss index profits) i =
  Some (mkRow ("Lucro (Alvo " ++ zstring (Z.of_nat (index + i + 1)) ++ ")")
              ["+" ++ toFixed_str p 2 ++ "%"; "(1:" ++ toFixed_str (rrRatio p loss) 1 ++ ")"]%string).
Proof.
  revert index i. induction profits as [|q rest IH]; intros index [|i] H; simpl in H; try discriminate.
  - injection H as ->. cbn [profitRows nth_error]. rewrite Nat.add_0_r. reflexivity.
  - cbn [profitRows nth_error]. rewrite (IH (S index) i H).
    replace (S index + i + 1)%nat with (index + S i + 1)%nat by lia. reflexivity.
Qed.

Lemma levelPercent_neg (long : bool) e lev x : 0 < e -> 0 < lev -> (if long then x < e else e < x) ->
  levelPercent long e lev x < 0.
Proof.
  intros He Hl Hx. assert (Hi : 0 < / e) by (apply Qinv_lt_0_compat, He).
  assert (M : forall a b, a < 0 -> 0 < b -> a * b < 0)
    by (intros a b Ha Hb; rewrite <- (Qmult_0_l b); apply Qmult_lt_compat_r; assumption).
  unfold levelPercent, Qdiv. destruct long; apply M; try exact Hl; apply M; try lra; apply M; lra.
Qed.

(** C35: The ratio the panel shows for a target is the distance of the
    target from the current price over the distance of the stop from
    it: neither the leverage nor the direction changes it. A stop at
    the current price would make the loss 0, and the card shows 0. *)
Theorem rrRatio_distance s i tp :
  0 < price s -> safeLeverage (params s) <> 0%Z -> ~ stopLoss (params s) == price s ->
  nth_error (takeProfit (params s)) i = Some tp ->
  exists profit, nth_error (profitPercents s) i = Some profit /\
    rrRatio profit (lossPercent s) == Qabs (tp - price s) / Qabs (price s - stopLoss (params s)).
Proof.
  intros He Hl Hs Htp. rewrite (nth_profitPercents s i tp Htp). eexists; split; [reflexivity|].
  assert (Hl' : ~ inject_Z (safeLeverage (params s)) == 0) by (rewrite inject_Z_injective with (b := 0%Z) (a := _) ; lia).
  unfold rrRatio. rewrite lossPercent_level.
  qcase (levelPercent (isLong s) (price s) (inject_Z (safeLeverage (params s))) (stopLoss (params s)) =? 0).
  - exfalso. revert Hc. apply levelPercent_nonzero; auto. lra.
  - cbn [negb]. rewrite js_abs_eq. apply levelPercent_ratio; auto. lra.
Qed.

(** C20: A target already passed by the current price (a partial win: the
    signal stays on the board, its price updated by every tick) has a
    negative profit, and the panel prints it after a plus sign, as
    ["+-0.49%"]. *)
Theorem passed_target_plus_minus s i tp :
  0 < price s -> (0 < safeLeverage (params s))%Z -> nth_error (takeProfit (params s)) i = Some tp ->
  (if isLong s then tp < price s else price s < tp) ->
  exists profit, profit < 0 /\
    nth_error (metricsRows s) (S i) =
      Some (mkRow ("Lucro (Alvo " ++ zstring (Z.of_nat (i + 1)) ++ ")")
             ["+-" ++ string_of_list_ascii (toFixed_chars (- profit) 2) ++ "%";
              "(1:" ++ toFixed_str (rrRatio profit (lossPercent s)) 1 ++ ")"]%string).
Proof.
  intros He Hl Htp Hside.
  set (profit := levelPercent (isLong s) (price s) (inject_Z (safeLeverage (params s))) tp).
  assert (Hneg : profit < 0).
  { apply levelPercent_neg; [exact He| |exact Hside]. change 0 with (inject_Z 0). rewrite <- Zlt_Qlt. exact Hl. }
  exists profit. split; [exact Hneg|]. unfold metricsRows. cbn [nth_error].
  rewrite (profitRows_nth _ 0 _ i profit (nth_profitPercents s i tp Htp)), (toFixed_str_neg _ 2 Hneg ltac:(discriminate)).
  reflexivity.
Qed.

End Metrics.

(** ** The info and validation panels *)

Module Panels.
Import Card CardFormat.
Local Open Scope string_scope.

(** [s.replace(/^(https?:\/\/)?(www\.)?/, '')]: an optional scheme,
    then an optional [www.], removed from the front. *)
Definition strip_prefix (p s : string) : option string :=
  if String.prefix p s then Some (substring (String.length p) (String.length s - String.length p) s) else None.

Definition websiteLabel (website : string) : string :=
  let afterScheme :=
    match strip_prefix "https://" website with
    | Some r => r
    | None => match strip_prefix "http://" website with Some r => r | None => website end
    end in
  match strip_prefix "www." afterScheme with Some r => r | None => afterScheme end.

(** The labels of the rows of the info panel. *)
Inductive InfoLabel := Nome | Categoria | Site | Lancamento | Capitalizacao | FornecimentoTotal
  | FornecimentoMaximo | ATH | ATL.

Section Intl.
Variable toLocaleUSD : Q -> nat -> string.
Variable numberToString : Q -> string.

(** The rows of a loaded [CryptoInfo]; the site row only for a
    non-empty (truthy) website. *)
Definition infoRows (ci : CryptoInfo) : list (InfoLabel * string) :=
  [(Nome, ci_name ci ++ " (" ++ ci_symbol ci ++ ")"); (Categoria, ci_category ci)] ++
  (if String.eqb (ci_website ci) "" then [] else [(Site, websiteLabel (ci_website ci))]) ++
  [(Lancamento, ci_launchDate ci);
   (Capitalizacao, formatMarketData numberToString (MNum (ci_marketCap ci)));
   (FornecimentoTotal, formatMarketData numberToString (MStr (ci_totalSupply ci)));
   (FornecimentoMaximo, formatMarketData numberToString (MStr (ci_maxSupply ci)));
   (ATH, formatPrice toLocaleUSD (ci_ath ci)); (ATL, formatPrice toLocaleUSD (ci_atl ci))].

Inductive InfoBody := InfoLoading | InfoTable (rows : list (InfoLabel * string)) | InfoNothing.

(** The info panel when it is open: the loading text, the rows, or
    nothing while no info is set. *)
Definition infoPanel (st : CardState) : option InfoBody :=
  if isInfoVisible st then
    Some (if isInfoLoading st then InfoLoading
          else match cryptoInfo st with Some ci => InfoTable (infoRows ci) | None => InfoNothing end)
  else None.

End Intl.

Inductive ValidationBody := ValidationSpinner | ValidationErrorText (e : string)
  | ValidationResultText (r : string) | ValidationNothing.

(** A string is truthy when it is not empty. *)
Definition truthy_str (o : option string) : option string :=
  match o with Some s => if String.eqb s "" then None else Some s | None => None end.

(** The validation panel when it is open: the spinner, the error, the
    analysis, or nothing. *)
Definition validationPanel (st : CardState) : option ValidationBody :=
  if isValidationVisible st then
    Some (if isValidationLoading st then ValidationSpinner
          else match truthy_str (validationError st) with
               | Some e => ValidationErrorText e
               | None => match truthy_str (validationResult st) with
                         | Some r => ValidationResultText r
                         | None => ValidationNothing
                         end
               end)
  else None.

End Panels.

(** ** Examples *)

Module CardDisplayExamples.
Import Format CardFormat Metrics Panels LifecycleProps.TickExamples AppShell AppShellExamples.

Definition numberToString (_ : Q) : string := "n".

Example demo_targets :
  formatTargetPrice (1234567 # 100000) = "12.3457"%string /\
  formatTargetPrice 150 = "150.00"%string /\
  formatTargetPrice (12345 # 1000000000) = "0.0000123"%string /\
  formatTargetPrice (1 # 1000000000) = "0.00000000"%string /\
  formatTargetPrice (-3) = "0.00"%string /\
  toFixed_str (-1 # 1000) 2 = "-0.00"%string.
Proof. vm_compute. repeat split. Qed.

(** A stored level reads back from the card: 0.0999996 is stored as
    0.10000 and printed as 0.1000. *)
Example demo_stored_level :
  formatPriceValue (999996 # 10000000) == 1 # 10 /\
  formatTargetPrice (formatPriceValue (999996 # 10000000)) = "0.1000"%string /\
  readDecimal "0.1000" = Some (0 + 1000 # 10000).
Proof. vm_compute. repeat split. Qed.

(** A market cap just below a million prints as a thousand thousands,
    and Bitcoin's, above a trillion, as 1300 billions. *)
Example demo_market :
  formatMarketData numberToString (MNum 999999) = "$1000.00K"%string /\
  formatMarketData numberToString (MNum 1300000000000) = "$1300.00B"%string /\
  formatMarketData numberToString (MNum 0) = "N/A"%string /\
  formatMarketData numberToString (MStr "21M") = "21M"%string /\
  formatMarketData numberToString (MNum 999) = "n"%string.
Proof. vm_compute. repeat split. Qed.

Lemma formatMarketData_mantissa_witness :
  1000 <= 999999 /\
  exists unit suffix q,
    In (unit, suffix) [(1000, "K"); (1000000, "M"); (1000000000, "B")]%string /\
    formatMarketData numberToString (MNum 999999) = ("$" ++ toFixed_str (999999 / unit) 2 ++ suffix)%string /\
    readDecimal (toFixed_str (999999 / unit) 2) = Some q /\
    Qabs (q - 999999 / unit) <= 1 # 200 /\ 1 <= q /\ (unit < 1000000000 -> q <= 1000).
Proof.
  assert (H : 1000 <= 999999) by (vm_compute; discriminate).
  split; [exact H|exact (formatMarketData_mantissa numberToString 999999 H)].
Defined.

(** The first tick of [AppShellExamples] puts a LONG BTCUSDT signal
    with targets 101 to 110 on the board at 100; a second tick at 101.5
    hits the first target and keeps the signal, with its price updated. *)
Definition secondTick : AppState :=
  @app_step unit oneSetup afterTick (TickDone tt 2000 (Some (demoTickers (203 # 2))) (Some (5, 1)%Q)).

Definition reachedSignal : TradingSignal :=
  mkSignal (btcParams 1000) (203 # 2) 1 (Some [true; false; false; false; false]) (Some 5).

Example demo_second_tick : signals (engine secondTick) = [reachedSignal].
Proof. vm_compute. reflexivity. Qed.

(** Its card shows a profit of "+-2.46%" for the first target, with a
    ratio of 0.5 / 6.5. *)
Example demo_reached_card :
  row_texts (nth 1 (metricsRows reachedSignal) (mkRow "" [])) = ["+-2.46%"; "(1:0.1)"]%string /\
  row_texts (nth 0 (metricsRows reachedSignal) (mkRow "" [])) = ["-32.02%"]%string.
Proof. vm_compute. split; reflexivity. Qed.

Lemma passed_target_plus_minus_witness :
  exists profit, profit < 0 /\
    nth_error (metricsRows reachedSignal) 1 =
      Some (mkRow ("Lucro (Alvo " ++ zstring (Z.of_nat 1) ++ ")")
             ["+-" ++ string_of_list_ascii (toFixed_chars (- profit) 2) ++ "%";
              "(1:" ++ toFixed_str (rrRatio profit (lossPercent reachedSignal)) 1 ++ ")"]%string).
Proof.
  apply (passed_target_plus_minus reachedSignal 0 101); [vm_compute; reflexivity|vm_compute; reflexivity|reflexivity|vm_compute; reflexivity].
Defined.

Lemma rrRatio_distance_witness :
  exists profit, nth_error (profitPercents reachedSignal) 0 = Some profit /\
    rrRatio profit (lossPercent reachedSignal) == Qabs (101 - price reachedSignal) / Qabs (price reachedSignal - stopLoss (params reachedSignal)).
Proof.
  apply (rrRatio_distance reachedSignal 0 101); [vm_compute; reflexivity|discriminate|vm_compute; discriminate|reflexivity].
Defined.

Example demo_panels :
  websiteLabel "https://www.bitcoin.org" = "bitcoin.org"%string /\
  websiteLabel "http://ethereum.org" = "ethereum.org"%string /\
  websiteLabel "www.solana.com" = "solana.com"%string /\
  validationPanel (Card.mkCard false false true (Some ""%string) false None None false) = Some ValidationNothing.
Proof. vm_compute. repeat split. Qed.

End CardDisplayExamples.
