(* ===== verification/CardShare.v ===== *)
(** * CardShare: the share button of the signal card ([src/components/SignalCard.tsx])

    [handleShare] builds the text of a signal; with the Web Share API
    ([navigator.share]) it hands the text over, otherwise it writes it
    to the clipboard, sets [shareStatus] to ['copied'] and starts a
    2.5 s timeout that sets it back to ['idle']; a rejected share or
    copy raises an [alert]. The timeout is never cleared, unlike the
    one of the copy blocker ([Timers.Toast]).

    Time is explicit as in [Timers]: a click carries its instant and the
    outcome of the awaited browser call, which settles before any later
    event (its promise resolves in the same task); the timeouts due by
    an event run before it.

    Theorems: the button shows "Copiado!" only within 2.5 s of the last
    successful copy; the converse fails, since the timer of an earlier
    copy resets the button less than 2.5 s after a later one. *)

From stdpp Require Import base list.
From Stdlib Require Import String Ascii QArith ZArith List Lia.
From S2P Require Import Prelude Types Timers.
Import ListNotations.
Open Scope Z_scope.

Module Share.
Import Timeouts.

Definition SHARE_RESET : Z := 2500.

(** [shareStatus]. *)
Inductive ShareStatus := Idle | Copied.

Record ShareState := mkShare {
  shareStatus : ShareStatus;
  pending : Pending;
  nextId : nat;
  clock : Z;
  alerts : nat
}.

Definition initialShare : ShareState := mkShare Idle [] 1 0 0.

(** What the browser offers and how the awaited call ends. *)
Record ShareEnv := mkEnv { hasNavigatorShare : bool; callSucceeds : bool }.

Inductive ShareEvent := ShareClick (env : ShareEnv) (t : Z) | Elapse (t : Z).

Definition event_time (ev : ShareEvent) : Z := match ev with ShareClick _ t | Elapse t => t end.

(** The due timeouts run [setShareStatus('idle')]. *)
Definition advance (t : Z) (st : ShareState) : ShareState :=
  mkShare (if Nat.eqb (List.length (due t (pending st))) 0 then shareStatus st else Idle)
          (not_due t (pending st)) (nextId st) t (alerts st).

Definition raiseAlert (st : ShareState) : ShareState :=
  mkShare (shareStatus st) (pending st) (nextId st) (clock st) (S (alerts st)).

(** [handleShare] after the clock reached the click. *)
Definition handleShare (env : ShareEnv) (st : ShareState) : ShareState :=
  if hasNavigatorShare env then (if callSucceeds env then st else raiseAlert st)
  else if callSucceeds env then
    mkShare Copied (pending st ++ [(nextId st, clock st + SHARE_RESET)]) (S (nextId st)) (clock st) (alerts st)
  else raiseAlert st.

Definition share_step (st : ShareState) (ev : ShareEvent) : ShareState :=
  let st1 := advance (event_time ev) st in
  match ev with ShareClick env _ => handleShare env st1 | Elapse _ => st1 end.

Definition share_run (evs : list ShareEvent) : ShareState := fold_left share_step evs initialShare.

(** The text of [handleShare]: a template literal whose numbers are
    printed by [Number.prototype.toString] (a Section variable); an
    index beyond the list prints [undefined]. *)
Section Content.
Variable numberToString : Q -> string.

Definition nl : string := String (ascii_of_nat 10) EmptyString.

Definition numAt (l : list Q) (i : nat) : string :=
  match nth_error l i with Some v => numberToString v | None => "undefined"%string end.

Definition shareContent (s : TradingSignal) : string :=
  let p := params s in
  ("ALERTA SNIPER A.I." ++ nl ++
   "(" ++ symbol p ++ "/USDT)" ++ nl ++
   "Entrada: " ++ numberToString (fst (entryZone p)) ++ " - " ++ numberToString (snd (entryZone p)) ++ nl ++
   nl ++
   "Alvos:" ++ nl ++
   numAt (takeProfit p) 0 ++ nl ++ numAt (takeProfit p) 1 ++ nl ++ numAt (takeProfit p) 2 ++ nl ++
   numAt (takeProfit p) 3 ++ nl ++ numAt (takeProfit p) 4 ++ nl ++
   nl ++
   "Stop Loss: " ++ numberToString (stopLoss p) ++ nl ++
   "Alavancagem: " ++ numberToString (inject_Z (safeLeverage p)) ++ "x" ++ nl ++
   nl ++
   "bit.ly/GrupoGratuitoTROPA-TOKEN" ++ nl ++
   "+ GRUPO TROPA TOKEN +")%string.

End Content.

(** The label of the button. *)
Definition shareButtonLabel (st : ShareState) : string :=
  match shareStatus st with Copied => "Copiado!" | Idle => "Compartilhar Sinal" end%string.

(** ** Runs *)

Fixpoint times_ordered (from : Z) (evs : list ShareEvent) : Prop :=
  match evs with
  | [] => True
  | ev :: rest => from <= event_time ev /\ times_ordered (event_time ev) rest
  end.

Definition end_time (evs : list ShareEvent) : Z := fold_left (fun _ ev => event_time ev) evs 0.

Definition copied_env : ShareEnv := mkEnv false true.

(** The instant of the last successful copy. *)
Definition lastCopyStep (acc : option Z) (ev : ShareEvent) : option Z :=
  match ev with
  | ShareClick env t => if negb (hasNavigatorShare env) && callSucceeds env then Some t else acc
  | Elapse _ => acc
  end.

(** Every pending timeout is in the future, and a button that shows
    "Copiado!" still has the timeout of the last copy pending. *)
Definition share_inv (st : ShareState) (lc : option Z) : Prop :=
  Forall (fun x => clock st < snd x) (pending st) /\
  (shareStatus st = Copied -> exists id tc, lc = Some tc /\ In (id, tc + SHARE_RESET) (pending st)).

Lemma not_due_later t p : Forall (fun x => t < snd x) (not_due t p).
Proof.
  apply Forall_forall. intros x Hx. unfold not_due in Hx. apply filter_In in Hx as [_ Hx].
  apply negb_true_iff, Z.leb_gt in Hx. exact Hx.
Qed.

Lemma share_advance_inv t st lc : share_inv st lc -> clock st <= t -> share_inv (advance t st) lc.
Proof.
  intros [Hf Hc] Hle. split; [apply not_due_later|]. simpl.
  destruct (Nat.eqb_spec (List.length (due t (pending st))) 0) as [H0|H0]; [|discriminate].
  intros Hs. destruct (Hc Hs) as (id & tc & Hl & Hin). exists id, tc. split; [exact Hl|].
  unfold not_due. apply filter_In. split; [exact Hin|]. apply negb_true_iff, Z.leb_gt.
  destruct (Z.leb_spec (tc + SHARE_RESET) t) as [Hd|Hd]; [|exact Hd]. exfalso.
  apply length_zero_iff_nil in H0. assert (In (id, tc + SHARE_RESET) (due t (pending st))) as Hd'
    by (unfold due; apply filter_In; split; [exact Hin|apply Z.leb_le, Hd]).
  rewrite H0 in Hd'. exact Hd'.
Qed.

Lemma handleShare_inv env st lc : share_inv st lc -> share_inv (handleShare env st) (lastCopyStep lc (ShareClick env (clock st))).
Proof.
  intros [Hf Hc]. unfold handleShare, lastCopyStep.
  destruct (hasNavigatorShare env), (callSucceeds env); simpl; try (split; assumption).
  split.
  - apply Forall_app. split; [exact Hf|]. constructor; [simpl; unfold SHARE_RESET; lia|constructor].
  - intros _. exists (nextId st), (clock st). split; [reflexivity|]. apply in_or_app. right. left. reflexivity.
Qed.

Lemma share_step_inv st lc ev : share_inv st lc -> clock st <= event_time ev ->
  share_inv (share_step st ev) (lastCopyStep lc ev) /\ clock (share_step st ev) = event_time ev.
Proof.
  intros Hi Hle. pose proof (share_advance_inv _ _ _ Hi Hle) as Ha. unfold share_step.
  destruct ev as [env t|t]; simpl in *; [|split; [exact Ha|reflexivity]].
  split; [apply (handleShare_inv env _ lc Ha)|]. unfold handleShare.
  destruct (hasNavigatorShare env), (callSucceeds env); reflexivity.
Qed.

Lemma share_fold_inv evs : forall st lc from,
  share_inv st lc -> clock st = from -> times_ordered from evs ->
  share_inv (fold_left share_step evs st) (fold_left lastCopyStep evs lc) /\
  clock (fold_left share_step evs st) = fold_left (fun _ ev => event_time ev) evs from.
Proof.
  induction evs as [|ev evs IH]; intros st lc from Hi Hc Ho; simpl; [done|].
  destruct Ho as [Hle Ho]. destruct (share_step_inv st lc ev Hi ltac:(lia)) as [Hi' Hc'].
  exact (IH _ _ _ Hi' Hc' Ho).
Qed.

Lemma last_copy_in evs : forall lc tc,
  fold_left lastCopyStep evs lc = Some tc -> In (ShareClick copied_env tc) evs \/ lc = Some tc.
Proof.
  induction evs as [|ev evs IH]; intros lc tc H; simpl in *; [by right|].
  destruct (IH _ _ H) as [Hin | Hl]; [by left; right|].
  destruct ev as [[[] []] t|t]; simpl in Hl; try (by right); injection Hl as ->; by left; left.
Qed.

(** C34: "Copiado!" is shown only within 2.5 s of a successful copy: at the
    end of any run of events ordered in time, a button showing it had a
    clipboard copy less than 2.5 s before the last event. *)
Theorem copied_only_recently evs :
  times_ordered 0 evs -> shareStatus (share_run evs) = Copied ->
  exists tc, In (ShareClick copied_env tc) evs /\ end_time evs < tc + SHARE_RESET.
Proof.
  intros Ho Hs. unfold share_run, end_time.
  assert (Hi0 : share_inv initialShare None) by (split; [constructor|discriminate]).
  destruct (share_fold_inv evs initialShare None 0 Hi0 eq_refl Ho) as [[Hf Hc] Hclk].
  destruct (Hc Hs) as (id & tc & Hl & Hin). exists tc. split.
  - destruct (last_copy_in _ _ _ Hl) as [H|H]; [exact H|discriminate].
  - rewrite <- Hclk. rewrite Forall_forall in Hf. exact (Hf _ Hin).
Qed.

End Share.

(** ** Examples *)

Module ShareExamples.
Import Share.

(** Two copies, at 0 s and at 2 s: the timer of the first resets the
    button at 2.5 s, 0.5 s after the second copy. *)
Definition twoCopies : list ShareEvent := [ShareClick copied_env 0; ShareClick copied_env 2000; Elapse 2600].

Example demo_early_reset :
  shareStatus (share_run [ShareClick copied_env 0; ShareClick copied_env 2000]) = Copied /\
  shareStatus (share_run twoCopies) = Idle /\
  shareStatus (share_run [ShareClick copied_env 2000; Elapse 2600]) = Copied /\
  alerts (share_run [ShareClick (mkEnv false false) 0]) = 1%nat /\
  shareStatus (share_run [ShareClick (mkEnv true true) 0]) = Idle.
Proof. vm_compute. repeat split. Qed.

Lemma copied_only_recently_witness :
  times_ordered 0 [ShareClick copied_env 0; ShareClick copied_env 2000] /\
  shareStatus (share_run [ShareClick copied_env 0; ShareClick copied_env 2000]) = Copied /\
  exists tc, In (ShareClick copied_env tc) [ShareClick copied_env 0; ShareClick copied_env 2000] /\
    end_time [ShareClick copied_env 0; ShareClick copied_env 2000] < tc + SHARE_RESET.
Proof.
  assert (Ho : times_ordered 0 [ShareClick copied_env 0; ShareClick copied_env 2000]) by (simpl; lia).
  assert (Hs : shareStatus (share_run [ShareClick copied_env 0; ShareClick copied_env 2000]) = Copied)
    by (vm_compute; reflexivity).
  split; [exact Ho|]. split; [exact Hs|]. exact (copied_only_recently _ Ho Hs).
Defined.

End ShareExamples.
