(* ===== verification/Widgets.v ===== *)
(** * Widgets: the small display components

    What the remaining components of [src/components/] compute for
    display, beside their markup:

    - [MeterView]: the five bars and the tooltip of [VolatilityMeter.tsx]
      over the level of [UI.Meter];
    - [PieView]: the label of [PieChart.tsx];
    - [NavView]: the two buttons of [BottomNav.tsx], whose clicks are the
      [NavTo] events of [AppShell.app_step];
    - [HeaderView]: the sentiment indicator and the BTC and USDT/BRL
      strips of [Header.tsx] (the popover is in [Timers]);
    - [StatCards]: the summary cards of [HistoryView.tsx] over the
      report of [Report.historyReport].

    Numbers are printed with [CardFormat.toFixed_str] and read back with
    [CardFormat.readDecimal]; [toLocaleString] of [Intl] is a Section
    variable.

    Theorems: the meter lights exactly as many bars as its level, in the
    level's colour; a ticker strip's arrow gives the sign of the change
    and its number the size; the summary cards show the report's closed
    result to the hundredth and its win and loss counts exactly. *)

From Stdlib Require Import String Ascii QArith Qabs Lqa ZArith List Lia.
From S2P Require Import Prelude Types Calendar Formatting UI Report Sentiment.
From S2P Require Import HistoryView AppShell CardDisplay.
Import ListNotations.
Open Scope Q_scope.
Open Scope js_scope.

Definition nl : string := String (ascii_of_nat 10) EmptyString.

(** ** [VolatilityMeter] *)

Module MeterView.
Import Meter CardFormat.

Definition levelColors : list string :=
  ["bg-gray-600"; "bg-cyan-500"; "bg-green-500"; "bg-yellow-400"; "bg-orange-500"; "bg-red-600"]%string.

Definition levelLabels : list string :=
  ["Desconhecido"; "Muito Baixo"; "Baixo"; "Moderado"; "Alto"; "Extremo"]%string.

(** [array[i]]: [undefined] past the end. *)
Definition at_index (l : list string) (i : Z) : string := nth (Z.to_nat i) l "undefined"%string.

Definition formattedVolume (volume : Q) : string :=
  if 1000000000 <? volume then (toFixed_str (volume / 1000000000) 2 ++ "B")%string
  else (toFixed_str (volume / 1000000) 2 ++ "M")%string.

Definition tooltipText (volatility volume : Q) (level : Z) : string :=
  ("Nível de Atividade: " ++ at_index levelLabels level ++ nl ++
   "Volatilidade (24h): " ++ toFixed_str (js_abs volatility) 2 ++ "%" ++ nl ++
   "Volume (24h): $" ++ formattedVolume volume)%string.

(** The colour of bar [index] (from 0): the level's colour up to the
    level, the off colour after it. *)
Definition barColor (level : Z) (index : nat) : string :=
  if (Z.of_nat (index + 1) <=? level)%Z then at_index levelColors level else at_index levelColors 0.

(** The colours of the five bars; nothing without a volume. *)
Definition meterBars (volatility : Q) (volume : option Q) : option (list string) :=
  option_map (fun level => map (barColor level) (seq 0 5)) (finalLevel volatility volume).

Definition meterTooltip (volatility : Q) (volume : option Q) : option string :=
  match volume, finalLevel volatility volume with
  | Some v, Some level => Some (tooltipText volatility v level)
  | _, _ => None
  end.

Lemma bars_of_level level : (1 <= level <= 5)%Z ->
  map (barColor level) (seq 0 5) =
  repeat (at_index levelColors level) (Z.to_nat level) ++ repeat "bg-gray-600"%string (5 - Z.to_nat level).
Proof.
  intros H. assert (level = 1 \/ level = 2 \/ level = 3 \/ level = 4 \/ level = 5)%Z as E by lia.
  destruct E as [->|[->|[->|[->| ->]]]]; reflexivity.
Qed.

(** The meter renders nothing without a volume; with one, exactly as
    many of its five bars as its level (1 to 5) are lit, all in the
    colour of the level, which is not the off colour, and the others
    are off. *)
Theorem meter_bars volatility :
  meterBars volatility None = None /\
  forall v, exists level, (1 <= level <= 5)%Z /\ finalLevel volatility (Some v) = Some level /\
    at_index levelColors level <> "bg-gray-600"%string /\
    meterBars volatility (Some v) =
      Some (repeat (at_index levelColors level) (Z.to_nat level) ++ repeat "bg-gray-600"%string (5 - Z.to_nat level)).
Proof.
  split; [reflexivity|]. intros v.
  destruct (proj1 (finalLevel_spec volatility v)) as (level & E & B). exists level.
  split; [exact B|]. split; [exact E|]. split.
  - assert (level = 1 \/ level = 2 \/ level = 3 \/ level = 4 \/ level = 5)%Z as L by lia.
    destruct L as [->|[->|[->|[->| ->]]]]; discriminate.
  - unfold meterBars. rewrite E. cbn [option_map]. rewrite bars_of_level by exact B. reflexivity.
Qed.

End MeterView.

(** ** [PieChart] *)

Module PieView.
Import Meter CardFormat.

(** The label in the middle of the chart: [N/A] without a closed trade,
    else [`${winPercentage.toFixed(0)}%`]. *)
Definition pieLabel (wins losses : Q) : string :=
  match winPercentage wins losses with
  | None => "N/A"%string
  | Some p => (toFixed_str p 0 ++ "%")%string
  end.

End PieView.

(** ** [BottomNav] *)

Module NavView.
Import AppShell.

Record NavButton := mkNav { nav_label : string; isActive : bool; onClick : AppView }.

Definition same_view (a b : AppView) : bool :=
  match a, b with signals_view, signals_view | history_view, history_view => true | _, _ => false end.

(** The two buttons; each click is [onViewChange(view)], the [NavTo]
    event of the application. *)
Definition bottomNav (currentView : AppView) : list NavButton :=
  [mkNav "Sinais" (same_view currentView signals_view) signals_view;
   mkNav "Histórico" (same_view currentView history_view) history_view]%string.

End NavView.

(** ** [Header] *)

Module HeaderView.
Import CardFormat Sentiment.

Inductive Dot := GreenDot | RedDot | YellowDot.

(** [SentimentIndicator]: the title, the dot and the label. *)
Definition sentimentIndicator (sentiment : MarketSentiment) : string * Dot * string :=
  match sentiment with
  | BULLISH => ("Sentimento do Mercado: Alta", GreenDot, "Mercado Comprador")
  | BEARISH => ("Sentimento do Mercado: Baixa", RedDot, "Mercado Vendedor")
  | NEUTRAL => ("Sentimento do Mercado: Neutro", YellowDot, "Mercado Lateralizado")
  end%string.

Inductive Arrow := Up | Down.

(** The change of a strip: [change >= 0 ? '▲' : '▼'] and
    [`${Math.abs(change).toFixed(2)}%`]. *)
Definition changeText (change : Q) : Arrow * string :=
  (if 0 <=? change then Up else Down, (toFixed_str (js_abs change) 2 ++ "%")%string).

Section Intl.
(** [toLocaleString('en-US', {2 places})] and
    [toLocaleString('pt-BR', {style: 'currency', currency: 'BRL'})]. *)
Variable toLocaleUS2 toLocaleBRL : Q -> string.

(** A strip: the formatted price and the change; nothing while the data
    is [null]. *)
Definition tickerStrip (formatPrice : Q -> string) (data : option (Q * Q)) : option (string * (Arrow * string)) :=
  option_map (fun '(price, change) => (formatPrice price, changeText change)) data.

Definition btcStrip (bitcoinData : option (Q * Q)) := tickerStrip (fun p => ("$" ++ toLocaleUS2 p)%string) bitcoinData.

Definition usdtBrlStrip (usdtBrlData : option (Q * Q)) := tickerStrip toLocaleBRL usdtBrlData.

End Intl.

(** The arrow of a strip points up exactly for a non-negative change,
    and its number reads back as the size of the change to the
    hundredth: a fall of less than 0.005% shows a down arrow and 0.00. *)
Lemma changeText_spec change :
  (fst (changeText change) = Up <-> 0 <= change) /\
  exists q, snd (changeText change) = (toFixed_str (js_abs change) 2 ++ "%")%string /\
    readDecimal (toFixed_str (js_abs change) 2) = Some q /\ Qabs (q - Qabs change) <= 1 # 200.
Proof.
  split.
  - unfold changeText. simpl. qcase (0 <=? change); split; intros; try discriminate; try reflexivity; lra.
  - destruct (readDecimal_toFixed_str (js_abs change) 2 ltac:(discriminate)) as (q & Hr & He).
    exists q. split; [reflexivity|]. split; [exact Hr|]. rewrite <- (js_abs_eq change). exact He.
Qed.

End HeaderView.

(** ** The summary cards of [HistoryView] *)

Module StatCards.
Import Report CardFormat DateInput.

(** [StatCard]: a title, a value, its colour (white by default) and a
    help text shown when it is not empty. *)
Record StatCard := mkStat { stat_title : string; stat_value : string; valueColor : string; helpText : string }.

Definition countText (n : nat) : string := zstring (Z.of_nat n).

(** The four cards beside the pie chart. *)
Definition summaryCards (summary : Summary) : list StatCard :=
  [mkStat "Resultado (Fechado)" (toFixed_str (totalPnl summary) 2 ++ "%")
          (if Qleb 0 (totalPnl summary) then "text-brand-green" else "text-brand-red") "";
   mkStat "Vitórias" (countText (wins summary)) "text-brand-green" "";
   mkStat "Derrotas" (countText (losses summary)) "text-brand-red" "";
   mkStat "Melhor Operação"
          (match bestTrade summary with Some b => symbol (params (hsignal b)) | None => "N/A" end)
          (match bestTrade summary with Some _ => "text-brand-blue" | None => "text-white" end)
          (match bestTrade summary with Some b => toFixed_str (resultPercent b) 2 ++ "%" | None => "" end)]%string.

(** The wins and losses of a report are the counts of the closed
    records of the period. *)
Lemma historyReport_counts now historyFilter customHistoryDate hist :
  let completed := List.filter is_completed (List.filter (inPeriod now historyFilter customHistoryDate) hist) in
  let sm := fst (historyReport now historyFilter customHistoryDate hist) in
  wins sm = List.length (List.filter is_win completed) /\ losses sm = List.length (List.filter is_loss completed).
Proof.
  intros completed sm. subst sm completed. unfold historyReport.
  destruct (List.length (List.filter (inPeriod now historyFilter customHistoryDate) hist) =? 0)%nat eqn:E;
    [|split; reflexivity].
  apply Nat.eqb_eq, length_zero_iff_nil in E. rewrite E. split; reflexivity.
Qed.

(** C26: The summary cards of the history screen show the report truly: the
    closed result reads back to the hundredth as the sum of the results
    of the period's closed trades, in green exactly when it is not
    negative, and the win and loss cards read back as the numbers of
    WIN and LOSS records of the period. *)
Theorem summary_cards_report now historyFilter customHistoryDate hist :
  let completed := List.filter is_completed (List.filter (inPeriod now historyFilter customHistoryDate) hist) in
  exists pnl q c4,
    summaryCards (fst (historyReport now historyFilter customHistoryDate hist)) =
      [mkStat "Resultado (Fechado)" (toFixed_str pnl 2 ++ "%") (if Qleb 0 pnl then "text-brand-green" else "text-brand-red") "";
       mkStat "Vitórias" (countText (List.length (List.filter is_win completed))) "text-brand-green" "";
       mkStat "Derrotas" (countText (List.length (List.filter is_loss completed))) "text-brand-red" ""; c4]%string /\
    pnl == sumQ (map resultPercent completed) /\
    readDecimal (toFixed_str pnl 2) = Some q /\ Qabs (q - pnl) <= 1 # 200 /\
    jsNumber (countText (List.length (List.filter is_win completed))) = Some (Z.of_nat (List.length (List.filter is_win completed))) /\
    jsNumber (countText (List.length (List.filter is_loss completed))) = Some (Z.of_nat (List.length (List.filter is_loss completed))).
Proof.
  intros completed. pose proof (historyReport_summary now historyFilter customHistoryDate hist) as Hs.
  pose proof (historyReport_counts now historyFilter customHistoryDate hist) as [Hw Hl].
  cbv zeta in Hs. fold completed in Hs, Hw, Hl. destruct Hs as (_ & _ & _ & _ & Hp & _).
  set (sm := fst (historyReport now historyFilter customHistoryDate hist)) in *.
  destruct (readDecimal_toFixed_str (totalPnl sm) 2 ltac:(discriminate)) as (q & Hr & He).
  exists (totalPnl sm), q, (nth 3 (summaryCards sm) (mkStat "" "" "" "")). split.
  - unfold summaryCards. rewrite <- Hw, <- Hl. reflexivity.
  - split; [exact Hp|]. split; [exact Hr|]. split; [exact He|]. unfold countText. split; apply jsNumber_zstring.
Qed.

End StatCards.

(** ** [HistoryTable.tsx]

    A table version of the history screen that no module imports; its
    rows and cards are modelled as written. Its day order (by
    [new Date(key).getTime()]) and the time of a row
    ([toLocaleTimeString]) are not. *)

Module TableView.
Import Report CardFormat StatCards.

Inductive ResultBadge := VITORIA | DERROTA.

Record TableRow := mkTableRow {
  row_pair : string; row_direction : SignalDirection; row_leverage : string;
  row_result : string; row_resultColor : string; row_badge : ResultBadge
}.

(** A record's row: [isWin] is [status === WIN] only. *)
Definition tableRow (signal : HistoricalSignal) : TableRow :=
  let p := params (hsignal signal) in
  let isWin := match status signal with WIN => true | _ => false end in
  mkTableRow (symbol p ++ "/" ++ pair p)%string (direction p) (zstring (safeLeverage p) ++ "x")%string
             (toFixed_str (resultPercent signal) 2 ++ "%")%string
             (if isWin then "text-brand-green" else "text-brand-red")%string
             (if isWin then VITORIA else DERROTA).

(** The summary row of a day: its counts, its PnL and whether it was
    profitable. *)
Definition daySummary (g : DayGroup) : string * string * bool :=
  (("Resumo do dia: " ++ countText (day_wins g) ++ " Vitórias / " ++ countText (day_losses g) ++ " Derrotas")%string,
   (toFixed_str (dailyPnl g) 2 ++ "%")%string, Qleb 0 (dailyPnl g)).

(** The four cards of the table. *)
Definition tableCards (summary : Summary) : list StatCard :=
  [mkStat "Resultado Total" (toFixed_str (totalPnl summary) 2 ++ "%")
          (if Qleb 0 (totalPnl summary) then "text-brand-green" else "text-brand-red") "";
   mkStat "Taxa de Acerto" (toFixed_str (winRate summary) 1 ++ "%") "text-white" "";
   mkStat "Total de Operações" (countText (totalTrades summary)) "text-white" "";
   mkStat "Melhor Operação"
          (match bestTrade summary with Some b => symbol (params (hsignal b)) | None => "N/A" end)
          (match bestTrade summary with Some _ => "text-brand-blue" | None => "text-white" end)
          (match bestTrade summary with Some b => toFixed_str (resultPercent b) 2 ++ "%" | None => "" end)]%string.

(** [hasData]: the table, or the message of an empty period. *)
Definition hasData (summary : Summary) : bool := (0 <? totalTrades summary)%nat.

End TableView.

(** ** Examples *)

Module WidgetsExamples.
Import Meter MeterView PieView NavView HeaderView StatCards TableView CardFormat Report.

Example demo_meter :
  meterBars 3 (Some 60000000) = Some ["bg-yellow-400"; "bg-yellow-400"; "bg-yellow-400"; "bg-gray-600"; "bg-gray-600"]%string /\
  meterBars 3 None = None /\
  formattedVolume 60000000 = "60.00M"%string /\ formattedVolume 1500000000 = "1.50B"%string /\
  formattedVolume 500000 = "0.50M"%string.
Proof. vm_compute. repeat split. Qed.

Example demo_pie : pieLabel 2 1 = "67%"%string /\ pieLabel 0 0 = "N/A"%string /\ pieLabel 1 7 = "13%"%string.
Proof. vm_compute. repeat split. Qed.

Example demo_nav :
  map isActive (bottomNav AppShell.history_view) = [false; true] /\
  map onClick (bottomNav AppShell.signals_view) = [AppShell.signals_view; AppShell.history_view].
Proof. split; reflexivity. Qed.

(** A fall of 0.004% shows a down arrow and 0.00%. *)
Example demo_strip :
  changeText (-4 # 1000) = (Down, "0.00%"%string) /\ changeText (25 # 10) = (Up, "2.50%"%string).
Proof. vm_compute. split; reflexivity. Qed.

Lemma meter_bars_witness :
  exists level, (1 <= level <= 5)%Z /\ finalLevel 3 (Some 60000000) = Some level /\
    at_index levelColors level <> "bg-gray-600"%string /\
    meterBars 3 (Some 60000000) =
      Some (repeat (at_index levelColors level) (Z.to_nat level) ++ repeat "bg-gray-600"%string (5 - Z.to_nat level)).
Proof. exact (proj2 (meter_bars 3) 60000000). Defined.

(** The history of [ReportExamples]: a win of 5%, a partial win of 2%
    and a loss of 3%. The summary counts one win and one loss, and the
    unused table would list the partial win as a defeat. *)
Example demo_cards :
  map stat_value (summaryCards (fst ReportExamples.demoReport)) = ["2.00%"; "1"; "1"; "BTC"]%string /\
  row_badge (tableRow ReportExamples.r2) = DERROTA.
Proof. vm_compute. split; reflexivity. Qed.

End WidgetsExamples.
