(* ===== verification/Finality.v ===== *)
(** * Finality: a resolved signal's record stays as the tick wrote it

    When a tick of [fetchSignals] ([src/src/App.tsx]) resolves a signal
    (its fifth target or its stop), it writes a WIN or LOSS record under
    the key [signal.id + signal.timestamp], removes the signal from the
    board and deletes its parameters from the cache
    ([removeSignalFromCache]). A later tick rewrites a record only when
    a board signal carries its key, so the record is final as long as
    no signal with that key comes back: the survivors lost it, and the
    signals [getTradingSignals] adds are created later or come from the
    cache, which lost the entry.

    This holds along runs whose ticks publish their board. It fails in
    two ways the code allows: a tick whose [getTradingSignals] throws
    does not republish the board, and an overlapping tick works on the
    board of an older render ([TickOverlap]); in both cases the resolved
    signal is processed again and its WIN can be overwritten by a
    PARTIAL_WIN ([stale_board_downgrades]). *)

From stdpp Require Import gmap strings list.
From Stdlib Require Import QArith Lqa ZArith.
From S2P Require Import Prelude Types Calendar Ledger Store Lifecycle.
From S2P Require Import LifecycleTheory LifecycleProps Board.

Module Finality.
Import Tick Keys Scan Step Loop BoardSort Run TickFacts TickTheorems.

(** What finality needs from [getTradingSignals] beyond the laws of
    the tick: the cache entries it adds are filed under exchange
    symbols (a key [id + timestamp] under another id could collide). *)
Class ProviderCacheIds (Market : Type) `{SignalProvider Market} := {
  gts_cache_ids : forall mkt now n ex st r st',
    cache_ok (signalParametersCache st) ->
    getTradingSignals mkt now n ex st = (r, st') -> forall k p, signalParametersCache st' !! k = Some p ->
    signalParametersCache st !! k = Some p \/ id_wf k = true
}.

(** The real provider adds entries for the symbols of the exchange's
    USDT tickers only. *)
#[export] Instance boardProviderCacheIds : @ProviderCacheIds Board.ValidMarket Board.boardProvider.
Proof.
  constructor. intros m now n ex st r st' _ E. exact (Board.gts_cache_ids _ _ _ _ _ _ _ E).
Qed.

(** The key of a signal with parameters [p]. *)
Definition params_key (p : CachedSignalParameters) : string := (id p ++ zstring (timestamp p))%string.

Lemma signal_key_params s : signal_key s = params_key (params s).
Proof. reflexivity. Qed.

(** What keeps the record [r] final after the instant [t]: it is in
    the history, its signal was created by [t] under an exchange symbol,
    and neither the board nor the cache holds its key. *)
Definition record_final (t : Z) (r : HistoricalSignal) (e : Engine) : Prop :=
  hist_find (hist_key r) (historicalSignals e) = Some r /\
  id_wf (sig_id (hsignal r)) = true /\ (sig_ts (hsignal r) <= t)%Z /\
  board_wf (signals e) /\ Forall (fun s => hist_key r <> signal_key s) (signals e) /\
  cache_ok (signalParametersCache (store e)) /\
  map_Forall (fun i p => id_wf i = true /\ hist_key r <> params_key p) (signalParametersCache (store e)).

(** ** Keys *)

Lemma key_eq_inj i1 t1 i2 t2 :
  id_wf i1 = true -> id_wf i2 = true -> (i1 ++ zstring t1)%string = (i2 ++ zstring t2)%string ->
  i1 = i2 /\ t1 = t2.
Proof. apply key_inj. Qed.

(** A key made after [t] is not the key of a signal made by [t]. *)
Lemma later_key_ne t r i t' :
  id_wf (sig_id (hsignal r)) = true -> (sig_ts (hsignal r) <= t)%Z -> id_wf i = true -> (t < t')%Z ->
  hist_key r <> (i ++ zstring t')%string.
Proof.
  intros H1 H2 H3 H4 E. unfold hist_key, signal_key in E.
  apply key_eq_inj in E as [_ E]; [lia|exact H1|exact H3].
Qed.

(** ** One iteration that resolves a signal *)

Section Resolve.
Variables (now : Z) (pm : option PriceMap).

Lemma step_resolved s td st :
  ~ aged now s -> pm ≫= lookup (sig_id s) = Some td ->
  resolution (direction (params s)) (pd_price td) (stopLoss (params s))
    (scanTargets (direction (params s)) (pd_price td) (takeProfit (params s)) (default no_hits (tpsHit s))).1
    = Some st ->
  exists r, params (hsignal r) = params s /\ status r = st /\
    forall acc, processSignal now pm acc s =
      (s, set_history (evict acc s) (upsert (signal_key s) r (newHistoricalSignals acc))).
Proof.
  unfold aged. intros Ha Hl Hr.
  destruct (scanTargets (direction (params s)) (pd_price td) (takeProfit (params s))
              (default no_hits (tpsHit s))) as [newT hasNew] eqn:Hs. cbn [fst] in Hr.
  eexists (mkHist (if hasNew then with_tps (with_live s (pd_price td) (pd_change td) (pd_volume td)) newT
                   else with_live s (pd_price td) (pd_change td) (pd_volume td))
                  st (terminalResult (params s) st) now).
  split; [by destruct hasNew|]. split; [done|]. intros acc. unfold processSignal.
  destruct (TWO_HOURS_IN_MS <? now - sig_ts s)%Z eqn:E; [apply Z.ltb_lt in E; lia|].
  rewrite Hl. simpl. rewrite Hs, Hr. unfold upsert. by destruct (find_index _ _).
Qed.

(** A signal retired by its own iteration is on the removal list at the
    end of the loop. *)
Lemma loop_retired sigs s : forall acc sigs' acc',
  processSignals now pm sigs acc = (sigs', acc') -> In s sigs ->
  (forall a, In (sig_id s) (signalsToRemoveFromActive (processSignal now pm a s).2)) ->
  In (sig_id s) (signalsToRemoveFromActive acc').
Proof.
  loop_ind sigs; intros Hin Hret; [done|]. destruct Hin as [<-|Hin]; [|by apply (IH acc1 rest acc2)].
  eapply loop_remove_mono; [exact H2|]. specialize (Hret acc). by rewrite H1 in Hret.
Qed.

End Resolve.

(** ** A resolved signal processed again *)

Lemma last_true_index_aux_some l : forall i acc,
  (acc <> None \/ exists j, nth j l false = true) -> last_true_index_aux l i acc <> None.
Proof.
  induction l as [|b l IH]; intros i acc H; simpl.
  - destruct H as [H|(j & Hj)]; [exact H|destruct j; discriminate].
  - apply IH. destruct b; [left; discriminate|].
    destruct H as [H|([|j] & Hj)]; [by left|discriminate|right; by exists j].
Qed.

Lemma last_true_index_some l j : nth j l false = true -> exists k, last_true_index l = Some k.
Proof.
  intros Hj. unfold last_true_index.
  destruct (last_true_index_aux l 0 None) as [k|] eqn:E; [by exists k|].
  exfalso. apply (last_true_index_aux_some l 0 None); [right; by exists j|exact E].
Qed.

(** [findIndex] finds the record [hist_find] returns. *)
Lemma hist_find_index k l h :
  hist_find k l = Some h -> exists i, find_index (fun x => String.eqb (hist_key x) k) l = Some i /\ l !! i = Some h.
Proof.
  unfold hist_find. induction l as [|x l IH]; simpl; [discriminate|].
  destruct (String.eqb (hist_key x) k); [intros [= ->]; by exists 0%nat|].
  intros Hf. destruct (IH Hf) as (i & -> & Hi). by exists (S i).
Qed.

(** A record whose fifth target is flagged differs from flags without it. *)
Lemma tps_changed_fifth t newT :
  nth 4 (default [] t) false = true -> nth 4 newT false = false -> tps_changed t newT = true.
Proof.
  destruct t as [t|]; simpl; intros H4 H4'; [|discriminate].
  apply negb_true_iff, bool_decide_eq_false. intros ->. congruence.
Qed.

Section Downgrade.
Variables (now : Z) (pm : option PriceMap).

(** A board signal without hit flags, at a price that reaches its first
    target and resolves nothing, over a history holding a record of its
    key whose fifth target is flagged (a WIN): the iteration overwrites
    the record with a PARTIAL_WIN, and keeps the signal. *)
Lemma step_downgrade s td tp1 :
  tpsHit s = None -> ~ aged now s -> pm ≫= lookup (sig_id s) = Some td ->
  takeProfit (params s) !! 0%nat = Some tp1 -> tp_reached (direction (params s)) (pd_price td) tp1 = true ->
  resolution (direction (params s)) (pd_price td) (stopLoss (params s))
    (scanTargets (direction (params s)) (pd_price td) (takeProfit (params s)) no_hits).1 = None ->
  exists r, status r = PARTIAL_WIN /\ hist_key r = signal_key s /\
    forall acc h, hist_find (signal_key s) (newHistoricalSignals acc) = Some h ->
      nth 4 (hits (hsignal h)) false = true ->
      (processSignal now pm acc s).2 = set_history acc (upsert (signal_key s) r (newHistoricalSignals acc)) /\
      params (processSignal now pm acc s).1 = params s.
Proof.
  unfold aged. intros Hn Ha Hl Htp Hreach Hres.
  destruct (scanTargets (direction (params s)) (pd_price td) (takeProfit (params s)) no_hits)
    as [newT hasNew] eqn:Hs. cbn [fst] in Hres.
  assert (H0 : nth 0 newT false = true).
  { change newT with (newT, hasNew).1. rewrite <- Hs. eapply scanTargets_sets; [lia|exact Htp|exact Hreach]. }
  destruct hasNew; [|apply scanTargets_unchanged in Hs; subst newT; discriminate].
  destruct (last_true_index_some _ _ H0) as [k Hk].
  assert (H4 : nth 4 newT false = false) by (unfold resolution in Hres; by destruct (nth 4 newT false)).
  eexists (mkHist (with_tps (with_live s (pd_price td) (pd_change td) (pd_volume td)) newT) PARTIAL_WIN
             (pctMove (direction (params s)) (entryPrice (params s)) (nth k (takeProfit (params s)) 0)) now).
  split; [done|]. split; [done|]. intros acc h Hh Hh4.
  destruct (hist_find_index _ _ _ Hh) as (i & Hi & Hhi).
  unfold processSignal. destruct (TWO_HOURS_IN_MS <? now - sig_ts s)%Z eqn:E; [apply Z.ltb_lt in E; lia|].
  rewrite Hl. cbn [default with_live tpsHit price]. rewrite Hn. cbn [default]. rewrite Hs, Hres, Hk, Hi, Hhi.
  rewrite (tps_changed_fifth _ _ Hh4 H4). cbn [orb]. split; [|done].
  cbn [snd]. f_equal. by rewrite (find_index_replace _ _ _ _ Hi).
Qed.

(** The history at the key of [s] before its iteration is the history
    at the start of the loop. *)
Lemma loop_find_at sigs s h r : forall acc sigs' acc',
  processSignals now pm sigs acc = (sigs', acc') -> In s sigs -> NoDup (map signal_key sigs) ->
  hist_find (signal_key s) (newHistoricalSignals acc) = Some h ->
  (forall a, hist_find (signal_key s) (newHistoricalSignals a) = Some h ->
     hist_find (signal_key s) (newHistoricalSignals (processSignal now pm a s).2) = Some r) ->
  hist_find (signal_key s) (newHistoricalSignals acc') = Some r.
Proof.
  loop_ind sigs; intros Hin Hnd Hh Hrec; [done|]. simpl in Hnd. apply NoDup_cons in Hnd as [Hs0 Hnd].
  destruct Hin as [<-|Hin].
  - rewrite (loop_hist_other _ _ _ _ _ _ _ H2).
    + specialize (Hrec acc Hh). by rewrite H1 in Hrec.
    + apply Forall_forall. intros s' Hs' E. apply Hs0. rewrite E. apply list_elem_of_In, in_map, list_elem_of_In, Hs'.
  - apply (IH acc1 rest acc2); [done|done|done| |done].
    rewrite (step_hist_other _ _ _ _ _ _ _ H1); [exact Hh|].
    intros E. apply Hs0. rewrite <- E. apply list_elem_of_In, in_map, Hin.
Qed.

(** The loop over a well-formed board that still holds [s], from a
    history holding a WIN for its key: the history changes, the record
    becomes a PARTIAL_WIN, and [s] survives the loop. *)
Lemma loop_downgrade sigs s td tp1 h hist removed c newActive acc :
  processSignals now pm sigs (mkAcc hist removed false c) = (newActive, acc) ->
  board_wf sigs -> ~ In (sig_id s) removed -> In s sigs ->
  tpsHit s = None -> ~ aged now s -> pm ≫= lookup (sig_id s) = Some td ->
  takeProfit (params s) !! 0%nat = Some tp1 -> tp_reached (direction (params s)) (pd_price td) tp1 = true ->
  resolution (direction (params s)) (pd_price td) (stopLoss (params s))
    (scanTargets (direction (params s)) (pd_price td) (takeProfit (params s)) no_hits).1 = None ->
  hist_find (signal_key s) hist = Some h -> status h = WIN -> nth 4 (hits (hsignal h)) false = true ->
  historyChanged acc = true /\
  (exists r, hist_find (signal_key s) (newHistoricalSignals acc) = Some r /\ status r = PARTIAL_WIN) /\
  In (sig_id s) (map sig_id (survivors (signalsToRemoveFromActive acc) newActive)).
Proof.
  intros Hp Hwf Hnr Hs Hn Ha Hl Htp Hreach Hres Hh Hw Hh4.
  destruct (step_downgrade _ _ _ Hn Ha Hl Htp Hreach Hres) as (r & Hst & Hkr & Hstep).
  assert (Hfin : hist_find (signal_key s) (newHistoricalSignals acc) = Some r).
  { apply (loop_find_at _ _ _ _ _ _ _ Hp Hs (board_keys_nodup _ Hwf) Hh).
    intros a Ha'. rewrite (proj1 (Hstep a _ Ha' Hh4)). cbn. apply upsert_find_same, Hkr. }
  split.
  { destruct (loop_changed _ _ _ _ _ _ Hp) as [[_ E]|E]; [|exact E].
    exfalso. cbn in E. rewrite E, Hh in Hfin. injection Hfin as <-. rewrite Hw in Hst. discriminate. }
  split; [by exists r|].
  destruct (slot_of_left _ _ _ (loop_slots _ _ _ _ _ _ Hp) Hs) as (s' & Hs' & Hsl).
  apply in_map_iff. exists s'. split; [exact (slot_id _ _ Hsl)|]. apply survivors_in. split; [exact Hs'|].
  rewrite (slot_id _ _ Hsl). intros Hrm.
  destruct (loop_remove_in _ _ _ _ _ _ _ Hp (board_keys_nodup _ Hwf) Hrm) as [Hin|(s2 & Hs2 & Hid & Hwhy)];
    [exact (Hnr Hin)|].
  rewrite (nodup_map_eq _ _ _ _ (proj1 Hwf) Hs2 Hs Hid) in Hwhy.
  destruct Hwhy as [Hag|(r' & Hr' & Ht)]; [exact (Ha Hag)|].
  rewrite Hfin in Hr'. injection Hr' as <-. exact (Ht Hst).
Qed.

End Downgrade.

(** ** What a publishing tick leaves *)

Section Published.
Context {Market : Type} `{SignalProviderLaws Market} `{!ProviderCacheIds Market}.

(** The runs of the interval in which every tick publishes its board
    ([getTradingSignals] does not throw), each after the instant [t]. *)
Inductive published_after (t : Z) : Engine -> Engine -> Prop :=
| published_done e : published_after t e e
| published_step mkt now tks e e1 err e' :
    (t < now)%Z -> fetchSignals mkt now tks e = (e1, Some err) -> published_after t e1 e' ->
    published_after t e e'.


(** A tick that publishes its board: the history is the loop's, every
    board signal is a survivor of the loop or a signal of
    [getTradingSignals] (an exchange symbol, created now or taken from
    the cache the loop left), and every cache entry was left by the loop
    or created now under an exchange symbol. *)
Lemma fetch_published mkt now tks e e1 err :
  cache_ok (signalParametersCache (store e)) -> fetchSignals mkt now tks e = (e1, Some err) ->
  exists newActive acc,
    processSignals now (priceMapOf <$> tks) (signals e) (acc0 e) = (newActive, acc) /\
    historicalSignals e1 = newHistoricalSignals acc /\
    (forall x, In x (signals e1) ->
       In x (survivors (signalsToRemoveFromActive acc) newActive) \/
       (id_wf (sig_id x) = true /\ (sig_ts x = now \/ paramCache acc !! sig_id x = Some (params x)))) /\
    (forall k p, signalParametersCache (store e1) !! k = Some p ->
       paramCache acc !! k = Some p \/ (timestamp p = now /\ id_wf k = true)).
Proof.
  intros Hc E. destruct (fetch_inv _ _ _ _ _ _ E) as (newActive & acc & Hp & Hh & Hcase).
  pose proof (st1_cache_ok _ _ _ _ _ Hp Hc) as Hc1.
  exists newActive, acc. split; [exact Hp|]. split; [rewrite Hh; exact (hist_published _ _ _ _ _ Hp)|].
  destruct Hcase as [(? & _)|(nw & He & _ & Hnw)]; [discriminate|].
  assert (Hg_cache : forall r st', getTradingSignals mkt now (Z.to_nat (BOARD_SIZE - Z.of_nat
             (length (survivors (signalsToRemoveFromActive acc) newActive))))
             (map sig_id (survivors (signalsToRemoveFromActive acc) newActive))
             (set_param_cache (store e) (paramCache acc)) = (r, st') ->
           forall k p, signalParametersCache st' !! k = Some p ->
             paramCache acc !! k = Some p \/ (timestamp p = now /\ id_wf k = true)).
  { intros r st' Hg k p Hk. destruct (gts_cache_from _ _ _ _ _ _ _ Hc1 Hg k p Hk) as [Ho|Ht]; [by left|].
    destruct (gts_cache_ids _ _ _ _ _ _ _ Hc1 Hg k p Hk) as [Ho|Hw]; [by left|by right]. }
  split.
  - intros x Hx. rewrite He, sort_in in Hx. apply in_app_or in Hx as [Hx|Hx]; [by left|right].
    destruct Hnw as [(-> & _)|(_ & _ & Hg)]; [done|].
    split; [exact (gts_ids _ _ _ _ _ _ _ Hc1 Hg x Hx)|exact (gts_origin _ _ _ _ _ _ _ Hc1 Hg x Hx)].
  - destruct Hnw as [(_ & -> & _)|(_ & _ & Hg)]; [intros k p Hk; by left|exact (Hg_cache _ _ Hg)].
Qed.

(** A publishing tick after [t] keeps a final record final. *)
Lemma fetch_record_final t r mkt now tks e e1 err :
  record_final t r e -> (t < now)%Z -> fetchSignals mkt now tks e = (e1, Some err) -> record_final t r e1.
Proof.
  intros (Hh & Hid & Hts & Hwf & Hb & Hc & Hcf) Hlt E.
  destruct (fetch_published _ _ _ _ _ _ Hc E) as (newActive & acc & Hp & Hh1 & Hbd & Hcd).
  assert (Hsub : forall k p, paramCache acc !! k = Some p -> signalParametersCache (store e) !! k = Some p)
    by (intros k p; exact (loop_cache_sub _ _ _ _ _ _ _ _ Hp)).
  split; [|split; [exact Hid|split; [exact Hts|split; [exact (fetch_board_wf _ _ _ _ _ _ Hwf Hc E)|]]]].
  { rewrite Hh1, (loop_hist_other _ _ _ _ _ _ _ Hp Hb). exact Hh. }
  split; [|split; [exact (fetch_cache_ok _ _ _ _ _ _ Hc E)|]].
  - apply List.Forall_forall. intros x Hx.
    destruct (Hbd x Hx) as [Hs|(Hw & [Hn|Hk])].
    + apply survivors_in in Hs as [Hs _].
      destruct (slot_of_right _ _ _ (loop_slots _ _ _ _ _ _ Hp) Hs) as (s0 & Hs0 & [Hpar _]).
      rewrite signal_key_params, Hpar, <- signal_key_params. exact (proj1 (List.Forall_forall _ _) Hb s0 Hs0).
    + unfold signal_key. rewrite Hn. exact (later_key_ne _ _ _ _ Hid Hts Hw Hlt).
    + rewrite signal_key_params. exact (proj2 (Hcf _ _ (Hsub _ _ Hk))).
  - intros k p Hk. destruct (Hcd k p Hk) as [Ho|(Hn & Hw)]; [exact (Hcf _ _ (Hsub _ _ Ho))|].
    split; [exact Hw|]. pose proof (fetch_cache_ok _ _ _ _ _ _ Hc E k p Hk) as Hidp. cbn beta in Hidp.
    unfold params_key. rewrite Hidp, Hn. exact (later_key_ne _ _ _ _ Hid Hts Hw Hlt).
Qed.

Lemma published_record_final t r e e' : published_after t e e' -> record_final t r e -> record_final t r e'.
Proof.
  induction 1 as [e|mkt now tks e e1 err e' Hlt E _ IH]; intros Hf; [exact Hf|].
  apply IH. exact (fetch_record_final _ _ _ _ _ _ _ _ Hf Hlt E).
Qed.

(** The tick that resolves a board signal [s] created before it: its
    record is final after that instant. *)
Lemma resolve_record_final mkt now tks e e1 err s td st :
  board_wf (signals e) -> cache_ok (signalParametersCache (store e)) ->
  map_Forall (fun i _ => id_wf i = true) (signalParametersCache (store e)) ->
  In s (signals e) -> (sig_ts s < now)%Z -> ~ aged now s ->
  (priceMapOf <$> tks) ≫= lookup (sig_id s) = Some td ->
  resolution (direction (params s)) (pd_price td) (stopLoss (params s))
    (scanTargets (direction (params s)) (pd_price td) (takeProfit (params s)) (default no_hits (tpsHit s))).1
    = Some st ->
  fetchSignals mkt now tks e = (e1, Some err) ->
  exists r, params (hsignal r) = params s /\ status r = st /\ record_final now r e1.
Proof.
  intros Hwf Hc Hcw Hs Hts Ha Hl Hr E.
  destruct (step_resolved _ _ _ _ _ Ha Hl Hr) as (r & Hpr & Hst & Hstep).
  destruct (fetch_published _ _ _ _ _ _ Hc E) as (newActive & acc & Hp & Hh1 & Hbd & Hcd).
  assert (Hkey : hist_key r = signal_key s) by exact (hist_key_params _ _ Hpr).
  assert (Hidr : id_wf (sig_id (hsignal r)) = true).
  { unfold sig_id. rewrite Hpr. exact (proj1 (List.Forall_forall _ _) (proj2 Hwf) s Hs). }
  assert (Hrm : In (sig_id s) (signalsToRemoveFromActive acc)).
  { apply (loop_retired _ _ _ _ _ _ _ Hp Hs). intros a. rewrite Hstep. cbn. apply in_or_app. by right; left. }
  assert (Hgone : paramCache acc !! sig_id s = None) by exact (loop_remove_cache _ _ _ _ _ _ _ Hp Hrm (fun H => H)).
  (* a key equal to [s]'s under an exchange symbol is [s]'s id *)
  assert (Hsame : forall i t', id_wf i = true -> hist_key r = (i ++ zstring t')%string -> i = sig_id s /\ t' = sig_ts s).
  { intros i t' Hi Ek. rewrite Hkey in Ek. unfold signal_key in Ek.
    apply key_eq_inj in Ek as [-> ->]; [done|exact (proj1 (List.Forall_forall _ _) (proj2 Hwf) s Hs)|exact Hi]. }
  exists r. split; [exact Hpr|]. split; [exact Hst|].
  split.
  { rewrite Hh1, Hkey. apply (loop_find_after _ _ _ _ _ _ _ _ Hp Hs (board_keys_nodup _ Hwf)).
    intros a. rewrite Hstep. cbn. apply upsert_find_same, Hkey. }
  split; [exact Hidr|]. split; [unfold sig_ts in *; rewrite Hpr; lia|].
  split; [exact (fetch_board_wf _ _ _ _ _ _ Hwf Hc E)|].
  split; [|split; [exact (fetch_cache_ok _ _ _ _ _ _ Hc E)|]].
  - apply List.Forall_forall. intros x Hx Ek. unfold signal_key in Ek.
    destruct (Hbd x Hx) as [Hsv|(Hw & [Hn|Hk])].
    + apply survivors_in in Hsv as [Hsv Hnot].
      destruct (slot_of_right _ _ _ (loop_slots _ _ _ _ _ _ Hp) Hsv) as (s0 & Hs0 & Hsl).
      assert (Hw0 : id_wf (sig_id x) = true).
      { rewrite (slot_id _ _ Hsl). exact (proj1 (List.Forall_forall _ _) (proj2 Hwf) s0 Hs0). }
      destruct (Hsame _ _ Hw0 Ek) as [Hi _]. rewrite Hi in Hnot. exact (Hnot Hrm).
    + destruct (Hsame _ _ Hw Ek) as [_ Ht]. lia.
    + destruct (Hsame _ _ Hw Ek) as [Hi _]. rewrite Hi, Hgone in Hk. discriminate.
  - intros k p Hk. pose proof (fetch_cache_ok _ _ _ _ _ _ Hc E k p Hk) as Hidp. cbn beta in Hidp.
    assert (Hwk : id_wf k = true /\ (paramCache acc !! k = Some p \/ timestamp p = now)).
    { destruct (Hcd k p Hk) as [Ho|(Hn & Hw)]; [|by split; [|right]].
      split; [exact (Hcw _ _ (loop_cache_sub _ _ _ _ _ _ _ _ Hp Ho))|by left]. }
    destruct Hwk as [Hwk Hor]. split; [exact Hwk|]. intros Ek. unfold params_key in Ek. rewrite Hidp in Ek.
    destruct (Hsame _ _ Hwk Ek) as [-> Ht]. destruct Hor as [Ho|Hn]; [rewrite Hgone in Ho; discriminate|lia].
Qed.

(** C23: A WIN or LOSS is final: when a tick resolves a board signal created
    before it (its fifth target or its stop is reached), the record it
    writes stays in the history, unchanged, along every later run of
    ticks that publish their board; the board was well formed and the
    cache filed under exchange symbols. *)
Theorem resolved_record_final mkt now tks e e1 err e' s td st :
  board_wf (signals e) -> cache_ok (signalParametersCache (store e)) ->
  map_Forall (fun i _ => id_wf i = true) (signalParametersCache (store e)) ->
  In s (signals e) -> (sig_ts s < now)%Z -> ~ aged now s ->
  (priceMapOf <$> tks) ≫= lookup (sig_id s) = Some td ->
  resolution (direction (params s)) (pd_price td) (stopLoss (params s))
    (scanTargets (direction (params s)) (pd_price td) (takeProfit (params s)) (default no_hits (tpsHit s))).1
    = Some st ->
  fetchSignals mkt now tks e = (e1, Some err) -> published_after now e1 e' ->
  exists r, params (hsignal r) = params s /\ status r = st /\
    hist_find (signal_key s) (historicalSignals e') = Some r.
Proof.
  intros Hwf Hc Hcw Hs Hts Ha Hl Hr E Hrun.
  destruct (resolve_record_final _ _ _ _ _ _ _ _ _ Hwf Hc Hcw Hs Hts Ha Hl Hr E) as (r & Hpr & Hst & Hf).
  exists r. split; [exact Hpr|]. split; [exact Hst|].
  rewrite <- (hist_key_params _ _ Hpr). exact (proj1 (published_record_final _ _ _ _ Hrun Hf)).
Qed.

End Published.

End Finality.

(** ** Examples *)

Module FinalityExamples.
Import Tick Keys Scan Step LifecycleProps.TickExamples Finality.

#[local] Existing Instance noSetups.
#[local] Existing Instance noSetups_laws.

Lemma noSetups_cache_ids : @ProviderCacheIds unit noSetups.
Proof. constructor. intros mkt now n ex st r st' _ E k p Hk. injection E as _ <-. by left. Qed.

#[local] Existing Instance noSetups_cache_ids.

(** BTCUSDT at 111 at t = 2 s (the fifth target: a WIN), then at 105 at
    t = 7 s. *)
Definition winTick : Engine * option (option TickError) := fetchSignals tt 2000 (Some (demoTickers 111)) demoEngine.
Definition laterTick : Engine * option (option TickError) :=
  fetchSignals tt 7000 (Some (demoTickers 105)) (fst winTick).

Lemma resolved_record_final_witness :
  exists r, params (hsignal r) = params demoSignal /\ status r = WIN /\
    hist_find (signal_key demoSignal) (historicalSignals (fst laterTick)) = Some r.
Proof.
  apply (resolved_record_final tt 2000 (Some (demoTickers 111)) demoEngine (fst winTick) (Some NoActiveSignals) (fst laterTick)
           demoSignal (mkPriceData 111 1 5) WIN).
  - apply demo_board_wf.
  - apply map_Forall_empty.
  - apply map_Forall_empty.
  - left. reflexivity.
  - vm_compute. reflexivity.
  - unfold aged. vm_compute. discriminate.
  - vm_compute. reflexivity.
  - vm_compute. reflexivity.
  - vm_compute. reflexivity.
  - apply (published_step _ tt 7000 (Some (demoTickers 105)) (fst winTick) (fst laterTick) (Some NoActiveSignals));
      [lia|vm_compute; reflexivity|apply published_done].
Defined.

(** The same two ticks when [getTradingSignals] throws in the first:
    the WIN is written but the board is not republished, so the second
    tick finds the signal again and overwrites its WIN with a
    PARTIAL_WIN, the signal still on the board. *)
Definition rejectedWin : Engine * option (option TickError) :=
  @fetchSignals unit rejectAll tt 2000 (Some (demoTickers 111)) demoEngine.
Definition afterRejected : Engine * option (option TickError) :=
  fetchSignals tt 7000 (Some (demoTickers 105)) (fst rejectedWin).

Example demo_rejected_downgrade :
  map (fun h => (hist_key h, status h)) (historicalSignals (fst rejectedWin)) = [(signal_key demoSignal, WIN)] /\
  snd rejectedWin = None /\
  map (fun h => (hist_key h, status h)) (historicalSignals (fst afterRejected)) = [(signal_key demoSignal, PARTIAL_WIN)] /\
  map signal_key (signals (fst afterRejected)) = [signal_key demoSignal].
Proof. vm_compute. repeat split. Qed.

End FinalityExamples.
