(* ===== verification/TickOverlap.v ===== *)
(** * TickOverlap: overlapping runs of [fetchSignals] ([src/src/App.tsx])

    [setInterval(tick, 5000)] calls [savedFetchSignals.current] whether
    or not the previous call has settled. Each call is the closure of
    the render it came from ([useCallback(..., [signals,
    historicalSignals])]): it reads those two cells as they were then.
    The caches of the services (the parameter cache, the exchange
    symbols) are module state, shared by all calls.

    The handler is cut at its awaits into three phases:
    - [Fire]: the interval calls the current closure (its snapshot);
    - [TickersArrive]: [getAllFuturesTickers] (and the USDT/BRL fetch)
      settled; the loop runs on the snapshot, the history is published
      with [setHistoricalSignals] and the parameter cache is written;
    - [SignalsArrive]: [getTradingSignals] settled; the board is
      published with [setSignals].
    [getTradingSignals] is taken to read and write the shared store at
    the instant it settles.

    Theorems: the three phases run back to back are the atomic
    [Tick.fetchSignals] of [Lifecycle], so ticks that never overlap
    give the runs of [LifecycleProps]; whatever the interleaving, the
    board stays well formed and within capacity and the history keeps
    one record per key; but a call fired before an earlier one
    published its board still walks the signal that call resolved, and
    overwrites its WIN with a PARTIAL_WIN whenever its price reaches a
    first target without resolving ([stale_call_downgrades_win]); run
    to the end, two such calls put the signal back on the board
    ([demo_overlap_loses_win]). *)

From stdpp Require Import gmap strings list.
From Stdlib Require Import QArith Lqa ZArith.
From S2P Require Import Prelude Types Calendar Ledger Store Lifecycle.
From S2P Require Import LifecycleTheory LifecycleProps Finality.

Module Overlap.
Import Tick Scan Step Loop BoardSort Run TickFacts Finality.

(** The cells the closure of one render reads. *)
Record Snapshot := mkSnap { snapSignals : list TradingSignal; snapHist : list HistoricalSignal }.

Definition snapshotOf (e : Engine) : Snapshot := mkSnap (signals e) (historicalSignals e).

(** The locals live at [await getTradingSignals]: [now],
    [finalSignals] (the still-active signals) and [connectionHasError]. *)
Record Suspended := mkSusp { susNow : Z; stillActive : list TradingSignal; susConnErr : bool }.

(** One call of the handler: started, suspended at
    [getTradingSignals], or settled. *)
Inductive Flight := Started (s : Snapshot) | Waiting (su : Suspended) | Settled.

(** From the settled ticker request to [await getTradingSignals]: the
    loop walks the snapshot's board and history, the history is
    published when it changed, and the parameter cache of the shared
    store is written. *)
Definition processPhase (now : Z) (tickers : option (list Binance.BinanceTicker)) (snap : Snapshot)
    (e : Engine) : Engine * Suspended :=
  let priceMap := priceMapOf <$> tickers in
  let connectionHasError := bool_decide (tickers = None) in
  let acc0 := mkAcc (snapHist snap) [] false (signalParametersCache (store e)) in
  let '(newActiveSignals, acc) := processSignals now priceMap (snapSignals snap) acc0 in
  let hist' := if historyChanged acc then newHistoricalSignals acc else historicalSignals e in
  let st1 := set_param_cache (store e) (paramCache acc) in
  let stillActiveSignals :=
    List.filter (fun s => negb (existsb (String.eqb (sig_id s)) (signalsToRemoveFromActive acc)))
           newActiveSignals in
  (mkEngine (signals e) hist' st1, mkSusp now stillActiveSignals connectionHasError).

Section Phases.
Context {Market : Type} `{SignalProvider Market}.

(** From [await getTradingSignals] to [setSignals]: a rejected call
    leaves the board as it is. *)
Definition finishPhase (mkt : Market) (su : Suspended) (e : Engine) : Engine * option (option TickError) :=
  let stillActiveSignals := stillActive su in
  let connectionHasError := susConnErr su in
  let neededSignals := (BOARD_SIZE - Z.of_nat (length stillActiveSignals))%Z in
  let '(fetched, st2) :=
    if negb connectionHasError && (0 <? neededSignals)%Z
    then getTradingSignals mkt (susNow su) (Z.to_nat neededSignals) (map sig_id stillActiveSignals) (store e)
    else (Some [], store e) in
  match fetched with
  | None => (mkEngine (signals e) (historicalSignals e) st2, None)
  | Some newSignals =>
      let finalSignals := sortByTimestampDesc (stillActiveSignals ++ newSignals) in
      let err := if connectionHasError then Some ConnectionLost
                 else if (0 <? length finalSignals)%nat then None
                 else Some NoActiveSignals in
      (mkEngine finalSignals (historicalSignals e) st2, Some err)
  end.

End Phases.

(** The app's cells and store, and every call of the handler so far,
    numbered in the order the interval fired them. *)
Record World := mkWorld { engine : Engine; flights : list Flight }.

Inductive TickEvent (Market : Type) :=
| Fire
| TickersArrive (i : nat) (now : Z) (tickers : option (list Binance.BinanceTicker))
| SignalsArrive (i : nat) (mkt : Market).
Arguments Fire {Market}.
Arguments TickersArrive {Market} i now tickers.
Arguments SignalsArrive {Market} i mkt.

Section Interleaving.
Context {Market : Type} `{SignalProvider Market}.

(** One event of an interleaving; an event for a call that is not at
    that phase does nothing. *)
Definition overlap_step (w : World) (ev : TickEvent Market) : World :=
  match ev with
  | Fire => mkWorld (engine w) (flights w ++ [Started (snapshotOf (engine w))])
  | TickersArrive i now tickers =>
      match flights w !! i with
      | Some (Started s) =>
          let '(e', su) := processPhase now tickers s (engine w) in
          mkWorld e' (<[i:=Waiting su]> (flights w))
      | _ => w
      end
  | SignalsArrive i mkt =>
      match flights w !! i with
      | Some (Waiting su) => mkWorld (fst (finishPhase mkt su (engine w))) (<[i:=Settled]> (flights w))
      | _ => w
      end
  end.

Definition overlap_run (evs : list (TickEvent Market)) (w : World) : World := fold_left overlap_step evs w.

(** Ticks that never overlap: the [k]-th call fires, receives its
    tickers and settles before the next one fires. *)
Fixpoint serial_events (k : nat) (ts : list (Market * Z * option (list Binance.BinanceTicker)))
    : list (TickEvent Market) :=
  match ts with
  | [] => []
  | (mkt, now, tk) :: rest => Fire :: TickersArrive k now tk :: SignalsArrive k mkt :: serial_events (S k) rest
  end.

(** The same ticks run by the atomic handler. *)
Definition atomic_run (ts : list (Market * Z * option (list Binance.BinanceTicker))) (e : Engine) : Engine :=
  fold_left (fun e '(mkt, now, tk) => fst (fetchSignals mkt now tk e)) ts e.

End Interleaving.

(** ** Ticks that do not overlap *)

Section Refinement.
Context {Market : Type} `{SignalProvider Market}.

Lemma lookup_last {A} (l : list A) x : (l ++ [x]) !! length l = Some x.
Proof. by apply list_lookup_middle. Qed.

Lemma insert_last {A} (l : list A) x y : <[length l := y]> (l ++ [x]) = l ++ [y].
Proof. rewrite <- (Nat.add_0_r (length l)), insert_app_r. reflexivity. Qed.

(** The two phases of one call, run back to back on the closure of
    the current render, are the atomic handler. *)
Lemma phases_compose mkt now tk e :
  (let '(e1, su) := processPhase now tk (snapshotOf e) e in finishPhase mkt su e1) = fetchSignals mkt now tk e.
Proof.
  unfold processPhase, finishPhase, fetchSignals, snapshotOf. cbn [snapSignals snapHist].
  destruct (processSignals _ _ _ _) as [na acc]. reflexivity.
Qed.

Lemma serial_tick (w : World) mkt now tk :
  overlap_run [Fire; TickersArrive (length (flights w)) now tk; SignalsArrive (length (flights w)) mkt] w =
  mkWorld (fst (fetchSignals mkt now tk (engine w))) (flights w ++ [Settled]).
Proof.
  unfold overlap_run. cbn [fold_left overlap_step engine flights]. rewrite lookup_last.
  rewrite <- phases_compose. destruct (processPhase now tk _ _) as [e1 su]. cbn [engine flights].
  rewrite insert_last, lookup_last, insert_last. reflexivity.
Qed.

Lemma serial_ticks_from ts : forall w,
  engine (overlap_run (serial_events (length (flights w)) ts) w) = atomic_run ts (engine w).
Proof.
  induction ts as [|[[mkt now] tk] ts IH]; intros w; [reflexivity|].
  change (serial_events (length (flights w)) ((mkt, now, tk) :: ts)) with
    ([Fire; TickersArrive (length (flights w)) now tk; SignalsArrive (length (flights w)) mkt] ++
     serial_events (S (length (flights w))) ts).
  unfold overlap_run at 1. rewrite fold_left_app. fold (overlap_run [Fire; TickersArrive (length (flights w)) now tk; SignalsArrive (length (flights w)) mkt] w).
  rewrite serial_tick. replace (S (length (flights w))) with (length (flights w ++ [Settled]))
    by (rewrite length_app; simpl; lia).
  exact (IH (mkWorld _ _)).
Qed.

(** Ticks that never overlap are the atomic ticks: when every call of
    [fetchSignals] settles before the interval fires the next one, the
    board, the history and the store are those of the same ticks run
    by the atomic handler [Tick.fetchSignals], so the theorems of
    [LifecycleProps] and [Finality] apply to them. *)
Lemma serial_ticks_atomic (ts : list (Market * Z * option (list Binance.BinanceTicker))) e :
  engine (overlap_run (serial_events 0 ts) (mkWorld e [])) = atomic_run ts e.
Proof. exact (serial_ticks_from ts (mkWorld e [])). Qed.

End Refinement.

(** ** Any interleaving *)

Section Robust.
Context {Market : Type} `{SignalProviderLaws Market}.

(** The parts of [engine_inv] that no interleaving breaks: a well
    formed board within capacity, one history record per key, a
    parameter cache that files every entry under its own id. *)
Definition engine_ok (e : Engine) : Prop :=
  board_wf (signals e) /\ board_within_capacity (signals e) /\
  history_wf (historicalSignals e) /\ cache_ok (signalParametersCache (store e)).

Lemma engine_ok_mk b h st :
  board_wf b -> board_within_capacity b -> history_wf h -> cache_ok (signalParametersCache st) ->
  engine_ok (mkEngine b h st).
Proof. intros A B C D. exact (conj A (conj B (conj C D))). Qed.

(** What a call holds: the snapshot of a render, or the still-active
    signals it will publish. *)
Definition flight_ok (f : Flight) : Prop :=
  match f with
  | Started s => board_wf (snapSignals s) /\ board_within_capacity (snapSignals s) /\ history_wf (snapHist s)
  | Waiting su => board_wf (stillActive su) /\ board_within_capacity (stillActive su)
  | Settled => True
  end.

Definition overlap_inv (w : World) : Prop := engine_ok (engine w) /\ Forall flight_ok (flights w).

(** The survivors of the loop over a well-formed board. *)
Lemma still_ok now pm sigs acc newActive acc' :
  processSignals now pm sigs acc = (newActive, acc') -> board_wf sigs -> board_within_capacity sigs ->
  board_wf (survivors (signalsToRemoveFromActive acc') newActive) /\
  board_within_capacity (survivors (signalsToRemoveFromActive acc') newActive).
Proof.
  intros Hp [Hn Hf] Hcap. pose proof (loop_slots _ _ _ _ _ _ Hp) as Hsl. split; [split|].
  - apply nodup_map_filter. by rewrite (slots_ids _ _ Hsl).
  - apply List.Forall_forall. intros x Hx. apply survivors_in in Hx as [Hx _].
    destruct (slot_of_right _ _ _ Hsl Hx) as (s0 & Hs0 & Hr). rewrite (slot_id _ _ Hr).
    by apply (proj1 (List.Forall_forall _ _) Hf).
  - unfold board_within_capacity in *. pose proof (length_survivors (signalsToRemoveFromActive acc') newActive).
    apply Forall2_length in Hsl. lia.
Qed.

(** The board published from well-formed survivors and the signals
    [getTradingSignals] returned for the free slots. *)
Lemma fill_ok mkt now still st l st' :
  board_wf still -> board_within_capacity still -> cache_ok (signalParametersCache st) ->
  getTradingSignals mkt now (Z.to_nat (BOARD_SIZE - Z.of_nat (length still))) (map sig_id still) st = (Some l, st') ->
  board_wf (sortByTimestampDesc (still ++ l)) /\ board_within_capacity (sortByTimestampDesc (still ++ l)).
Proof.
  intros [Hn Hf] Hcap Hc Hg. split.
  - eapply board_wf_perm; [symmetry; apply sort_perm|]. split.
    + rewrite map_app. apply NoDup_app. split; [done|]. split; [|exact (gts_nodup _ _ _ _ _ _ _ Hc Hg)].
      intros x Hx Hx'. apply list_elem_of_In, in_map_iff in Hx' as (s' & <- & Hs').
      by apply (gts_exclude _ _ _ _ _ _ _ Hc Hg s' Hs'), list_elem_of_In.
    + apply List.Forall_app. split; [done|]. apply List.Forall_forall. exact (gts_ids _ _ _ _ _ _ _ Hc Hg).
  - unfold board_within_capacity, BOARD_SIZE in *. rewrite length_board_sort, length_app.
    pose proof (gts_length _ _ _ _ _ _ _ Hc Hg). lia.
Qed.

Lemma process_ok now tk s e e' su :
  flight_ok (Started s) -> engine_ok e -> processPhase now tk s e = (e', su) ->
  engine_ok e' /\ flight_ok (Waiting su).
Proof.
  intros (Hw & Hcap & Hsh) (Hb & Hbc & Hh & Hc). unfold processPhase.
  destruct (processSignals _ _ _ _) as [na acc] eqn:Hp. intros E. injection E as <- <-.
  split; [|exact (still_ok _ _ _ _ _ _ Hp Hw Hcap)].
  apply engine_ok_mk; [exact Hb|exact Hbc| |exact (loop_cache_ok _ _ _ _ _ _ Hp Hc)].
  destruct (historyChanged acc); [exact (loop_hist_nodup _ _ _ _ _ _ Hp Hsh)|exact Hh].
Qed.

Lemma finish_ok mkt su e e' r :
  flight_ok (Waiting su) -> engine_ok e -> finishPhase mkt su e = (e', r) -> engine_ok e'.
Proof.
  intros [Hw Hcap] (Hb & Hbc & Hh & Hc). unfold finishPhase.
  destruct (negb (susConnErr su) && _).
  - destruct (getTradingSignals _ _ _ _ _) as [[l|] st'] eqn:Hg; intros E; injection E as <- _;
      pose proof (gts_cache _ _ _ _ _ _ _ Hc Hg) as Hc'.
    + destruct (fill_ok _ _ _ _ _ _ Hw Hcap Hc Hg). by apply engine_ok_mk.
    + by apply engine_ok_mk.
  - intros E. injection E as <- _. rewrite app_nil_r. apply engine_ok_mk; [| |exact Hh|exact Hc].
    + eapply board_wf_perm; [symmetry; apply sort_perm|exact Hw].
    + unfold board_within_capacity. rewrite length_board_sort. exact Hcap.
Qed.

Lemma overlap_step_inv w ev : overlap_inv w -> overlap_inv (overlap_step w ev).
Proof.
  intros [He Hf]. destruct ev as [|i now tk|i mkt]; cbn [overlap_step].
  - split; [exact He|]. apply Forall_app. split; [exact Hf|]. repeat constructor; apply He.
  - destruct (flights w !! i) as [[s|su|]|] eqn:Hi; try (split; assumption).
    assert (Hs : flight_ok (Started s)) by (eapply Forall_lookup_1; eauto).
    destruct (processPhase now tk s (engine w)) as [e' su] eqn:E.
    destruct (process_ok _ _ _ _ _ _ Hs He E) as [He' Hsu].
    split; [exact He'|]. by apply Forall_insert.
  - destruct (flights w !! i) as [[s|su|]|] eqn:Hi; try (split; assumption).
    assert (Hs : flight_ok (Waiting su)) by (eapply Forall_lookup_1; eauto).
    destruct (finishPhase mkt su (engine w)) as [e' r] eqn:E.
    split; [exact (finish_ok _ _ _ _ _ Hs He E)|]. by apply Forall_insert.
Qed.

Lemma overlap_run_inv evs : forall w, overlap_inv w -> overlap_inv (overlap_run evs w).
Proof.
  unfold overlap_run. induction evs as [|ev evs IH]; intros w Hw; [exact Hw|]. apply IH, overlap_step_inv, Hw.
Qed.

(** C24: Whatever the interleaving of the interval's calls, the board stays
    well formed (distinct exchange ids) and within its eight slots, the
    history keeps one record per signal instance and the parameter
    cache stays keyed by id: each call fills only the slots its own
    survivors leave free, and builds its history from a snapshot that
    had one record per key. *)
Theorem interleaved_ticks_wf (evs : list (TickEvent Market)) e :
  engine_ok e -> engine_ok (engine (overlap_run evs (mkWorld e []))).
Proof. intros He. apply (overlap_run_inv evs (mkWorld e [])). split; [exact He|constructor]. Qed.

End Robust.

(** ** Calls working on an older render *)

Section Stale.
Context {Market : Type} `{SignalProvider Market}.

(** C4: A call whose snapshot still holds a signal [s] without hit flags,
    while the history of that render already has a WIN for [s] (written
    by a call that has not published its board yet): when its tickers
    bring a price that reaches the first target of [s] and resolves
    nothing, the call publishes a history in which the WIN of [s] is a
    PARTIAL_WIN, and it keeps [s] among the signals it will publish. *)
Theorem stale_call_downgrades_win (w : World) i S s td tp1 h now tl :
  flights w !! i = Some (Started S) ->
  board_wf (snapSignals S) -> In s (snapSignals S) -> tpsHit s = None -> ~ aged now s ->
  priceMapOf tl !! sig_id s = Some td ->
  takeProfit (params s) !! 0%nat = Some tp1 -> tp_reached (direction (params s)) (pd_price td) tp1 = true ->
  resolution (direction (params s)) (pd_price td) (stopLoss (params s))
    (scanTargets (direction (params s)) (pd_price td) (takeProfit (params s)) no_hits).1 = None ->
  hist_find (signal_key s) (snapHist S) = Some h -> status h = WIN -> nth 4 (hits (hsignal h)) false = true ->
  exists r su,
    hist_find (signal_key s) (historicalSignals (engine (overlap_step w (TickersArrive i now (Some tl))))) = Some r /\
    status r = PARTIAL_WIN /\
    flights (overlap_step w (TickersArrive i now (Some tl))) !! i = Some (Waiting su) /\
    In (sig_id s) (map sig_id (stillActive su)).
Proof.
  intros Hi Hwf Hs Hn Ha Hl Htp Hreach Hres Hh Hw Hh4. cbn [overlap_step]. rewrite Hi. unfold processPhase.
  destruct (processSignals _ _ _ _) as [na acc] eqn:Hp.
  destruct (loop_downgrade _ _ _ _ _ _ _ _ _ _ _ _ Hp Hwf (fun H => H) Hs Hn Ha Hl Htp Hreach Hres Hh Hw Hh4)
    as (Hch & (r & Hr & Hst) & Hin).
  eexists r, _. cbn [engine flights historicalSignals]. rewrite Hch.
  split; [exact Hr|]. split; [exact Hst|].
  split; [apply list_lookup_insert_eq, lookup_lt_is_Some; by rewrite Hi|exact Hin].
Qed.

End Stale.

End Overlap.

(** ** Examples *)

Module OverlapExamples.
Import Tick Scan Step TickFacts TickExamples Overlap.

#[local] Existing Instance noSetups.

(** The interval fires at 0 s and 5 s. The first call receives its
    tickers (BTCUSDT at 111: the fifth target, a WIN) and waits on
    [getTradingSignals]; meanwhile the second call fires with the board
    of the previous render, still holding the signal, and the published
    history; it receives BTCUSDT at 105 and settles after the first. *)
Definition overlapping : list (TickEvent unit) :=
  [Fire; TickersArrive 0 2000%Z (Some (demoTickers 111)); Fire;
   TickersArrive 1 7000%Z (Some (demoTickers 105)); SignalsArrive 0 tt; SignalsArrive 1 tt].

Definition serialTicks : list (unit * Z * option (list Binance.BinanceTicker)) :=
  [(tt, 2000%Z, Some (demoTickers 111)); (tt, 7000%Z, Some (demoTickers 105))].

(** Two overlapping calls of the interval lose a recorded WIN and
    bring the resolved signal back: the second call's snapshot still
    has the signal on its board, so at 105 it marks targets 1 to 4 and
    overwrites the WIN record with a PARTIAL_WIN, and it settles last,
    publishing a board that holds the signal again. Run one after the
    other, the same two ticks record the WIN and leave the board empty. *)
Example demo_overlap_loses_win :
  let w := engine (overlap_run overlapping (mkWorld demoEngine [])) in
  let e := atomic_run serialTicks demoEngine in
  map signal_key (signals w) = [signal_key demoSignal] /\
  map (fun h => (hist_key h, status h)) (historicalSignals w) = [(signal_key demoSignal, PARTIAL_WIN)] /\
  signals e = [] /\
  map (fun h => (hist_key h, status h)) (historicalSignals e) = [(signal_key demoSignal, WIN)].
Proof. vm_compute. repeat split. Qed.

(** The world when the second call receives its tickers: the first call
    has published the WIN and waits on [getTradingSignals]. *)
Definition beforeStale : World := overlap_run [Fire; TickersArrive 0 2000%Z (Some (demoTickers 111)); Fire]
                                    (mkWorld demoEngine []).
Definition staleSnapshot : Snapshot := mkSnap [demoSignal] (historicalSignals (fst winRun)).

Lemma stale_call_downgrades_win_witness :
  exists r su,
    hist_find (signal_key demoSignal)
      (historicalSignals (engine (overlap_step beforeStale (TickersArrive 1 7000 (Some (demoTickers 105)))))) = Some r /\
    status r = PARTIAL_WIN /\
    flights (overlap_step beforeStale (TickersArrive 1 7000 (Some (demoTickers 105)))) !! 1%nat = Some (Waiting su) /\
    In (sig_id demoSignal) (map sig_id (stillActive su)).
Proof.
  destruct (hist_find (signal_key demoSignal) (snapHist staleSnapshot)) as [h|] eqn:Hh;
    [|vm_compute in Hh; discriminate].
  apply (stale_call_downgrades_win beforeStale 1 staleSnapshot demoSignal (mkPriceData 105 1 5) 101 h 7000
           (demoTickers 105)).
  - vm_compute. reflexivity.
  - apply demo_board_wf.
  - left. reflexivity.
  - reflexivity.
  - unfold aged. vm_compute. discriminate.
  - vm_compute. reflexivity.
  - reflexivity.
  - vm_compute. reflexivity.
  - vm_compute. reflexivity.
  - exact Hh.
  - vm_compute in Hh. injection Hh as <-. reflexivity.
  - vm_compute in Hh. injection Hh as <-. reflexivity.
Defined.

#[local] Existing Instance noSetups_laws.

Lemma interleaved_ticks_wf_witness :
  engine_ok demoEngine /\ engine_ok (engine (overlap_run overlapping (mkWorld demoEngine []))).
Proof.
  assert (He : engine_ok demoEngine).
  { apply engine_ok_mk; [apply demo_board_wf| |constructor|apply map_Forall_empty].
    unfold board_within_capacity, BOARD_SIZE. simpl. lia. }
  split; [exact He|]. exact (interleaved_ticks_wf overlapping demoEngine He).
Defined.

End OverlapExamples.
